(** * AcTrBatchedLine: the batched line-geometry engine of the CAD viewer

    A shallow embedding of
    [packages/three-renderer/src/batch/AcTrBatchedLine.ts].

    Conventions of the embedding.
    - JavaScript numbers that hold offsets, counts and handles are [Z];
      the two capacities [_maxVertexCount] / [_maxIndexCount] are [Q],
      because the growth rule multiplies them by 1.5 and they stop being
      integers after the first growth.
    - Vertex components are [Z]: the engine only copies, zero-fills and
      compares them, so the float payload is kept abstract as an ordered
      scalar.  The element type of an attribute array (the batch takes
      the one of the first payload) is not modelled, nor is the
      conversion a store into a typed array performs: a payload
      component stands for a value that the element type of the batch
      array holds exactly, as zero and the integers of the examples
      are.  A bounding sphere is kept exactly, as twice its centre and
      four times its squared radius.
    - A method that can throw returns [Ok s v] or [Throw e s], where [s]
      is the state of the batch at the moment of the return or of the
      throw: what a caller holding the batch sees afterwards.
    - The geometry-info records are shared JavaScript objects held only
      by the region table; a write through such a reference is a write
      to the table slot.
    - Left out: the [needsUpdate] flags and update ranges of the
      buffers, the material, the position kept with the user data of a
      region, and the bounding sphere of the batch as a whole.  The
      box of the batch, [reset] and [copy] are modelled on the object
      in the module [AcTrBatchedLine].  The count of an
      attribute is its array length divided by its item size; the length
      of a new typed array is the requested length rounded down, and 0
      for a negative request, which no non-negative capacity produces. *)

From Stdlib Require Import ZArith List Bool String QArith Qround Lia.
From Stdlib Require Import Permutation Sorted Lqa.
Import ListNotations.
Open Scope Z_scope.

(** ** Typed arrays *)

Module TypedArray.

(** Ascending integers [a, a+1, ..., a+n-1]: the index values of a
    [for (let i = a; i < l; i++)] loop with [n = l - a] rounds. *)
Fixpoint zseq (a : Z) (n : nat) : list Z :=
  match n with
  | O => []
  | S k => a :: zseq (a + 1) k
  end.

(** The index values of [for (let i = a; i < l; i++)]. *)
Definition loop (a l : Z) : list Z := zseq a (Z.to_nat (l - a)).

Definition len (a : list Z) : Z := Z.of_nat (List.length a).

(** [a[i]]; reading outside the array gives [undefined] in JavaScript,
    rendered here as 0. *)
Definition get (a : list Z) (i : Z) : Z :=
  if i <? 0 then 0 else nth (Z.to_nat i) a 0.

Fixpoint set_nat (a : list Z) (n : nat) (v : Z) : list Z :=
  match a, n with
  | [], _ => []
  | _ :: t, O => v :: t
  | h :: t, S k => h :: set_nat t k v
  end.

(** [a[i] = v]; a typed array ignores a write outside its bounds. *)
Definition set (a : list Z) (i : Z) (v : Z) : list Z :=
  if i <? 0 then a else set_nat a (Z.to_nat i) v.

(** A freshly allocated typed array of [n] zeros. *)
Definition zeros (n : Z) : list Z := repeat 0 (Z.to_nat n).

(** Relative index of [copyWithin]: negative counts from the end, and
    the result is clamped to [0, len]. *)
Definition rel (l x : Z) : Z :=
  if x <? 0 then Z.max (l + x) 0 else Z.min x l.

(** [a.copyWithin(target, start, end)]: the elements [start, end) as
    they were before the call land at [target ...], cut at the end of
    the array. *)
Definition copyWithin (a : list Z) (target start end_ : Z) : list Z :=
  let l := len a in
  let to := rel l target in
  let from := rel l start in
  let final := rel l end_ in
  let count := Z.min (final - from) (l - to) in
  fold_left (fun acc k => set acc (to + k) (get a (from + k)))
            (loop 0 count) a.

End TypedArray.

Import TypedArray.

(** ** Vectors, boxes and spheres of the rendering library *)

Record Vector3 := mkVec { vx : Z; vy : Z; vz : Z }.

(** [THREE.Box3]; the empty box is the one [makeEmpty] leaves
    (min = +inf, max = -inf). *)
Inductive Box3 :=
| EmptyBox
| Box (bmin bmax : Vector3).

Definition vmin (p q : Vector3) : Vector3 :=
  mkVec (Z.min (vx p) (vx q)) (Z.min (vy p) (vy q)) (Z.min (vz p) (vz q)).
Definition vmax (p q : Vector3) : Vector3 :=
  mkVec (Z.max (vx p) (vx q)) (Z.max (vy p) (vy q)) (Z.max (vz p) (vz q)).

Definition expandByPoint (b : Box3) (p : Vector3) : Box3 :=
  match b with
  | EmptyBox => Box p p
  | Box lo hi => Box (vmin lo p) (vmax hi p)
  end.

(** [THREE.Sphere], exactly: [center2] is twice the centre and [radiusSq4]
    four times the squared radius. *)
Record Sphere := mkSphere { center2 : Vector3; radiusSq4 : Z }.

(** Twice [box.getCenter()]; the centre of the empty box is the origin. *)
Definition getCenter2 (b : Box3) : Vector3 :=
  match b with
  | EmptyBox => mkVec 0 0 0
  | Box lo hi => mkVec (vx lo + vx hi) (vy lo + vy hi) (vz lo + vz hi)
  end.

Definition sq (x : Z) : Z := x * x.

(** Four times [center.distanceToSquared(p)]. *)
Definition distanceToSquared4 (c2 p : Vector3) : Z :=
  sq (2 * vx p - vx c2) + sq (2 * vy p - vy c2) + sq (2 * vz p - vz c2).

(** ** Buffer attributes and geometries *)

Record BufferAttribute := mkAttr {
  array : list Z;
  itemSize : Z;
  normalized : bool
}.

(** [attribute.count]. *)
Definition count_of (a : BufferAttribute) : Z := len (array a) / itemSize a.

Definition getComponent (a : BufferAttribute) (i c : Z) : Z :=
  get (array a) (i * itemSize a + c).

Definition setComponent (a : BufferAttribute) (i c v : Z) : BufferAttribute :=
  mkAttr (set (array a) (i * itemSize a + c) v) (itemSize a) (normalized a).

(** [vector.fromBufferAttribute(position, i)]. *)
Definition fromBufferAttribute (a : BufferAttribute) (i : Z) : Vector3 :=
  mkVec (getComponent a i 0) (getComponent a i 1) (getComponent a i 2).

(** The element type of the index array: [Uint16Array] or [Uint32Array]. *)
Inductive IndexKind := Uint16 | Uint32.

Definition index_modulus (k : IndexKind) : Z :=
  match k with Uint16 => 65536 | Uint32 => 4294967296 end.

Record IndexAttribute := mkIndex {
  ikind : IndexKind;
  idata : list Z
}.

Definition icount (ix : IndexAttribute) : Z := len (idata ix).
Definition getX (ix : IndexAttribute) (i : Z) : Z := get (idata ix) i.
(** [index.setX(i, v)] stores [v] modulo the element width. *)
Definition setX (ix : IndexAttribute) (i v : Z) : IndexAttribute :=
  mkIndex (ikind ix) (set (idata ix) i (v mod index_modulus (ikind ix))).

Definition Attributes := list (string * BufferAttribute).

Fixpoint lookupAttr (name : string) (attrs : Attributes) : option BufferAttribute :=
  match attrs with
  | [] => None
  | (n, a) :: rest => if String.eqb n name then Some a else lookupAttr name rest
  end.

(** [attributes[name] = a] on an insertion-ordered object. *)
Fixpoint setAttr (name : string) (a : BufferAttribute) (attrs : Attributes) : Attributes :=
  match attrs with
  | [] => [(name, a)]
  | (n, x) :: rest =>
      if String.eqb n name then (n, a) :: rest else (n, x) :: setAttr name a rest
  end.

Record DrawRange := mkRange { rangeStart : Z; rangeCount : option Z }.

(** [THREE.BufferGeometry]: payloads handed to the batch and the batch's
    own shared geometry.  A [rangeCount] of [None] is [Infinity]. *)
Record BufferGeometry := mkGeom {
  attributes : Attributes;
  index : option IndexAttribute;
  gBoundingBox : option Box3;
  gBoundingSphere : option Sphere;
  drawRange : DrawRange
}.

Definition emptyGeometry : BufferGeometry :=
  mkGeom [] None None None (mkRange 0 None).

Definition hasAttribute (g : BufferGeometry) (name : string) : bool :=
  match lookupAttr name (attributes g) with Some _ => true | None => false end.

(** The points of a position attribute, vertex by vertex. *)
Definition pointsOf (a : BufferAttribute) : list Vector3 :=
  map (fromBufferAttribute a) (loop 0 (count_of a)).

Definition boxOfPoints (ps : list Vector3) : Box3 :=
  fold_left expandByPoint ps EmptyBox.

Definition sphereOfPoints (b : Box3) (ps : list Vector3) : Sphere :=
  let c := getCenter2 b in
  mkSphere c (fold_left (fun m p => Z.max m (distanceToSquared4 c p)) ps 0).

(** [geometry.computeBoundingBox()] of the rendering library: the box of
    every vertex of the position attribute, empty without one. *)
Definition computeBoundingBox (g : BufferGeometry) : BufferGeometry :=
  let b := match lookupAttr "position" (attributes g) with
           | Some p => boxOfPoints (pointsOf p)
           | None => EmptyBox
           end in
  mkGeom (attributes g) (index g) (Some b) (gBoundingSphere g) (drawRange g).

(** [geometry.computeBoundingSphere()] of the rendering library: centred
    on the box of the position attribute. *)
Definition computeBoundingSphere (g : BufferGeometry) : BufferGeometry :=
  let s := match lookupAttr "position" (attributes g) with
           | Some p => let ps := pointsOf p in sphereOfPoints (boxOfPoints ps) ps
           | None => mkSphere (mkVec 0 0 0) 0
           end in
  mkGeom (attributes g) (index g) (gBoundingBox g) (Some s) (drawRange g).

(** ** The region table *)

(** One entry of [_geometryInfo] ([AcTrBatchedGeometryInfo]). *)
Record GeometryInfo := mkInfo {
  vertexStart : Z;
  vertexCount : Z;
  reservedVertexCount : Z;
  indexStart : Z;
  indexCount : Z;
  reservedIndexCount : Z;
  start : Z;
  count : Z;
  boundingBox : option Box3;
  boundingSphere : option Sphere;
  active : bool;
  visible : bool;
  objectId : option string;
  bboxIntersectionCheck : bool
}.

Definition with_vertexStart (r : GeometryInfo) (v : Z) : GeometryInfo :=
  mkInfo v (vertexCount r) (reservedVertexCount r) (indexStart r) (indexCount r)
         (reservedIndexCount r) (start r) (count r) (boundingBox r)
         (boundingSphere r) (active r) (visible r) (objectId r)
         (bboxIntersectionCheck r).
Definition with_vertexCount (r : GeometryInfo) (v : Z) : GeometryInfo :=
  mkInfo (vertexStart r) v (reservedVertexCount r) (indexStart r) (indexCount r)
         (reservedIndexCount r) (start r) (count r) (boundingBox r)
         (boundingSphere r) (active r) (visible r) (objectId r)
         (bboxIntersectionCheck r).
Definition with_indexStart (r : GeometryInfo) (v : Z) : GeometryInfo :=
  mkInfo (vertexStart r) (vertexCount r) (reservedVertexCount r) v (indexCount r)
         (reservedIndexCount r) (start r) (count r) (boundingBox r)
         (boundingSphere r) (active r) (visible r) (objectId r)
         (bboxIntersectionCheck r).
Definition with_indexCount (r : GeometryInfo) (v : Z) : GeometryInfo :=
  mkInfo (vertexStart r) (vertexCount r) (reservedVertexCount r) (indexStart r) v
         (reservedIndexCount r) (start r) (count r) (boundingBox r)
         (boundingSphere r) (active r) (visible r) (objectId r)
         (bboxIntersectionCheck r).
Definition with_draw (r : GeometryInfo) (s c : Z) : GeometryInfo :=
  mkInfo (vertexStart r) (vertexCount r) (reservedVertexCount r) (indexStart r)
         (indexCount r) (reservedIndexCount r) s c (boundingBox r)
         (boundingSphere r) (active r) (visible r) (objectId r)
         (bboxIntersectionCheck r).
Definition with_boundingBox (r : GeometryInfo) (v : option Box3) : GeometryInfo :=
  mkInfo (vertexStart r) (vertexCount r) (reservedVertexCount r) (indexStart r)
         (indexCount r) (reservedIndexCount r) (start r) (count r) v
         (boundingSphere r) (active r) (visible r) (objectId r)
         (bboxIntersectionCheck r).
Definition with_boundingSphere (r : GeometryInfo) (v : option Sphere) : GeometryInfo :=
  mkInfo (vertexStart r) (vertexCount r) (reservedVertexCount r) (indexStart r)
         (indexCount r) (reservedIndexCount r) (start r) (count r) (boundingBox r)
         v (active r) (visible r) (objectId r) (bboxIntersectionCheck r).
Definition with_active (r : GeometryInfo) (v : bool) : GeometryInfo :=
  mkInfo (vertexStart r) (vertexCount r) (reservedVertexCount r) (indexStart r)
         (indexCount r) (reservedIndexCount r) (start r) (count r) (boundingBox r)
         (boundingSphere r) v (visible r) (objectId r) (bboxIntersectionCheck r).
Definition with_visible (r : GeometryInfo) (v : bool) : GeometryInfo :=
  mkInfo (vertexStart r) (vertexCount r) (reservedVertexCount r) (indexStart r)
         (indexCount r) (reservedIndexCount r) (start r) (count r) (boundingBox r)
         (boundingSphere r) (active r) v (objectId r) (bboxIntersectionCheck r).
Definition with_userData (r : GeometryInfo) (o : option string) (c : bool) : GeometryInfo :=
  mkInfo (vertexStart r) (vertexCount r) (reservedVertexCount r) (indexStart r)
         (indexCount r) (reservedIndexCount r) (start r) (count r) (boundingBox r)
         (boundingSphere r) (active r) (visible r) o c.

(** The JavaScript array [_geometryInfo]; [None] is a hole. *)
Definition Table := list (option GeometryInfo).

(** [_geometryInfo[i]]: [None] stands for [undefined] (negative index,
    index past the end, or a hole). *)
Definition tlookup (t : Table) (i : Z) : option GeometryInfo :=
  if i <? 0 then None
  else match nth_error t (Z.to_nat i) with
       | Some (Some r) => Some r
       | _ => None
       end.

(** [_geometryInfo[n] = r]: replaces the slot, appends at the end, or
    extends the array with holes when [n] is past the end. *)
Fixpoint tset (t : Table) (n : nat) (r : GeometryInfo) : Table :=
  match n, t with
  | O, [] => [Some r]
  | O, _ :: rest => Some r :: rest
  | S k, [] => None :: tset [] k r
  | S k, h :: rest => h :: tset rest k r
  end.

Definition tlength (t : Table) : Z := Z.of_nat (List.length t).

(** ** Errors and results *)

Inductive Error :=
| IndexMismatch          (* All geometries must consistently have "index". *)
| MissingAttribute (name : string)
                         (* Added geometry missing "name". *)
| LayoutMismatch         (* ... consistent itemSize and normalized value. *)
| ReservedExceedsMaximum (* Reserved space request exceeds the maximum buffer size. *)
| MaximumGeometryCount   (* Maximum geometry count reached. *)
| ReservedNotLargeEnough (* Reserved space not large enough for provided geometry. *)
| InvalidGeometryId (id : Z)
                         (* Invalid geometryId: out of range or deleted. *)
| TypeError              (* the runtime's: a property read on undefined or null *)
| ReferenceError (name : string).
                         (* the runtime's: an identifier bound nowhere in scope *)

(** The three errors of [_validateGeometry]. *)
Definition isSchemaMismatch (e : Error) : bool :=
  match e with
  | IndexMismatch | MissingAttribute _ | LayoutMismatch => true
  | _ => false
  end.

(** ** The batch *)

Record Batch := mkBatch {
  maxVertexCount : Q;
  maxIndexCount : Q;
  geometryInfo : Table;
  availableGeometryIds : list nat;
  nextIndexStart : Z;
  nextVertexStart : Z;
  geometryCount : Z;
  geometryInitialized : bool;
  geometry : BufferGeometry
}.

Inductive Result (A : Type) :=
| Ok (s : Batch) (v : A)
| Throw (e : Error) (s : Batch).

Arguments Ok {A} s v.
Arguments Throw {A} e s.

Definition stateOf {A} (r : Result A) : Batch :=
  match r with Ok s _ => s | Throw _ s => s end.

Definition bind {A B} (r : Result A) (k : Batch -> A -> Result B) : Result B :=
  match r with
  | Ok s v => k s v
  | Throw e s => Throw e s
  end.

Definition with_table (b : Batch) (t : Table) : Batch :=
  mkBatch (maxVertexCount b) (maxIndexCount b) t (availableGeometryIds b)
          (nextIndexStart b) (nextVertexStart b) (geometryCount b)
          (geometryInitialized b) (geometry b).
Definition with_geometry (b : Batch) (g : BufferGeometry) : Batch :=
  mkBatch (maxVertexCount b) (maxIndexCount b) (geometryInfo b)
          (availableGeometryIds b) (nextIndexStart b) (nextVertexStart b)
          (geometryCount b) (geometryInitialized b) g.

(** [new AcTrBatchedLine(maxVertexCount, maxIndexCount)]. *)
Definition newBatch (maxV maxI : Q) : Batch :=
  mkBatch maxV maxI [] [] 0 0 0 false emptyGeometry.

(** The constructor's defaults: 1000 vertices, twice as many indices. *)
Definition newBatchDefault : Batch := newBatch 1000 (1000 * 2)%Q.

(** [unusedVertexCount] and [unusedIndexCount]. *)
Definition unusedVertexCount (b : Batch) : Q :=
  (maxVertexCount b - inject_Z (nextVertexStart b))%Q.
Definition unusedIndexCount (b : Batch) : Q :=
  (maxIndexCount b - inject_Z (nextIndexStart b))%Q.

(** [a < b] and [a > b] on JavaScript numbers. *)
Definition Qltb (a b : Q) : bool := negb (Qle_bool b a).
Definition Qgtb (a b : Q) : bool := Qltb b a.

(** The length a typed-array constructor gives for a non-integral
    request: the integer part. *)
Definition toLength (q : Q) : Z := Z.max 0 (Qfloor q).

(** [_initializeGeometry(reference)]: on first use, one zeroed attribute
    array per attribute of the reference, sized by [_maxVertexCount], and
    an index array when the reference has one. *)
Definition initializeGeometry_into (maxV maxI : Q) (target reference : BufferGeometry)
  : BufferGeometry :=
  let attrs :=
    fold_left
      (fun acc na =>
         let '(name, src) := na in
         setAttr name
           (mkAttr (zeros (toLength (maxV * inject_Z (itemSize src))%Q))
                   (itemSize src) (normalized src))
           acc)
      (attributes reference) (attributes target) in
  let ix :=
    match index reference with
    | Some _ =>
        Some (mkIndex (if Qgtb maxV 65535 then Uint32 else Uint16)
                      (zeros (toLength maxI)))
    | None => index target
    end in
  mkGeom attrs ix (gBoundingBox target) (gBoundingSphere target) (drawRange target).

Definition initializeGeometry (b : Batch) (reference : BufferGeometry) : Batch :=
  if geometryInitialized b then b
  else mkBatch (maxVertexCount b) (maxIndexCount b) (geometryInfo b)
               (availableGeometryIds b) (nextIndexStart b) (nextVertexStart b)
               (geometryCount b) true
               (initializeGeometry_into (maxVertexCount b) (maxIndexCount b)
                                        (geometry b) reference).

Definition isSome {A} (o : option A) : bool :=
  match o with Some _ => true | None => false end.

(** The attribute loop of [_validateGeometry], over the batch's
    attributes. *)
Fixpoint validateAttributes (batchAttrs : Attributes) (g : BufferGeometry)
  : option Error :=
  match batchAttrs with
  | [] => None
  | (name, dst) :: rest =>
      match lookupAttr name (attributes g) with
      | None => Some (MissingAttribute name)
      | Some src =>
          if negb (itemSize src =? itemSize dst)
             || negb (Bool.eqb (normalized src) (normalized dst))
          then Some LayoutMismatch
          else validateAttributes rest g
      end
  end.

(** [_validateGeometry(geometry)]: [Some e] when it throws [e]. *)
Definition validateGeometry (b : Batch) (g : BufferGeometry) : option Error :=
  if negb (Bool.eqb (isSome (index g)) (isSome (index (geometry b))))
  then Some IndexMismatch
  else validateAttributes (attributes (geometry b)) g.

(** ** Helpers imported from AcTrBatchedGeometryInfo.ts *)

(** Modelled from the spec: [copyArrayContents] is imported from
    AcTrBatchedGeometryInfo.ts, which is not among the sources.  The spec
    has growth "reallocating larger arrays and copying existing content":
    the common prefix of [src] is copied over [target]. *)
Definition copyArrayContents (src target : list Z) : list Z :=
  firstn (List.length target) src ++ skipn (List.length src) target.

(** Modelled from the spec: [copyAttributeData] is imported from
    AcTrBatchedGeometryInfo.ts, which is not among the sources.  The spec
    has the insertion copy the payload's vertex data "into the newly
    reserved range": every component of every vertex of [src] is stored
    at the same vertex shifted by [targetOffset]. *)
Definition copyAttributeData (src dst : BufferAttribute) (targetOffset : Z)
  : BufferAttribute :=
  fold_left
    (fun d i =>
       fold_left (fun d' c => setComponent d' (i + targetOffset) c (getComponent src i c))
                 (loop 0 (itemSize dst)) d)
    (loop 0 (count_of src)) dst.

(** Modelled from the spec: [copyAttributeRange] is imported from
    AcTrBatchedGeometryInfo.ts, which is not among the sources.  The spec
    has extraction materialise "a standalone copy of the named regions'
    vertex/index data": [n] vertices of [src] from [srcStart] on are
    stored in [dst] from [dstOffset] on. *)
Definition copyAttributeRange (src dst : BufferAttribute) (dstOffset srcStart n : Z)
  : BufferAttribute :=
  fold_left
    (fun d i =>
       fold_left (fun d' c => setComponent d' (dstOffset + i) c (getComponent src (srcStart + i) c))
                 (loop 0 (itemSize dst)) d)
    (loop 0 n) dst.

(** Modelled from the spec: [ascIdSort] is imported from
    AcTrBatchedGeometryInfo.ts, which is not among the sources.  The spec
    has the reused handle be the lowest available id, "ties broken by
    numeric order": the comparator of an ascending numeric sort. *)
Definition ascIdSort (a b : nat) : Z := Z.of_nat a - Z.of_nat b.

(** [Array.prototype.sort(cmp)]: a stable sort. *)
Fixpoint insertBy {A} (cmp : A -> A -> Z) (x : A) (l : list A) : list A :=
  match l with
  | [] => [x]
  | y :: rest => if cmp x y <=? 0 then x :: y :: rest else y :: insertBy cmp x rest
  end.

Definition sortBy {A} (cmp : A -> A -> Z) (l : list A) : list A :=
  fold_right (insertBy cmp) [] l.

(** ** Growth *)

(** [setGeometrySize(maxVertexCount, maxIndexCount)]: the shared geometry
    is rebuilt at the new sizes and the old arrays are copied into it. *)
Definition setGeometrySize (b : Batch) (maxV maxI : Q) : Batch :=
  let old := geometry b in
  if geometryInitialized b then
    let fresh := initializeGeometry_into maxV maxI emptyGeometry old in
    let ix :=
      match index old, index fresh with
      | Some o, Some n =>
          Some (mkIndex (ikind n)
                  (copyArrayContents
                     (map (fun v => v mod index_modulus (ikind n)) (idata o))
                     (idata n)))
      | _, n => n
      end in
    let attrs :=
      map (fun na : string * BufferAttribute =>
             let '(key, dst) := na in
             match lookupAttr key (attributes old) with
             | Some src =>
                 (key, mkAttr (copyArrayContents (array src) (array dst))
                              (itemSize dst) (normalized dst))
             | None => (key, dst)
             end)
          (attributes fresh) in
    mkBatch maxV maxI (geometryInfo b) (availableGeometryIds b)
            (nextIndexStart b) (nextVertexStart b) (geometryCount b) true
            (mkGeom attrs ix (gBoundingBox fresh) (gBoundingSphere fresh)
                    (drawRange fresh))
  else
    mkBatch maxV maxI (geometryInfo b) (availableGeometryIds b)
            (nextIndexStart b) (nextVertexStart b) (geometryCount b) false old.

(** The capacity after a growth: [(max + count) * 1.5]. *)
Definition grown (maxC : Q) (n : Z) : Q := ((maxC + inject_Z n) * (3 # 2))%Q.

Definition newMaxIndexCount (b : Batch) (g : BufferGeometry) : Q :=
  match index g with
  | Some ix =>
      if Qltb (unusedIndexCount b) (inject_Z (icount ix))
      then grown (maxIndexCount b) (icount ix)
      else maxIndexCount b
  | None => maxIndexCount b
  end.

Definition newMaxVertexCount (b : Batch) (g : BufferGeometry) : Q :=
  match lookupAttr "position" (attributes g) with
  | Some positionAttribute =>
      if Qltb (unusedVertexCount b) (inject_Z (count_of positionAttribute))
      then grown (maxVertexCount b) (count_of positionAttribute)
      else maxVertexCount b
  | None => maxVertexCount b
  end.

(** [_resizeSpaceIfNeeded(geometry)]. *)
Definition resizeSpaceIfNeeded (b : Batch) (g : BufferGeometry) : Batch :=
  if Qgtb (newMaxIndexCount b g) (maxIndexCount b)
     || Qgtb (newMaxVertexCount b g) (maxVertexCount b)
  then setGeometrySize b (newMaxVertexCount b g) (newMaxIndexCount b g)
  else b.

(** ** Writing a region *)

(** The zero fill of [setGeometryAt]: vertices [from, to) of the region
    that starts at [vStart]. *)
Definition zeroFill (dst : BufferAttribute) (vStart from to size : Z) : BufferAttribute :=
  fold_left
    (fun d i => fold_left (fun d' c => setComponent d' (vStart + i) c 0) (loop 0 size) d)
    (loop from to) dst.

(** The attribute loop of [setGeometryAt]. *)
Definition writeAttributes (batchAttrs : Attributes) (g : BufferGeometry)
           (vStart reserved : Z) : Attributes :=
  map (fun na : string * BufferAttribute =>
         let '(name, dst) := na in
         match lookupAttr name (attributes g) with
         | Some src =>
             (name, zeroFill (copyAttributeData src dst vStart)
                             vStart (count_of src) reserved (itemSize src))
         | None => (name, dst)
         end)
      batchAttrs.

(** The index loops of [setGeometryAt]: indices are stored absolute, and
    the padding points at the first vertex of the region. *)
Definition writeIndex (dst src : IndexAttribute) (iStart reserved vStart : Z)
  : IndexAttribute :=
  let d1 := fold_left (fun d i => setX d (iStart + i) (vStart + getX src i))
                      (loop 0 (icount src)) dst in
  fold_left (fun d i => setX d (iStart + i) vStart) (loop (icount src) reserved) d1.

(** [setGeometryAt(geometryId, geometry)]. *)
Definition setGeometryAt (b : Batch) (geometryId : Z) (g : BufferGeometry) : Result Z :=
  if geometryId >=? geometryCount b then Throw MaximumGeometryCount b
  else
    match validateGeometry b g with
    | Some e => Throw e b
    | None =>
        let batchGeometry := geometry b in
        match tlookup (geometryInfo b) geometryId with
        | None => Throw TypeError b
        | Some info =>
            let indexTooLarge :=
              match index batchGeometry, index g with
              | Some _, Some srcIndex => icount srcIndex >? reservedIndexCount info
              | _, _ => false
              end in
            if indexTooLarge then Throw ReservedNotLargeEnough b
            else
              match lookupAttr "position" (attributes g) with
              | None => Throw TypeError b
              | Some position =>
                  if count_of position >? reservedVertexCount info
                  then Throw ReservedNotLargeEnough b
                  else
                    let info1 := with_vertexCount info (count_of position) in
                    let attrs := writeAttributes (attributes batchGeometry) g
                                   (vertexStart info) (reservedVertexCount info) in
                    let '(ix, info2) :=
                      match index batchGeometry, index g with
                      | Some dstIndex, Some srcIndex =>
                          (Some (writeIndex dstIndex srcIndex (indexStart info)
                                   (reservedIndexCount info) (vertexStart info)),
                           with_indexCount info1 (icount srcIndex))
                      | other, _ => (other, info1)
                      end in
                    let hasIndex := isSome (index batchGeometry) in
                    let info3 :=
                      with_draw info2
                        (if hasIndex then indexStart info2 else vertexStart info2)
                        (if hasIndex then indexCount info2 else vertexCount info2) in
                    let info4 :=
                      with_boundingSphere (with_boundingBox info3 (gBoundingBox g))
                                          (gBoundingSphere g) in
                    Ok (mkBatch (maxVertexCount b) (maxIndexCount b)
                          (tset (geometryInfo b) (Z.to_nat geometryId) info4)
                          (availableGeometryIds b) (nextIndexStart b)
                          (nextVertexStart b) (geometryCount b)
                          (geometryInitialized b)
                          (mkGeom attrs ix (gBoundingBox batchGeometry)
                                  (gBoundingSphere batchGeometry)
                                  (drawRange batchGeometry)))
                       geometryId
              end
        end
    end.

(** ** Insertion and deletion *)

(** The handle step of [addGeometry]: the lowest id of the free list, or
    a new slot at the end. *)
Definition allocateId (b : Batch) (info : GeometryInfo) : Batch * Z :=
  match sortBy ascIdSort (availableGeometryIds b) with
  | geometryId :: rest =>
      (mkBatch (maxVertexCount b) (maxIndexCount b)
         (tset (geometryInfo b) geometryId info) rest
         (nextIndexStart b) (nextVertexStart b) (geometryCount b)
         (geometryInitialized b) (geometry b),
       Z.of_nat geometryId)
  | [] =>
      (mkBatch (maxVertexCount b) (maxIndexCount b)
         (geometryInfo b ++ [Some info]) []
         (nextIndexStart b) (nextVertexStart b) (geometryCount b + 1)
         (geometryInitialized b) (geometry b),
       geometryCount b)
  end.

(** The payload after [computeBoundingBox] / [computeBoundingSphere]
    have filled in bounds it did not carry. *)
Definition withBounds (g0 : BufferGeometry) : BufferGeometry :=
  let g1 := if isSome (gBoundingBox g0) then g0 else computeBoundingBox g0 in
  if isSome (gBoundingSphere g1) then g1 else computeBoundingSphere g1.

(** The [geometryInfo] record [addGeometry] builds: the region starts at
    the tail cursors; a reserved count of -1 means the payload's own
    count.  [None] is the [TypeError] of a payload without a position
    attribute. *)
Definition newRegion (b : Batch) (g : BufferGeometry)
           (reservedVertexCount' reservedIndexCount' : Z) : option GeometryInfo :=
  let reservedVertex :=
    if reservedVertexCount' =? -1
    then option_map count_of (lookupAttr "position" (attributes g))
    else Some reservedVertexCount' in
  match reservedVertex with
  | None => None
  | Some rv =>
      let '(iStart, ri) :=
        match index g with
        | Some ix =>
            (nextIndexStart b,
             if reservedIndexCount' =? -1 then icount ix else reservedIndexCount')
        | None => (-1, -1)
        end in
      Some (mkInfo (nextVertexStart b) (-1) rv iStart (-1) ri (-1) (-1)
                   (gBoundingBox g) (gBoundingSphere g) true true None false)
  end.

(** The guard "Reserved space request exceeds the maximum buffer size". *)
Definition exceedsMaximum (b : Batch) (info : GeometryInfo) : bool :=
  (negb (indexStart info =? -1)
   && Qgtb (inject_Z (indexStart info + reservedIndexCount info)) (maxIndexCount b))
  || Qgtb (inject_Z (vertexStart info + reservedVertexCount info)) (maxVertexCount b).

(** The cursor update that ends [addGeometry]. *)
Definition advanceCursors (b : Batch) (info : GeometryInfo) : Batch :=
  mkBatch (maxVertexCount b) (maxIndexCount b) (geometryInfo b)
          (availableGeometryIds b)
          (indexStart info + reservedIndexCount info)
          (vertexStart info + reservedVertexCount info)
          (geometryCount b) (geometryInitialized b) (geometry b).

(** [addGeometry] from the validation on, once [_initializeGeometry] has
    run. *)
Definition addInitialized (b1 : Batch) (g0 : BufferGeometry)
           (reservedVertexCount' reservedIndexCount' : Z) : Result Z :=
  match validateGeometry b1 g0 with
  | Some e => Throw e b1
  | None =>
      let g := withBounds g0 in
      let b2 := resizeSpaceIfNeeded b1 g in
      match newRegion b2 g reservedVertexCount' reservedIndexCount' with
      | None => Throw TypeError b2
      | Some info =>
          if exceedsMaximum b2 info then Throw ReservedExceedsMaximum b2
          else
            let '(b3, geometryId) := allocateId b2 info in
            bind (setGeometryAt b3 geometryId g)
                 (fun b4 _ => Ok (advanceCursors b4 info) geometryId)
      end
  end.

(** [addGeometry(geometry, reservedVertexCount = -1, reservedIndexCount = -1)]. *)
Definition addGeometry (b : Batch) (g0 : BufferGeometry)
           (reservedVertexCount' reservedIndexCount' : Z) : Result Z :=
  addInitialized (initializeGeometry b g0) g0 reservedVertexCount' reservedIndexCount'.

(** [deleteGeometry(geometryId)]. *)
Definition deleteGeometry (b : Batch) (geometryId : Z) : Result unit :=
  if geometryId >=? tlength (geometryInfo b) then Ok b tt
  else
    match tlookup (geometryInfo b) geometryId with
    | None => Throw TypeError b
    | Some info =>
        if negb (active info) then Ok b tt
        else
          Ok (mkBatch (maxVertexCount b) (maxIndexCount b)
                (tset (geometryInfo b) (Z.to_nat geometryId)
                      (with_visible (with_active info false) false))
                (availableGeometryIds b ++ [Z.to_nat geometryId])
                (nextIndexStart b) (nextVertexStart b) (geometryCount b)
                (geometryInitialized b) (geometry b))
             tt
    end.

(** ** Compaction *)

(** The loop state of [optimize]: the attribute arrays, the index array,
    the region table and the two packing cursors. *)
Record Packing := mkPacking {
  pAttributes : Attributes;
  pIndex : option IndexAttribute;
  pTable : Table;
  pNextVertexStart : Z;
  pNextIndexStart : Z
}.

(** The active slots of the table with their handles:
    [.map((info, i) => ({ info, i })).filter(e => e.info.active)]. *)
Fixpoint activeEntries (t : Table) (i : nat) : list (nat * GeometryInfo) :=
  match t with
  | [] => []
  | Some info :: rest =>
      if active info then (i, info) :: activeEntries rest (S i)
      else activeEntries rest (S i)
  | None :: rest => activeEntries rest (S i)
  end.

Definition byVertexStart (a b : nat * GeometryInfo) : Z :=
  vertexStart (snd a) - vertexStart (snd b).

(** The vertex move: every attribute array shifts the region's used
    vertices down to the packing cursor. *)
Definition moveVertices (attrs : Attributes) (target from n : Z) : Attributes :=
  map (fun na : string * BufferAttribute =>
         let '(key, attr) := na in
         (key, mkAttr (copyWithin (array attr)
                         (target * itemSize attr)
                         (from * itemSize attr)
                         ((from + n) * itemSize attr))
                      (itemSize attr) (normalized attr)))
      attrs.

(** The remap loop: [indexArray[i] += delta] over the region's indices. *)
Definition remapIndices (ix : IndexAttribute) (from n delta : Z) : IndexAttribute :=
  fold_left (fun d i => setX d i (getX d i + delta)) (loop from (from + n)) ix.

(** One round of the packing loop of [optimize], for the region behind
    handle [i].  The region's [vertexStart] is overwritten by the vertex
    move before the index move reads it to form [delta]. *)
Definition packRegion (hasIndex : bool) (st : Packing) (e : nat * GeometryInfo)
  : Packing :=
  let '(i, info) := e in
  let nextV := pNextVertexStart st in
  let nextI := pNextIndexStart st in
  let vCount := vertexCount info in
  let iCount := if hasIndex then indexCount info else 0 in
  (* move vertices *)
  let '(attrs, info1) :=
    if negb (vertexStart info =? nextV)
    then (moveVertices (pAttributes st) nextV (vertexStart info) vCount,
          with_vertexStart info nextV)
    else (pAttributes st, info) in
  (* move indices *)
  let '(ix, info2) :=
    match hasIndex, pIndex st with
    | true, Some indexAttr =>
        if negb (indexStart info1 =? nextI)
        then
          let delta := nextV - vertexStart info1 in
          let remapped := remapIndices indexAttr (indexStart info1) iCount delta in
          (Some (mkIndex (ikind remapped)
                   (copyWithin (idata remapped) nextI (indexStart info1)
                               (indexStart info1 + iCount))),
           with_indexStart info1 nextI)
        else (Some indexAttr, info1)
    | _, other => (other, info1)
    end in
  (* update draw info *)
  let info3 :=
    with_draw info2
      (if hasIndex then indexStart info2 else vertexStart info2)
      (if hasIndex then iCount else vCount) in
  mkPacking attrs ix (tset (pTable st) i info3) (nextV + vCount) (nextI + iCount).

(** The trailing clear of [optimize]: zeros from the index cursor to the
    end of the index array. *)
Definition clearTrailingIndices (ix : IndexAttribute) (from : Z) : IndexAttribute :=
  mkIndex (ikind ix)
          (fold_left (fun a i => set a i 0) (loop from (len (idata ix))) (idata ix)).

(** The packing order of [optimize]: active regions by ascending current
    [vertexStart]. *)
Definition packingOrder (b : Batch) : list (nat * GeometryInfo) :=
  sortBy byVertexStart (activeEntries (geometryInfo b) 0).

Definition packAll (b : Batch) : Packing :=
  fold_left (packRegion (isSome (index (geometry b))))
            (packingOrder b)
            (mkPacking (attributes (geometry b)) (index (geometry b))
                       (geometryInfo b) 0 0).

(** [optimize()]. *)
Definition optimize (b : Batch) : Batch :=
  let hasIndex := isSome (index (geometry b)) in
  let st := packAll b in
  let ix := option_map (fun a => clearTrailingIndices a (pNextIndexStart st)) (pIndex st) in
  mkBatch (maxVertexCount b) (maxIndexCount b) (pTable st)
          (availableGeometryIds b) (pNextIndexStart st) (pNextVertexStart st)
          (geometryCount b) (geometryInitialized b)
          (mkGeom (pAttributes st) ix (gBoundingBox (geometry b))
                  (gBoundingSphere (geometry b))
                  (mkRange 0 (Some (if hasIndex then pNextIndexStart st
                                    else pNextVertexStart st)))).

(** ** Accessors *)

(** [validateGeometryId(geometryId)]. *)
Definition validateGeometryId (b : Batch) (geometryId : Z) : Result unit :=
  if (geometryId <? 0) || (geometryId >=? tlength (geometryInfo b))
  then Throw (InvalidGeometryId geometryId) b
  else
    match tlookup (geometryInfo b) geometryId with
    | None => Throw TypeError b
    | Some info =>
        if negb (active info) then Throw (InvalidGeometryId geometryId) b
        else Ok b tt
    end.

(** The vertex a draw-range position [i] denotes: through the index
    array when the batch has one. *)
Definition vertexAt (g : BufferGeometry) (i : Z) : Z :=
  match index g with
  | Some ix => getX ix i
  | None => i
  end.

(** The points of the draw range [start, start + count) of a region. *)
Definition regionPoints (g : BufferGeometry) (position : BufferAttribute)
           (info : GeometryInfo) : list Vector3 :=
  map (fun i => fromBufferAttribute position (vertexAt g i))
      (loop (start info) (start info + count info)).

(** [getBoundingBoxAt(geometryId, target)]: [None] is the [null] result;
    a box computed on demand is cached in the region. *)
Definition getBoundingBoxAt (b : Batch) (geometryId : Z) : Result (option Box3) :=
  if geometryId >=? geometryCount b then Ok b None
  else
    match tlookup (geometryInfo b) geometryId with
    | None => Throw TypeError b
    | Some info =>
        match boundingBox info with
        | Some box => Ok b (Some box)
        | None =>
            match lookupAttr "position" (attributes (geometry b)) with
            | Some position =>
                let box := boxOfPoints (regionPoints (geometry b) position info) in
                Ok (with_table b (tset (geometryInfo b) (Z.to_nat geometryId)
                                       (with_boundingBox info (Some box))))
                   (Some box)
            | None =>
                match loop (start info) (start info + count info) with
                | [] =>
                    Ok (with_table b (tset (geometryInfo b) (Z.to_nat geometryId)
                                           (with_boundingBox info (Some EmptyBox))))
                       (Some EmptyBox)
                | _ => Throw TypeError b
                end
            end
        end
    end.

(** [getBoundingSphereAt(geometryId, target)]. *)
Definition getBoundingSphereAt (b : Batch) (geometryId : Z) : Result (option Sphere) :=
  if geometryId >=? geometryCount b then Ok b None
  else
    match tlookup (geometryInfo b) geometryId with
    | None => Throw TypeError b
    | Some info =>
        match boundingSphere info with
        | Some s => Ok b (Some s)
        | None =>
            bind (getBoundingBoxAt b geometryId)
              (fun b1 obox =>
                 let box := match obox with Some x => x | None => EmptyBox end in
                 match tlookup (geometryInfo b1) geometryId with
                 | None => Throw TypeError b1
                 | Some info1 =>
                     match lookupAttr "position" (attributes (geometry b1)) with
                     | Some position =>
                         let s := sphereOfPoints box
                                    (regionPoints (geometry b1) position info1) in
                         Ok (with_table b1
                               (tset (geometryInfo b1) (Z.to_nat geometryId)
                                     (with_boundingSphere info1 (Some s))))
                            (Some s)
                     | None =>
                         match loop (start info1) (start info1 + count info1) with
                         | [] =>
                             let s := sphereOfPoints box [] in
                             Ok (with_table b1
                                   (tset (geometryInfo b1) (Z.to_nat geometryId)
                                         (with_boundingSphere info1 (Some s))))
                                (Some s)
                         | _ => Throw TypeError b1
                         end
                     end
                 end)
        end
    end.

(** [setVisibleAt(geometryId, value)]. *)
Definition setVisibleAt (b : Batch) (geometryId : Z) (value : bool) : Result unit :=
  bind (validateGeometryId b geometryId)
    (fun b1 _ =>
       match tlookup (geometryInfo b1) geometryId with
       | None => Throw TypeError b1
       | Some info =>
           if Bool.eqb (visible info) value then Ok b1 tt
           else Ok (with_table b1 (tset (geometryInfo b1) (Z.to_nat geometryId)
                                        (with_visible info value)))
                   tt
       end).

(** [getVisibleAt(geometryId)]. *)
Definition getVisibleAt (b : Batch) (geometryId : Z) : Result bool :=
  bind (validateGeometryId b geometryId)
    (fun b1 _ =>
       match tlookup (geometryInfo b1) geometryId with
       | None => Throw TypeError b1
       | Some info => Ok b1 (visible info)
       end).

(** [getGeometryAt(geometryId)]. *)
Definition getGeometryAt (b : Batch) (geometryId : Z) : Result GeometryInfo :=
  bind (validateGeometryId b geometryId)
    (fun b1 _ =>
       match tlookup (geometryInfo b1) geometryId with
       | None => Throw TypeError b1
       | Some info => Ok b1 info
       end).

(** [setGeometryInfo(geometryId, userData)], for the entity id and the
    box-only intersection flag.  The source also copies
    [userData.position] into the record when the caller gives one; the
    record of the embedding has no position (see the conventions at the
    head of the file), so that write is not part of it. *)
Definition setGeometryInfo (b : Batch) (geometryId : Z) (oid : option string)
           (bboxCheck : bool) : Result unit :=
  if geometryId >=? geometryCount b then Throw MaximumGeometryCount b
  else
    match tlookup (geometryInfo b) geometryId with
    | None => Throw TypeError b
    | Some info =>
        Ok (with_table b (tset (geometryInfo b) (Z.to_nat geometryId)
                               (with_userData info oid bboxCheck)))
           tt
    end.

(** ** Extraction *)

(** The first loop of [extractGeometry]: every handle goes through
    [getGeometryAt]; the totals are summed. *)
Fixpoint extractTotals (b : Batch) (batchIds : list Z) (totalV totalI : Z)
  : Result (Z * Z) :=
  match batchIds with
  | [] => Ok b (totalV, totalI)
  | id :: rest =>
      bind (getGeometryAt b id)
        (fun b1 info =>
           extractTotals b1 rest (totalV + vertexCount info)
             (if isSome (index (geometry b)) then totalI + indexCount info
              else totalI))
  end.

(** The numeric identifiers that are bound where [extractGeometry]
    allocates its destination arrays: the two totals.  Neither the method
    nor the module binds any other numeric name. *)
Definition extractScope (totalV totalI : Z) : list (string * Z) :=
  [("totalVertexCount"%string, totalV); ("totalIndexCount"%string, totalI)].

Fixpoint resolve (name : string) (scope : list (string * Z)) : option Z :=
  match scope with
  | [] => None
  | (n, v) :: rest => if String.eqb n name then Some v else resolve name rest
  end.

(** The allocation loop of [extractGeometry]: each destination array is
    sized by the identifier [maxVertexCount] times the item size. *)
Fixpoint extractAllocate (scope : list (string * Z)) (srcAttrs acc : Attributes)
  : Error + Attributes :=
  match srcAttrs with
  | [] => inr acc
  | (name, srcAttribute) :: rest =>
      match resolve "maxVertexCount" scope with
      | None => inl (ReferenceError "maxVertexCount")
      | Some n =>
          extractAllocate scope rest
            (setAttr name
               (mkAttr (zeros (n * itemSize srcAttribute))
                       (itemSize srcAttribute) (normalized srcAttribute))
               acc)
      end
  end.

(** The copy loop of [extractGeometry]. *)
Fixpoint extractCopy (b : Batch) (batchIds : list Z) (dstAttrs : Attributes)
         (dstIndex : option IndexAttribute) (vOffset iOffset : Z)
  : Result (Attributes * option IndexAttribute) :=
  match batchIds with
  | [] => Ok b (dstAttrs, dstIndex)
  | id :: rest =>
      bind (getGeometryAt b id)
        (fun b1 info =>
           let attrs :=
             map (fun na : string * BufferAttribute =>
                    let '(name, dstAttr) := na in
                    match lookupAttr name (attributes (geometry b)) with
                    | Some srcAttr =>
                        (name, copyAttributeRange srcAttr dstAttr vOffset
                                 (vertexStart info) (vertexCount info))
                    | None => (name, dstAttr)
                    end)
                 dstAttrs in
           let ix :=
             match index (geometry b), dstIndex with
             | Some srcIndex, Some d =>
                 Some (fold_left
                         (fun d' i =>
                            setX d' (iOffset + i)
                              (getX srcIndex (indexStart info + i)
                               - vertexStart info + vOffset))
                         (loop 0 (indexCount info)) d)
             | _, other => other
             end in
           extractCopy b1 rest attrs ix (vOffset + vertexCount info)
                       (iOffset + indexCount info))
  end.

(** [extractGeometry(batchIds)]. *)
Definition extractGeometry (b : Batch) (batchIds : list Z) : Result BufferGeometry :=
  bind (extractTotals b batchIds 0 0)
    (fun b1 totals =>
       let '(totalV, totalI) := totals in
       match extractAllocate (extractScope totalV totalI)
                             (attributes (geometry b1)) [] with
       | inl e => Throw e b1
       | inr dstAttrs =>
           let dstIndex :=
             match index (geometry b1) with
             | Some _ =>
                 Some (mkIndex (if totalV >? 65535 then Uint32 else Uint16)
                               (zeros totalI))
             | None => None
             end in
           bind (extractCopy b1 batchIds dstAttrs dstIndex 0 0)
             (fun b2 out =>
                let '(attrs, ix) := out in
                Ok b2 (computeBoundingSphere
                         (computeBoundingBox
                            (mkGeom attrs ix None None (mkRange 0 None)))))
       end).

(** ** Ray intersection *)

(** One entry of the intersection list, as the batch reports it. *)
Record Intersection := mkHit {
  distance : Z;
  point : Vector3;
  batchId : Z;
  hitObjectId : option string
}.

Section Raycast.

(** The ray tests belong to the rendering library; the batch only
    decides which box, sphere and segments they are applied to. *)
Variable Raycaster : Type.
(** [ray.intersectBox(box, target)]: the entry point, if any. *)
Variable intersectBox : Raycaster -> Box3 -> option Vector3.
(** [ray.origin.distanceTo(point)]. *)
Variable distanceTo : Raycaster -> Vector3 -> Z.
(** The sphere rejection test at the head of the library's raycast. *)
Variable intersectsSphere : Raycaster -> Sphere -> bool.
(** The library's segment test: distance and point of a hit. *)
Variable checkIntersection : Raycaster -> Vector3 -> Vector3 -> option (Z * Vector3).

(** The positions [a, a+2, a+4, ...] below [l - 1]: the loop
    [for (let i = a; i < l - 1; i += 2)] of the library's raycast over
    line segments. *)
Definition segmentStarts (a l : Z) : list Z :=
  map (fun k => a + 2 * k) (loop 0 ((l - 1 - a + 1) / 2)).

(** The segments the library's raycast tests for a draw range of the
    shared buffers: pairs of consecutive positions, through the index
    array when there is one. *)
Definition drawnSegments (g : BufferGeometry) (drawStart drawCount : Z)
  : list (Vector3 * Vector3) :=
  match lookupAttr "position" (attributes g) with
  | None => []
  | Some position =>
      let first := Z.max 0 drawStart in
      let bound := match index g with
                   | Some ix => icount ix
                   | None => count_of position
                   end in
      let last := Z.min bound (drawStart + drawCount) in
      map (fun i => (fromBufferAttribute position (vertexAt g i),
                     fromBufferAttribute position (vertexAt g (i + 1))))
          (segmentStarts first last)
  end.

(** [LineSegments.raycast] of the rendering library on the scratch
    object: sphere rejection, then every segment of the draw range. *)
Definition raycastObject (rc : Raycaster) (g : BufferGeometry)
           (drawStart drawCount : Z) (sphere : Sphere) : list (Z * Vector3) :=
  if intersectsSphere rc sphere then
    flat_map (fun ab => match checkIntersection rc (fst ab) (snd ab) with
                        | Some h => [h]
                        | None => []
                        end)
             (drawnSegments g drawStart drawCount)
  else [].

(** [_intersectWith(geometryId, raycaster, intersects)]; [scratch] is
    the bounding sphere the scratch object holds on entry. *)
Definition intersectWith_ (b : Batch) (scratch : Sphere) (geometryId : Z)
           (rc : Raycaster) (intersects : list Intersection)
  : Result (list Intersection * Sphere) :=
  match tlookup (geometryInfo b) geometryId with
  | None => Throw TypeError b
  | Some info =>
      if negb (visible info) || negb (active info) then Ok b (intersects, scratch)
      else if bboxIntersectionCheck info then
        match boundingBox info with
        | None => Throw TypeError b
        | Some box =>
            match intersectBox rc box with
            | Some p =>
                Ok b (intersects ++ [mkHit (distanceTo rc p) p geometryId (objectId info)],
                      scratch)
            | None => Ok b (intersects, scratch)
            end
        end
      else
        bind (getBoundingBoxAt b geometryId)
          (fun b1 _ =>
             bind (getBoundingSphereAt b1 geometryId)
               (fun b2 osphere =>
                  let sphere := match osphere with Some s => s | None => scratch end in
                  let hits := raycastObject rc (geometry b2) (start info) (count info)
                                            sphere in
                  Ok b2 (intersects
                           ++ map (fun h => mkHit (fst h) (snd h) geometryId (objectId info))
                                  hits,
                         sphere)))
  end.

(** The sphere of a freshly created scratch object. *)
Definition freshSphere : Sphere := mkSphere (mkVec 0 0 0) 0.

(** [intersectWith(geometryId, raycaster, intersects)]. *)
Definition intersectWith (b : Batch) (geometryId : Z) (rc : Raycaster)
           (intersects : list Intersection) : Result (list Intersection) :=
  bind (intersectWith_ b freshSphere geometryId rc intersects)
       (fun b1 out => Ok b1 (fst out)).

(** The loop of [raycast] over the handles [ids]. *)
Fixpoint raycastLoop (b : Batch) (scratch : Sphere) (ids : list Z) (rc : Raycaster)
         (intersects : list Intersection) : Result (list Intersection) :=
  match ids with
  | [] => Ok b intersects
  | i :: rest =>
      bind (intersectWith_ b scratch i rc intersects)
           (fun b1 out => raycastLoop b1 (snd out) rest rc (fst out))
  end.

(** [raycast(raycaster, intersects)]. *)
Definition raycast (b : Batch) (rc : Raycaster) (intersects : list Intersection)
  : Result (list Intersection) :=
  raycastLoop b freshSphere (loop 0 (tlength (geometryInfo b))) rc intersects.

End Raycast.

(** ** Payloads used in the examples *)

(** A payload with a three-component position attribute over the given
    components, and an optional index list. *)
Definition payload (positions : list Z) (ix : option (list Z)) : BufferGeometry :=
  mkGeom [("position"%string, mkAttr positions 3 false)]
         (option_map (mkIndex Uint16) ix) None None (mkRange 0 None).

(** [n] vertices along the x axis starting at [x0]: (x0,0,0), (x0+1,0,0), ... *)
Definition lineAlongX (x0 : Z) (n : Z) : list Z :=
  flat_map (fun i => [x0 + i; 0; 0]) (loop 0 n).

Definition okState {A} (r : Result A) (d : Batch) : Batch :=
  match r with Ok s _ => s | Throw _ _ => d end.

(** The used vertex range [vertexStart, vertexStart + vertexCount) behind
    a handle. *)
Definition usedRange (b : Batch) (h : Z) : option (Z * Z) :=
  option_map (fun r => (vertexStart r, vertexStart r + vertexCount r))
             (tlookup (geometryInfo b) h).

(** The reserved vertex range behind a handle. *)
Definition reservedRange (b : Batch) (h : Z) : option (Z * Z) :=
  option_map (fun r => (vertexStart r, vertexStart r + reservedVertexCount r))
             (tlookup (geometryInfo b) h).

(** Which handles are live, slot by slot. *)
Definition liveHandles (b : Batch) : list (option bool) :=
  map (option_map active) (geometryInfo b).

(** The scenario of the specification: a batch for 1000 vertices, a
    4-vertex and a 6-vertex line, the first deleted and a 4-vertex line
    added again. *)
Module Scenario.

Definition fourVertices : BufferGeometry := payload (lineAlongX 0 4) None.
Definition sixVertices : BufferGeometry := payload (lineAlongX 10 6) None.
Definition fourAgain : BufferGeometry := payload (lineAlongX 20 4) None.

Definition s1 : Batch := stateOf (addGeometry newBatchDefault fourVertices (-1) (-1)).
Definition s2 : Batch := stateOf (addGeometry s1 sixVertices (-1) (-1)).
Definition s3 : Batch := stateOf (deleteGeometry s2 0).
Definition s4 : Batch := stateOf (addGeometry s3 fourAgain (-1) (-1)).

End Scenario.

(** ** Notions used to state the invariants of the batch *)

(** The schema of a geometry: index presence, and name, item size and
    normalisation of every attribute. *)
Definition schemaOf (g : BufferGeometry) : bool * list (string * Z * bool) :=
  (isSome (index g),
   map (fun na => (fst na, itemSize (snd na), normalized (snd na))) (attributes g)).

(** A payload with one more attribute. *)
Definition withExtra (g : BufferGeometry) (name : string) (a : BufferAttribute)
  : BufferGeometry :=
  mkGeom (attributes g ++ [(name, a)]) (index g) (gBoundingBox g)
         (gBoundingSphere g) (drawRange g).

(** Reserved ranges in one buffer: every live region's range is a valid
    range below the tail cursor, and the ranges of two live regions do
    not overlap. *)
Definition rangesOk (startOf reservedOf : GeometryInfo -> Z) (cursor : Z)
           (t : Table) : Prop :=
  (forall i r, tlookup t i = Some r -> active r = true ->
               0 <= startOf r /\ 0 <= reservedOf r /\ startOf r + reservedOf r <= cursor)
  /\ (forall i j ri rj,
        i <> j -> tlookup t i = Some ri -> tlookup t j = Some rj ->
        active ri = true -> active rj = true ->
        startOf ri + reservedOf ri <= startOf rj
        \/ startOf rj + reservedOf rj <= startOf ri).

(** The index array has the element type its capacity calls for, and
    holds values of that type. *)
Definition indexOk (maxV : Q) (ix : IndexAttribute) : Prop :=
  ikind ix = (if Qgtb maxV 65535 then Uint32 else Uint16)
  /\ Forall (fun v => 0 <= v < index_modulus (ikind ix)) (idata ix).

(** The invariant of an initialized batch. *)
Record Sound (b : Batch) : Prop := mkSound {
  sound_initialized : geometryInitialized b = true;
  sound_count : geometryCount b = tlength (geometryInfo b);
  sound_free : Forall (fun n => Z.of_nat n < tlength (geometryInfo b))
                      (availableGeometryIds b);
  sound_keys : NoDup (map fst (attributes (geometry b)));
  sound_vertex : rangesOk vertexStart reservedVertexCount (nextVertexStart b)
                          (geometryInfo b);
  sound_index : isSome (index (geometry b)) = true ->
                rangesOk indexStart reservedIndexCount (nextIndexStart b)
                         (geometryInfo b);
  sound_vcap : 0 <= nextVertexStart b
               /\ (inject_Z (nextVertexStart b) <= maxVertexCount b)%Q;
  sound_icap : isSome (index (geometry b)) = true ->
               0 <= nextIndexStart b
               /\ (inject_Z (nextIndexStart b) <= maxIndexCount b)%Q;
  sound_indexed : forall ix, index (geometry b) = Some ix -> indexOk (maxVertexCount b) ix;
  sound_free_deleted : Forall (fun n => exists r, tlookup (geometryInfo b) (Z.of_nat n) = Some r
                                                  /\ active r = false)
                              (availableGeometryIds b);
  sound_free_distinct : NoDup (availableGeometryIds b)
}.

(** A payload whose position attribute has a sensible item size. *)
Definition payloadOk (g : BufferGeometry) : Prop :=
  forall p, lookupAttr "position" (attributes g) = Some p -> 0 <= itemSize p.

(** An attribute array after a growth to [maxV] vertices: a zeroed array
    of the new size with the old contents copied in. *)
Definition resizedAttr (maxV : Q) (a : BufferAttribute) : BufferAttribute :=
  mkAttr (copyArrayContents (array a)
            (zeros (toLength (maxV * inject_Z (itemSize a))%Q)))
         (itemSize a) (normalized a).

(** The index array after a growth to [maxV] vertices and [maxI] indices. *)
Definition resizedIndex (maxV maxI : Q) (o : IndexAttribute) : IndexAttribute :=
  let kind := if Qgtb maxV 65535 then Uint32 else Uint16 in
  mkIndex kind
          (copyArrayContents (map (fun v => v mod index_modulus kind) (idata o))
                             (zeros (toLength maxI))).

(** The second array has the layout of the first and agrees with it on
    every position below [q0]. *)
Definition sameBelow (q0 : Z) (a a' : BufferAttribute) : Prop :=
  itemSize a' = itemSize a
  /\ forall q, q < q0 -> get (array a') q = get (array a) q.

(** ** Runs of insertions *)

(** [addGeometry] of each payload in turn, with the default reservation;
    the handles are collected. *)
Fixpoint addAll (b : Batch) (gs : list BufferGeometry) : Result (list Z) :=
  match gs with
  | [] => Ok b []
  | g :: rest =>
      bind (addGeometry b g (-1) (-1))
           (fun b1 id => bind (addAll b1 rest) (fun b2 ids => Ok b2 (id :: ids)))
  end.

(** The growth rule for one dimension: a tail shorter than the payload's
    count [n] grows the capacity to [(max + n) * 1.5]. *)
Definition capacityRule (maxC : Q) (next n : Z) : Q :=
  if Qltb (maxC - inject_Z next) (inject_Z n) then grown maxC n else maxC.

(** Every insertion of the run succeeds, and after each one the two
    capacities are what the growth rule gives for that payload. *)
Fixpoint growsByRule (b : Batch) (gs : list BufferGeometry) : Prop :=
  match gs with
  | [] => True
  | g :: rest =>
      exists b1 id,
        addGeometry b g (-1) (-1) = Ok b1 id
        /\ (forall p, lookupAttr "position" (attributes g) = Some p ->
                      maxVertexCount b1
                      = capacityRule (maxVertexCount b) (nextVertexStart b) (count_of p))
        /\ maxIndexCount b1
           = match index g with
             | Some ix => capacityRule (maxIndexCount b) (nextIndexStart b) (icount ix)
             | None => maxIndexCount b
             end
        /\ growsByRule b1 rest
  end.

(** A payload the batch accepts: sensible item size, conforming schema,
    and a position attribute. *)
Definition accepts (b : Batch) (g : BufferGeometry) : Prop :=
  payloadOk g /\ validateGeometry b g = None
  /\ exists p, lookupAttr "position" (attributes g) = Some p.

(** The value a call returned, if it returned. *)
Definition valueOf {A} (r : Result A) : option A :=
  match r with Ok _ v => Some v | Throw _ _ => None end.

(** The segments a ray is tested against for the region behind a handle. *)
Definition regionSegments (b : Batch) (h : Z) : list (Vector3 * Vector3) :=
  match tlookup (geometryInfo b) h with
  | Some r => drawnSegments (geometry b) (start r) (count r)
  | None => []
  end.

(** A concrete ray test for the examples: a pick ray that runs down the
    z axis from height 1000 through the point (x, y), tested exactly
    against boxes, spheres and segments of a drawing in a plane z = c. *)
Module PickRay.

Definition Ray : Type := (Z * Z)%type.

Definition between (lo v hi : Z) : bool := (lo <=? v) && (v <=? hi).

Definition intersectBox (ray : Ray) (box : Box3) : option Vector3 :=
  match box with
  | EmptyBox => None
  | Box lo hi =>
      if between (vx lo) (fst ray) (vx hi) && between (vy lo) (snd ray) (vy hi)
      then Some (mkVec (fst ray) (snd ray) (vz hi))
      else None
  end.

Definition distanceTo (ray : Ray) (p : Vector3) : Z := 1000 - vz p.

Definition intersectsSphere (ray : Ray) (s : Sphere) : bool :=
  sq (2 * fst ray - vx (center2 s)) + sq (2 * snd ray - vy (center2 s))
  <=? radiusSq4 s.

(** The ray meets the segment when (x, y) lies on its projection. *)
Definition checkIntersection (ray : Ray) (a b : Vector3) : option (Z * Vector3) :=
  let cross := (vx b - vx a) * (snd ray - vy a) - (vy b - vy a) * (fst ray - vx a) in
  if (cross =? 0)
     && between (Z.min (vx a) (vx b)) (fst ray) (Z.max (vx a) (vx b))
     && between (Z.min (vy a) (vy b)) (snd ray) (Z.max (vy a) (vy b))
  then Some (1000 - vz a, mkVec (fst ray) (snd ray) (vz a))
  else None.

Definition raycast (b : Batch) (ray : Ray) : Result (list Intersection) :=
  raycast Ray intersectBox distanceTo intersectsSphere checkIntersection b ray [].

End PickRay.

(** The three ways a handle can be invalid: negative, past the end of the
    table, or naming a deleted region. *)
Definition invalidHandle (b : Batch) (h : Z) : Prop :=
  h < 0
  \/ tlength (geometryInfo b) <= h
  \/ exists r, tlookup (geometryInfo b) h = Some r /\ active r = false.

(** Small batches used as concrete inputs. *)
Module Examples.

(** An indexed two-vertex segment from (x,0,0) to (x+1,0,0). *)
Definition segment (x : Z) : BufferGeometry :=
  payload (lineAlongX x 2) (Some [0; 1]).

(** Three indexed segments at x = 0, 10 and 20, handles 0, 1 and 2. *)
Definition i1 : Batch := stateOf (addGeometry newBatchDefault (segment 0) (-1) (-1)).
Definition i2 : Batch := stateOf (addGeometry i1 (segment 10) (-1) (-1)).
Definition i3 : Batch := stateOf (addGeometry i2 (segment 20) (-1) (-1)).
(** ... and handle 0 deleted. *)
Definition i4 : Batch := stateOf (deleteGeometry i3 0).

End Examples.

(** ** Notions used to state what [optimize] does *)

(** The used vertex and index counts of a run of regions: the packed
    sizes. *)
Definition sumVertexCount (rs : list (nat * GeometryInfo)) : Z :=
  fold_right (fun e acc => vertexCount (snd e) + acc) 0 rs.

Definition sumIndexCount (hasIndex : bool) (rs : list (nat * GeometryInfo)) : Z :=
  fold_right (fun e acc => (if hasIndex then indexCount (snd e) else 0) + acc) 0 rs.

(** The record of a region once it is packed at vertex offset [V] and
    index offset [I]: offsets and draw range move, everything else stays. *)
Definition packedRecord (hasIndex : bool) (V I : Z) (r : GeometryInfo) : GeometryInfo :=
  let r1 := with_vertexStart r V in
  let r2 := if hasIndex then with_indexStart r1 I else r1 in
  with_draw r2 (if hasIndex then I else V)
            (if hasIndex then indexCount r else vertexCount r).

(** No region lies before the offset it is packed to, and no used count
    is negative.  This holds whenever the used vertex ranges of the
    regions, in this order, are ascending and disjoint. *)
Fixpoint packsDownward (n : Z) (rs : list (nat * GeometryInfo)) : Prop :=
  match rs with
  | [] => True
  | e :: rest =>
      0 <= vertexCount (snd e) /\ n <= vertexStart (snd e)
      /\ packsDownward (n + vertexCount (snd e)) rest
  end.

(** Used vertex ranges that are ascending and disjoint, from [n] on. *)
Fixpoint ascendingFrom (n : Z) (rs : list (nat * GeometryInfo)) : Prop :=
  match rs with
  | [] => True
  | e :: rest =>
      0 <= vertexCount (snd e) /\ n <= vertexStart (snd e)
      /\ ascendingFrom (vertexStart (snd e) + vertexCount (snd e)) rest
  end.

(** One attribute array through the packing loop: the vertex moves of
    [packRegion], region by region. *)
Fixpoint packArray (order : list (nat * GeometryInfo)) (nextV : Z)
         (a : BufferAttribute) : BufferAttribute :=
  match order with
  | [] => a
  | e :: rest =>
      let info := snd e in
      packArray rest (nextV + vertexCount info)
        (if negb (vertexStart info =? nextV)
         then mkAttr (copyWithin (array a)
                        (nextV * itemSize a)
                        (vertexStart info * itemSize a)
                        ((vertexStart info + vertexCount info) * itemSize a))
                     (itemSize a) (normalized a)
         else a)
  end.

(** Every used vertex range of the order ends within [cap] vertices. *)
Definition endsWithin (cap : Z) (rs : list (nat * GeometryInfo)) : Prop :=
  Forall (fun e => vertexStart (snd e) + vertexCount (snd e) <= cap) rs.

(** An attribute array laid out for at least [cap] vertices. *)
Definition holdsVertices (cap : Z) (a : BufferAttribute) : Prop :=
  0 <= itemSize a /\ cap * itemSize a <= len (array a).

(** The ordering [optimize] sorts by. *)
Definition vertexStartLe (a b : nat * GeometryInfo) : Prop :=
  vertexStart (snd a) <= vertexStart (snd b).


(** A batch established with the position attribute only, and a payload
    that carries a color attribute as well. *)
Module SchemaExample.

Definition positionOnly : Batch :=
  stateOf (addGeometry (newBatch 16 32) (payload (lineAlongX 0 2) None) (-1) (-1)).

Definition plain : BufferGeometry := payload (lineAlongX 10 2) None.

Definition colors : BufferAttribute := mkAttr [255; 0; 0; 255; 0; 0] 3 false.

Definition colored : BufferGeometry := withExtra plain "color" colors.

End SchemaExample.

(** An established indexed batch for 16 vertices with one segment, and an
    insertion whose reservation (1 vertex) is smaller than its payload
    (2 vertices). *)
Module AtomicityExample.



End AtomicityExample.


(** A batch in which the first region reserves 4 vertices for a 2-vertex
    payload, followed by a second 2-vertex region. *)
Module ReservationExample.

Definition o1 : Batch :=
  stateOf (addGeometry (newBatch 16 32) (payload (lineAlongX 0 2) None) 4 (-1)).

Definition o2 : Batch :=
  stateOf (addGeometry o1 (payload (lineAlongX 10 2) None) (-1) (-1)).

End ReservationExample.

(** An indexed batch for 4 vertices and 8 indices, half full and full. *)
Module GrowthExample.

Definition half : Batch :=
  stateOf (addGeometry (newBatch 4 8) (Examples.segment 0) (-1) (-1)).

Definition full : Batch :=
  stateOf (addGeometry half (Examples.segment 10) (-1) (-1)).

End GrowthExample.

(** ** The batch as a scene object *)

(** [box.union(other)] of the rendering library: componentwise minimum
    and maximum; the empty box (min = +inf, max = -inf) is neutral. *)
Definition union (a b : Box3) : Box3 :=
  match a, b with
  | EmptyBox, _ => b
  | _, EmptyBox => a
  | Box lo hi, Box lo' hi' => Box (vmin lo lo') (vmax hi hi')
  end.

(** [box.containsPoint(p)] of the rendering library. *)
Definition containsPoint (b : Box3) (p : Vector3) : bool :=
  match b with
  | EmptyBox => false
  | Box lo hi =>
      (vx lo <=? vx p) && (vx p <=? vx hi)
      && (vy lo <=? vy p) && (vy p <=? vy hi)
      && (vz lo <=? vz p) && (vz p <=? vz hi)
  end.

(** [outer.containsBox(inner)] of the rendering library. *)
Definition containsBox (outer inner : Box3) : bool :=
  match inner, outer with
  | EmptyBox, _ => true
  | Box _ _, EmptyBox => false
  | Box lo hi, Box lo' hi' =>
      (vx lo' <=? vx lo) && (vx hi <=? vx hi')
      && (vy lo' <=? vy lo) && (vy hi <=? vy hi')
      && (vz lo' <=? vz lo) && (vz hi <=? vz hi')
  end.

Module AcTrBatchedLine.

(** The object itself: the batch state and the two public fields
    [boundingBox] and [boundingSphere]. *)
Record BatchedLine := mkLine {
  batch : Batch;
  lineBoundingBox : option Box3;
  lineBoundingSphere : option Sphere
}.

(** A method of the object returns, or throws with the object as it is
    at that moment. *)
Inductive LineResult :=
| LineOk (l : BatchedLine)
| LineThrow (e : Error) (l : BatchedLine).

(** [new AcTrBatchedLine(maxVertexCount, maxIndexCount)]. *)
Definition create (maxV maxI : Q) : BatchedLine :=
  mkLine (newBatch maxV maxI) None None.

(** [reset()]: the bounds, the table, the free list, the cursors and the
    initialization flag are cleared.  [geometry.dispose()] releases what
    the renderer holds; the geometry object stays in place with its
    attributes and its index, and the capacities stay as they are. *)
Definition reset (l : BatchedLine) : BatchedLine :=
  mkLine (mkBatch (maxVertexCount (batch l)) (maxIndexCount (batch l))
                  [] [] 0 0 0 false (geometry (batch l)))
         None None.

(** The loop of [computeBoundingBox()]: the union of the boxes of the
    active regions.  A hole in the table is [undefined], and reading
    [active] on it throws; [false] is that throw. *)
Fixpoint unionOfRegions (t : Table) (box : Box3) : Box3 * bool :=
  match t with
  | [] => (box, true)
  | None :: _ => (box, false)
  | Some g :: rest =>
      if negb (active g) then unionOfRegions rest box
      else match boundingBox g with
           | Some bx => unionOfRegions rest (union box bx)
           | None => unionOfRegions rest box
           end
  end.

(** [computeBoundingBox()]. *)
Definition computeBoundingBox (l : BatchedLine) : LineResult :=
  let '(box, finished) := unionOfRegions (geometryInfo (batch l)) EmptyBox in
  let l' := mkLine (batch l) (Some box) (lineBoundingSphere l) in
  if finished then LineOk l' else LineThrow TypeError l'.

(** The record [copy] builds for one region:
    [{ ...info, boundingBox: clone or null, boundingSphere: clone or null }]. *)
Definition cloneInfo (info : GeometryInfo) : GeometryInfo :=
  mkInfo (vertexStart info) (vertexCount info) (reservedVertexCount info)
         (indexStart info) (indexCount info) (reservedIndexCount info)
         (start info) (count info)
         (match boundingBox info with Some bx => Some bx | None => None end)
         (match boundingSphere info with Some s => Some s | None => None end)
         (active info) (visible info) (objectId info) (bboxIntersectionCheck info).

(** [this.copy(source)]: the geometry, the bounds, the region table, the
    two capacities, the initialization flag and the geometry count are
    taken from the source.  The free list and the two tail cursors are
    not assigned: they stay what they are in [this]. *)
Definition copy (this source : BatchedLine) : BatchedLine :=
  mkLine (mkBatch (maxVertexCount (batch source)) (maxIndexCount (batch source))
                  (map (option_map cloneInfo) (geometryInfo (batch source)))
                  (availableGeometryIds (batch this))
                  (nextIndexStart (batch this)) (nextVertexStart (batch this))
                  (geometryCount (batch source))
                  (geometryInitialized (batch source))
                  (geometry (batch source)))
         (lineBoundingBox source) (lineBoundingSphere source).

End AcTrBatchedLine.

(** ** Notions used to state the further properties *)

(** The attribute arrays and the index array have the lengths the
    capacities call for. *)
Definition Sized (b : Batch) : Prop :=
  (forall name a, lookupAttr name (attributes (geometry b)) = Some a ->
                  len (array a) = toLength (maxVertexCount b * inject_Z (itemSize a))%Q)
  /\ (forall ix, index (geometry b) = Some ix -> icount ix = toLength (maxIndexCount b)).

(** A batch whose layout is fixed: initialized, with distinct attribute
    names, capacities that are not negative, and arrays of the lengths
    the capacities call for. *)
Definition Established (b : Batch) : Prop :=
  geometryInitialized b = true
  /\ NoDup (map fst (attributes (geometry b)))
  /\ (0 <= maxVertexCount b)%Q /\ (0 <= maxIndexCount b)%Q
  /\ Sized b.

(** What a region is to its users, apart from where its data lies. *)
Definition sameRegion (r r' : GeometryInfo) : Prop :=
  active r' = active r /\ visible r' = visible r
  /\ boundingBox r' = boundingBox r /\ boundingSphere r' = boundingSphere r
  /\ objectId r' = objectId r /\ bboxIntersectionCheck r' = bboxIntersectionCheck r
  /\ vertexCount r' = vertexCount r /\ indexCount r' = indexCount r
  /\ reservedVertexCount r' = reservedVertexCount r
  /\ reservedIndexCount r' = reservedIndexCount r.

(** The second record is the first with, possibly, other bounds. *)
Definition sameButBounds (r r' : GeometryInfo) : Prop :=
  with_boundingSphere (with_boundingBox r' (boundingBox r)) (boundingSphere r) = r.

(** The second batch is the first with, possibly, bounds filled in where
    a region had none: the buffers, the capacities, the cursors, the free
    list and the length of the table are the same, and every record is
    the same but for bounds it did not hold before. *)
Definition cachesOnly (b b' : Batch) : Prop :=
  geometry b' = geometry b
  /\ maxVertexCount b' = maxVertexCount b /\ maxIndexCount b' = maxIndexCount b
  /\ availableGeometryIds b' = availableGeometryIds b
  /\ nextIndexStart b' = nextIndexStart b /\ nextVertexStart b' = nextVertexStart b
  /\ geometryCount b' = geometryCount b
  /\ geometryInitialized b' = geometryInitialized b
  /\ tlength (geometryInfo b') = tlength (geometryInfo b)
  /\ forall i,
       match tlookup (geometryInfo b) i, tlookup (geometryInfo b') i with
       | Some r, Some r' =>
           sameButBounds r r'
           /\ (forall box, boundingBox r = Some box -> boundingBox r' = Some box)
           /\ (forall s, boundingSphere r = Some s -> boundingSphere r' = Some s)
       | None, None => True
       | _, _ => False
       end.

(** A table without holes. *)
Definition Dense (b : Batch) : Prop :=
  forall i, 0 <= i < tlength (geometryInfo b) -> tlookup (geometryInfo b) i <> None.

(** No live region reserves more than it uses. *)
Definition Tight (b : Batch) : Prop :=
  forall i r, tlookup (geometryInfo b) i = Some r -> active r = true ->
              vertexCount r = reservedVertexCount r
              /\ (isSome (index (geometry b)) = true ->
                  indexCount r = reservedIndexCount r).

(** Spans [(start, length)] of a buffer: their total length, the part of
    a span that lies below [n], whether a span holds the position [t],
    and two spans that do not overlap. *)
Definition spanSum (f : Z * Z -> Z) (spans : list (Z * Z)) : Z :=
  fold_right (fun x acc => f x + acc) 0 spans.

Definition below (n : Z) (x : Z * Z) : Z :=
  Z.min (fst x + snd x) n - Z.min (fst x) n.

Definition holdsPosition (t : Z) (x : Z * Z) : Z :=
  if (fst x <=? t) && (t <? fst x + snd x) then 1 else 0.

Definition apart (x y : Z * Z) : Prop :=
  fst x + snd x <= fst y \/ fst y + snd y <= fst x.

(** The records of a packing order once packed from the offsets [V] and
    [I] on, in that order. *)
Fixpoint packedList (hasIndex : bool) (V I : Z) (order : list (nat * GeometryInfo))
  : list (nat * GeometryInfo) :=
  match order with
  | [] => []
  | (i, r) :: rest =>
      (i, packedRecord hasIndex V I r)
      :: packedList hasIndex (V + vertexCount r)
                    (I + (if hasIndex then indexCount r else 0)) rest
  end.

(** Every live region of a batch without index holds at least one
    vertex, no more than it reserves, and draws its own vertices: what
    [setGeometryAt] leaves. *)
Definition Written (b : Batch) : Prop :=
  forall i r, tlookup (geometryInfo b) i = Some r -> active r = true ->
              0 < vertexCount r <= reservedVertexCount r
              /\ start r = vertexStart r /\ count r = vertexCount r.

(** Every live region holds its bounds: what [addGeometry] leaves. *)
Definition Stored (b : Batch) : Prop :=
  forall i r, tlookup (geometryInfo b) i = Some r -> active r = true ->
              boundingBox r <> None /\ boundingSphere r <> None.

(** One call on an established batch, whether it returns or throws: the
    state the caller holds afterwards. *)
Inductive step : Batch -> Batch -> Prop :=
| step_addGeometry (b : Batch) (g : BufferGeometry) (rv ri : Z) :
    payloadOk g -> step b (stateOf (addGeometry b g rv ri))
| step_setGeometryAt (b : Batch) (id : Z) (g : BufferGeometry) :
    step b (stateOf (setGeometryAt b id g))
| step_deleteGeometry (b : Batch) (id : Z) :
    step b (stateOf (deleteGeometry b id))
| step_optimize (b : Batch) :
    step b (optimize b)
| step_setVisibleAt (b : Batch) (id : Z) (value : bool) :
    step b (stateOf (setVisibleAt b id value))
| step_setGeometryInfo (b : Batch) (id : Z) (oid : option string) (check : bool) :
    step b (stateOf (setGeometryInfo b id oid check))
| step_setGeometrySize (b : Batch) (maxV maxI : Q) :
    (0 <= maxV)%Q -> (0 <= maxI)%Q -> step b (setGeometrySize b maxV maxI)
| step_getBoundingBoxAt (b : Batch) (id : Z) :
    step b (stateOf (getBoundingBoxAt b id))
| step_getBoundingSphereAt (b : Batch) (id : Z) :
    step b (stateOf (getBoundingSphereAt b id)).

(** Any number of calls, one after the other. *)
Inductive reaches : Batch -> Batch -> Prop :=
| reaches_refl (b : Batch) : reaches b b
| reaches_step (b b1 b2 : Batch) : step b b1 -> reaches b1 b2 -> reaches b b2.

(** One successful call of a workload that reserves nothing beyond what
    it uses: insertions with the default reservation, deletions,
    visibility and user-data updates, and compactions. *)
Inductive tightStep : Batch -> Batch -> Prop :=
| tightStep_addGeometry (b : Batch) (g : BufferGeometry) (b' : Batch) (id : Z) :
    payloadOk g -> addGeometry b g (-1) (-1) = Ok b' id -> tightStep b b'
| tightStep_deleteGeometry (b : Batch) (id : Z) (b' : Batch) :
    deleteGeometry b id = Ok b' tt -> tightStep b b'
| tightStep_setVisibleAt (b : Batch) (id : Z) (value : bool) (b' : Batch) :
    setVisibleAt b id value = Ok b' tt -> tightStep b b'
| tightStep_setGeometryInfo (b : Batch) (id : Z) (oid : option string) (check : bool)
                            (b' : Batch) :
    setGeometryInfo b id oid check = Ok b' tt -> tightStep b b'
| tightStep_optimize (b : Batch) :
    tightStep b (optimize b).

Inductive tightRun : Batch -> Batch -> Prop :=
| tightRun_refl (b : Batch) : tightRun b b
| tightRun_step (b b1 b2 : Batch) : tightStep b b1 -> tightRun b1 b2 -> tightRun b b2.

(** * Properties *)

(** ** The scenario *)

(** C9, as stated, fails: after [optimize] the storage of handle 0 is not
    the vertex range [0,4). *)
Lemma C9_handle0_not_at_front :
  usedRange (optimize Scenario.s4) 0 <> Some (0, 4).
Proof. vm_compute. discriminate. Qed.

(** C9, amended: on a fresh batch for 1000 vertices, a 4-vertex geometry
    gets handle 0 and the range [0,4), a 6-vertex geometry handle 1 and
    [4,10); after [deleteGeometry(0)] a 4-vertex geometry reuses handle 0
    with its storage at the tail, [10,14); [optimize] packs by ascending
    vertex offset, so handle 1 moves to [0,6) and handle 0 to [6,10), and
    the handle numbering is unchanged. *)
Theorem C9_scenario :
  addGeometry newBatchDefault Scenario.fourVertices (-1) (-1) = Ok Scenario.s1 0
  /\ usedRange Scenario.s1 0 = Some (0, 4)
  /\ addGeometry Scenario.s1 Scenario.sixVertices (-1) (-1) = Ok Scenario.s2 1
  /\ usedRange Scenario.s2 1 = Some (4, 10)
  /\ deleteGeometry Scenario.s2 0 = Ok Scenario.s3 tt
  /\ addGeometry Scenario.s3 Scenario.fourAgain (-1) (-1) = Ok Scenario.s4 0
  /\ usedRange Scenario.s4 0 = Some (10, 14)
  /\ usedRange (optimize Scenario.s4) 1 = Some (0, 6)
  /\ usedRange (optimize Scenario.s4) 0 = Some (6, 10)
  /\ liveHandles (optimize Scenario.s4) = liveHandles Scenario.s4.
Proof.
  repeat (apply conj; [vm_compute; reflexivity |]).
  vm_compute; reflexivity.
Qed.

(** ** Comparisons *)

Lemma geb_true (n m : Z) : m <= n -> (n >=? m) = true.
Proof. intros H. rewrite Z.geb_leb. apply Z.leb_le. assumption. Qed.

Lemma geb_false (n m : Z) : n < m -> (n >=? m) = false.
Proof. intros H. rewrite Z.geb_leb. apply Z.leb_gt. assumption. Qed.

Lemma geb_true_inv (n m : Z) : (n >=? m) = true -> m <= n.
Proof. rewrite Z.geb_leb. apply Z.leb_le. Qed.

Lemma geb_false_inv (n m : Z) : (n >=? m) = false -> n < m.
Proof. rewrite Z.geb_leb. apply Z.leb_gt. Qed.

Lemma gtb_false_inv (n m : Z) : (n >? m) = false -> n <= m.
Proof. rewrite Z.gtb_ltb. apply Z.ltb_ge. Qed.

Lemma gtb_true_inv (n m : Z) : (n >? m) = true -> m < n.
Proof. rewrite Z.gtb_ltb. apply Z.ltb_lt. Qed.

(** ** The region table as a map from handles *)

Section TableFacts.

Lemma tlookup_Some_range (t : Table) (i : Z) (r : GeometryInfo) :
  tlookup t i = Some r -> 0 <= i < tlength t.
Proof.
  unfold tlookup, tlength. destruct (i <? 0) eqn:Hneg; [discriminate |].
  apply Z.ltb_ge in Hneg.
  destruct (nth_error t (Z.to_nat i)) as [o |] eqn:Hnth; [| discriminate].
  intros _. split; [assumption |].
  assert (Hlt : (Z.to_nat i < List.length t)%nat)
    by (apply nth_error_Some; congruence).
  lia.
Qed.

Lemma tset_length_in (t : Table) (n : nat) (r : GeometryInfo) :
  (n < List.length t)%nat -> List.length (tset t n r) = List.length t.
Proof.
  revert n. induction t as [| h rest IH]; intros n Hn; simpl in Hn.
  - lia.
  - destruct n as [| k]; simpl; [reflexivity |].
    rewrite IH by lia. reflexivity.
Qed.

Lemma tlength_tset_in (t : Table) (i : Z) (r r' : GeometryInfo) :
  tlookup t i = Some r -> tlength (tset t (Z.to_nat i) r') = tlength t.
Proof.
  intros H. apply tlookup_Some_range in H. unfold tlength in *.
  rewrite tset_length_in by lia. reflexivity.
Qed.

Lemma nth_error_tset_same (t : Table) (n : nat) (r : GeometryInfo) :
  nth_error (tset t n r) n = Some (Some r).
Proof.
  revert t. induction n as [| k IH]; intros [| h rest]; simpl; auto.
Qed.

Lemma nth_error_tset_other (t : Table) (n m : nat) (r : GeometryInfo) :
  n <> m ->
  match nth_error (tset t n r) m with
  | Some (Some x) => Some x
  | _ => None
  end
  = match nth_error t m with
    | Some (Some x) => Some x
    | _ => None
    end.
Proof.
  revert t m. induction n as [| k IH]; intros [| h rest] [| m] Hne; simpl;
    try congruence; try reflexivity.
  - destruct m; reflexivity.
  - rewrite (IH [] m) by congruence. destruct m; reflexivity.
  - apply IH. congruence.
Qed.

Lemma tlookup_tset_same (t : Table) (n : nat) (r : GeometryInfo) :
  tlookup (tset t n r) (Z.of_nat n) = Some r.
Proof.
  unfold tlookup. destruct (Z.of_nat n <? 0) eqn:H; [apply Z.ltb_lt in H; lia |].
  rewrite Nat2Z.id, nth_error_tset_same. reflexivity.
Qed.

Lemma tlookup_tset_same_Z (t : Table) (i : Z) (r : GeometryInfo) :
  0 <= i -> tlookup (tset t (Z.to_nat i) r) i = Some r.
Proof.
  intros H. rewrite <- (Z2Nat.id i) at 2 by assumption. apply tlookup_tset_same.
Qed.

Lemma tlookup_tset_other (t : Table) (n : nat) (i : Z) (r : GeometryInfo) :
  i <> Z.of_nat n -> tlookup (tset t n r) i = tlookup t i.
Proof.
  intros Hne. unfold tlookup. destruct (i <? 0) eqn:H; [reflexivity |].
  apply Z.ltb_ge in H. apply nth_error_tset_other. lia.
Qed.

Lemma tlookup_app_last (t : Table) (r : GeometryInfo) :
  tlookup (t ++ [Some r]) (tlength t) = Some r.
Proof.
  unfold tlookup, tlength.
  destruct (Z.of_nat (List.length t) <? 0) eqn:H; [apply Z.ltb_lt in H; lia |].
  rewrite Nat2Z.id, nth_error_app2 by lia. rewrite Nat.sub_diag. reflexivity.
Qed.

Lemma tlookup_app_other (t : Table) (x : option GeometryInfo) (i : Z) :
  i <> tlength t -> tlookup (t ++ [x]) i = tlookup t i.
Proof.
  intros Hne. unfold tlookup, tlength in *. destruct (i <? 0) eqn:H; [reflexivity |].
  apply Z.ltb_ge in H.
  destruct (Nat.lt_ge_cases (Z.to_nat i) (List.length t)) as [Hlt | Hge].
  - rewrite nth_error_app1 by assumption. reflexivity.
  - rewrite nth_error_app2 by assumption.
    assert (Hpos : (0 < Z.to_nat i - List.length t)%nat) by lia.
    destruct (Z.to_nat i - List.length t)%nat as [| k] eqn:Hk; [lia |].
    simpl. assert (Hnone : nth_error t (Z.to_nat i) = None)
      by (apply nth_error_None; assumption).
    rewrite Hnone. destruct k; reflexivity.
Qed.

End TableFacts.

(** ** Deleting *)

(** C10: [deleteGeometry] does not treat a negative handle as a no-op.
    The guard tests [geometryId >= length] only, so the read of
    [_geometryInfo[-1].active] that follows is a read on [undefined] and
    throws, whatever the state of the batch. *)
Theorem C10_deleteGeometry_negative_handle_throws (b : Batch) :
  deleteGeometry b (-1) = Throw TypeError b.
Proof.
  unfold deleteGeometry.
  rewrite geb_false by (unfold tlength; lia). reflexivity.
Qed.

(** On handles that are not negative the claim holds: a second
    [deleteGeometry] of the same handle changes nothing and does not
    throw. *)
Lemma deleteGeometry_twice (b b1 : Batch) (h : Z) :
  deleteGeometry b h = Ok b1 tt -> deleteGeometry b1 h = Ok b1 tt.
Proof.
  unfold deleteGeometry.
  destruct (h >=? tlength (geometryInfo b)) eqn:Hout.
  - intros H. inversion H; subst. rewrite Hout. reflexivity.
  - destruct (tlookup (geometryInfo b) h) as [info |] eqn:Hlk; [| discriminate].
    destruct (active info) eqn:Hact; simpl.
    + intros H. inversion H; subst; clear H. simpl.
      erewrite tlength_tset_in by eassumption. rewrite Hout.
      pose proof (tlookup_Some_range _ _ _ Hlk) as Hr.
      rewrite tlookup_tset_same_Z by lia. reflexivity.
    + intros H. inversion H; subst. rewrite Hout, Hlk, Hact. reflexivity.
Qed.

(** A handle at or past the end of the table, or one already deleted, is
    a no-op. *)
Lemma deleteGeometry_noop (b : Batch) (h : Z) :
  (tlength (geometryInfo b) <= h
   \/ exists r, tlookup (geometryInfo b) h = Some r /\ active r = false) ->
  deleteGeometry b h = Ok b tt.
Proof.
  unfold deleteGeometry. intros [Hout | [r [Hlk Hact]]].
  - rewrite geb_true by assumption. reflexivity.
  - destruct (h >=? tlength (geometryInfo b)); [reflexivity |].
    rewrite Hlk, Hact. reflexivity.
Qed.

(** ** Handle validation *)

Lemma validateGeometryId_live (b : Batch) (h : Z) (r : GeometryInfo) :
  tlookup (geometryInfo b) h = Some r -> active r = true ->
  validateGeometryId b h = Ok b tt.
Proof.
  intros Hlk Hact. unfold validateGeometryId.
  pose proof (tlookup_Some_range _ _ _ Hlk) as [Hlo Hhi].
  assert (Hneg : (h <? 0) = false) by (apply Z.ltb_ge; assumption).
  rewrite Hneg, geb_false by assumption. simpl.
  rewrite Hlk, Hact. reflexivity.
Qed.

Lemma validateGeometryId_invalid (b : Batch) (h : Z) :
  invalidHandle b h -> validateGeometryId b h = Throw (InvalidGeometryId h) b.
Proof.
  unfold validateGeometryId. intros [Hneg | [Hout | [r [Hlk Hact]]]].
  - assert (H : (h <? 0) = true) by (apply Z.ltb_lt; assumption).
    rewrite H. reflexivity.
  - rewrite (geb_true _ _ Hout), orb_true_r. reflexivity.
  - destruct ((h <? 0) || (h >=? tlength (geometryInfo b))); [reflexivity |].
    rewrite Hlk, Hact. reflexivity.
Qed.

(** C7, as stated, fails: handle 0 of the example batch is deleted, yet
    [getBoundingBoxAt] and [getBoundingSphereAt] return its stored bounds;
    and for a handle past the end they return [null] instead of raising. *)
Lemma C7_bounds_accessors_do_not_validate :
  invalidHandle Examples.i4 0
  /\ (exists box, getBoundingBoxAt Examples.i4 0 = Ok Examples.i4 (Some box))
  /\ (exists s, getBoundingSphereAt Examples.i4 0 = Ok Examples.i4 (Some s))
  /\ invalidHandle Examples.i4 7
  /\ getBoundingBoxAt Examples.i4 7 = Ok Examples.i4 None
  /\ getBoundingSphereAt Examples.i4 7 = Ok Examples.i4 None.
Proof.
  split.
  { right; right. eexists. split; vm_compute; reflexivity. }
  split; [eexists; vm_compute; reflexivity |].
  split; [eexists; vm_compute; reflexivity |].
  split; [right; left; vm_compute; discriminate |].
  split; vm_compute; reflexivity.
Qed.

(** C7, amended: for a handle that is negative, past the end of the table
    or deleted, [getVisibleAt], [setVisibleAt] and [getGeometryAt]
    validate first and raise the invalid-or-deleted-handle error with the
    batch untouched.  [getBoundingBoxAt] and [getBoundingSphereAt] do not
    validate: for a handle at or past [geometryCount] they return [null],
    and for a deleted region with stored bounds they return those bounds. *)
Theorem C7_accessors_on_invalid_handles (b : Batch) (h : Z) :
  invalidHandle b h ->
  getVisibleAt b h = Throw (InvalidGeometryId h) b
  /\ (forall v, setVisibleAt b h v = Throw (InvalidGeometryId h) b)
  /\ getGeometryAt b h = Throw (InvalidGeometryId h) b
  /\ (geometryCount b <= h ->
      getBoundingBoxAt b h = Ok b None /\ getBoundingSphereAt b h = Ok b None)
  /\ (forall r box sphere,
        h < geometryCount b ->
        tlookup (geometryInfo b) h = Some r ->
        boundingBox r = Some box -> boundingSphere r = Some sphere ->
        getBoundingBoxAt b h = Ok b (Some box)
        /\ getBoundingSphereAt b h = Ok b (Some sphere)).
Proof.
  intros Hinv. pose proof (validateGeometryId_invalid b h Hinv) as Hv.
  unfold getVisibleAt, setVisibleAt, getGeometryAt. rewrite Hv. simpl.
  repeat (apply conj; [reflexivity |]).
  split.
  - intros Hge. unfold getBoundingBoxAt, getBoundingSphereAt.
    rewrite (geb_true _ _ Hge). split; reflexivity.
  - intros r box sphere Hlt Hlk Hbox Hsph.
    unfold getBoundingBoxAt, getBoundingSphereAt.
    rewrite (geb_false _ _ Hlt), Hlk, Hbox, Hsph. split; reflexivity.
Qed.

(** The amended C7 at the deleted handle 0 of the example batch. *)
Lemma C7_accessors_on_invalid_handles_witness :
  invalidHandle Examples.i4 0
  /\ getVisibleAt Examples.i4 0 = Throw (InvalidGeometryId 0) Examples.i4.
Proof.
  assert (H : invalidHandle Examples.i4 0).
  { right; right. eexists. split; vm_compute; reflexivity. }
  split; [exact H |].
  exact (proj1 (C7_accessors_on_invalid_handles Examples.i4 0 H)).
Defined.

(** ** Extraction *)

(** C8: [extractGeometry] throws for every live handle.  The allocation
    loop sizes each destination array by the identifier [maxVertexCount],
    which the method does not bind (its totals are [totalVertexCount] and
    [totalIndexCount]); the first attribute of the batch reaches it. *)
Theorem C8_extractGeometry_throws (b : Batch) (h : Z) (r : GeometryInfo) :
  tlookup (geometryInfo b) h = Some r -> active r = true ->
  attributes (geometry b) <> [] ->
  extractGeometry b [h] = Throw (ReferenceError "maxVertexCount") b.
Proof.
  intros Hlk Hact Hattrs. unfold extractGeometry. simpl.
  unfold getGeometryAt. rewrite (validateGeometryId_live b h r Hlk Hact). simpl.
  rewrite Hlk. simpl.
  destruct (attributes (geometry b)) as [| [name a] rest]; [congruence |].
  reflexivity.
Qed.

(** C8 at handle 1 of the example batch. *)
Lemma C8_extractGeometry_throws_witness :
  extractGeometry Examples.i3 [1] = Throw (ReferenceError "maxVertexCount") Examples.i3.
Proof.
  eapply (C8_extractGeometry_throws Examples.i3 1).
  - vm_compute. reflexivity.
  - reflexivity.
  - vm_compute. discriminate.
Defined.

(** ** Typed arrays: reads after writes *)

Section ArrayFacts.

Lemma zseq_length (a : Z) (n : nat) : List.length (zseq a n) = n.
Proof. revert a. induction n as [| k IH]; intros a; simpl; [| rewrite IH]; reflexivity. Qed.

Lemma In_zseq (a : Z) (n : nat) (k : Z) :
  In k (zseq a n) <-> a <= k < a + Z.of_nat n.
Proof.
  revert a. induction n as [| m IH]; intros a; simpl.
  - split; [tauto | lia].
  - rewrite IH. lia.
Qed.

Lemma In_loop (a l k : Z) : In k (loop a l) <-> a <= k < l.
Proof. unfold loop. rewrite In_zseq. lia. Qed.

Lemma set_nat_length (a : list Z) (n : nat) (v : Z) :
  List.length (set_nat a n v) = List.length a.
Proof.
  revert n. induction a as [| h t IH]; intros [| k]; simpl; try reflexivity.
  rewrite IH. reflexivity.
Qed.

Lemma len_set (a : list Z) (i v : Z) : len (set a i v) = len a.
Proof.
  unfold len, set. destruct (i <? 0); [reflexivity |].
  rewrite set_nat_length. reflexivity.
Qed.

Lemma nth_set_nat_same (a : list Z) (n : nat) (v : Z) :
  (n < List.length a)%nat -> nth n (set_nat a n v) 0 = v.
Proof.
  revert n. induction a as [| h t IH]; intros [| k] H; simpl in *; try lia.
  apply IH. lia.
Qed.

Lemma nth_set_nat_other (a : list Z) (n m : nat) (v : Z) :
  n <> m -> nth m (set_nat a n v) 0 = nth m a 0.
Proof.
  revert n m. induction a as [| h t IH]; intros [| k] [| m] H; simpl;
    try reflexivity; try congruence.
  apply IH. congruence.
Qed.

Lemma get_set_same (a : list Z) (i v : Z) :
  0 <= i < len a -> get (set a i v) i = v.
Proof.
  unfold get, set, len. intros [Hlo Hhi].
  assert (H : (i <? 0) = false) by (apply Z.ltb_ge; assumption).
  rewrite H. apply nth_set_nat_same. lia.
Qed.

Lemma get_set_other (a : list Z) (i j v : Z) :
  i <> j -> get (set a i v) j = get a j.
Proof.
  unfold get, set. intros Hne.
  destruct (j <? 0) eqn:Hj; [reflexivity |].
  destruct (i <? 0) eqn:Hi; [reflexivity |].
  apply Z.ltb_ge in Hj, Hi. apply nth_set_nat_other. lia.
Qed.

Lemma get_outside (a : list Z) (i : Z) : len a <= i -> get a i = 0.
Proof.
  unfold get, len. intros H. destruct (i <? 0); [reflexivity |].
  apply nth_overflow. lia.
Qed.

(** A run of writes leaves the length alone, and leaves alone every
    position none of the writes addresses. *)
Lemma len_fold_set {K} (ks : list K) (pos : K -> Z) (val : list Z -> K -> Z)
      (a : list Z) :
  len (fold_left (fun acc k => set acc (pos k) (val acc k)) ks a) = len a.
Proof.
  revert a. induction ks as [| k rest IH]; intros a; simpl; [reflexivity |].
  rewrite IH. apply len_set.
Qed.

Lemma get_fold_set_outside {K} (ks : list K) (pos : K -> Z)
      (val : list Z -> K -> Z) (a : list Z) (p : Z) :
  (forall k, In k ks -> pos k <> p) ->
  get (fold_left (fun acc k => set acc (pos k) (val acc k)) ks a) p = get a p.
Proof.
  revert a. induction ks as [| k rest IH]; intros a H; simpl; [reflexivity |].
  rewrite IH by (intros k' Hk'; apply H; right; assumption).
  apply get_set_other. apply H. left. reflexivity.
Qed.

(** A run of writes at consecutive positions, with values that do not
    depend on the array being written. *)
Lemma get_fold_set_run (f : Z -> Z) (n : nat) (s to : Z) (a : list Z) (p : Z) :
  0 <= to + s -> to + s + Z.of_nat n <= len a ->
  to + s <= p < to + s + Z.of_nat n ->
  get (fold_left (fun acc k => set acc (to + k) (f k)) (zseq s n) a) p = f (p - to).
Proof.
  revert s a. induction n as [| m IH]; intros s a Hlo Hhi Hp; [lia |].
  cbn [zseq fold_left].
  destruct (Z.eq_dec p (to + s)) as [-> | Hne].
  - rewrite (get_fold_set_outside (zseq (s + 1) m) (fun k => to + k) (fun _ k => f k)).
    + rewrite get_set_same by lia. f_equal. lia.
    + intros k Hk. apply In_zseq in Hk. lia.
  - apply IH; rewrite ?len_set; lia.
Qed.

(** [copyWithin] towards the front, inside the array. *)
Lemma len_copyWithin (a : list Z) (target from to : Z) :
  len (copyWithin a target from to) = len a.
Proof.
  unfold copyWithin.
  apply (len_fold_set _ (fun k => rel (len a) target + k)
                      (fun _ k => get a (rel (len a) from + k))).
Qed.

Lemma rel_inside (l x : Z) : 0 <= x <= l -> rel l x = x.
Proof.
  unfold rel. intros H. destruct (x <? 0) eqn:Hx; [apply Z.ltb_lt in Hx; lia | lia].
Qed.

Lemma get_copyWithin_moved (a : list Z) (target from to p : Z) :
  0 <= target -> 0 <= from <= to -> to <= len a ->
  target + (to - from) <= len a ->
  target <= p < target + (to - from) ->
  get (copyWithin a target from to) p = get a (from + (p - target)).
Proof.
  intros Ht Hf Hto Hfit Hp. unfold copyWithin.
  rewrite !rel_inside by lia.
  replace (Z.min (to - from) (len a - target)) with (to - from) by lia.
  unfold loop. rewrite Z.sub_0_r.
  rewrite (get_fold_set_run (fun k => get a (from + k))) by lia.
  reflexivity.
Qed.

Lemma get_copyWithin_elsewhere (a : list Z) (target from to p : Z) :
  0 <= target -> 0 <= from <= to -> to <= len a ->
  target + (to - from) <= len a ->
  p < target \/ target + (to - from) <= p ->
  get (copyWithin a target from to) p = get a p.
Proof.
  intros Ht Hf Hto Hfit Hp. unfold copyWithin.
  rewrite !rel_inside by lia.
  replace (Z.min (to - from) (len a - target)) with (to - from) by lia.
  apply (get_fold_set_outside _ (fun k => target + k) (fun _ k => get a (from + k))).
  intros k Hk. apply In_loop in Hk. lia.
Qed.

End ArrayFacts.

(** ** Sorting *)

Section SortFacts.

Context {A : Type} (cmp : A -> A -> Z).

Lemma insertBy_perm (x : A) (l : list A) : Permutation (insertBy cmp x l) (x :: l).
Proof.
  induction l as [| y rest IH]; simpl; [apply Permutation_refl |].
  destruct (cmp x y <=? 0); [apply Permutation_refl |].
  eapply Permutation_trans; [apply perm_skip, IH | apply perm_swap].
Qed.

Lemma sortBy_perm (l : list A) : Permutation (sortBy cmp l) l.
Proof.
  induction l as [| x rest IH]; simpl; [apply Permutation_refl |].
  eapply Permutation_trans; [apply insertBy_perm | apply perm_skip, IH].
Qed.

(** Insertion goes past the elements that compare strictly below [x]
    only: within one class of a predicate those never include [x]'s
    class, so the order inside every class is kept. *)
Lemma insertBy_filter (p : A -> bool) (x : A) (l : list A) :
  (forall y, p x = true -> p y = true -> (cmp x y <=? 0) = true) ->
  filter p (insertBy cmp x l) = filter p (x :: l).
Proof.
  intros Hclass. induction l as [| y rest IH]; [reflexivity |].
  cbn [insertBy]. destruct (cmp x y <=? 0) eqn:Hc; [reflexivity |].
  cbn [filter] in *. rewrite IH.
  destruct (p x) eqn:Hx; [| reflexivity].
  destruct (p y) eqn:Hy; [| reflexivity].
  rewrite (Hclass y eq_refl Hy) in Hc. discriminate.
Qed.

Lemma sortBy_filter (p : A -> bool) (l : list A) :
  (forall x y, p x = true -> p y = true -> (cmp x y <=? 0) = true) ->
  filter p (sortBy cmp l) = filter p l.
Proof.
  intros Hclass. induction l as [| x rest IH]; [reflexivity |].
  cbn [sortBy fold_right]. fold (sortBy cmp rest).
  rewrite insertBy_filter by (intros y; apply Hclass).
  cbn [filter]. rewrite IH. reflexivity.
Qed.

End SortFacts.

Lemma insertBy_sorted (x : nat * GeometryInfo) (l : list (nat * GeometryInfo)) :
  StronglySorted vertexStartLe l ->
  StronglySorted vertexStartLe (insertBy byVertexStart x l).
Proof.
  induction 1 as [| y rest Hsorted IH Hall]; simpl.
  - constructor; constructor.
  - destruct (byVertexStart x y <=? 0) eqn:Hc.
    + apply Z.leb_le in Hc. unfold byVertexStart in Hc.
      constructor; [constructor; assumption |].
      constructor; [unfold vertexStartLe; lia |].
      eapply Forall_impl; [| exact Hall].
      intros z Hz. unfold vertexStartLe in *. lia.
    + apply Z.leb_gt in Hc. unfold byVertexStart in Hc.
      constructor; [assumption |].
      eapply Permutation_Forall; [apply Permutation_sym, insertBy_perm |].
      constructor; [unfold vertexStartLe; lia | assumption].
Qed.

Lemma packing_sorted (l : list (nat * GeometryInfo)) :
  StronglySorted vertexStartLe (sortBy byVertexStart l).
Proof.
  induction l as [| x rest IH]; simpl; [constructor |].
  apply insertBy_sorted. exact IH.
Qed.

(** Stability: regions with the same [vertexStart] keep their order. *)
Lemma packing_stable (l : list (nat * GeometryInfo)) (k : Z) :
  filter (fun e => vertexStart (snd e) =? k) (sortBy byVertexStart l)
  = filter (fun e => vertexStart (snd e) =? k) l.
Proof.
  apply sortBy_filter. intros x y Hx Hy.
  apply Z.eqb_eq in Hx, Hy. apply Z.leb_le. unfold byVertexStart. lia.
Qed.

Lemma activeEntries_fst_ge (t : Table) (n : nat) (e : nat * GeometryInfo) :
  In e (activeEntries t n) -> (n <= fst e)%nat.
Proof.
  revert n. induction t as [| [info |] rest IH]; intros n; simpl; [tauto | |].
  - destruct (active info); simpl.
    + intros [<- | H]; [simpl; lia | apply IH in H; lia].
    + intros H. apply IH in H. lia.
  - intros H. apply IH in H. lia.
Qed.

Lemma activeEntries_NoDup (t : Table) (n : nat) :
  NoDup (map fst (activeEntries t n)).
Proof.
  revert n. induction t as [| [info |] rest IH]; intros n; simpl;
    [constructor | | apply IH].
  destruct (active info); [| apply IH].
  simpl. constructor; [| apply IH].
  intros Hin. apply in_map_iff in Hin. destruct Hin as [e [He Hin]].
  apply activeEntries_fst_ge in Hin. lia.
Qed.

Lemma activeEntries_lookup (t : Table) (n : nat) (i : nat) (r : GeometryInfo) :
  In (i, r) (activeEntries t n) <->
  (n <= i)%nat /\ nth_error t (i - n) = Some (Some r) /\ active r = true.
Proof.
  revert n. induction t as [| o rest IH]; intros n; simpl.
  - split; [tauto |]. intros [_ [H _]]. destruct (i - n)%nat; discriminate.
  - assert (Hstep : In (i, r) (activeEntries rest (S n)) <->
                    (n < i)%nat /\ nth_error rest (i - S n) = Some (Some r)
                    /\ active r = true).
    { rewrite IH. split; intros [H1 H2]; (split; [lia | exact H2]). }
    assert (Hshift : (n < i)%nat -> (i - n)%nat = S (i - S n)) by lia.
    destruct o as [info |]; [destruct (active info) eqn:Hact |]; simpl;
      rewrite ?Hstep; split.
    + intros [Heq | [Hlt [Hnth Ha]]].
      * inversion Heq; subst. rewrite Nat.sub_diag. simpl. auto.
      * rewrite (Hshift Hlt). simpl. split; [lia | auto].
    + intros [Hle [Hnth Ha]]. destruct (Nat.eq_dec n i) as [-> | Hne].
      * rewrite Nat.sub_diag in Hnth. simpl in Hnth. inversion Hnth. left. reflexivity.
      * right. rewrite Hshift in Hnth by lia. simpl in Hnth. split; [lia | auto].
    + intros [Hlt [Hnth Ha]]. rewrite (Hshift Hlt). simpl. split; [lia | auto].
    + intros [Hle [Hnth Ha]]. destruct (Nat.eq_dec n i) as [-> | Hne].
      * rewrite Nat.sub_diag in Hnth. simpl in Hnth. inversion Hnth. congruence.
      * rewrite Hshift in Hnth by lia. simpl in Hnth. split; [lia | auto].
    + intros [Hlt [Hnth Ha]]. rewrite (Hshift Hlt). simpl. split; [lia | auto].
    + intros [Hle [Hnth Ha]]. destruct (Nat.eq_dec n i) as [-> | Hne].
      * rewrite Nat.sub_diag in Hnth. simpl in Hnth. discriminate.
      * rewrite Hshift in Hnth by lia. simpl in Hnth. split; [lia | auto].
Qed.

(** The packing order lists exactly the live handles with their records. *)
Lemma packingOrder_live (b : Batch) (i : nat) (r : GeometryInfo) :
  In (i, r) (packingOrder b) <->
  tlookup (geometryInfo b) (Z.of_nat i) = Some r /\ active r = true.
Proof.
  unfold packingOrder.
  split.
  - intros H. apply (Permutation_in _ (sortBy_perm byVertexStart _)) in H.
    apply activeEntries_lookup in H. destruct H as [_ [Hnth Ha]].
    rewrite Nat.sub_0_r in Hnth. split; [| exact Ha].
    unfold tlookup. destruct (Z.of_nat i <? 0) eqn:Hneg; [apply Z.ltb_lt in Hneg; lia |].
    rewrite Nat2Z.id, Hnth. reflexivity.
  - intros [Hlk Ha].
    apply (Permutation_in _ (Permutation_sym (sortBy_perm byVertexStart _))).
    apply activeEntries_lookup. split; [lia |]. rewrite Nat.sub_0_r. split; [| exact Ha].
    unfold tlookup in Hlk. destruct (Z.of_nat i <? 0); [discriminate |].
    rewrite Nat2Z.id in Hlk.
    destruct (nth_error (geometryInfo b) i) as [[x |] |]; congruence.
Qed.

Lemma packingOrder_NoDup (b : Batch) : NoDup (map fst (packingOrder b)).
Proof.
  unfold packingOrder.
  eapply Permutation_NoDup; [| apply (activeEntries_NoDup (geometryInfo b) 0)].
  apply Permutation_map, Permutation_sym, sortBy_perm.
Qed.

(** ** The packing loop *)

Lemma packRegion_table (h : bool) (st : Packing) (i : nat) (r : GeometryInfo) :
  isSome (pIndex st) = h ->
  pTable (packRegion h st (i, r))
  = tset (pTable st) i
         (packedRecord h (pNextVertexStart st) (pNextIndexStart st) r).
Proof.
  intros <-. destruct st as [attrs ix t V I]. destruct r. unfold packRegion, packedRecord.
  cbn [pAttributes pIndex pTable pNextVertexStart pNextIndexStart
       vertexStart vertexCount indexStart indexCount snd fst isSome].
  destruct (vertexStart0 =? V) eqn:E1; cbn [negb];
    [apply Z.eqb_eq in E1; subst |];
    (destruct ix as [ixa |]; cbn [isSome with_vertexStart indexStart];
     [destruct (indexStart0 =? I) eqn:E2; cbn [negb];
      [apply Z.eqb_eq in E2; subst |] |]);
    reflexivity.
Qed.

Lemma packRegion_cursors (h : bool) (st : Packing) (e : nat * GeometryInfo) :
  pNextVertexStart (packRegion h st e) = pNextVertexStart st + vertexCount (snd e)
  /\ pNextIndexStart (packRegion h st e)
     = pNextIndexStart st + (if h then indexCount (snd e) else 0).
Proof.
  destruct e as [i r]. unfold packRegion.
  destruct (negb (vertexStart r =? pNextVertexStart st));
    destruct h; destruct (pIndex st); simpl;
    try destruct (negb (indexStart _ =? pNextIndexStart st)); simpl; split; reflexivity.
Qed.

Lemma packRegion_index_presence (h : bool) (st : Packing) (e : nat * GeometryInfo) :
  isSome (pIndex (packRegion h st e)) = isSome (pIndex st).
Proof.
  destruct e as [i r]. unfold packRegion.
  destruct (negb (vertexStart r =? pNextVertexStart st));
    destruct h; destruct (pIndex st); simpl;
    try destruct (negb (indexStart _ =? pNextIndexStart st)); simpl; reflexivity.
Qed.

Lemma packRegion_attributes (h : bool) (st : Packing) (e : nat * GeometryInfo) :
  pAttributes (packRegion h st e)
  = map (fun na => (fst na, packArray [e] (pNextVertexStart st) (snd na)))
        (pAttributes st).
Proof.
  destruct e as [i r]. unfold packRegion. cbn [packArray snd].
  destruct (negb (vertexStart r =? pNextVertexStart st)) eqn:Hmove.
  - assert (Hattrs : moveVertices (pAttributes st) (pNextVertexStart st)
                                  (vertexStart r) (vertexCount r)
                     = map (fun na => (fst na,
                              mkAttr (copyWithin (array (snd na))
                                        (pNextVertexStart st * itemSize (snd na))
                                        (vertexStart r * itemSize (snd na))
                                        ((vertexStart r + vertexCount r) * itemSize (snd na)))
                                     (itemSize (snd na)) (normalized (snd na))))
                           (pAttributes st)).
    { unfold moveVertices. apply map_ext. intros [k a]. reflexivity. }
    destruct h; destruct (pIndex st); simpl;
      try destruct (negb (indexStart _ =? pNextIndexStart st)); simpl; exact Hattrs.
  - assert (Hattrs : pAttributes st = map (fun na => (fst na, snd na)) (pAttributes st)).
    { rewrite <- (map_id (pAttributes st)) at 1. apply map_ext. intros [k a]. reflexivity. }
    destruct h; destruct (pIndex st); simpl;
      try destruct (negb (indexStart _ =? pNextIndexStart st)); simpl; exact Hattrs.
Qed.

Section PackingLoop.

Variable h : bool.

Lemma fold_pack_cursors (l : list (nat * GeometryInfo)) (st : Packing) :
  pNextVertexStart (fold_left (packRegion h) l st)
  = pNextVertexStart st + sumVertexCount l
  /\ pNextIndexStart (fold_left (packRegion h) l st)
     = pNextIndexStart st + sumIndexCount h l.
Proof.
  revert st. induction l as [| e rest IH]; intros st; simpl.
  - split; lia.
  - destruct (IH (packRegion h st e)) as [HV HI].
    destruct (packRegion_cursors h st e) as [HV1 HI1].
    rewrite HV, HI, HV1, HI1. split; lia.
Qed.

Lemma fold_pack_index_presence (l : list (nat * GeometryInfo)) (st : Packing) :
  isSome (pIndex (fold_left (packRegion h) l st)) = isSome (pIndex st).
Proof.
  revert st. induction l as [| e rest IH]; intros st; simpl; [reflexivity |].
  rewrite IH. apply packRegion_index_presence.
Qed.

Lemma fold_pack_attributes (l : list (nat * GeometryInfo)) (st : Packing) :
  pAttributes (fold_left (packRegion h) l st)
  = map (fun na => (fst na, packArray l (pNextVertexStart st) (snd na)))
        (pAttributes st).
Proof.
  revert st. induction l as [| e rest IH]; intros st; cbn [fold_left].
  - rewrite <- (map_id (pAttributes st)) at 1. apply map_ext. intros [k a]. reflexivity.
  - rewrite IH, packRegion_attributes, map_map.
    destruct (packRegion_cursors h st e) as [HV _]. rewrite HV.
    apply map_ext. intros [k a]. reflexivity.
Qed.

Lemma fold_pack_table_other (l : list (nat * GeometryInfo)) (st : Packing) (i : Z) :
  isSome (pIndex st) = h ->
  (forall e, In e l -> i <> Z.of_nat (fst e)) ->
  tlookup (pTable (fold_left (packRegion h) l st)) i = tlookup (pTable st) i.
Proof.
  revert st. induction l as [| [j r] rest IH]; intros st Hh Hnot; cbn [fold_left];
    [reflexivity |].
  rewrite IH.
  - rewrite packRegion_table by assumption. apply tlookup_tset_other.
    apply (Hnot (j, r)). left. reflexivity.
  - rewrite packRegion_index_presence. assumption.
  - intros e He. apply Hnot. right. assumption.
Qed.

Lemma fold_pack_table_at (pre post : list (nat * GeometryInfo)) (i : nat)
      (r : GeometryInfo) (st : Packing) :
  isSome (pIndex st) = h ->
  ~ In i (map fst post) ->
  tlookup (pTable (fold_left (packRegion h) (pre ++ (i, r) :: post) st)) (Z.of_nat i)
  = Some (packedRecord h (pNextVertexStart st + sumVertexCount pre)
                       (pNextIndexStart st + sumIndexCount h pre) r).
Proof.
  intros Hh Hnot. rewrite fold_left_app. cbn [fold_left].
  set (st1 := fold_left (packRegion h) pre st).
  assert (Hh1 : isSome (pIndex st1) = h)
    by (unfold st1; rewrite fold_pack_index_presence; assumption).
  rewrite fold_pack_table_other.
  - rewrite packRegion_table by assumption. rewrite tlookup_tset_same.
    destruct (fold_pack_cursors pre st) as [HV HI]. fold st1 in HV, HI.
    rewrite HV, HI. reflexivity.
  - rewrite packRegion_index_presence. assumption.
  - intros e He Heq. apply Hnot. apply in_map_iff. exists e.
    split; [lia | assumption].
Qed.

End PackingLoop.

(** ** One attribute array through the packing loop *)

Section PackArray.

Variable cap : Z.

Local Abbreviation holds := (holdsVertices cap).

Lemma packArray_layout (l : list (nat * GeometryInfo)) (n : Z) (a : BufferAttribute) :
  itemSize (packArray l n a) = itemSize a
  /\ len (array (packArray l n a)) = len (array a).
Proof.
  revert n a. induction l as [| e rest IH]; intros n a; cbn [packArray]; [auto |].
  destruct (negb (vertexStart (snd e) =? n)).
  - destruct (IH (n + vertexCount (snd e))
                 (mkAttr (copyWithin (array a) (n * itemSize a)
                            (vertexStart (snd e) * itemSize a)
                            ((vertexStart (snd e) + vertexCount (snd e)) * itemSize a))
                         (itemSize a) (normalized a))) as [H1 H2].
    rewrite H1, H2. cbn [itemSize array]. rewrite len_copyWithin. auto.
  - apply IH.
Qed.

Lemma packArray_app (pre post : list (nat * GeometryInfo)) (n : Z) (a : BufferAttribute) :
  packArray (pre ++ post) n a
  = packArray post (n + sumVertexCount pre) (packArray pre n a).
Proof.
  revert n a. induction pre as [| e rest IH]; intros n a; cbn [app packArray sumVertexCount fold_right].
  - rewrite Z.add_0_r. reflexivity.
  - rewrite IH. fold (sumVertexCount rest). f_equal. lia.
Qed.

Lemma packsDownward_app (pre post : list (nat * GeometryInfo)) (n : Z) :
  packsDownward n (pre ++ post) <->
  packsDownward n pre /\ packsDownward (n + sumVertexCount pre) post.
Proof.
  revert n. induction pre as [| e rest IH]; intros n;
    cbn [app packsDownward sumVertexCount fold_right].
  - rewrite Z.add_0_r. tauto.
  - fold (sumVertexCount rest). rewrite IH.
    replace (n + vertexCount (snd e) + sumVertexCount rest)
      with (n + (vertexCount (snd e) + sumVertexCount rest)) by lia.
    tauto.
Qed.

Lemma packsDownward_sum (l : list (nat * GeometryInfo)) (n : Z) :
  packsDownward n l -> 0 <= sumVertexCount l.
Proof.
  revert n. induction l as [| e rest IH]; intros n; cbn [packsDownward sumVertexCount fold_right];
    [lia |].
  fold (sumVertexCount rest). intros [Hc [_ Hrest]]. apply IH in Hrest. lia.
Qed.

(** One vertex move, read back. *)
Lemma move_facts (a : BufferAttribute) (n vs c : Z) :
  holds a -> 0 <= n -> n <= vs -> 0 <= c -> vs + c <= cap ->
  let a1 := if negb (vs =? n)
            then mkAttr (copyWithin (array a) (n * itemSize a) (vs * itemSize a)
                                    ((vs + c) * itemSize a))
                        (itemSize a) (normalized a)
            else a in
  holds a1
  /\ itemSize a1 = itemSize a
  /\ (forall p, p < n * itemSize a \/ (n + c) * itemSize a <= p ->
                get (array a1) p = get (array a) p)
  /\ (forall k, 0 <= k < c * itemSize a ->
                get (array a1) (n * itemSize a + k) = get (array a) (vs * itemSize a + k)).
Proof.
  intros [Hsz Hcap] Hn Hle Hc Hend.
  destruct (vs =? n) eqn:Heq; cbn [negb].
  - apply Z.eqb_eq in Heq. subst vs. cbn zeta.
    split; [split; assumption |]. split; [reflexivity |]. split; auto.
  - cbn zeta. cbn [itemSize array].
    assert (H1 : 0 <= n * itemSize a) by nia.
    assert (H2 : 0 <= vs * itemSize a <= (vs + c) * itemSize a) by nia.
    assert (H3 : (vs + c) * itemSize a <= len (array a)) by nia.
    assert (H4 : n * itemSize a + ((vs + c) * itemSize a - vs * itemSize a)
                 <= len (array a)) by nia.
    split; [| split; [reflexivity | split]].
    + unfold holdsVertices. cbn [itemSize array]. rewrite len_copyWithin.
      split; assumption.
    + intros p Hp. apply get_copyWithin_elsewhere; try assumption. nia.
    + intros k Hk. rewrite get_copyWithin_moved; try assumption; [| nia].
      f_equal. lia.
Qed.

Lemma packArray_below (l : list (nat * GeometryInfo)) (n : Z) (a : BufferAttribute) (p : Z) :
  holds a -> 0 <= n -> packsDownward n l -> endsWithin cap l ->
  p < n * itemSize a ->
  get (array (packArray l n a)) p = get (array a) p.
Proof.
  revert n a. induction l as [| e rest IH]; intros n a Ha Hn Hdown Hends Hp;
    cbn [packArray]; [reflexivity |].
  destruct Hdown as [Hc [Hle Hrest]]. inversion Hends as [| ? ? Hend Hends']; subst.
  destruct (move_facts a n (vertexStart (snd e)) (vertexCount (snd e)) Ha Hn Hle Hc Hend)
    as [Ha1 [Hsz1 [Hout _]]].
  rewrite IH; try assumption; [| lia |].
  - apply Hout. left. assumption.
  - rewrite Hsz1. destruct Ha as [Hsz _]. nia.
Qed.

Lemma packArray_above (l : list (nat * GeometryInfo)) (n : Z) (a : BufferAttribute) (p : Z) :
  holds a -> 0 <= n -> packsDownward n l -> endsWithin cap l ->
  (n + sumVertexCount l) * itemSize a <= p ->
  get (array (packArray l n a)) p = get (array a) p.
Proof.
  revert n a. induction l as [| e rest IH]; intros n a Ha Hn Hdown Hends Hp;
    cbn [packArray]; [reflexivity |].
  cbn [sumVertexCount fold_right] in Hp. fold (sumVertexCount rest) in Hp.
  destruct Hdown as [Hc [Hle Hrest]]. inversion Hends as [| ? ? Hend Hends']; subst.
  pose proof (packsDownward_sum rest _ Hrest) as Hsum.
  destruct (move_facts a n (vertexStart (snd e)) (vertexCount (snd e)) Ha Hn Hle Hc Hend)
    as [Ha1 [Hsz1 [Hout _]]].
  rewrite IH; try assumption; [| lia |].
  - apply Hout. right. destruct Ha as [Hsz _]. nia.
  - rewrite Hsz1. replace (n + vertexCount (snd e) + sumVertexCount rest)
      with (n + (vertexCount (snd e) + sumVertexCount rest)) by lia. assumption.
Qed.

(** The used vertices of a region are, after the loop, at the offset the
    region is packed to. *)
Lemma packArray_data (pre post : list (nat * GeometryInfo)) (e : nat * GeometryInfo)
      (a : BufferAttribute) (k : Z) :
  holds a -> packsDownward 0 (pre ++ e :: post) -> endsWithin cap (pre ++ e :: post) ->
  0 <= k < vertexCount (snd e) * itemSize a ->
  get (array (packArray (pre ++ e :: post) 0 a)) (sumVertexCount pre * itemSize a + k)
  = get (array a) (vertexStart (snd e) * itemSize a + k).
Proof.
  intros Ha Hdown Hends Hk.
  apply packsDownward_app in Hdown. destruct Hdown as [Hpre Hrest].
  cbn [packsDownward] in Hrest. destruct Hrest as [Hc [Hle Hpost]].
  rewrite Z.add_0_l in Hle, Hpost.
  unfold endsWithin in Hends. apply Forall_app in Hends. destruct Hends as [Hepre Hepost].
  inversion Hepost as [| ? ? Hend Hepost']; subst.
  pose proof (packsDownward_sum pre 0 Hpre) as Hsum.
  destruct (packArray_layout pre 0 a) as [HszP HlenP].
  assert (HaP : holds (packArray pre 0 a)).
  { unfold holdsVertices. rewrite HszP, HlenP. exact Ha. }
  rewrite packArray_app. cbn [packArray snd]. rewrite Z.add_0_l.
  set (aP := packArray pre 0 a) in *.
  destruct (move_facts aP (sumVertexCount pre) (vertexStart (snd e))
                       (vertexCount (snd e)) HaP Hsum Hle Hc Hend)
    as [Ha1 [Hsz1 [_ Hmoved]]].
  replace (sumVertexCount pre * itemSize a + k)
    with (sumVertexCount pre * itemSize aP + k) by (rewrite HszP; reflexivity).
  rewrite packArray_below; try assumption; [| lia |].
  - rewrite Hmoved by (rewrite HszP; assumption).
    rewrite HszP. apply packArray_above; try assumption; [lia |].
    destruct Ha as [Hsz _]. rewrite Z.add_0_l. nia.
  - rewrite Hsz1, HszP. lia.
Qed.

End PackArray.

Lemma ascending_packsDownward (l : list (nat * GeometryInfo)) (n m : Z) :
  ascendingFrom n l -> m <= n -> packsDownward m l.
Proof.
  revert n m. induction l as [| e rest IH]; intros n m; cbn [ascendingFrom packsDownward];
    [tauto |].
  intros [Hc [Hle Hrest]] Hm. split; [assumption |]. split; [lia |].
  apply (IH _ _ Hrest). lia.
Qed.

Lemma lookupAttr_map (F : BufferAttribute -> BufferAttribute) (name : string)
      (l : Attributes) :
  lookupAttr name (map (fun na => (fst na, F (snd na))) l)
  = option_map F (lookupAttr name l).
Proof.
  induction l as [| [n a] rest IH]; simpl; [reflexivity |].
  destruct (String.eqb n name); [reflexivity | exact IH].
Qed.

Lemma get_fold_zero (ks : list Z) (a : list Z) (p : Z) :
  In p ks -> get (fold_left (fun acc i => set acc i 0) ks a) p = 0.
Proof.
  revert a. induction ks as [| k rest IH]; intros a Hin; [contradiction |].
  cbn [fold_left]. destruct (in_dec Z.eq_dec p rest) as [Hrest | Hrest].
  - apply IH. assumption.
  - destruct Hin as [-> | Hin]; [| contradiction].
    rewrite (get_fold_set_outside rest (fun i => i) (fun _ _ => 0))
      by (intros k Hk ->; contradiction).
    destruct (Z_lt_ge_dec p 0) as [Hneg | Hpos].
    + unfold get. apply Z.ltb_lt in Hneg. rewrite Hneg. reflexivity.
    + destruct (Z_lt_ge_dec p (len a)) as [Hin | Hout].
      * apply get_set_same. lia.
      * apply get_outside. rewrite len_set. lia.
Qed.

Lemma clearTrailingIndices_zero (ix : IndexAttribute) (from p : Z) :
  from <= p -> getX (clearTrailingIndices ix from) p = 0.
Proof.
  intros Hp. unfold getX, clearTrailingIndices. cbn [idata].
  destruct (Z_lt_ge_dec p (len (idata ix))) as [Hin | Hout].
  - apply get_fold_zero. apply In_loop. lia.
  - apply get_outside.
    rewrite (len_fold_set _ (fun i => i) (fun _ _ => 0)). lia.
Qed.

(** ** Compaction *)

(** C2, as stated, fails: after [optimize] of the scenario batch the
    packed size is 10 vertices, and the vertex buffer behind it still
    holds the stale first coordinate 20 of the moved region: the unused
    tail of the vertex buffer is not zeroed. *)
Lemma C2_vertex_tail_not_zeroed :
  nextVertexStart (optimize Scenario.s4) = 10
  /\ option_map (fun a => get (array a) (10 * itemSize a))
                (lookupAttr "position" (attributes (geometry (optimize Scenario.s4))))
     = Some 20.
Proof. split; vm_compute; reflexivity. Qed.

(** C2, amended: [optimize] visits the active regions in ascending order
    of their current [vertexStart] (a stable sort of the live handles)
    and packs their used vertex ranges contiguously from offset 0: each
    region's record moves to the sum of the used counts before it, its
    vertex data is found there unchanged in every attribute array, and
    its index range starts at the sum of the index counts before it.
    Records of deleted regions are untouched.  The cursors and the draw
    range are exactly the packed size, the index array reads zero from
    the packed index count on, and the vertex arrays are left as they
    were from the packed vertex count on. *)
Theorem C2_optimize_packs (b : Batch) (cap : Z) :
  let hasIndex := isSome (index (geometry b)) in
  let order := packingOrder b in
  packsDownward 0 order -> endsWithin cap order ->
  (forall i r, In (i, r) order <->
               tlookup (geometryInfo b) (Z.of_nat i) = Some r /\ active r = true)
  /\ StronglySorted vertexStartLe order
  /\ (forall k, filter (fun e => vertexStart (snd e) =? k) order
                = filter (fun e => vertexStart (snd e) =? k)
                         (activeEntries (geometryInfo b) 0))
  /\ (forall pre i r post,
        order = pre ++ (i, r) :: post ->
        tlookup (geometryInfo (optimize b)) (Z.of_nat i)
        = Some (packedRecord hasIndex (sumVertexCount pre)
                             (sumIndexCount hasIndex pre) r)
        /\ forall name a,
             lookupAttr name (attributes (geometry b)) = Some a ->
             holdsVertices cap a ->
             exists a',
               lookupAttr name (attributes (geometry (optimize b))) = Some a'
               /\ itemSize a' = itemSize a
               /\ forall k, 0 <= k < vertexCount r * itemSize a ->
                            get (array a') (sumVertexCount pre * itemSize a + k)
                            = get (array a) (vertexStart r * itemSize a + k))
  /\ (forall i r, tlookup (geometryInfo b) i = Some r -> active r = false ->
                  tlookup (geometryInfo (optimize b)) i = Some r)
  /\ nextVertexStart (optimize b) = sumVertexCount order
  /\ nextIndexStart (optimize b) = sumIndexCount hasIndex order
  /\ drawRange (geometry (optimize b))
     = mkRange 0 (Some (if hasIndex then sumIndexCount hasIndex order
                        else sumVertexCount order))
  /\ (forall ix', index (geometry (optimize b)) = Some ix' ->
                  forall p, sumIndexCount hasIndex order <= p -> getX ix' p = 0)
  /\ (forall name a,
        lookupAttr name (attributes (geometry b)) = Some a ->
        holdsVertices cap a ->
        exists a',
          lookupAttr name (attributes (geometry (optimize b))) = Some a'
          /\ forall p, sumVertexCount order * itemSize a <= p ->
                       get (array a') p = get (array a) p).
Proof.
  intros hasIndex order Hdown Hends.
  set (st0 := mkPacking (attributes (geometry b)) (index (geometry b))
                        (geometryInfo b) 0 0).
  assert (Hall : packAll b = fold_left (packRegion hasIndex) order st0) by reflexivity.
  assert (Hh0 : isSome (pIndex st0) = hasIndex) by reflexivity.
  destruct (fold_pack_cursors hasIndex order st0) as [HV HI].
  cbn [st0 pNextVertexStart pNextIndexStart] in HV, HI. rewrite Z.add_0_l in HV, HI.
  pose proof (fold_pack_attributes hasIndex order st0) as HA.
  cbn [st0 pNextVertexStart pAttributes] in HA.
  split; [intros i r; apply packingOrder_live |].
  split; [apply packing_sorted |].
  split; [intros k; apply packing_stable |].
  split.
  { intros pre i r post Horder. split.
    - unfold optimize. cbn [geometryInfo]. rewrite Hall, Horder.
      rewrite (fold_pack_table_at hasIndex pre post i r st0 Hh0).
      + reflexivity.
      + pose proof (packingOrder_NoDup b) as Hnd. fold order in Hnd.
        rewrite Horder, map_app in Hnd. cbn [map fst] in Hnd.
        apply NoDup_remove_2 in Hnd. intros Hin. apply Hnd.
        apply in_or_app. right. assumption.
    - intros name a Hlk Ha. exists (packArray order 0 a).
      unfold optimize. cbn [geometry attributes]. rewrite Hall, HA.
      rewrite lookupAttr_map, Hlk. split; [reflexivity |].
      split; [apply packArray_layout |].
      intros k Hk. rewrite Horder.
      apply (packArray_data cap pre post (i, r) a k Ha);
        [rewrite <- Horder; assumption | rewrite <- Horder; assumption | assumption]. }
  split.
  { intros i r Hlk Hact. unfold optimize. cbn [geometryInfo]. rewrite Hall.
    rewrite (fold_pack_table_other hasIndex order st0 i Hh0); [exact Hlk |].
    intros [j rj] Hin Heq. cbn [fst] in Heq. subst i.
    apply packingOrder_live in Hin. destruct Hin as [Hlk' Hact'].
    congruence. }
  split; [unfold optimize; cbn [nextVertexStart]; rewrite Hall; exact HV |].
  split; [unfold optimize; cbn [nextIndexStart]; rewrite Hall; exact HI |].
  split.
  { unfold optimize. cbn [geometry drawRange]. rewrite Hall, HV, HI. reflexivity. }
  split.
  { intros ix' Hix p Hp. unfold optimize in Hix. cbn [geometry index] in Hix.
    rewrite Hall, HI in Hix.
    destruct (pIndex (fold_left (packRegion hasIndex) order st0)) as [ixp |];
      [| discriminate].
    inversion Hix; subst. apply clearTrailingIndices_zero. assumption. }
  intros name a Hlk Ha. exists (packArray order 0 a).
  unfold optimize. cbn [geometry attributes]. rewrite Hall, HA.
  rewrite lookupAttr_map, Hlk. split; [reflexivity |].
  intros p Hp. apply (packArray_above cap order 0 a p Ha); try assumption; lia.
Qed.

(** C2 on the scenario batch, whose buffers hold 1000 vertices. *)
Lemma C2_optimize_packs_witness :
  packsDownward 0 (packingOrder Scenario.s4)
  /\ endsWithin 1000 (packingOrder Scenario.s4)
  /\ nextVertexStart (optimize Scenario.s4) = sumVertexCount (packingOrder Scenario.s4).
Proof.
  assert (H1 : packsDownward 0 (packingOrder Scenario.s4)).
  { vm_compute. repeat (split; try (intro H; discriminate H)). }
  assert (H2 : endsWithin 1000 (packingOrder Scenario.s4)).
  { unfold endsWithin.
    let l := eval vm_compute in (packingOrder Scenario.s4) in
    replace (packingOrder Scenario.s4) with l by (vm_compute; reflexivity).
    repeat (apply Forall_cons; [vm_compute; intro H; discriminate H |]).
    apply Forall_nil. }
  split; [exact H1 |]. split; [exact H2 |].
  exact (proj1 (proj2 (proj2 (proj2 (proj2 (proj2
           (C2_optimize_packs Scenario.s4 1000 H1 H2))))))).
Defined.

(** ** Ray intersection across compaction *)

(** C1: compaction changes the ray-intersection results of a live handle.
    In the example batch (indexed segments at x = 0, 10, 20, the first
    deleted) a pick ray through (10, 0) hits handle 1.  [optimize] moves
    the vertices of handle 1 to offset 0 and those of handle 2 to offset
    2, but the index entries of handle 1 still read 2 and 3: [delta] is
    taken after [vertexStart] was overwritten and is always 0.  After
    [optimize] handle 1 is tested against the segment of handle 2 and the
    same ray hits nothing; its cached box and its visibility are
    unchanged. *)
Theorem C1_optimize_changes_ray_results :
  let before := PickRay.raycast Examples.i4 (10, 0) in
  let packed := optimize (stateOf before) in
  let after := PickRay.raycast packed (10, 0) in
  valueOf before = Some [mkHit 1000 (mkVec 10 0 0) 1 None]
  /\ valueOf after = Some []
  /\ regionSegments (stateOf before) 1 = [(mkVec 10 0 0, mkVec 11 0 0)]
  /\ regionSegments packed 1 = [(mkVec 20 0 0, mkVec 21 0 0)]
  /\ valueOf (getBoundingBoxAt packed 1) = valueOf (getBoundingBoxAt (stateOf before) 1)
  /\ valueOf (getVisibleAt packed 1) = valueOf (getVisibleAt (stateOf before) 1).
Proof.
  cbv zeta.
  repeat (apply conj; [vm_compute; reflexivity |]).
  vm_compute; reflexivity.
Qed.

(** The remap of [optimize] never changes an index value: whatever the
    region and the cursors, the offset it adds is 0. *)
Lemma packRegion_delta_is_zero (nextV : Z) (info : GeometryInfo) :
  let info1 := if negb (vertexStart info =? nextV)
               then with_vertexStart info nextV else info in
  nextV - vertexStart info1 = 0.
Proof.
  cbv zeta. destruct (vertexStart info =? nextV) eqn:E; cbn [negb].
  - apply Z.eqb_eq in E. lia.
  - destruct info. cbn. lia.
Qed.

(** ** Attribute sets and schemas *)

Lemma lookupAttr_None (name : string) (l : Attributes) :
  lookupAttr name l = None <-> ~ In name (map fst l).
Proof.
  induction l as [| [n a] rest IH]; simpl; [tauto |].
  destruct (String.eqb n name) eqn:E.
  - apply String.eqb_eq in E. split; [discriminate | intros H; exfalso; apply H; auto].
  - apply String.eqb_neq in E. rewrite IH. tauto.
Qed.

Lemma lookupAttr_NoDup (na : string * BufferAttribute) (l : Attributes) :
  NoDup (map fst l) -> In na l -> lookupAttr (fst na) l = Some (snd na).
Proof.
  induction l as [| [n a] rest IH]; simpl; [tauto |].
  intros Hnd [Heq | Hin].
  - subst na. cbn [fst snd]. rewrite String.eqb_refl. reflexivity.
  - inversion Hnd as [| ? ? Hnot Hrest]; subst.
    destruct (String.eqb n (fst na)) eqn:E.
    + apply String.eqb_eq in E. subst n. exfalso. apply Hnot.
      apply in_map. assumption.
    + apply IH; assumption.
Qed.

Lemma setAttr_fresh (n : string) (x : BufferAttribute) (acc : Attributes) :
  ~ In n (map fst acc) -> setAttr n x acc = acc ++ [(n, x)].
Proof.
  induction acc as [| [m a] rest IH]; simpl; [reflexivity |].
  intros Hnot. destruct (String.eqb m n) eqn:E.
  - apply String.eqb_eq in E. exfalso. apply Hnot. left. assumption.
  - rewrite IH; [reflexivity | tauto].
Qed.

Lemma fold_setAttr_NoDup (F : BufferAttribute -> BufferAttribute)
      (l acc : Attributes) :
  NoDup (map fst l) ->
  (forall n, In n (map fst l) -> ~ In n (map fst acc)) ->
  fold_left (fun acc0 (na : string * BufferAttribute) =>
               let '(name, src) := na in setAttr name (F src) acc0) l acc
  = acc ++ map (fun na => (fst na, F (snd na))) l.
Proof.
  revert acc. induction l as [| [n a] rest IH]; intros acc Hnd Hfresh; simpl.
  - rewrite app_nil_r. reflexivity.
  - inversion Hnd as [| ? ? Hnot Hrest]; subst.
    rewrite setAttr_fresh by (apply Hfresh; left; reflexivity).
    rewrite IH; [rewrite <- app_assoc; reflexivity | assumption |].
    intros m Hm Hin. rewrite map_app in Hin. apply in_app_or in Hin.
    destruct Hin as [Hin | [Heq | []]].
    + apply (Hfresh m); [right; assumption | assumption].
    + cbn [fst] in Heq. subst m. contradiction.
Qed.

(** Validation reads the batch only through its schema. *)
Lemma validateAttributes_schema (l l' : Attributes) (g : BufferGeometry) :
  map (fun na => (fst na, itemSize (snd na), normalized (snd na))) l
  = map (fun na => (fst na, itemSize (snd na), normalized (snd na))) l' ->
  validateAttributes l g = validateAttributes l' g.
Proof.
  revert l'. induction l as [| [n a] rest IH]; intros [| [n' a'] rest'] H;
    simpl in H; try discriminate; [reflexivity |].
  inversion H; subst. simpl.
  destruct (lookupAttr n' (attributes g)); [| reflexivity].
  match goal with H1 : itemSize a = itemSize a', H2 : normalized a = normalized a' |- _ =>
    rewrite H1, H2 end.
  rewrite (IH rest') by assumption. reflexivity.
Qed.

Lemma validateGeometry_schema (b b' : Batch) (g : BufferGeometry) :
  schemaOf (geometry b) = schemaOf (geometry b') ->
  validateGeometry b g = validateGeometry b' g.
Proof.
  unfold schemaOf, validateGeometry. intros H. injection H as Hix Hattrs.
  rewrite Hix. rewrite (validateAttributes_schema _ _ g Hattrs). reflexivity.
Qed.

(** An attribute that the batch does not have is not looked at. *)
Lemma lookupAttr_app_other (n name : string) (a : BufferAttribute) (l : Attributes) :
  n <> name -> lookupAttr n (l ++ [(name, a)]) = lookupAttr n l.
Proof.
  intros Hne. induction l as [| [m x] rest IH]; simpl.
  - destruct (String.eqb name n) eqn:E; [| reflexivity].
    apply String.eqb_eq in E. congruence.
  - destruct (String.eqb m n); [reflexivity | exact IH].
Qed.

Lemma validateAttributes_extra (l : Attributes) (g : BufferGeometry)
      (name : string) (a : BufferAttribute) :
  ~ In name (map fst l) ->
  validateAttributes l (withExtra g name a) = validateAttributes l g.
Proof.
  induction l as [| [n dst] rest IH]; simpl; [reflexivity |].
  intros Hnot. rewrite lookupAttr_app_other by tauto.
  destruct (lookupAttr n (attributes g)); [| reflexivity].
  rewrite IH by tauto. reflexivity.
Qed.

(** ** Growth keeps the schema and the bookkeeping *)

Lemma setGeometrySize_attributes (b : Batch) (maxV maxI : Q) :
  geometryInitialized b = true ->
  NoDup (map fst (attributes (geometry b))) ->
  attributes (geometry (setGeometrySize b maxV maxI))
  = map (fun na => (fst na, resizedAttr maxV (snd na))) (attributes (geometry b)).
Proof.
  intros Hinit Hnd. unfold setGeometrySize. rewrite Hinit.
  cbn [geometry attributes initializeGeometry_into emptyGeometry].
  rewrite (fold_setAttr_NoDup
             (fun src => mkAttr (zeros (toLength (maxV * inject_Z (itemSize src))%Q))
                                (itemSize src) (normalized src)))
    by (auto; intros n _ []).
  cbn [app]. rewrite map_map. apply map_ext_in. intros na Hin. cbn [fst snd].
  rewrite (lookupAttr_NoDup na _ Hnd Hin). reflexivity.
Qed.

Lemma setGeometrySize_index (b : Batch) (maxV maxI : Q) :
  geometryInitialized b = true ->
  index (geometry (setGeometrySize b maxV maxI))
  = option_map (resizedIndex maxV maxI) (index (geometry b)).
Proof.
  intros Hinit. unfold setGeometrySize. rewrite Hinit.
  cbn [geometry index initializeGeometry_into emptyGeometry].
  destruct (index (geometry b)); reflexivity.
Qed.

Lemma setGeometrySize_schema (b : Batch) (maxV maxI : Q) :
  geometryInitialized b = true ->
  NoDup (map fst (attributes (geometry b))) ->
  schemaOf (geometry (setGeometrySize b maxV maxI)) = schemaOf (geometry b).
Proof.
  intros Hinit Hnd. unfold schemaOf.
  rewrite setGeometrySize_attributes, setGeometrySize_index by assumption.
  rewrite map_map. cbn [fst snd resizedAttr itemSize normalized].
  destruct (index (geometry b)); reflexivity.
Qed.

Lemma setGeometrySize_fields (b : Batch) (maxV maxI : Q) :
  geometryInfo (setGeometrySize b maxV maxI) = geometryInfo b
  /\ availableGeometryIds (setGeometrySize b maxV maxI) = availableGeometryIds b
  /\ nextIndexStart (setGeometrySize b maxV maxI) = nextIndexStart b
  /\ nextVertexStart (setGeometrySize b maxV maxI) = nextVertexStart b
  /\ geometryCount (setGeometrySize b maxV maxI) = geometryCount b
  /\ geometryInitialized (setGeometrySize b maxV maxI) = geometryInitialized b
  /\ maxVertexCount (setGeometrySize b maxV maxI) = maxV
  /\ maxIndexCount (setGeometrySize b maxV maxI) = maxI.
Proof.
  unfold setGeometrySize. destruct (geometryInitialized b) eqn:E; cbn; rewrite ?E; tauto.
Qed.

Lemma resizeSpaceIfNeeded_cases (b : Batch) (g : BufferGeometry) :
  (resizeSpaceIfNeeded b g = b
   /\ Qgtb (newMaxIndexCount b g) (maxIndexCount b) = false
   /\ Qgtb (newMaxVertexCount b g) (maxVertexCount b) = false)
  \/ (resizeSpaceIfNeeded b g
      = setGeometrySize b (newMaxVertexCount b g) (newMaxIndexCount b g)
      /\ (Qgtb (newMaxIndexCount b g) (maxIndexCount b) = true
          \/ Qgtb (newMaxVertexCount b g) (maxVertexCount b) = true)).
Proof.
  unfold resizeSpaceIfNeeded.
  destruct (Qgtb (newMaxIndexCount b g) (maxIndexCount b));
    destruct (Qgtb (newMaxVertexCount b g) (maxVertexCount b)); cbn; auto.
Qed.

Lemma resizeSpaceIfNeeded_fields (b : Batch) (g : BufferGeometry) :
  geometryInfo (resizeSpaceIfNeeded b g) = geometryInfo b
  /\ availableGeometryIds (resizeSpaceIfNeeded b g) = availableGeometryIds b
  /\ nextIndexStart (resizeSpaceIfNeeded b g) = nextIndexStart b
  /\ nextVertexStart (resizeSpaceIfNeeded b g) = nextVertexStart b
  /\ geometryCount (resizeSpaceIfNeeded b g) = geometryCount b
  /\ geometryInitialized (resizeSpaceIfNeeded b g) = geometryInitialized b.
Proof.
  destruct (resizeSpaceIfNeeded_cases b g) as [[-> _] | [-> _]]; [tauto |].
  pose proof (setGeometrySize_fields b (newMaxVertexCount b g) (newMaxIndexCount b g)).
  tauto.
Qed.

Lemma resizeSpaceIfNeeded_schema (b : Batch) (g : BufferGeometry) :
  geometryInitialized b = true ->
  NoDup (map fst (attributes (geometry b))) ->
  schemaOf (geometry (resizeSpaceIfNeeded b g)) = schemaOf (geometry b).
Proof.
  intros Hinit Hnd.
  destruct (resizeSpaceIfNeeded_cases b g) as [[-> _] | [-> _]]; [reflexivity |].
  apply setGeometrySize_schema; assumption.
Qed.

Lemma schemaOf_keys (g g' : BufferGeometry) :
  schemaOf g = schemaOf g' -> map fst (attributes g) = map fst (attributes g').
Proof.
  unfold schemaOf. intros H. injection H as _ Hattrs.
  apply (f_equal (map (fun t : string * Z * bool => fst (fst t)))) in Hattrs.
  rewrite !map_map in Hattrs. exact Hattrs.
Qed.

(** ** Schema validation *)

Lemma validateAttributes_is_schema (l : Attributes) (g : BufferGeometry) (e : Error) :
  validateAttributes l g = Some e -> isSchemaMismatch e = true.
Proof.
  induction l as [| [n dst] rest IH]; simpl; [discriminate |].
  destruct (lookupAttr n (attributes g)) as [src |].
  - destruct (negb (itemSize src =? itemSize dst)
              || negb (Bool.eqb (normalized src) (normalized dst))).
    + intros H. inversion H. reflexivity.
    + exact IH.
  - intros H. inversion H. reflexivity.
Qed.

Lemma validateGeometry_is_schema (b : Batch) (g : BufferGeometry) (e : Error) :
  validateGeometry b g = Some e -> isSchemaMismatch e = true.
Proof.
  unfold validateGeometry.
  destruct (negb (Bool.eqb (isSome (index g)) (isSome (index (geometry b))))).
  - intros H. inversion H. reflexivity.
  - apply validateAttributes_is_schema.
Qed.

Section ExtraAttribute.

Variables (name : string) (a : BufferAttribute).
Hypothesis not_position : name <> "position"%string.

Lemma withBounds_extra (g : BufferGeometry) :
  withBounds (withExtra g name a) = withExtra (withBounds g) name a.
Proof.
  assert (Hpos : lookupAttr "position" (attributes g ++ [(name, a)])
                 = lookupAttr "position" (attributes g))
    by (apply lookupAttr_app_other; congruence).
  destruct g as [attrs ix bb bs dr]. cbn [attributes] in Hpos.
  unfold withBounds, computeBoundingBox, computeBoundingSphere, withExtra.
  destruct bb; destruct bs;
    cbn [isSome attributes index gBoundingBox gBoundingSphere drawRange];
    rewrite ?Hpos; reflexivity.
Qed.

Lemma validateGeometry_extra (b : Batch) (g : BufferGeometry) :
  ~ In name (map fst (attributes (geometry b))) ->
  validateGeometry b (withExtra g name a) = validateGeometry b g.
Proof.
  intros Hnot. unfold validateGeometry. cbn [withExtra index].
  rewrite validateAttributes_extra by assumption. reflexivity.
Qed.

Lemma resizeSpaceIfNeeded_extra (b : Batch) (g : BufferGeometry) :
  resizeSpaceIfNeeded b (withExtra g name a) = resizeSpaceIfNeeded b g.
Proof.
  unfold resizeSpaceIfNeeded, newMaxIndexCount, newMaxVertexCount, withExtra.
  cbn [attributes index]. rewrite lookupAttr_app_other by congruence. reflexivity.
Qed.

Lemma newRegion_extra (b : Batch) (g : BufferGeometry) (rv ri : Z) :
  newRegion b (withExtra g name a) rv ri = newRegion b g rv ri.
Proof.
  unfold newRegion, withExtra. cbn [attributes index gBoundingBox gBoundingSphere].
  rewrite lookupAttr_app_other by congruence. reflexivity.
Qed.

Lemma writeAttributes_extra (batchAttrs : Attributes) (g : BufferGeometry)
      (vStart reserved : Z) :
  ~ In name (map fst batchAttrs) ->
  writeAttributes batchAttrs (withExtra g name a) vStart reserved
  = writeAttributes batchAttrs g vStart reserved.
Proof.
  intros Hnot. unfold writeAttributes. apply map_ext_in. intros [n dst] Hin.
  cbn [withExtra attributes]. rewrite lookupAttr_app_other; [reflexivity |].
  intros ->. apply Hnot. apply (in_map fst) in Hin. exact Hin.
Qed.

Lemma setGeometryAt_extra (b : Batch) (id : Z) (g : BufferGeometry) :
  ~ In name (map fst (attributes (geometry b))) ->
  setGeometryAt b id (withExtra g name a) = setGeometryAt b id g.
Proof.
  intros Hnot. unfold setGeometryAt.
  rewrite validateGeometry_extra by assumption.
  destruct (id >=? geometryCount b); [reflexivity |].
  destruct (validateGeometry b g); [reflexivity |].
  destruct (tlookup (geometryInfo b) id) as [info |]; [| reflexivity].
  rewrite writeAttributes_extra by assumption.
  cbn [withExtra attributes index gBoundingBox gBoundingSphere].
  rewrite lookupAttr_app_other by congruence. reflexivity.
Qed.

Lemma addInitialized_extra (b : Batch) (g : BufferGeometry) (rv ri : Z) :
  geometryInitialized b = true ->
  NoDup (map fst (attributes (geometry b))) ->
  ~ In name (map fst (attributes (geometry b))) ->
  addInitialized b (withExtra g name a) rv ri = addInitialized b g rv ri.
Proof.
  intros Hinit Hnd Hnot. unfold addInitialized.
  rewrite validateGeometry_extra by assumption.
  destruct (validateGeometry b g); [reflexivity |].
  rewrite withBounds_extra, resizeSpaceIfNeeded_extra, newRegion_extra.
  set (G := withBounds g). set (b2 := resizeSpaceIfNeeded b G).
  destruct (newRegion b2 G rv ri) as [info |]; [| reflexivity].
  destruct (exceedsMaximum b2 info); [reflexivity |].
  assert (Hkeys : map fst (attributes (geometry b2)) = map fst (attributes (geometry b))).
  { apply schemaOf_keys, resizeSpaceIfNeeded_schema; assumption. }
  unfold allocateId.
  destruct (sortBy ascIdSort (availableGeometryIds b2)) as [| n rest];
    (rewrite setGeometryAt_extra; [reflexivity |]);
    cbn [geometry]; rewrite Hkeys; assumption.
Qed.

End ExtraAttribute.

(** ** Writes of a region stay at or above its start *)

Lemma fold_left_preserves {A K} (P : A -> Prop) (f : A -> K -> A) (ks : list K) (a : A) :
  P a -> (forall x k, In k ks -> P x -> P (f x k)) -> P (fold_left f ks a).
Proof.
  revert a. induction ks as [| k rest IH]; intros a Ha Hstep; simpl; [assumption |].
  apply IH.
  - apply Hstep; [left; reflexivity | assumption].
  - intros x k' Hin. apply Hstep. right. assumption.
Qed.

Lemma sameBelow_refl (q0 : Z) (a : BufferAttribute) : sameBelow q0 a a.
Proof. split; auto. Qed.

Lemma sameBelow_trans (q0 : Z) (a a' a'' : BufferAttribute) :
  sameBelow q0 a a' -> sameBelow q0 a' a'' -> sameBelow q0 a a''.
Proof.
  intros [H1 H2] [H3 H4]. split; [congruence |].
  intros q Hq. rewrite H4, H2 by assumption. reflexivity.
Qed.

Lemma setComponent_sameBelow (q0 : Z) (a a' : BufferAttribute) (i c v : Z) :
  sameBelow q0 a a' -> q0 <= i * itemSize a + c ->
  sameBelow q0 a (setComponent a' i c v).
Proof.
  intros [Hsz Hget] Hpos. unfold setComponent. split; [exact Hsz |].
  cbn [array]. intros q Hq. rewrite get_set_other by (rewrite Hsz; lia).
  apply Hget. assumption.
Qed.

Lemma copyAttributeData_sameBelow (src dst : BufferAttribute) (offset : Z) :
  0 <= offset ->
  sameBelow (offset * itemSize dst) dst (copyAttributeData src dst offset).
Proof.
  intros Hoff. unfold copyAttributeData.
  apply (fold_left_preserves (sameBelow (offset * itemSize dst) dst));
    [apply sameBelow_refl |].
  intros x i Hi Hx. apply In_loop in Hi.
  apply (fold_left_preserves (sameBelow (offset * itemSize dst) dst)); [assumption |].
  intros y c Hc Hy. apply In_loop in Hc.
  apply setComponent_sameBelow; [assumption | nia].
Qed.

Lemma zeroFill_sameBelow (dst : BufferAttribute) (vStart from to size : Z) :
  0 <= from -> 0 <= itemSize dst ->
  sameBelow (vStart * itemSize dst) dst (zeroFill dst vStart from to size).
Proof.
  intros Hfrom Hsz. unfold zeroFill.
  apply (fold_left_preserves (sameBelow (vStart * itemSize dst) dst));
    [apply sameBelow_refl |].
  intros x i Hi Hx. apply In_loop in Hi.
  apply (fold_left_preserves (sameBelow (vStart * itemSize dst) dst)); [assumption |].
  intros y c Hc Hy. apply In_loop in Hc.
  apply setComponent_sameBelow; [assumption | nia].
Qed.

Lemma count_of_nonneg (a : BufferAttribute) : 0 <= itemSize a -> 0 <= count_of a.
Proof.
  intros H. unfold count_of, len.
  destruct (Z.eq_dec (itemSize a) 0) as [-> | Hne].
  - rewrite Z.div_0_r. lia.
  - apply Z.div_pos; lia.
Qed.

(** The region write of [setGeometryAt] on one attribute array. *)
Lemma writeAttribute_sameBelow (src dst : BufferAttribute) (vStart reserved : Z) :
  0 <= vStart -> 0 <= itemSize dst -> itemSize src = itemSize dst ->
  sameBelow (vStart * itemSize dst) dst
            (zeroFill (copyAttributeData src dst vStart) vStart (count_of src)
                      reserved (itemSize src)).
Proof.
  intros Hv Hsz Heq.
  pose proof (copyAttributeData_sameBelow src dst vStart Hv) as H1.
  eapply sameBelow_trans; [exact H1 |].
  destruct H1 as [Hsz1 _].
  pose proof (zeroFill_sameBelow (copyAttributeData src dst vStart) vStart
                                 (count_of src) reserved (itemSize src)) as H2.
  rewrite Hsz1 in H2. apply H2; [| assumption].
  apply count_of_nonneg. lia.
Qed.

Lemma setX_below (ix : IndexAttribute) (i v q : Z) :
  q <> i -> getX (setX ix i v) q = getX ix q.
Proof. intros H. unfold getX, setX. cbn [idata]. apply get_set_other. congruence. Qed.

Lemma setX_kind (ix : IndexAttribute) (i v : Z) : ikind (setX ix i v) = ikind ix.
Proof. reflexivity. Qed.

Lemma writeIndex_below (dst src : IndexAttribute) (iStart reserved vStart q : Z) :
  q < iStart ->
  getX (writeIndex dst src iStart reserved vStart) q = getX dst q.
Proof.
  intros Hq. unfold writeIndex.
  set (P := fun d : IndexAttribute => getX d q = getX dst q).
  apply (fold_left_preserves P).
  - apply (fold_left_preserves P); [reflexivity |].
    intros x i Hi Hx. apply In_loop in Hi. unfold P in *.
    rewrite setX_below by lia. assumption.
  - intros x i Hi Hx. apply In_loop in Hi. unfold P in *.
    rewrite setX_below; [assumption |].
    pose proof (Zle_0_nat (List.length (idata src))). unfold icount, len in Hi. lia.
Qed.

(** ** The copy of a growth *)

Lemma nth_zeros_tail (k n m : nat) : nth k (skipn m (repeat 0 n)) 0 = 0.
Proof.
  destruct (Nat.lt_ge_cases k (List.length (skipn m (repeat 0 n)))) as [Hlt | Hge].
  - assert (Hin' : In (nth k (skipn m (repeat 0 n)) 0) (repeat 0 n)).
    { rewrite <- (firstn_skipn m (repeat 0 n)) at 2. apply in_or_app. right.
      apply nth_In. assumption. }
    apply repeat_spec in Hin'. assumption.
  - apply nth_overflow. assumption.
Qed.

Lemma get_copyArrayContents_zeros (src : list Z) (n q : Z) :
  q < n ->
  get (copyArrayContents src (zeros n)) q = get src q.
Proof.
  intros Hq. unfold get. destruct (q <? 0) eqn:Hneg; [reflexivity |].
  apply Z.ltb_ge in Hneg. unfold copyArrayContents, zeros.
  rewrite repeat_length.
  destruct (Nat.lt_ge_cases (Z.to_nat q) (List.length src)) as [Hin | Hout].
  - rewrite app_nth1 by (rewrite length_firstn; lia).
    rewrite nth_firstn.
    assert (H : (Z.to_nat q <? Z.to_nat n)%nat = true) by (apply Nat.ltb_lt; lia).
    rewrite H. reflexivity.
  - rewrite app_nth2 by (rewrite length_firstn; lia).
    rewrite nth_zeros_tail. symmetry. apply nth_overflow. assumption.
Qed.

Lemma resizedAttr_get (maxV : Q) (a : BufferAttribute) (q : Z) :
  q < toLength (maxV * inject_Z (itemSize a))%Q ->
  get (array (resizedAttr maxV a)) q = get (array a) q.
Proof. intros Hq. unfold resizedAttr. cbn [array]. apply get_copyArrayContents_zeros. assumption. Qed.

(** ** What a successful region write does *)

Lemma writeAttributes_keys (l : Attributes) (g : BufferGeometry) (vStart reserved : Z) :
  map fst (writeAttributes l g vStart reserved) = map fst l.
Proof.
  unfold writeAttributes. rewrite map_map. apply map_ext. intros [n dst].
  destruct (lookupAttr n (attributes g)); reflexivity.
Qed.

Lemma setGeometryAt_Ok (b : Batch) (id : Z) (g : BufferGeometry) (b' : Batch) (v : Z) :
  setGeometryAt b id g = Ok b' v ->
  v = id /\ id < geometryCount b /\ validateGeometry b g = None
  /\ exists info position info',
       tlookup (geometryInfo b) id = Some info
       /\ lookupAttr "position" (attributes g) = Some position
       /\ count_of position <= reservedVertexCount info
       /\ (forall d s, index (geometry b) = Some d -> index g = Some s ->
                       icount s <= reservedIndexCount info)
       /\ geometryInfo b' = tset (geometryInfo b) (Z.to_nat id) info'
       /\ (vertexStart info' = vertexStart info
           /\ reservedVertexCount info' = reservedVertexCount info
           /\ indexStart info' = indexStart info
           /\ reservedIndexCount info' = reservedIndexCount info
           /\ active info' = active info
           /\ visible info' = visible info
           /\ vertexCount info' = count_of position)
       /\ (availableGeometryIds b' = availableGeometryIds b
           /\ nextIndexStart b' = nextIndexStart b
           /\ nextVertexStart b' = nextVertexStart b
           /\ geometryCount b' = geometryCount b
           /\ geometryInitialized b' = geometryInitialized b
           /\ maxVertexCount b' = maxVertexCount b
           /\ maxIndexCount b' = maxIndexCount b)
       /\ attributes (geometry b')
          = writeAttributes (attributes (geometry b)) g (vertexStart info)
                            (reservedVertexCount info)
       /\ index (geometry b')
          = match index (geometry b), index g with
            | Some d, Some s =>
                Some (writeIndex d s (indexStart info) (reservedIndexCount info)
                                 (vertexStart info))
            | other, _ => other
            end.
Proof.
  unfold setGeometryAt.
  destruct (id >=? geometryCount b) eqn:Hid; [discriminate |].
  apply geb_false_inv in Hid.
  destruct (validateGeometry b g) eqn:Hval; [discriminate |].
  destruct (tlookup (geometryInfo b) id) as [info |] eqn:Hlk; [| discriminate].
  destruct (match index (geometry b), index g with
            | Some _, Some srcIndex => icount srcIndex >? reservedIndexCount info
            | _, _ => false
            end) eqn:Hix; [discriminate |].
  destruct (lookupAttr "position" (attributes g)) as [position |] eqn:Hpos;
    [| discriminate].
  destruct (count_of position >? reservedVertexCount info) eqn:Hcnt; [discriminate |].
  apply gtb_false_inv in Hcnt.
  assert (Hixle : forall d s, index (geometry b) = Some d -> index g = Some s ->
                              icount s <= reservedIndexCount info).
  { intros d s Hd Hs. rewrite Hd, Hs in Hix. apply gtb_false_inv. assumption. }
  destruct info as [vs vc rvc ist ic ric st ct bb bs act vis oid bbx].
  destruct (index (geometry b)) as [d |] eqn:Hd; destruct (index g) as [s |] eqn:Hs;
    cbn; intros H; inversion H; subst; clear H;
    (split; [reflexivity |]); (split; [assumption |]); (split; [reflexivity |]);
    eexists; eexists; eexists;
    (split; [reflexivity |]); (split; [reflexivity |]); (split; [exact Hcnt |]);
    (split; [exact Hixle |]); (split; [reflexivity |]); cbn; tauto.
Qed.

(** A throw of [setGeometryAt] leaves the batch as it was: every check
    comes before the first write. *)
Lemma setGeometryAt_Throw (b : Batch) (id : Z) (g : BufferGeometry) (e : Error) (s : Batch) :
  setGeometryAt b id g = Throw e s -> s = b.
Proof.
  unfold setGeometryAt.
  destruct (id >=? geometryCount b); [intros H; inversion H; reflexivity |].
  destruct (validateGeometry b g); [intros H; inversion H; reflexivity |].
  destruct (tlookup (geometryInfo b) id) as [info |]; [| intros H; inversion H; reflexivity].
  destruct (match index (geometry b), index g with
            | Some _, Some srcIndex => icount srcIndex >? reservedIndexCount info
            | _, _ => false
            end); [intros H; inversion H; reflexivity |].
  destruct (lookupAttr "position" (attributes g)) as [position |];
    [| intros H; inversion H; reflexivity].
  destruct (count_of position >? reservedVertexCount info);
    [intros H; inversion H; reflexivity |].
  destruct (index (geometry b)); destruct (index g); discriminate.
Qed.

(** ** What a successful insertion does *)

Lemma addInitialized_Ok (b1 : Batch) (g0 : BufferGeometry) (rv ri : Z)
      (b' : Batch) (id : Z) :
  addInitialized b1 g0 rv ri = Ok b' id ->
  let g := withBounds g0 in
  let b2 := resizeSpaceIfNeeded b1 g in
  validateGeometry b1 g0 = None
  /\ exists info b4,
       newRegion b2 g rv ri = Some info
       /\ exceedsMaximum b2 info = false
       /\ snd (allocateId b2 info) = id
       /\ setGeometryAt (fst (allocateId b2 info)) id g = Ok b4 id
       /\ b' = advanceCursors b4 info.
Proof.
  unfold addInitialized. cbv zeta.
  destruct (validateGeometry b1 g0); [discriminate |].
  destruct (newRegion (resizeSpaceIfNeeded b1 (withBounds g0)) (withBounds g0) rv ri)
    as [info |] eqn:Hnew; [| discriminate].
  destruct (exceedsMaximum (resizeSpaceIfNeeded b1 (withBounds g0)) info) eqn:Hex;
    [discriminate |].
  destruct (allocateId (resizeSpaceIfNeeded b1 (withBounds g0)) info) as [b3 gid] eqn:Hal.
  destruct (setGeometryAt b3 gid (withBounds g0)) as [b4 v | e s] eqn:Hset;
    cbn [bind]; [| discriminate].
  intros H. inversion H; subst; clear H.
  split; [reflexivity |]. exists info, b4.
  pose proof (setGeometryAt_Ok _ _ _ _ _ Hset) as [Hv _]. subst v.
  rewrite Hal. cbn [fst snd]. repeat split; auto.
Qed.

Lemma addInitialized_Throw (b1 : Batch) (g0 : BufferGeometry) (rv ri : Z)
      (e : Error) (s : Batch) :
  addInitialized b1 g0 rv ri = Throw e s ->
  let g := withBounds g0 in
  let b2 := resizeSpaceIfNeeded b1 g in
  (validateGeometry b1 g0 = Some e /\ s = b1)
  \/ (validateGeometry b1 g0 = None
      /\ (e = TypeError \/ e = ReservedExceedsMaximum) /\ s = b2)
  \/ (validateGeometry b1 g0 = None
      /\ exists info, newRegion b2 g rv ri = Some info
                      /\ exceedsMaximum b2 info = false
                      /\ s = fst (allocateId b2 info)).
Proof.
  unfold addInitialized. cbv zeta.
  destruct (validateGeometry b1 g0);
    [intros H; inversion H; left; auto |].
  destruct (newRegion (resizeSpaceIfNeeded b1 (withBounds g0)) (withBounds g0) rv ri)
    as [info |]; [| intros H; inversion H; right; left; auto].
  destruct (exceedsMaximum (resizeSpaceIfNeeded b1 (withBounds g0)) info) eqn:Hex;
    [intros H; inversion H; right; left; auto |].
  destruct (allocateId (resizeSpaceIfNeeded b1 (withBounds g0)) info) as [b3 gid] eqn:Hal.
  destruct (setGeometryAt b3 gid (withBounds g0)) as [b4 v | e' s'] eqn:Hset;
    cbn [bind]; [discriminate |].
  intros H. inversion H; subst; clear H.
  apply setGeometryAt_Throw in Hset. subst s.
  right; right. split; [reflexivity |]. exists info. rewrite Hal. cbn [fst]. auto.
Qed.

(** ** What a throw leaves behind *)

Lemma len_copyArrayContents_zeros (src : list Z) (n : Z) :
  len (copyArrayContents src (zeros n)) = Z.max 0 n.
Proof.
  unfold len, copyArrayContents, zeros.
  rewrite repeat_length, length_app, length_firstn, length_skipn, repeat_length. lia.
Qed.


Lemma allocateId_fields (b : Batch) (info : GeometryInfo) :
  nextVertexStart (fst (allocateId b info)) = nextVertexStart b
  /\ nextIndexStart (fst (allocateId b info)) = nextIndexStart b
  /\ geometry (fst (allocateId b info)) = geometry b
  /\ geometryInitialized (fst (allocateId b info)) = geometryInitialized b
  /\ maxVertexCount (fst (allocateId b info)) = maxVertexCount b
  /\ maxIndexCount (fst (allocateId b info)) = maxIndexCount b.
Proof.
  unfold allocateId. destruct (sortBy ascIdSort (availableGeometryIds b)); cbn; tauto.
Qed.


(** ** Capacities *)

Lemma Qltb_true (a b : Q) : Qltb a b = true <-> (a < b)%Q.
Proof.
  unfold Qltb. rewrite negb_true_iff. split.
  - intros H. apply Qnot_le_lt. intros Hle. apply Qle_bool_iff in Hle. congruence.
  - intros H. destruct (Qle_bool b a) eqn:E; [| reflexivity].
    apply Qle_bool_iff in E. exfalso. apply (Qlt_not_le _ _ H). assumption.
Qed.

Lemma Qltb_false (a b : Q) : Qltb a b = false <-> (b <= a)%Q.
Proof.
  unfold Qltb. rewrite negb_false_iff. apply Qle_bool_iff.
Qed.

Lemma Qgtb_false (a b : Q) : Qgtb a b = false <-> (a <= b)%Q.
Proof. unfold Qgtb. apply Qltb_false. Qed.

Lemma Qgtb_true (a b : Q) : Qgtb a b = true <-> (b < a)%Q.
Proof. unfold Qgtb. apply Qltb_true. Qed.

Lemma inject_Z_nonneg (n : Z) : 0 <= n -> (0 <= inject_Z n)%Q.
Proof. intros H. change 0%Q with (inject_Z 0). rewrite <- Zle_Qle. assumption. Qed.

(** A short tail grows the capacity, and the grown capacity holds the
    cursor plus the payload. *)
Lemma grown_fits (maxC : Q) (next n : Z) :
  0 <= next -> (inject_Z next <= maxC)%Q ->
  ((maxC - inject_Z next) < inject_Z n)%Q ->
  (maxC < grown maxC n)%Q /\ (inject_Z (next + n) <= grown maxC n)%Q.
Proof.
  intros Hnext Hle Hshort. unfold grown.
  pose proof (inject_Z_nonneg next Hnext) as Hn0.
  rewrite inject_Z_plus. split; lra.
Qed.

Lemma not_short_fits (maxC : Q) (next n : Z) :
  (inject_Z n <= maxC - inject_Z next)%Q -> (inject_Z (next + n) <= maxC)%Q.
Proof. intros H. rewrite inject_Z_plus. lra. Qed.

(** ** Reserved ranges under the operations *)

Section Ranges.

Variables (startOf reservedOf : GeometryInfo -> Z).

Lemma rangesOk_insert (cursor : Z) (t t' : Table) (id : Z) (r' : GeometryInfo) :
  rangesOk startOf reservedOf cursor t ->
  (forall i, i <> id -> tlookup t' i = tlookup t i) ->
  tlookup t' id = Some r' ->
  startOf r' = cursor -> 0 <= cursor -> 0 <= reservedOf r' ->
  rangesOk startOf reservedOf (cursor + reservedOf r') t'.
Proof.
  intros [Hin Hdis] Hother Hid Hstart Hc Hres. split.
  - intros i r Hlk Hact. destruct (Z.eq_dec i id) as [-> | Hne].
    + rewrite Hid in Hlk. inversion Hlk; subst r. lia.
    + rewrite Hother in Hlk by assumption.
      destruct (Hin i r Hlk Hact) as [H1 [H2 H3]]. lia.
  - intros i j ri rj Hij Hi Hj Hai Haj.
    destruct (Z.eq_dec i id) as [-> | Hni]; destruct (Z.eq_dec j id) as [-> | Hnj];
      try congruence.
    + rewrite Hid in Hi. inversion Hi; subst ri.
      rewrite Hother in Hj by assumption.
      destruct (Hin j rj Hj Haj) as [H1 [H2 H3]]. right. lia.
    + rewrite Hid in Hj. inversion Hj; subst rj.
      rewrite Hother in Hi by assumption.
      destruct (Hin i ri Hi Hai) as [H1 [H2 H3]]. left. lia.
    + rewrite Hother in Hi, Hj by assumption.
      apply (Hdis i j ri rj); assumption.
Qed.

Lemma rangesOk_update (cursor : Z) (t t' : Table) (id : Z) (r r' : GeometryInfo) :
  rangesOk startOf reservedOf cursor t ->
  (forall i, i <> id -> tlookup t' i = tlookup t i) ->
  tlookup t id = Some r -> tlookup t' id = Some r' ->
  (active r' = true ->
   active r = true /\ startOf r' = startOf r /\ reservedOf r' = reservedOf r) ->
  rangesOk startOf reservedOf cursor t'.
Proof.
  intros [Hin Hdis] Hother Hold Hid Hsame. split.
  - intros i x Hlk Hact. destruct (Z.eq_dec i id) as [-> | Hne].
    + rewrite Hid in Hlk. inversion Hlk; subst x.
      destruct (Hsame Hact) as [Ha [Hs Hr]]. rewrite Hs, Hr.
      apply (Hin id r Hold Ha).
    + rewrite Hother in Hlk by assumption. apply (Hin i x Hlk Hact).
  - intros i j ri rj Hij Hi Hj Hai Haj.
    destruct (Z.eq_dec i id) as [-> | Hni]; destruct (Z.eq_dec j id) as [-> | Hnj];
      try congruence.
    + rewrite Hid in Hi. inversion Hi; subst ri.
      rewrite Hother in Hj by assumption.
      destruct (Hsame Hai) as [Ha [Hs Hr]]. rewrite Hs, Hr.
      apply (Hdis id j r rj); assumption.
    + rewrite Hid in Hj. inversion Hj; subst rj.
      rewrite Hother in Hi by assumption.
      destruct (Hsame Haj) as [Ha [Hs Hr]]. rewrite Hs, Hr.
      apply (Hdis i id ri r); assumption.
    + rewrite Hother in Hi, Hj by assumption.
      apply (Hdis i j ri rj); assumption.
Qed.

End Ranges.

(** ** The free list *)

Lemma insertBy_ascId_head (x : nat) (l : list nat) (n : nat) (rest : list nat) :
  (forall m k tl, l = m :: tl -> In k tl -> (m <= k)%nat) ->
  insertBy ascIdSort x l = n :: rest ->
  forall k, In k rest -> (n <= k)%nat.
Proof.
  destruct l as [| y tl]; simpl.
  - intros _ H. inversion H; subst. intros k [].
  - intros Hsorted. destruct (ascIdSort x y <=? 0) eqn:Hc.
    + apply Z.leb_le in Hc. unfold ascIdSort in Hc.
      intros H. inversion H; subst. intros k [<- | Hk]; [lia |].
      specialize (Hsorted y k tl eq_refl Hk). lia.
    + apply Z.leb_gt in Hc. unfold ascIdSort in Hc.
      intros H. inversion H; subst. intros k Hk.
      apply (Permutation_in _ (insertBy_perm ascIdSort x tl)) in Hk.
      destruct Hk as [<- | Hk]; [lia |].
      apply (Hsorted n k tl eq_refl Hk).
Qed.

Lemma sortBy_ascId_head_min (l : list nat) (n : nat) (rest : list nat) :
  sortBy ascIdSort l = n :: rest -> forall k, In k rest -> (n <= k)%nat.
Proof.
  revert n rest. induction l as [| x tl IH]; intros n rest; simpl; [discriminate |].
  fold (sortBy ascIdSort tl). apply insertBy_ascId_head.
  intros m k tl' Heq Hk. apply (IH m tl' Heq k Hk).
Qed.

(** The handle [addGeometry] reuses is the lowest id of the free list. *)
Lemma sortBy_ascId_lowest (l : list nat) (n : nat) (rest : list nat) :
  sortBy ascIdSort l = n :: rest ->
  In n l /\ (forall k, In k l -> (n <= k)%nat) /\ (forall k, In k rest -> In k l).
Proof.
  intros H. pose proof (sortBy_perm ascIdSort l) as Hperm. rewrite H in Hperm.
  split; [apply (Permutation_in _ Hperm); left; reflexivity |].
  split.
  - intros k Hk. apply (Permutation_in _ (Permutation_sym Hperm)) in Hk.
    destruct Hk as [<- | Hk]; [lia |].
    apply (sortBy_ascId_head_min l n rest H k Hk).
  - intros k Hk. apply (Permutation_in _ Hperm). right. assumption.
Qed.

Lemma sortBy_nil {A} (cmp : A -> A -> Z) (l : list A) : sortBy cmp l = [] -> l = [].
Proof.
  intros H. pose proof (sortBy_perm cmp l) as Hperm. rewrite H in Hperm.
  apply Permutation_nil in Hperm. assumption.
Qed.

(** The handle step on a batch whose count is the table length and whose
    free ids are slots of the table. *)
Lemma allocateId_spec (b : Batch) (info : GeometryInfo) :
  geometryCount b = tlength (geometryInfo b) ->
  Forall (fun n => Z.of_nat n < tlength (geometryInfo b)) (availableGeometryIds b) ->
  let b3 := fst (allocateId b info) in
  let id := snd (allocateId b info) in
  tlookup (geometryInfo b3) id = Some info
  /\ (forall i, i <> id -> tlookup (geometryInfo b3) i = tlookup (geometryInfo b) i)
  /\ geometryCount b3 = tlength (geometryInfo b3)
  /\ Forall (fun n => Z.of_nat n < tlength (geometryInfo b3)) (availableGeometryIds b3)
  /\ ((availableGeometryIds b = [] /\ id = geometryCount b)
      \/ (In (Z.to_nat id) (availableGeometryIds b) /\ 0 <= id
          /\ forall k, In k (availableGeometryIds b) -> id <= Z.of_nat k))
  /\ ((availableGeometryIds b = [] /\ availableGeometryIds b3 = [])
      \/ Permutation (availableGeometryIds b) (Z.to_nat id :: availableGeometryIds b3)).
Proof.
  intros Hcount Hfree. unfold allocateId.
  destruct (sortBy ascIdSort (availableGeometryIds b)) as [| n rest] eqn:Hsort;
    cbn [fst snd geometryInfo geometryCount availableGeometryIds].
  - apply sortBy_nil in Hsort. rewrite Hcount.
    split; [apply tlookup_app_last |].
    split; [intros i Hi; apply tlookup_app_other; assumption |].
    split; [unfold tlength; rewrite length_app; cbn; lia |].
    split; [constructor |]. split; left; auto.
  - destruct (sortBy_ascId_lowest _ _ _ Hsort) as [Hin [Hmin Hrest]].
    assert (Hn : Z.of_nat n < tlength (geometryInfo b)).
    { rewrite Forall_forall in Hfree. apply (Hfree n Hin). }
    assert (Hlen : tlength (tset (geometryInfo b) n info) = tlength (geometryInfo b)).
    { unfold tlength in *. rewrite tset_length_in by lia. reflexivity. }
    split; [apply tlookup_tset_same |].
    split; [intros i Hi; apply tlookup_tset_other; assumption |].
    split; [rewrite Hlen; assumption |].
    split.
    + rewrite Hlen. rewrite Forall_forall in *. intros k Hk. apply Hfree, Hrest, Hk.
    + split.
      * right. rewrite Nat2Z.id. split; [assumption |]. split; [lia |].
        intros k Hk. specialize (Hmin k Hk). lia.
      * right. rewrite Nat2Z.id. rewrite <- Hsort.
        apply Permutation_sym, sortBy_perm.
Qed.

(** ** Payload facts *)

Lemma withBounds_attributes (g : BufferGeometry) : attributes (withBounds g) = attributes g.
Proof.
  unfold withBounds, computeBoundingBox, computeBoundingSphere.
  destruct (isSome (gBoundingBox g)); cbn;
    match goal with |- context [if ?c then _ else _] => destruct c end; reflexivity.
Qed.

Lemma withBounds_index (g : BufferGeometry) : index (withBounds g) = index g.
Proof.
  unfold withBounds, computeBoundingBox, computeBoundingSphere.
  destruct (isSome (gBoundingBox g)); cbn;
    match goal with |- context [if ?c then _ else _] => destruct c end; reflexivity.
Qed.

Lemma validateGeometry_None_index (b : Batch) (g : BufferGeometry) :
  validateGeometry b g = None -> isSome (index g) = isSome (index (geometry b)).
Proof.
  unfold validateGeometry.
  destruct (Bool.eqb (isSome (index g)) (isSome (index (geometry b)))) eqn:E;
    cbn [negb]; [| discriminate].
  intros _. apply Bool.eqb_prop. assumption.
Qed.

Lemma validateAttributes_None (l : Attributes) (g : BufferGeometry) :
  validateAttributes l g = None ->
  forall n dst, In (n, dst) l ->
    exists src, lookupAttr n (attributes g) = Some src
                /\ itemSize src = itemSize dst /\ normalized src = normalized dst.
Proof.
  induction l as [| [m d] rest IH]; simpl; [intros _ n dst [] |].
  destruct (lookupAttr m (attributes g)) as [src |] eqn:Hlk; [| discriminate].
  destruct (itemSize src =? itemSize d) eqn:Hsz; cbn [negb orb]; [| discriminate].
  destruct (Bool.eqb (normalized src) (normalized d)) eqn:Hn; cbn [negb]; [| discriminate].
  intros Hrest n dst [Heq | Hin].
  - inversion Heq; subst. exists src. apply Z.eqb_eq in Hsz. apply Bool.eqb_prop in Hn. auto.
  - apply (IH Hrest n dst Hin).
Qed.

Lemma newRegion_Some (b : Batch) (g : BufferGeometry) (rv ri : Z) (info : GeometryInfo) :
  newRegion b g rv ri = Some info ->
  vertexStart info = nextVertexStart b
  /\ active info = true
  /\ (rv = -1 -> exists p, lookupAttr "position" (attributes g) = Some p
                           /\ reservedVertexCount info = count_of p)
  /\ (rv <> -1 -> reservedVertexCount info = rv)
  /\ (forall ix, index g = Some ix ->
                 indexStart info = nextIndexStart b
                 /\ reservedIndexCount info = if ri =? -1 then icount ix else ri)
  /\ (index g = None -> indexStart info = -1 /\ reservedIndexCount info = -1).
Proof.
  unfold newRegion. destruct (rv =? -1) eqn:Hrv.
  - apply Z.eqb_eq in Hrv.
    destruct (lookupAttr "position" (attributes g)) as [p |]; cbn [option_map];
      [| discriminate].
    destruct (index g) as [ix |]; intros H; inversion H; subst; clear H; cbn;
      (split; [reflexivity |]); (split; [reflexivity |]);
      (split; [intros _; exists p; auto |]); (split; [intros Hne; congruence |]);
      split; try (intros ix' Hix; inversion Hix; subst; auto); try discriminate; auto.
  - apply Z.eqb_neq in Hrv.
    destruct (index g) as [ix |]; intros H; inversion H; subst; clear H; cbn;
      (split; [reflexivity |]); (split; [reflexivity |]);
      (split; [intros Heq; congruence |]); (split; [reflexivity |]);
      split; try (intros ix' Hix; inversion Hix; subst; auto); try discriminate; auto.
Qed.

(** ** Index arrays keep their element type *)

Lemma index_modulus_pos (k : IndexKind) : 0 < index_modulus k.
Proof. destruct k; reflexivity. Qed.

Lemma Forall_set_nat (P : Z -> Prop) (a : list Z) (n : nat) (v : Z) :
  Forall P a -> P v -> Forall P (set_nat a n v).
Proof.
  revert n. induction a as [| h t IH]; intros [| k] Ha Hv; simpl; try assumption.
  - inversion Ha; subst. constructor; assumption.
  - inversion Ha; subst. constructor; [assumption | apply IH; assumption].
Qed.

Lemma Forall_set (P : Z -> Prop) (a : list Z) (i v : Z) :
  Forall P a -> P v -> Forall P (set a i v).
Proof.
  intros Ha Hv. unfold set. destruct (i <? 0); [assumption |].
  apply Forall_set_nat; assumption.
Qed.

Lemma setX_indexOk (maxV : Q) (ix : IndexAttribute) (i v : Z) :
  indexOk maxV ix -> indexOk maxV (setX ix i v).
Proof.
  intros [Hk Hv]. unfold setX, indexOk. cbn [ikind idata]. split; [assumption |].
  apply Forall_set; [assumption |].
  apply Z.mod_pos_bound, index_modulus_pos.
Qed.

Lemma writeIndex_indexOk (maxV : Q) (dst src : IndexAttribute) (iStart reserved vStart : Z) :
  indexOk maxV dst -> indexOk maxV (writeIndex dst src iStart reserved vStart).
Proof.
  intros Hdst. unfold writeIndex.
  apply (fold_left_preserves (indexOk maxV)).
  - apply (fold_left_preserves (indexOk maxV)); [assumption |].
    intros x i _ Hx. apply setX_indexOk. assumption.
  - intros x i _ Hx. apply setX_indexOk. assumption.
Qed.

Lemma resizedIndex_indexOk (maxV maxI : Q) (o : IndexAttribute) :
  indexOk maxV (resizedIndex maxV maxI o).
Proof.
  unfold indexOk, resizedIndex. cbn [ikind idata]. split; [reflexivity |].
  unfold copyArrayContents. apply Forall_app. split.
  - assert (H : Forall (fun v => 0 <= v < index_modulus
                                    (if Qgtb maxV 65535 then Uint32 else Uint16))
                       (map (fun v => v mod index_modulus
                                          (if Qgtb maxV 65535 then Uint32 else Uint16))
                            (idata o))).
    { apply Forall_map. apply Forall_forall. intros v _.
      apply Z.mod_pos_bound, index_modulus_pos. }
    rewrite <- (firstn_skipn (List.length (zeros (toLength maxI))) _) in H.
    apply Forall_app in H. tauto.
  - assert (H : Forall (fun v => 0 <= v < index_modulus
                                    (if Qgtb maxV 65535 then Uint32 else Uint16))
                       (zeros (toLength maxI))).
    { unfold zeros. apply Forall_forall. intros v Hv. apply repeat_spec in Hv. subst v.
      split; [lia | apply index_modulus_pos]. }
    rewrite <- (firstn_skipn (List.length (map (fun v => v mod index_modulus
                                 (if Qgtb maxV 65535 then Uint32 else Uint16)) (idata o))) _) in H.
    apply Forall_app in H. tauto.
Qed.

Lemma resizeSpaceIfNeeded_indexOk (b : Batch) (g : BufferGeometry) (ix2 : IndexAttribute) :
  geometryInitialized b = true ->
  (forall ix, index (geometry b) = Some ix -> indexOk (maxVertexCount b) ix) ->
  index (geometry (resizeSpaceIfNeeded b g)) = Some ix2 ->
  indexOk (maxVertexCount (resizeSpaceIfNeeded b g)) ix2.
Proof.
  intros Hinit Hok.
  destruct (resizeSpaceIfNeeded_cases b g) as [[-> _] | [-> _]]; [apply Hok |].
  rewrite setGeometrySize_index by assumption.
  destruct (setGeometrySize_fields b (newMaxVertexCount b g) (newMaxIndexCount b g))
    as [_ [_ [_ [_ [_ [_ [-> _]]]]]]].
  destruct (index (geometry b)) as [o |]; cbn [option_map]; [| discriminate].
  intros H. inversion H; subst. apply resizedIndex_indexOk.
Qed.

(** ** The invariant under insertion *)

Lemma exceedsMaximum_false (b : Batch) (info : GeometryInfo) :
  exceedsMaximum b info = false ->
  (inject_Z (vertexStart info + reservedVertexCount info) <= maxVertexCount b)%Q
  /\ (indexStart info <> -1 ->
      (inject_Z (indexStart info + reservedIndexCount info) <= maxIndexCount b)%Q).
Proof.
  unfold exceedsMaximum. intros H. apply orb_false_iff in H. destruct H as [Hi Hv].
  split; [apply Qgtb_false; assumption |].
  intros Hne. apply andb_false_iff in Hi. destruct Hi as [Hi | Hi].
  - apply negb_false_iff, Z.eqb_eq in Hi. contradiction.
  - apply Qgtb_false. assumption.
Qed.

Lemma addInitialized_sound (b1 : Batch) (g0 : BufferGeometry) (rv ri : Z)
      (b' : Batch) (id : Z) :
  Sound b1 -> payloadOk g0 ->
  addInitialized b1 g0 rv ri = Ok b' id ->
  Sound b'
  /\ (exists r, tlookup (geometryInfo b') id = Some r
                /\ active r = true
                /\ vertexStart r = nextVertexStart b1
                /\ 0 <= reservedVertexCount r
                /\ nextVertexStart b' = nextVertexStart b1 + reservedVertexCount r)
  /\ (forall i, i <> id -> tlookup (geometryInfo b') i = tlookup (geometryInfo b1) i)
  /\ ((availableGeometryIds b1 = [] /\ id = geometryCount b1)
      \/ (In (Z.to_nat id) (availableGeometryIds b1) /\ 0 <= id
          /\ forall k, In k (availableGeometryIds b1) -> id <= Z.of_nat k)).
Proof.
  intros HS Hpay Hadd.
  destruct (addInitialized_Ok _ _ _ _ _ _ Hadd)
    as [Hval [info [b4 [Hnew [Hex [Hsnd [Hset Hb']]]]]]].
  set (G := withBounds g0) in *. set (b2 := resizeSpaceIfNeeded b1 G) in *.
  destruct HS as [Hinit Hcount Hfree Hkeys Hvr Hir Hvcap Hicap Hixok Hfdel Hfnd].
  destruct (resizeSpaceIfNeeded_fields b1 G) as [Ht2 [Hfree2 [HnI2 [HnV2 [Hcnt2 Hinit2]]]]].
  fold b2 in Ht2, Hfree2, HnI2, HnV2, Hcnt2, Hinit2.
  pose proof (resizeSpaceIfNeeded_schema b1 G Hinit Hkeys) as Hsch. fold b2 in Hsch.
  assert (Hcount2 : geometryCount b2 = tlength (geometryInfo b2)) by congruence.
  assert (Hfreeb2 : Forall (fun n => Z.of_nat n < tlength (geometryInfo b2))
                           (availableGeometryIds b2)) by (rewrite Ht2, Hfree2; assumption).
  destruct (allocateId_spec b2 info Hcount2 Hfreeb2)
    as [Hlk3 [Hother3 [Hcount3 [Hfree3 [Hhandle Hperm]]]]].
  destruct (allocateId_fields b2 info) as [HV3 [HI3 [HG3 [Hinit3 [HmV3 HmI3]]]]].
  set (b3 := fst (allocateId b2 info)) in *.
  rewrite Hsnd in Hlk3, Hother3, Hhandle, Hperm.
  destruct (setGeometryAt_Ok _ _ _ _ _ Hset)
    as [_ [Hidlt [Hval3 [info3 [position [info' [Hlk3' [Hpos [Hcnt [Hixle
         [Ht4 [Hinfo' [Hfields [Hattrs4 Hindex4]]]]]]]]]]]]]].
  rewrite Hlk3 in Hlk3'. inversion Hlk3'; subst info3; clear Hlk3'.
  destruct Hinfo' as [Hvs' [Hrv' [His' [Hri' [Hact' [Hvis' Hvc']]]]]].
  destruct Hfields as [Hfree4 [HnI4 [HnV4 [Hcnt4 [Hinit4 [HmV4 HmI4]]]]]].
  destruct (newRegion_Some _ _ _ _ _ Hnew) as [Hvs [Hact [_ [_ [Hixs Hnoix]]]]].
  destruct (exceedsMaximum_false _ _ Hex) as [HexV HexI].
  pose proof (tlookup_Some_range _ _ _ Hlk3) as Hidrange.
  (* the table of the result *)
  assert (Htable : geometryInfo b' = tset (geometryInfo b3) (Z.to_nat id) info')
    by (rewrite Hb'; exact Ht4).
  assert (Hlk' : tlookup (geometryInfo b') id = Some info')
    by (rewrite Htable; apply tlookup_tset_same_Z; lia).
  assert (Hother' : forall i, i <> id ->
                      tlookup (geometryInfo b') i = tlookup (geometryInfo b1) i).
  { intros i Hi. rewrite Htable, tlookup_tset_other by (rewrite Z2Nat.id; lia).
    rewrite Hother3 by assumption. rewrite Ht2. reflexivity. }
  assert (Hlen' : tlength (geometryInfo b') = tlength (geometryInfo b3))
    by (rewrite Htable; eapply tlength_tset_in; eassumption).
  (* the payload *)
  assert (Hres : 0 <= reservedVertexCount info).
  { assert (Hp0 : 0 <= count_of position).
    { apply count_of_nonneg. apply Hpay. unfold G in Hpos.
      rewrite withBounds_attributes in Hpos. assumption. }
    lia. }
  assert (Hixpres : isSome (index (geometry b')) = isSome (index (geometry b1))).
  { rewrite Hb'. cbn [advanceCursors geometry]. rewrite Hindex4, HG3.
    assert (H2 : isSome (index (geometry b2)) = isSome (index (geometry b1)))
      by (unfold schemaOf in Hsch; injection Hsch as H2 _; exact H2).
    rewrite <- H2. destruct (index (geometry b2)); destruct (index G); reflexivity. }
  assert (HnV' : nextVertexStart b' = nextVertexStart b1 + reservedVertexCount info').
  { rewrite Hb'. cbn [advanceCursors nextVertexStart]. rewrite Hvs, HnV2, Hrv'. reflexivity. }
  split; [| split; [| split]].
  - constructor.
    + rewrite Hb'. cbn [advanceCursors geometryInitialized]. congruence.
    + rewrite Hlen'. rewrite Hb'. cbn [advanceCursors geometryCount]. congruence.
    + rewrite Hlen'. rewrite Hb'. cbn [advanceCursors availableGeometryIds].
      rewrite Hfree4. assumption.
    + rewrite Hb'. cbn [advanceCursors geometry]. rewrite Hattrs4, writeAttributes_keys.
      rewrite HG3. rewrite (schemaOf_keys _ _ Hsch). assumption.
    + rewrite HnV'.
      apply (rangesOk_insert vertexStart reservedVertexCount (nextVertexStart b1)
                             (geometryInfo b1) (geometryInfo b') id info');
        first [assumption | lia | congruence | tauto].
    + intros Hix. rewrite Hixpres in Hix.
      destruct (index (geometry b1)) as [d1 |] eqn:Hd1; [| discriminate].
      assert (Hg0 : isSome (index g0) = true).
      { rewrite (validateGeometry_None_index b1 g0 Hval), Hd1. reflexivity. }
      destruct (index g0) as [ix |] eqn:Hix0; [| discriminate].
      assert (HixG : index G = Some ix) by (unfold G; rewrite withBounds_index; assumption).
      destruct (Hixs ix HixG) as [His Hri].
      specialize (Hicap eq_refl). specialize (Hir eq_refl).
      assert (Hd3 : exists d3, index (geometry b3) = Some d3).
      { rewrite HG3. unfold schemaOf in Hsch. injection Hsch as H2 _. rewrite Hd1 in H2.
        destruct (index (geometry b2)) as [d2 |]; [eauto | discriminate]. }
      destruct Hd3 as [d3 Hd3].
      pose proof (Hixle d3 ix Hd3 HixG) as Hicnt.
      assert (Hic0 : 0 <= icount ix) by (unfold icount, len; lia).
      assert (HnI' : nextIndexStart b' = nextIndexStart b1 + reservedIndexCount info').
      { rewrite Hb'. cbn [advanceCursors nextIndexStart]. rewrite His, HnI2, Hri'.
        reflexivity. }
      rewrite HnI'.
      apply (rangesOk_insert indexStart reservedIndexCount (nextIndexStart b1)
                             (geometryInfo b1) (geometryInfo b') id info');
        first [assumption | lia | congruence | tauto].
    + rewrite HnV'. split; [lia |].
      rewrite Hb'. cbn [advanceCursors maxVertexCount]. rewrite HmV4, HmV3.
      rewrite Hrv', <- HnV2, <- Hvs. assumption.
    + intros Hix. rewrite Hixpres in Hix.
      destruct (index (geometry b1)) as [d1 |] eqn:Hd1; [| discriminate].
      assert (Hg0 : isSome (index g0) = true).
      { rewrite (validateGeometry_None_index b1 g0 Hval), Hd1. reflexivity. }
      destruct (index g0) as [ix |] eqn:Hix0; [| discriminate].
      assert (HixG : index G = Some ix) by (unfold G; rewrite withBounds_index; assumption).
      destruct (Hixs ix HixG) as [His Hri].
      specialize (Hicap eq_refl).
      assert (Hd3 : exists d3, index (geometry b3) = Some d3).
      { rewrite HG3. unfold schemaOf in Hsch. injection Hsch as H2 _. rewrite Hd1 in H2.
        destruct (index (geometry b2)) as [d2 |]; [eauto | discriminate]. }
      destruct Hd3 as [d3 Hd3].
      pose proof (Hixle d3 ix Hd3 HixG) as Hicnt.
      assert (Hic0 : 0 <= icount ix) by (unfold icount, len; lia).
      rewrite Hb'. cbn [advanceCursors nextIndexStart maxIndexCount].
      split; [rewrite His, HnI2; lia |].
      rewrite HmI4, HmI3. apply HexI. rewrite His, HnI2. lia.
    + intros ix' Hix'. rewrite Hb' in Hix' |- *.
      cbn [advanceCursors geometry maxVertexCount] in Hix' |- *.
      rewrite Hindex4, HG3 in Hix'. rewrite HmV4, HmV3.
      destruct (index (geometry b2)) as [d2 |] eqn:Hd2; [| destruct (index G); discriminate].
      pose proof (resizeSpaceIfNeeded_indexOk b1 G d2 Hinit Hixok Hd2) as Hok2.
      fold b2 in Hok2.
      destruct (index G) as [sG |]; inversion Hix'; subst ix'; clear Hix';
        [apply writeIndex_indexOk |]; assumption.
    + rewrite Hb'. cbn [advanceCursors availableGeometryIds]. rewrite Hfree4.
      destruct Hperm as [[_ ->] | Hperm]; [constructor |].
      rewrite Hfree2 in Hperm.
      pose proof (Permutation_NoDup Hperm Hfnd) as Hnd3.
      apply NoDup_cons_iff in Hnd3. destruct Hnd3 as [Hnotin _].
      apply Forall_forall. intros k Hk.
      assert (Hk1 : In k (availableGeometryIds b1))
        by (apply (Permutation_in _ (Permutation_sym Hperm)); right; assumption).
      rewrite Forall_forall in Hfdel. destruct (Hfdel k Hk1) as [r [Hr Har]].
      exists r. split; [| assumption].
      rewrite <- Hb'. rewrite Hother'; [assumption |].
      intros Heq. apply Hnotin. rewrite <- Heq, Nat2Z.id. assumption.
    + rewrite Hb'. cbn [advanceCursors availableGeometryIds]. rewrite Hfree4.
      destruct Hperm as [[_ ->] | Hperm]; [constructor |].
      rewrite Hfree2 in Hperm.
      pose proof (Permutation_NoDup Hperm Hfnd) as Hnd3.
      apply NoDup_cons_iff in Hnd3. tauto.
  - exists info'. split; [assumption |]. split; [congruence |].
    split; [congruence |]. split; [lia | assumption].
  - exact Hother'.
  - rewrite Hfree2, Hcnt2 in Hhandle. exact Hhandle.
Qed.

(** ** The invariant under the other operations *)

Lemma setGeometryAt_sound (b : Batch) (id : Z) (g : BufferGeometry) (b' : Batch) (v : Z) :
  Sound b -> setGeometryAt b id g = Ok b' v -> Sound b'.
Proof.
  intros HS Hset.
  destruct (setGeometryAt_Ok _ _ _ _ _ Hset)
    as [_ [Hidlt [Hval [info [position [info' [Hlk [Hpos [Hcnt [Hixle
         [Ht [Hinfo' [Hfields [Hattrs Hindex]]]]]]]]]]]]]].
  destruct Hinfo' as [Hvs' [Hrv' [His' [Hri' [Hact' [Hvis' Hvc']]]]]].
  destruct Hfields as [Hfree' [HnI' [HnV' [Hcnt' [Hinit' [HmV' HmI']]]]]].
  destruct HS as [Hinit Hcount Hfree Hkeys Hvr Hir Hvcap Hicap Hixok Hfdel Hfnd].
  pose proof (tlookup_Some_range _ _ _ Hlk) as Hrange.
  assert (Hlen : tlength (geometryInfo b') = tlength (geometryInfo b))
    by (rewrite Ht; eapply tlength_tset_in; eassumption).
  assert (Hlk' : tlookup (geometryInfo b') id = Some info')
    by (rewrite Ht; apply tlookup_tset_same_Z; lia).
  assert (Hother : forall i, i <> id ->
                     tlookup (geometryInfo b') i = tlookup (geometryInfo b) i).
  { intros i Hi. rewrite Ht. apply tlookup_tset_other. rewrite Z2Nat.id; lia. }
  assert (Hixpres : isSome (index (geometry b')) = isSome (index (geometry b))).
  { rewrite Hindex. destruct (index (geometry b)); destruct (index g); reflexivity. }
  constructor.
  - congruence.
  - congruence.
  - rewrite Hlen, Hfree'. assumption.
  - rewrite Hattrs, writeAttributes_keys. assumption.
  - rewrite HnV'.
    apply (rangesOk_update vertexStart reservedVertexCount _ (geometryInfo b)
                           (geometryInfo b') id info info'); try assumption.
    intros Ha. rewrite <- Hact'. auto.
  - intros Hix. rewrite Hixpres in Hix. rewrite HnI'.
    apply (rangesOk_update indexStart reservedIndexCount _ (geometryInfo b)
                           (geometryInfo b') id info info'); try assumption; [auto |].
    intros Ha. rewrite <- Hact'. auto.
  - rewrite HnV', HmV'. assumption.
  - intros Hix. rewrite Hixpres in Hix. rewrite HnI', HmI'. auto.
  - intros ix' Hix'. rewrite Hindex in Hix'. rewrite HmV'.
    destruct (index (geometry b)) as [d |] eqn:Hd; [| destruct (index g); discriminate].
    pose proof (Hixok d eq_refl) as Hokd.
    destruct (index g) as [sG |]; inversion Hix'; subst ix'; clear Hix';
      [apply writeIndex_indexOk |]; assumption.
  - rewrite Hfree'. rewrite Forall_forall in *. intros k Hk.
    destruct (Hfdel k Hk) as [r [Hr Har]].
    destruct (Z.eq_dec (Z.of_nat k) id) as [Heq | Hne].
    + exists info'. rewrite Heq. split; [assumption |].
      rewrite Heq, Hlk in Hr. inversion Hr; subst r. congruence.
    + exists r. rewrite Hother by assumption. auto.
  - rewrite Hfree'. assumption.
Qed.

Lemma slot_update_sound (b : Batch) (id : Z) (r r' : GeometryInfo) (free : list nat) :
  Sound b ->
  tlookup (geometryInfo b) id = Some r ->
  (active r' = true ->
   active r = true
   /\ vertexStart r' = vertexStart r /\ reservedVertexCount r' = reservedVertexCount r) ->
  (active r' = true ->
   active r = true
   /\ indexStart r' = indexStart r /\ reservedIndexCount r' = reservedIndexCount r) ->
  Forall (fun n => Z.of_nat n < tlength (geometryInfo b)) free ->
  Forall (fun n => exists r0, tlookup (tset (geometryInfo b) (Z.to_nat id) r') (Z.of_nat n)
                              = Some r0 /\ active r0 = false) free ->
  NoDup free ->
  Sound (mkBatch (maxVertexCount b) (maxIndexCount b)
                 (tset (geometryInfo b) (Z.to_nat id) r') free
                 (nextIndexStart b) (nextVertexStart b) (geometryCount b)
                 (geometryInitialized b) (geometry b)).
Proof.
  intros HS Hlk HsameV HsameI Hfree' Hfdel' Hfnd'.
  destruct HS as [Hinit Hcount Hfree Hkeys Hvr Hir Hvcap Hicap Hixok Hfdel Hfnd].
  pose proof (tlookup_Some_range _ _ _ Hlk) as Hrange.
  assert (Hlen : tlength (tset (geometryInfo b) (Z.to_nat id) r') = tlength (geometryInfo b))
    by (eapply tlength_tset_in; eassumption).
  assert (Hlk' : tlookup (tset (geometryInfo b) (Z.to_nat id) r') id = Some r')
    by (apply tlookup_tset_same_Z; lia).
  assert (Hother : forall i, i <> id ->
                     tlookup (tset (geometryInfo b) (Z.to_nat id) r') i
                     = tlookup (geometryInfo b) i).
  { intros i Hi. apply tlookup_tset_other. rewrite Z2Nat.id; lia. }
  constructor; cbn [geometryInitialized geometryCount geometryInfo availableGeometryIds
                    geometry nextVertexStart nextIndexStart maxVertexCount maxIndexCount];
    try assumption.
  - rewrite Hlen. assumption.
  - rewrite Hlen. assumption.
  - eapply rangesOk_update; eassumption.
  - intros Hix. eapply rangesOk_update; try eassumption. auto.
Qed.

Lemma deleteGeometry_sound (b : Batch) (id : Z) (b' : Batch) :
  Sound b -> deleteGeometry b id = Ok b' tt -> Sound b'.
Proof.
  intros HS. unfold deleteGeometry.
  destruct (id >=? tlength (geometryInfo b)) eqn:Hout;
    [intros H; inversion H; subst; assumption |].
  destruct (tlookup (geometryInfo b) id) as [info |] eqn:Hlk; [| discriminate].
  destruct (active info) eqn:Hact; cbn [negb];
    [| intros H; inversion H; subst; assumption].
  intros H. inversion H; subst; clear H.
  pose proof (tlookup_Some_range _ _ _ Hlk) as Hrange.
  apply (slot_update_sound b id info); try assumption.
  - destruct info; cbn. discriminate.
  - destruct info; cbn. discriminate.
  - apply Forall_app. split; [apply (sound_free b HS) |].
    constructor; [rewrite Z2Nat.id; lia | constructor].
  - apply Forall_app. split.
    + pose proof (sound_free_deleted b HS) as Hfdel. rewrite Forall_forall in *.
      intros k Hk. destruct (Hfdel k Hk) as [r [Hr Har]]. exists r.
      rewrite tlookup_tset_other; [auto |].
      rewrite Z2Nat.id by lia. intros Heq. rewrite Heq in Hr. congruence.
    + constructor; [| constructor]. eexists.
      rewrite Z2Nat.id by lia. rewrite tlookup_tset_same_Z by lia.
      split; [reflexivity |]. destruct info; reflexivity.
  - apply NoDup_app; [apply (sound_free_distinct b HS) | constructor; [intros [] | constructor] |].
    intros k Hk [<- | []].
    pose proof (sound_free_deleted b HS) as Hfdel. rewrite Forall_forall in Hfdel.
    destruct (Hfdel _ Hk) as [r [Hr Har]]. rewrite Z2Nat.id in Hr by lia. congruence.
Qed.

Lemma setVisibleAt_sound (b : Batch) (id : Z) (value : bool) (b' : Batch) :
  Sound b -> setVisibleAt b id value = Ok b' tt -> Sound b'.
Proof.
  intros HS. unfold setVisibleAt.
  destruct (validateGeometryId b id) as [b1 [] | e s] eqn:Hval; cbn [bind]; [| discriminate].
  assert (Hb1 : b1 = b).
  { unfold validateGeometryId in Hval.
    destruct ((id <? 0) || (id >=? tlength (geometryInfo b))); [discriminate |].
    destruct (tlookup (geometryInfo b) id) as [x |]; [| discriminate].
    destruct (negb (active x)); [discriminate |]. inversion Hval. reflexivity. }
  subst b1.
  destruct (tlookup (geometryInfo b) id) as [info |] eqn:Hlk; [| discriminate].
  destruct (Bool.eqb (visible info) value);
    [intros H; inversion H; subst; assumption |].
  intros H. inversion H; subst; clear H. unfold with_table.
  apply (slot_update_sound b id info); try assumption.
  - destruct info; cbn. auto.
  - destruct info; cbn. auto.
  - apply (sound_free b HS).
  - pose proof (sound_free_deleted b HS) as Hfdel. rewrite Forall_forall in *.
    intros k Hk. destruct (Hfdel k Hk) as [r [Hr Har]].
    destruct (Z.eq_dec (Z.of_nat k) id) as [Heq | Hne].
    + exists (with_visible info value). rewrite Heq.
      pose proof (tlookup_Some_range _ _ _ Hlk) as Hrange.
      rewrite tlookup_tset_same_Z by lia. split; [reflexivity |].
      rewrite Heq, Hlk in Hr. inversion Hr; subst r. destruct info; assumption.
    + exists r. rewrite tlookup_tset_other; [auto |].
      pose proof (tlookup_Some_range _ _ _ Hlk) as Hrange. rewrite Z2Nat.id by lia.
      assumption.
  - apply (sound_free_distinct b HS).
Qed.

(** ** Reserved ranges and handle reuse *)

(** C3: [optimize] breaks the reserved ranges.  It advances its cursor
    by the used count of a region and leaves the reserved count as it
    is, while [addGeometry] advances the tail cursor by the reserved
    count and [setGeometryAt] writes and zero-fills up to it.  In the
    example the first region reserves [0,4) and uses 2 vertices; after
    [optimize] the second live region sits at [2,4), inside the first
    one's reserved range; a rewrite of handle 0 with two vertices, which
    its reservation allows, then zero-fills [2,4) and the segment of
    handle 1 is gone.  Without the [optimize] the same rewrite leaves
    handle 1 as it is. *)
Theorem C3_optimize_overlaps_reserved_ranges :
  let packed := optimize ReservationExample.o2 in
  let rewrite := payload (lineAlongX 50 2) None in
  reservedRange ReservationExample.o2 0 = Some (0, 4)
  /\ reservedRange ReservationExample.o2 1 = Some (4, 6)
  /\ reservedRange packed 0 = Some (0, 4)
  /\ reservedRange packed 1 = Some (2, 4)
  /\ liveHandles packed = [Some true; Some true]
  /\ regionSegments packed 1 = [(mkVec 10 0 0, mkVec 11 0 0)]
  /\ valueOf (setGeometryAt packed 0 rewrite) = Some 0
  /\ regionSegments (stateOf (setGeometryAt packed 0 rewrite)) 1
     = [(mkVec 0 0 0, mkVec 0 0 0)]
  /\ regionSegments (stateOf (setGeometryAt ReservationExample.o2 0 rewrite)) 1
     = [(mkVec 10 0 0, mkVec 11 0 0)]
  /\ ~ rangesOk vertexStart reservedVertexCount
                (nextVertexStart packed) (geometryInfo packed).
Proof.
  cbv zeta.
  repeat (apply conj; [vm_compute; reflexivity |]).
  intros [_ Hdis].
  eassert (Hbad : _ \/ _).
  { eapply (Hdis 0 1);
      [lia | vm_compute; reflexivity | vm_compute; reflexivity
       | reflexivity | reflexivity]. }
  cbn in Hbad. lia.
Qed.

Lemma setAttr_keys_NoDup (n : string) (x : BufferAttribute) (acc : Attributes) :
  NoDup (map fst acc) -> NoDup (map fst (setAttr n x acc)).
Proof.
  intros Hnd. destruct (in_dec string_dec n (map fst acc)) as [Hin | Hnot].
  - assert (Hkeys : map fst (setAttr n x acc) = map fst acc).
    { clear Hnd. induction acc as [| [m a] rest IH]; simpl in *; [contradiction |].
      destruct (String.eqb m n) eqn:E; [reflexivity |].
      apply String.eqb_neq in E. simpl. f_equal. apply IH.
      destruct Hin as [Heq | Hin]; [congruence | assumption]. }
    rewrite Hkeys. assumption.
  - rewrite setAttr_fresh by assumption. rewrite map_app. cbn [map fst].
    apply NoDup_app; [assumption | constructor; [intros [] | constructor] |].
    intros k Hk [<- | []]. contradiction.
Qed.

(** A new batch after [_initializeGeometry] satisfies the invariant. *)
Lemma initializeGeometry_new_sound (maxV maxI : Q) (g : BufferGeometry) :
  (0 <= maxV)%Q -> (0 <= maxI)%Q ->
  Sound (initializeGeometry (newBatch maxV maxI) g).
Proof.
  intros HV HI. unfold initializeGeometry, newBatch.
  cbn [geometryInitialized maxVertexCount maxIndexCount geometryInfo
       availableGeometryIds nextIndexStart nextVertexStart geometryCount geometry].
  constructor; cbn [geometryInitialized geometryCount geometryInfo availableGeometryIds
                    geometry nextVertexStart nextIndexStart maxVertexCount maxIndexCount].
  - reflexivity.
  - reflexivity.
  - constructor.
  - unfold initializeGeometry_into. cbn [attributes emptyGeometry].
    apply (fold_left_preserves (fun acc : Attributes => NoDup (map fst acc)));
      [constructor |].
    intros acc [n src] _ Hacc. apply setAttr_keys_NoDup. assumption.
  - split; [intros i r H; unfold tlookup in H; destruct (i <? 0); [discriminate |];
            destruct (Z.to_nat i); discriminate |].
    intros i j ri rj _ H. unfold tlookup in H. destruct (i <? 0); [discriminate |].
    destruct (Z.to_nat i); discriminate.
  - intros _.
    split; [intros i r H; unfold tlookup in H; destruct (i <? 0); [discriminate |];
            destruct (Z.to_nat i); discriminate |].
    intros i j ri rj _ H. unfold tlookup in H. destruct (i <? 0); [discriminate |].
    destruct (Z.to_nat i); discriminate.
  - split; [lia | assumption].
  - intros _. split; [lia | assumption].
  - unfold initializeGeometry_into. cbn [index emptyGeometry]. intros ix Hix.
    destruct (index g); inversion Hix; subst ix.
    unfold indexOk. cbn [ikind idata]. split; [reflexivity |].
    unfold zeros. apply Forall_forall. intros v Hv. apply repeat_spec in Hv. subst v.
    split; [lia | apply index_modulus_pos].
  - constructor.
  - constructor.
Qed.

Lemma addGeometry_sound (b : Batch) (g : BufferGeometry) (rv ri : Z) (b' : Batch) (id : Z) :
  Sound b -> payloadOk g -> addGeometry b g rv ri = Ok b' id ->
  Sound b'
  /\ (exists r, tlookup (geometryInfo b') id = Some r
                /\ active r = true
                /\ vertexStart r = nextVertexStart b
                /\ 0 <= reservedVertexCount r
                /\ nextVertexStart b' = nextVertexStart b + reservedVertexCount r)
  /\ (forall i, i <> id -> tlookup (geometryInfo b') i = tlookup (geometryInfo b) i)
  /\ ((availableGeometryIds b = [] /\ id = geometryCount b)
      \/ (In (Z.to_nat id) (availableGeometryIds b) /\ 0 <= id
          /\ forall k, In k (availableGeometryIds b) -> id <= Z.of_nat k)).
Proof.
  intros HS Hpay. unfold addGeometry, initializeGeometry.
  rewrite (sound_initialized b HS). apply addInitialized_sound; assumption.
Qed.

(** An insertion never takes the slot of a live region. *)
Lemma addGeometry_keeps_live (b : Batch) (g : BufferGeometry) (rv ri : Z)
      (b' : Batch) (id i : Z) (r : GeometryInfo) :
  Sound b -> payloadOk g -> addGeometry b g rv ri = Ok b' id ->
  tlookup (geometryInfo b) i = Some r -> active r = true ->
  i <> id /\ tlookup (geometryInfo b') i = Some r.
Proof.
  intros HS Hpay Hadd Hlk Hact.
  destruct (addGeometry_sound b g rv ri b' id HS Hpay Hadd)
    as [_ [_ [Hother [[_ Hnew] | [Hin [Hid0 _]]]]]].
  - pose proof (tlookup_Some_range _ _ _ Hlk) as Hrange.
    rewrite (sound_count b HS) in Hnew.
    assert (Hne : i <> id) by lia. split; [assumption |].
    rewrite Hother by assumption. assumption.
  - pose proof (sound_free_deleted b HS) as Hfdel. rewrite Forall_forall in Hfdel.
    destruct (Hfdel _ Hin) as [x [Hx Hax]]. rewrite Z2Nat.id in Hx by lia.
    assert (Hne : i <> id) by (intros ->; congruence). split; [assumption |].
    rewrite Hother by assumption. assumption.
Qed.

(** X24: in a batch that satisfies the invariant (established by the
    first insertion into a new batch), the reserved vertex ranges of
    distinct live regions do not overlap, nor do their reserved index
    ranges in an indexed batch, and [addGeometry], [setGeometryAt],
    [deleteGeometry] and [setVisibleAt] keep the invariant when they
    return.  An inserted region starts at the tail cursor, at or beyond
    the end of every other live region's reserved range; it takes the
    slot of no live region; and its handle is the lowest id of the free
    list (a new slot when the list is empty): after deleting a live
    handle [h1], the next insertion returns [h1] when no lower id is
    free. *)
Theorem reserved_ranges_and_reuse (b : Batch) :
  Sound b ->
  (forall i j ri rj,
      i <> j -> tlookup (geometryInfo b) i = Some ri -> tlookup (geometryInfo b) j = Some rj ->
      active ri = true -> active rj = true ->
      vertexStart ri + reservedVertexCount ri <= vertexStart rj
      \/ vertexStart rj + reservedVertexCount rj <= vertexStart ri)
  /\ (isSome (index (geometry b)) = true ->
      forall i j ri rj,
        i <> j -> tlookup (geometryInfo b) i = Some ri ->
        tlookup (geometryInfo b) j = Some rj ->
        active ri = true -> active rj = true ->
        indexStart ri + reservedIndexCount ri <= indexStart rj
        \/ indexStart rj + reservedIndexCount rj <= indexStart ri)
  /\ (forall g rv ri b' id,
        payloadOk g -> addGeometry b g rv ri = Ok b' id ->
        Sound b'
        /\ (exists r, tlookup (geometryInfo b') id = Some r
                      /\ active r = true
                      /\ forall j rj, j <> id ->
                           tlookup (geometryInfo b') j = Some rj -> active rj = true ->
                           vertexStart rj + reservedVertexCount rj <= vertexStart r)
        /\ (forall j rj, tlookup (geometryInfo b) j = Some rj -> active rj = true ->
                         j <> id /\ tlookup (geometryInfo b') j = Some rj)
        /\ ((availableGeometryIds b = [] /\ id = geometryCount b)
            \/ (In (Z.to_nat id) (availableGeometryIds b) /\ 0 <= id
                /\ forall k, In k (availableGeometryIds b) -> id <= Z.of_nat k)))
  /\ (forall id g b' v, setGeometryAt b id g = Ok b' v -> Sound b')
  /\ (forall id b', deleteGeometry b id = Ok b' tt -> Sound b')
  /\ (forall id value b', setVisibleAt b id value = Ok b' tt -> Sound b')
  /\ (forall h1 r1 b1 g rv ri b2 id,
        tlookup (geometryInfo b) h1 = Some r1 -> active r1 = true ->
        deleteGeometry b h1 = Ok b1 tt ->
        payloadOk g -> addGeometry b1 g rv ri = Ok b2 id ->
        (forall k, In k (availableGeometryIds b) -> h1 <= Z.of_nat k) ->
        id = h1).
Proof.
  intros HS.
  split; [exact (proj2 (sound_vertex b HS)) |].
  split; [intros Hix; exact (proj2 (sound_index b HS Hix)) |].
  split.
  { intros g rv ri b' id Hpay Hadd.
    destruct (addGeometry_sound b g rv ri b' id HS Hpay Hadd)
      as [HS' [[r [Hlk [Hact [Hvs [Hres HnV]]]]] [Hother Hhandle]]].
    split; [assumption |]. split; [| split; [| assumption]].
    - exists r. split; [assumption |]. split; [assumption |].
      intros j rj Hj Hlkj Hactj. rewrite Hother in Hlkj by assumption.
      destruct (proj1 (sound_vertex b HS) j rj Hlkj Hactj) as [_ [_ Hend]]. lia.
    - intros j rj Hlkj Hactj.
      apply (addGeometry_keeps_live b g rv ri b' id j rj); assumption. }
  split; [intros id g b' v; apply setGeometryAt_sound; assumption |].
  split; [intros id b'; apply deleteGeometry_sound; assumption |].
  split; [intros id value b'; apply setVisibleAt_sound; assumption |].
  intros h1 r1 b1 g rv ri b2 id Hlk Hact Hdel Hpay Hadd Hlow.
  pose proof (deleteGeometry_sound b h1 b1 HS Hdel) as HS1.
  pose proof (tlookup_Some_range _ _ _ Hlk) as Hrange.
  assert (Hfree1 : availableGeometryIds b1 = availableGeometryIds b ++ [Z.to_nat h1]).
  { unfold deleteGeometry in Hdel. rewrite geb_false in Hdel by lia.
    rewrite Hlk, Hact in Hdel. cbn [negb] in Hdel. inversion Hdel. reflexivity. }
  destruct (addGeometry_sound b1 g rv ri b2 id HS1 Hpay Hadd)
    as [_ [_ [_ [[Hnil _] | [Hin [Hid0 Hmin]]]]]].
  - rewrite Hfree1 in Hnil. destruct (availableGeometryIds b); discriminate.
  - rewrite Hfree1 in Hin, Hmin.
    assert (Hle : id <= h1).
    { specialize (Hmin (Z.to_nat h1)). rewrite Z2Nat.id in Hmin by lia.
      apply Hmin. apply in_or_app. right. left. reflexivity. }
    apply in_app_or in Hin. destruct Hin as [Hin | [Heq | []]].
    + specialize (Hlow _ Hin). rewrite Z2Nat.id in Hlow by lia. lia.
    + apply (f_equal Z.of_nat) in Heq. rewrite !Z2Nat.id in Heq by lia. lia.
Qed.

(** The first insertion into a new batch establishes the invariant. *)
Lemma first_insertion_sound (maxV maxI : Q) (g : BufferGeometry) (rv ri : Z)
      (b' : Batch) (id : Z) :
  (0 <= maxV)%Q -> (0 <= maxI)%Q -> payloadOk g ->
  addGeometry (newBatch maxV maxI) g rv ri = Ok b' id -> Sound b'.
Proof.
  intros HV HI Hpay Hadd. unfold addGeometry in Hadd.
  apply (addInitialized_sound _ _ _ _ _ _ (initializeGeometry_new_sound maxV maxI g HV HI)
                              Hpay Hadd).
Qed.

Lemma payload_ok (positions : list Z) (ix : option (list Z)) : payloadOk (payload positions ix).
Proof.
  intros p H. unfold payload in H. cbn in H. inversion H. cbn. lia.
Qed.

(** X24 at the batch of the reservation example: it satisfies the
    invariant, and so does the batch after a second insertion. *)
Lemma reserved_ranges_and_reuse_witness :
  Sound ReservationExample.o1 /\ Sound ReservationExample.o2.
Proof.
  assert (H1 : Sound ReservationExample.o1).
  { apply (first_insertion_sound 16 32 (payload (lineAlongX 0 2) None) 4 (-1)
                                 ReservationExample.o1 0).
    - discriminate.
    - discriminate.
    - apply payload_ok.
    - vm_compute. reflexivity. }
  split; [exact H1 |].
  refine (proj1 (proj1 (proj2 (proj2 (reserved_ranges_and_reuse ReservationExample.o1 H1)))
                       (payload (lineAlongX 10 2) None) (-1) (-1)
                       ReservationExample.o2 1 _ _)).
  - apply payload_ok.
  - vm_compute. reflexivity.
Defined.

(** ** Growth *)

Lemma setGeometryAt_succeeds (b : Batch) (id : Z) (g : BufferGeometry)
      (info : GeometryInfo) (p : BufferAttribute) :
  id < geometryCount b -> validateGeometry b g = None ->
  tlookup (geometryInfo b) id = Some info ->
  lookupAttr "position" (attributes g) = Some p ->
  count_of p <= reservedVertexCount info ->
  (forall d s, index (geometry b) = Some d -> index g = Some s ->
               icount s <= reservedIndexCount info) ->
  exists b', setGeometryAt b id g = Ok b' id.
Proof.
  intros Hid Hval Hlk Hpos Hcnt Hix. unfold setGeometryAt.
  rewrite (geb_false _ _ Hid), Hval, Hlk, Hpos.
  assert (Hc : (count_of p >? reservedVertexCount info) = false)
    by (rewrite Z.gtb_ltb; apply Z.ltb_ge; assumption).
  rewrite Hc.
  destruct (index (geometry b)) as [d |] eqn:Hd; destruct (index g) as [s |] eqn:Hs;
    try (eexists; reflexivity).
  assert (Hi : (icount s >? reservedIndexCount info) = false)
    by (rewrite Z.gtb_ltb; apply Z.ltb_ge; apply (Hix d s eq_refl eq_refl)).
  rewrite Hi. eexists. reflexivity.
Qed.

Lemma addInitialized_compose (b1 : Batch) (g0 : BufferGeometry) (rv ri : Z)
      (info : GeometryInfo) (b4 : Batch) :
  validateGeometry b1 g0 = None ->
  newRegion (resizeSpaceIfNeeded b1 (withBounds g0)) (withBounds g0) rv ri = Some info ->
  exceedsMaximum (resizeSpaceIfNeeded b1 (withBounds g0)) info = false ->
  setGeometryAt (fst (allocateId (resizeSpaceIfNeeded b1 (withBounds g0)) info))
                (snd (allocateId (resizeSpaceIfNeeded b1 (withBounds g0)) info))
                (withBounds g0)
  = Ok b4 (snd (allocateId (resizeSpaceIfNeeded b1 (withBounds g0)) info)) ->
  addInitialized b1 g0 rv ri
  = Ok (advanceCursors b4 info)
       (snd (allocateId (resizeSpaceIfNeeded b1 (withBounds g0)) info)).
Proof.
  intros Hval Hnew Hex Hset. unfold addInitialized. rewrite Hval, Hnew, Hex.
  destruct (allocateId (resizeSpaceIfNeeded b1 (withBounds g0)) info) as [b3 gid].
  cbn [fst snd] in *. rewrite Hset. reflexivity.
Qed.

Lemma newRegion_default (b : Batch) (g : BufferGeometry) (p : BufferAttribute) :
  lookupAttr "position" (attributes g) = Some p ->
  newRegion b g (-1) (-1)
  = Some (mkInfo (nextVertexStart b) (-1) (count_of p)
                 (match index g with Some _ => nextIndexStart b | None => -1 end) (-1)
                 (match index g with Some ix => icount ix | None => -1 end) (-1) (-1)
                 (gBoundingBox g) (gBoundingSphere g) true true None false).
Proof.
  intros H. unfold newRegion. cbn [Z.eqb Pos.eqb]. rewrite H. cbn [option_map].
  destruct (index g); reflexivity.
Qed.

Lemma newMax_withBounds (b : Batch) (g : BufferGeometry) :
  newMaxVertexCount b (withBounds g) = newMaxVertexCount b g
  /\ newMaxIndexCount b (withBounds g) = newMaxIndexCount b g.
Proof.
  unfold newMaxVertexCount, newMaxIndexCount.
  rewrite withBounds_attributes, withBounds_index. auto.
Qed.

(** Under the invariant the capacities after [_resizeSpaceIfNeeded] are
    the ones the growth rule computes: a dimension whose tail is too
    short for the payload grows to [(max + count) * 1.5], the other one
    keeps its capacity. *)
Lemma resize_capacity (b : Batch) (g : BufferGeometry) :
  Sound b -> payloadOk g -> validateGeometry b g = None ->
  maxVertexCount (resizeSpaceIfNeeded b g) = newMaxVertexCount b g
  /\ maxIndexCount (resizeSpaceIfNeeded b g) = newMaxIndexCount b g.
Proof.
  intros HS Hpay Hval.
  destruct (resizeSpaceIfNeeded_cases b g) as [[-> [HI HV]] | [-> _]].
  - split.
    + unfold newMaxVertexCount in *.
      destruct (lookupAttr "position" (attributes g)) as [p |] eqn:Hp; [| reflexivity].
      destruct (Qltb (unusedVertexCount b) (inject_Z (count_of p))) eqn:Hshort;
        [| reflexivity].
      apply Qltb_true in Hshort. apply Qgtb_false in HV.
      destruct (sound_vcap b HS) as [H0 Hle].
      destruct (grown_fits (maxVertexCount b) (nextVertexStart b) (count_of p) H0 Hle Hshort)
        as [Hgt _].
      exfalso. apply (Qlt_not_le _ _ Hgt). assumption.
    + unfold newMaxIndexCount in *.
      destruct (index g) as [ix |] eqn:Hix; [| reflexivity].
      destruct (Qltb (unusedIndexCount b) (inject_Z (icount ix))) eqn:Hshort;
        [| reflexivity].
      apply Qltb_true in Hshort. apply Qgtb_false in HI.
      assert (Hindexed : isSome (index (geometry b)) = true).
      { rewrite <- (validateGeometry_None_index b g Hval), Hix. reflexivity. }
      destruct (sound_icap b HS Hindexed) as [H0 Hle].
      destruct (grown_fits (maxIndexCount b) (nextIndexStart b) (icount ix) H0 Hle Hshort)
        as [Hgt _].
      exfalso. apply (Qlt_not_le _ _ Hgt). assumption.
  - destruct (setGeometrySize_fields b (newMaxVertexCount b g) (newMaxIndexCount b g))
      as [_ [_ [_ [_ [_ [_ [HV HI]]]]]]].
    auto.
Qed.

(** With the default reservation the region fits the capacities the
    growth rule leaves. *)
Lemma default_region_fits (b : Batch) (g : BufferGeometry) (p : BufferAttribute) :
  Sound b -> payloadOk g -> validateGeometry b g = None ->
  lookupAttr "position" (attributes g) = Some p ->
  (inject_Z (nextVertexStart b + count_of p) <= newMaxVertexCount b g)%Q
  /\ (forall ix, index g = Some ix ->
        (inject_Z (nextIndexStart b + icount ix) <= newMaxIndexCount b g)%Q).
Proof.
  intros HS Hpay Hval Hp. split.
  - unfold newMaxVertexCount. rewrite Hp.
    destruct (sound_vcap b HS) as [H0 Hle].
    destruct (Qltb (unusedVertexCount b) (inject_Z (count_of p))) eqn:Hshort.
    + apply Qltb_true in Hshort.
      apply (grown_fits (maxVertexCount b) (nextVertexStart b) (count_of p) H0 Hle Hshort).
    + apply Qltb_false in Hshort. apply not_short_fits. assumption.
  - intros ix Hix. unfold newMaxIndexCount. rewrite Hix.
    assert (Hindexed : isSome (index (geometry b)) = true).
    { rewrite <- (validateGeometry_None_index b g Hval), Hix. reflexivity. }
    destruct (sound_icap b HS Hindexed) as [H0 Hle].
    destruct (Qltb (unusedIndexCount b) (inject_Z (icount ix))) eqn:Hshort.
    + apply Qltb_true in Hshort.
      apply (grown_fits (maxIndexCount b) (nextIndexStart b) (icount ix) H0 Hle Hshort).
    + apply Qltb_false in Hshort. apply not_short_fits. assumption.
Qed.

Lemma toLength_ge (V : Q) (next sz : Z) :
  0 <= sz -> (inject_Z next <= V)%Q -> next * sz <= toLength (V * inject_Z sz)%Q.
Proof.
  intros Hsz Hle. unfold toLength.
  assert (H : (inject_Z (next * sz) <= V * inject_Z sz)%Q).
  { rewrite inject_Z_mult. apply Qmult_le_compat_r; [assumption |].
    apply inject_Z_nonneg. assumption. }
  apply Qfloor_resp_le in H. rewrite Qfloor_Z in H. lia.
Qed.

Lemma newMaxVertexCount_ge (b : Batch) (g : BufferGeometry) :
  Sound b -> (maxVertexCount b <= newMaxVertexCount b g)%Q.
Proof.
  intros HS. unfold newMaxVertexCount.
  destruct (lookupAttr "position" (attributes g)) as [p |]; [| apply Qle_refl].
  destruct (Qltb (unusedVertexCount b) (inject_Z (count_of p))) eqn:Hshort;
    [| apply Qle_refl].
  apply Qltb_true in Hshort. destruct (sound_vcap b HS) as [H0 Hle].
  apply Qlt_le_weak.
  apply (grown_fits (maxVertexCount b) (nextVertexStart b) (count_of p) H0 Hle Hshort).
Qed.

Lemma resize_keeps_vertices_below (b : Batch) (g : BufferGeometry)
      (name : string) (a : BufferAttribute) :
  Sound b ->
  lookupAttr name (attributes (geometry b)) = Some a -> 0 <= itemSize a ->
  exists a2,
    lookupAttr name (attributes (geometry (resizeSpaceIfNeeded b g))) = Some a2
    /\ itemSize a2 = itemSize a
    /\ forall q, q < nextVertexStart b * itemSize a ->
                 get (array a2) q = get (array a) q.
Proof.
  intros HS Hlk Hsz.
  destruct (resizeSpaceIfNeeded_cases b g) as [[-> _] | [-> _]].
  - exists a. auto.
  - exists (resizedAttr (newMaxVertexCount b g) a).
    rewrite setGeometrySize_attributes
      by (first [apply (sound_initialized b HS) | apply (sound_keys b HS)]).
    rewrite lookupAttr_map, Hlk. split; [reflexivity |]. split; [reflexivity |].
    intros q Hq. apply resizedAttr_get.
    assert (Hle : (inject_Z (nextVertexStart b) <= newMaxVertexCount b g)%Q).
    { eapply Qle_trans; [apply (proj2 (sound_vcap b HS)) |].
      apply newMaxVertexCount_ge. assumption. }
    pose proof (toLength_ge _ _ _ Hsz Hle). lia.
Qed.

Lemma get_map_mod (m : Z) (l : list Z) (q : Z) :
  get (map (fun v => v mod m) l) q = (get l q) mod m.
Proof.
  unfold get. destruct (q <? 0); [reflexivity |].
  change 0 with ((fun v => v mod m) 0) at 1.
  rewrite map_nth. reflexivity.
Qed.

Lemma get_in_range (P : Z -> Prop) (l : list Z) (q : Z) :
  Forall P l -> P 0 -> P (get l q).
Proof.
  intros Hl H0. unfold get. destruct (q <? 0); [assumption |].
  destruct (Nat.lt_ge_cases (Z.to_nat q) (List.length l)) as [Hin | Hout].
  - rewrite Forall_forall in Hl. apply Hl, nth_In. assumption.
  - rewrite nth_overflow by assumption. assumption.
Qed.

Lemma newMaxIndexCount_ge (b : Batch) (g : BufferGeometry) :
  Sound b -> isSome (index (geometry b)) = true ->
  (maxIndexCount b <= newMaxIndexCount b g)%Q.
Proof.
  intros HS Hindexed. unfold newMaxIndexCount.
  destruct (index g) as [ix |]; [| apply Qle_refl].
  destruct (Qltb (unusedIndexCount b) (inject_Z (icount ix))) eqn:Hshort;
    [| apply Qle_refl].
  apply Qltb_true in Hshort. destruct (sound_icap b HS Hindexed) as [H0 Hle].
  apply Qlt_le_weak.
  apply (grown_fits (maxIndexCount b) (nextIndexStart b) (icount ix) H0 Hle Hshort).
Qed.

Lemma resize_keeps_indices_below (b : Batch) (g : BufferGeometry) (ix : IndexAttribute) :
  Sound b -> index (geometry b) = Some ix ->
  exists ix2,
    index (geometry (resizeSpaceIfNeeded b g)) = Some ix2
    /\ forall q, q < nextIndexStart b -> getX ix2 q = getX ix q.
Proof.
  intros HS Hix.
  assert (Hindexed : isSome (index (geometry b)) = true) by (rewrite Hix; reflexivity).
  destruct (resizeSpaceIfNeeded_cases b g) as [[-> _] | [-> _]].
  - exists ix. auto.
  - exists (resizedIndex (newMaxVertexCount b g) (newMaxIndexCount b g) ix).
    rewrite setGeometrySize_index by apply (sound_initialized b HS).
    rewrite Hix. split; [reflexivity |].
    intros q Hq. unfold getX, resizedIndex. cbn [idata].
    assert (Hle : (inject_Z (nextIndexStart b) <= newMaxIndexCount b g)%Q).
    { eapply Qle_trans; [apply (proj2 (sound_icap b HS Hindexed)) |].
      apply newMaxIndexCount_ge; assumption. }
    assert (Hlen : nextIndexStart b <= toLength (newMaxIndexCount b g)).
    { pose proof (toLength_ge (newMaxIndexCount b g) (nextIndexStart b) 1) as H.
      rewrite Z.mul_1_r in H. unfold toLength in *.
      assert (Heq : (newMaxIndexCount b g * inject_Z 1 == newMaxIndexCount b g)%Q)
        by (change (inject_Z 1) with 1%Q; apply Qmult_1_r).
      rewrite Heq in H. apply H; [lia | assumption]. }
    rewrite get_copyArrayContents_zeros by lia.
    rewrite get_map_mod.
    destruct (sound_indexed b HS ix Hix) as [Hkind Hvals].
    apply Z.mod_small.
    assert (Hv : 0 <= get (idata ix) q < index_modulus (ikind ix)).
    { apply (get_in_range (fun v => 0 <= v < index_modulus (ikind ix))); [assumption |].
      split; [lia | apply index_modulus_pos]. }
    assert (Hmono : index_modulus (ikind ix)
                    <= index_modulus (if Qgtb (newMaxVertexCount b g) 65535
                                      then Uint32 else Uint16)).
    { rewrite Hkind.
      destruct (Qgtb (maxVertexCount b) 65535) eqn:Hold;
        destruct (Qgtb (newMaxVertexCount b g) 65535) eqn:Hnew; cbn; try lia.
      apply Qgtb_true in Hold. apply Qgtb_false in Hnew.
      pose proof (newMaxVertexCount_ge b g HS) as Hge.
      exfalso. apply (Qlt_not_le _ _ Hold).
      eapply Qle_trans; eassumption. }
    lia.
Qed.

Lemma lookupAttr_writeAttributes (l : Attributes) (g : BufferGeometry)
      (vStart reserved : Z) (name : string) :
  lookupAttr name (writeAttributes l g vStart reserved)
  = option_map
      (fun dst => match lookupAttr name (attributes g) with
                  | Some src => zeroFill (copyAttributeData src dst vStart) vStart
                                         (count_of src) reserved (itemSize src)
                  | None => dst
                  end)
      (lookupAttr name l).
Proof.
  induction l as [| [n dst] rest IH]; [reflexivity |].
  cbn [writeAttributes map lookupAttr].
  destruct (String.eqb n name) eqn:E.
  - apply String.eqb_eq in E. subst n.
    destruct (lookupAttr name (attributes g)); cbn [lookupAttr];
      rewrite String.eqb_refl; reflexivity.
  - destruct (lookupAttr n (attributes g)); cbn [lookupAttr]; rewrite E; exact IH.
Qed.

Lemma lookupAttr_In (name : string) (a : BufferAttribute) (l : Attributes) :
  lookupAttr name l = Some a -> In (name, a) l.
Proof.
  induction l as [| [n x] rest IH]; simpl; [discriminate |].
  destruct (String.eqb n name) eqn:E.
  - apply String.eqb_eq in E. intros H. inversion H; subst. left. reflexivity.
  - intros H. right. apply IH. assumption.
Qed.

Lemma validateAttributes_same_attributes (l : Attributes) (g g' : BufferGeometry) :
  attributes g = attributes g' -> validateAttributes l g = validateAttributes l g'.
Proof.
  intros H. induction l as [| [n dst] rest IH]; simpl; [reflexivity |].
  rewrite H, IH. reflexivity.
Qed.

Lemma validateGeometry_withBounds (b : Batch) (g : BufferGeometry) :
  validateGeometry b (withBounds g) = validateGeometry b g.
Proof.
  unfold validateGeometry. rewrite withBounds_index.
  rewrite (validateAttributes_same_attributes _ (withBounds g) g
             (withBounds_attributes g)).
  reflexivity.
Qed.

Lemma validateGeometry_None_attributes (b : Batch) (g : BufferGeometry) :
  validateGeometry b g = None -> validateAttributes (attributes (geometry b)) g = None.
Proof.
  unfold validateGeometry.
  destruct (negb (Bool.eqb (isSome (index g)) (isSome (index (geometry b)))));
    [discriminate | auto].
Qed.

Lemma writeAttribute_layout (src dst : BufferAttribute) (vStart reserved : Z) :
  itemSize (zeroFill (copyAttributeData src dst vStart) vStart (count_of src)
                     reserved (itemSize src)) = itemSize dst
  /\ normalized (zeroFill (copyAttributeData src dst vStart) vStart (count_of src)
                        reserved (itemSize src)) = normalized dst.
Proof.
  set (P := fun d : BufferAttribute =>
              itemSize d = itemSize dst /\ normalized d = normalized dst).
  assert (Hcopy : P (copyAttributeData src dst vStart)).
  { unfold copyAttributeData. apply (fold_left_preserves P); [split; reflexivity |].
    intros x i _ Hx. apply (fold_left_preserves P); [assumption |].
    intros y c _ Hy. exact Hy. }
  unfold zeroFill. apply (fold_left_preserves P); [assumption |].
  intros x i _ Hx. apply (fold_left_preserves P); [assumption |].
  intros y c _ Hy. exact Hy.
Qed.

Lemma writeAttributes_schema (l : Attributes) (g : BufferGeometry) (vStart reserved : Z) :
  map (fun na => (fst na, itemSize (snd na), normalized (snd na)))
      (writeAttributes l g vStart reserved)
  = map (fun na => (fst na, itemSize (snd na), normalized (snd na))) l.
Proof.
  unfold writeAttributes. rewrite map_map. apply map_ext. intros [n dst].
  destruct (lookupAttr n (attributes g)) as [src |]; [| reflexivity].
  cbn [fst snd]. destruct (writeAttribute_layout src dst vStart reserved) as [-> ->].
  reflexivity.
Qed.

(** An insertion keeps the schema of the batch. *)
Lemma addGeometry_schema (b : Batch) (g : BufferGeometry) (rv ri : Z) (b' : Batch) (id : Z) :
  Sound b -> addGeometry b g rv ri = Ok b' id ->
  schemaOf (geometry b') = schemaOf (geometry b).
Proof.
  intros HS Hadd. unfold addGeometry, initializeGeometry in Hadd.
  rewrite (sound_initialized b HS) in Hadd.
  destruct (addInitialized_Ok _ _ _ _ _ _ Hadd)
    as [_ [info [b4 [_ [_ [_ [Hset Hb']]]]]]].
  destruct (setGeometryAt_Ok _ _ _ _ _ Hset)
    as [_ [_ [_ [info3 [position3 [info' [_ [_ [_ [_ [_ [_ [_ [Hattrs Hindex]]]]]]]]]]]]]].
  destruct (allocateId_fields (resizeSpaceIfNeeded b (withBounds g)) info)
    as [_ [_ [HG3 _]]].
  pose proof (resizeSpaceIfNeeded_schema b (withBounds g) (sound_initialized b HS)
                                         (sound_keys b HS)) as Hsch.
  rewrite <- Hsch. rewrite Hb'. unfold schemaOf. cbn [advanceCursors geometry].
  rewrite Hattrs, Hindex, writeAttributes_schema, HG3.
  destruct (index (geometry (resizeSpaceIfNeeded b (withBounds g))));
    destruct (index (withBounds g)); reflexivity.
Qed.

(** C4, as stated, fails: the batch holds 4 vertices, 2 are used, and an
    insertion that asks for a reserved span of 10 vertices (payload: 2)
    exceeds the remaining tail of 2.  The growth test looks at the
    payload's own count only, so nothing grows and the insertion is
    refused ("Reserved space request exceeds the maximum buffer size"). *)
Lemma C4_reservation_beyond_tail_is_refused :
  unusedVertexCount GrowthExample.half = 2%Q
  /\ addGeometry GrowthExample.half (Examples.segment 10) 10 (-1)
     = Throw ReservedExceedsMaximum GrowthExample.half
  /\ maxVertexCount GrowthExample.half = 4%Q.
Proof.
  repeat (apply conj; [vm_compute; reflexivity |]).
  vm_compute; reflexivity.
Qed.

(** One insertion with the default reservation: it succeeds, each
    dimension grows on its own test, live regions keep their records, and
    the buffers read as before below the old tail cursors. *)
Lemma insertion_step (b : Batch) (g : BufferGeometry) (position : BufferAttribute) :
  Sound b -> payloadOk g ->
  validateGeometry b g = None ->
  lookupAttr "position" (attributes g) = Some position ->
  exists b' id,
    addGeometry b g (-1) (-1) = Ok b' id
    /\ (maxVertexCount b'
        = if Qltb (unusedVertexCount b) (inject_Z (count_of position))
          then grown (maxVertexCount b) (count_of position)
          else maxVertexCount b)
    /\ (maxIndexCount b'
        = match index g with
          | Some ix => if Qltb (unusedIndexCount b) (inject_Z (icount ix))
                       then grown (maxIndexCount b) (icount ix)
                       else maxIndexCount b
          | None => maxIndexCount b
          end)
    /\ (forall i r, tlookup (geometryInfo b) i = Some r -> active r = true ->
                    i <> id /\ tlookup (geometryInfo b') i = Some r
                    /\ vertexStart r + reservedVertexCount r <= nextVertexStart b)
    /\ (forall name a,
          lookupAttr name (attributes (geometry b)) = Some a -> 0 <= itemSize a ->
          exists a',
            lookupAttr name (attributes (geometry b')) = Some a'
            /\ itemSize a' = itemSize a
            /\ forall q, q < nextVertexStart b * itemSize a ->
                         get (array a') q = get (array a) q)
    /\ (forall ix,
          index (geometry b) = Some ix ->
          exists ix',
            index (geometry b') = Some ix'
            /\ nextIndexStart b <= nextIndexStart b'
            /\ forall q, q < nextIndexStart b -> getX ix' q = getX ix q).
Proof.
  intros HS Hpay Hval Hpos.
  set (G := withBounds g).
  assert (HposG : lookupAttr "position" (attributes G) = Some position)
    by (unfold G; rewrite withBounds_attributes; assumption).
  assert (HixG : index G = index g) by apply withBounds_index.
  assert (HvalG : validateGeometry b G = None)
    by (unfold G; rewrite validateGeometry_withBounds; assumption).
  assert (HpayG : payloadOk G)
    by (intros p Hp; apply Hpay; unfold G in Hp; rewrite withBounds_attributes in Hp;
        assumption).
  set (b2 := resizeSpaceIfNeeded b G).
  destruct (resizeSpaceIfNeeded_fields b G) as [Ht2 [Hfree2 [HnI2 [HnV2 [Hcnt2 Hinit2]]]]].
  fold b2 in Ht2, Hfree2, HnI2, HnV2, Hcnt2, Hinit2.
  destruct (resize_capacity b G HS HpayG HvalG) as [HcapV HcapI]. fold b2 in HcapV, HcapI.
  destruct (newMax_withBounds b g) as [HnewV HnewI]. fold G in HnewV, HnewI.
  pose proof (resizeSpaceIfNeeded_schema b G (sound_initialized b HS) (sound_keys b HS))
    as Hsch. fold b2 in Hsch.
  pose proof (newRegion_default b2 G position HposG) as Hnew.
  set (info := mkInfo (nextVertexStart b2) (-1) (count_of position)
                 (match index G with Some _ => nextIndexStart b2 | None => -1 end) (-1)
                 (match index G with Some ix => icount ix | None => -1 end) (-1) (-1)
                 (gBoundingBox G) (gBoundingSphere G) true true None false) in *.
  destruct (default_region_fits b G position HS HpayG HvalG HposG) as [HfitV HfitI].
  assert (Hex : exceedsMaximum b2 info = false).
  { unfold exceedsMaximum, info.
    cbn [vertexStart reservedVertexCount indexStart reservedIndexCount].
    apply orb_false_iff. split.
    - destruct (index G) as [ix |] eqn:Hix; [| reflexivity].
      apply andb_false_iff. right. apply Qgtb_false.
      rewrite HcapI, HnI2. apply HfitI. reflexivity.
    - apply Qgtb_false. rewrite HcapV, HnV2. assumption. }
  assert (Hcount2 : geometryCount b2 = tlength (geometryInfo b2))
    by (rewrite Hcnt2, Ht2; apply (sound_count b HS)).
  assert (Hfreeb2 : Forall (fun n => Z.of_nat n < tlength (geometryInfo b2))
                           (availableGeometryIds b2))
    by (rewrite Ht2, Hfree2; apply (sound_free b HS)).
  destruct (allocateId_spec b2 info Hcount2 Hfreeb2)
    as [Hlk3 [Hother3 [Hcount3 [Hfree3 [Hhandle Hperm]]]]].
  destruct (allocateId_fields b2 info) as [HV3 [HI3 [HG3 [Hinit3 [HmV3 HmI3]]]]].
  set (b3 := fst (allocateId b2 info)) in *.
  set (id := snd (allocateId b2 info)) in *.
  pose proof (tlookup_Some_range _ _ _ Hlk3) as Hidrange.
  assert (Hval3 : validateGeometry b3 G = None).
  { rewrite (validateGeometry_schema b3 b G); [assumption |].
    rewrite HG3. assumption. }
  destruct (setGeometryAt_succeeds b3 id G info position) as [b4 Hset];
    try assumption.
  { rewrite Hcount3. lia. }
  { unfold info. cbn [reservedVertexCount]. lia. }
  { intros d s _ Hs. unfold info. cbn [reservedIndexCount]. rewrite Hs. lia. }
  pose proof (addInitialized_compose b g (-1) (-1) info b4 Hval Hnew Hex Hset) as Hadd.
  fold G b2 id in Hadd.
  assert (Hadd' : addGeometry b g (-1) (-1) = Ok (advanceCursors b4 info) id).
  { unfold addGeometry, initializeGeometry. rewrite (sound_initialized b HS). exact Hadd. }
  exists (advanceCursors b4 info), id.
  destruct (setGeometryAt_Ok _ _ _ _ _ Hset)
    as [_ [_ [_ [info3 [position3 [info' [Hlk3' [Hpos3 [_ [_
         [Ht4 [Hinfo' [Hfields [Hattrs4 Hindex4]]]]]]]]]]]]]].
  rewrite Hlk3 in Hlk3'. inversion Hlk3'; subst info3; clear Hlk3'.
  destruct Hfields as [Hfree4 [HnI4 [HnV4 [Hcnt4 [Hinit4 [HmV4 HmI4]]]]]].
  split; [exact Hadd' |].
  split.
  { cbn [advanceCursors maxVertexCount]. rewrite HmV4, HmV3, HcapV, HnewV.
    unfold newMaxVertexCount. rewrite Hpos. reflexivity. }
  split.
  { cbn [advanceCursors maxIndexCount]. rewrite HmI4, HmI3, HcapI, HnewI.
    reflexivity. }
  split.
  { intros i r Hlk Hact.
    destruct (addGeometry_keeps_live b g (-1) (-1) _ id i r HS Hpay Hadd' Hlk Hact)
      as [Hne Hlk'].
    split; [assumption |]. split; [assumption |].
    apply (proj1 (sound_vertex b HS) i r Hlk Hact). }
  split.
  { intros name a Hlk Hsz.
    destruct (resize_keeps_vertices_below b G name a HS Hlk Hsz)
      as [a2 [Hlk2 [Hsz2 Hget2]]]. fold b2 in Hlk2.
    cbn [advanceCursors geometry]. rewrite Hattrs4, lookupAttr_writeAttributes.
    rewrite HG3, Hlk2. cbn [option_map].
    destruct (lookupAttr name (attributes G)) as [src |] eqn:Hsrc.
    - eexists. split; [reflexivity |].
      pose proof (validateGeometry_None_attributes b3 G Hval3) as Hva.
      rewrite HG3 in Hva.
      destruct (validateAttributes_None _ _ Hva name a2 (lookupAttr_In _ _ _ Hlk2))
        as [src' [Hsrc' [Hsz' _]]].
      rewrite Hsrc in Hsrc'. inversion Hsrc'; subst src'.
      assert (Hv0 : 0 <= vertexStart info).
      { unfold info. cbn [vertexStart]. rewrite HnV2. apply (sound_vcap b HS). }
      destruct (writeAttribute_sameBelow src a2 (vertexStart info)
                  (reservedVertexCount info) Hv0 ltac:(lia) Hsz') as [Hszw Hgetw].
      split; [congruence |].
      intros q Hq. rewrite Hgetw.
      + apply Hget2. assumption.
      + unfold info. cbn [vertexStart]. rewrite HnV2, Hsz2. assumption.
    - exists a2. auto. }
  intros ix Hix.
  destruct (resize_keeps_indices_below b G ix HS Hix) as [ix2 [Hix2 Hget2]].
  fold b2 in Hix2.
  cbn [advanceCursors geometry]. rewrite Hindex4, HG3, Hix2.
  destruct (index G) as [s |] eqn:HsG.
  - eexists. split; [reflexivity |]. split.
    + cbn [advanceCursors nextIndexStart]. unfold info.
      cbn [indexStart reservedIndexCount]. rewrite HnI2.
      pose proof (Zle_0_nat (List.length (idata s))). unfold icount, len. lia.
    + intros q Hq. rewrite writeIndex_below.
      * apply Hget2. assumption.
      * unfold info. cbn [indexStart]. rewrite HnI2. assumption.
  - exfalso.
    assert (Hpres : isSome (index G) = isSome (index (geometry b)))
      by (apply validateGeometry_None_index; assumption).
    rewrite HsG, Hix in Hpres. discriminate.
Qed.

(** An explicit reservation is not what the growth test looks at: the
    capacities are regrown for the payload's own counts, and a reserved
    span beyond them is refused. *)
Lemma reservation_beyond_capacity (b : Batch) (g : BufferGeometry)
      (position : BufferAttribute) (rv ri : Z) :
  Sound b -> accepts b g ->
  lookupAttr "position" (attributes g) = Some position ->
  let capV := capacityRule (maxVertexCount b) (nextVertexStart b) (count_of position) in
  let capI := match index g with
              | Some ix => capacityRule (maxIndexCount b) (nextIndexStart b) (icount ix)
              | None => maxIndexCount b
              end in
  (capV < inject_Z (nextVertexStart b + (if rv =? -1 then count_of position else rv)))%Q
  \/ (exists ix, index g = Some ix
                 /\ (capI < inject_Z (nextIndexStart b
                                      + (if ri =? -1 then icount ix else ri)))%Q) ->
  exists s,
    addGeometry b g rv ri = Throw ReservedExceedsMaximum s
    /\ maxVertexCount s = capV /\ maxIndexCount s = capI
    /\ geometryInfo s = geometryInfo b
    /\ availableGeometryIds s = availableGeometryIds b
    /\ geometryCount s = geometryCount b
    /\ nextVertexStart s = nextVertexStart b
    /\ nextIndexStart s = nextIndexStart b.
Proof.
  intros HS (Hpay & Hval & _) Hpos capV capI Hbeyond.
  set (G := withBounds g).
  assert (HposG : lookupAttr "position" (attributes G) = Some position)
    by (unfold G; rewrite withBounds_attributes; assumption).
  assert (HixG : index G = index g) by apply withBounds_index.
  assert (HvalG : validateGeometry b G = None)
    by (unfold G; rewrite validateGeometry_withBounds; assumption).
  assert (HpayG : payloadOk G)
    by (intros p Hp; apply Hpay; unfold G in Hp; rewrite withBounds_attributes in Hp;
        assumption).
  set (b2 := resizeSpaceIfNeeded b G).
  destruct (resizeSpaceIfNeeded_fields b G) as [Ht2 [Hfree2 [HnI2 [HnV2 [Hcnt2 Hinit2]]]]].
  fold b2 in Ht2, Hfree2, HnI2, HnV2, Hcnt2, Hinit2.
  destruct (resize_capacity b G HS HpayG HvalG) as [HcapV HcapI]. fold b2 in HcapV, HcapI.
  destruct (newMax_withBounds b g) as [HnewV HnewI]. fold G in HnewV, HnewI.
  assert (HV : maxVertexCount b2 = capV).
  { rewrite HcapV, HnewV. unfold newMaxVertexCount. rewrite Hpos. reflexivity. }
  assert (HI : maxIndexCount b2 = capI).
  { rewrite HcapI, HnewI. unfold newMaxIndexCount, capI.
    destruct (index g); reflexivity. }
  exists b2. split.
  - unfold addGeometry, initializeGeometry. rewrite (sound_initialized b HS).
    unfold addInitialized. rewrite Hval. fold G. fold b2.
    unfold newRegion. rewrite HposG. cbn [option_map].
    replace (if rv =? -1 then Some (count_of position) else Some rv)
      with (Some (if rv =? -1 then count_of position else rv))
      by (destruct (rv =? -1); reflexivity).
    assert (Hpresence : isSome (index g) = isSome (index (geometry b)))
      by (apply validateGeometry_None_index; assumption).
    rewrite HixG.
    destruct (index g) as [ix |] eqn:Hix.
    + assert (Hindexed : isSome (index (geometry b)) = true) by (rewrite <- Hpresence; reflexivity).
      destruct (sound_icap b HS Hindexed) as [HI0 _].
      assert (Hex : exceedsMaximum b2
                      (mkInfo (nextVertexStart b2) (-1)
                              (if rv =? -1 then count_of position else rv)
                              (nextIndexStart b2) (-1)
                              (if ri =? -1 then icount ix else ri) (-1) (-1)
                              (gBoundingBox G) (gBoundingSphere G) true true None false)
                    = true).
      { unfold exceedsMaximum.
        cbn [vertexStart reservedVertexCount indexStart reservedIndexCount].
        rewrite HV, HI, HnV2, HnI2. apply orb_true_iff.
        destruct Hbeyond as [Hv | (ix' & Hix' & Hi)].
        - right. apply Qgtb_true. exact Hv.
        - left. injection Hix' as <-. apply andb_true_iff. split.
          + apply negb_true_iff. apply Z.eqb_neq. lia.
          + apply Qgtb_true. exact Hi. }
      rewrite Hex. reflexivity.
    + assert (Hex : exceedsMaximum b2
                      (mkInfo (nextVertexStart b2) (-1)
                              (if rv =? -1 then count_of position else rv)
                              (-1) (-1) (-1) (-1) (-1)
                              (gBoundingBox G) (gBoundingSphere G) true true None false)
                    = true).
      { unfold exceedsMaximum.
        cbn [vertexStart reservedVertexCount indexStart reservedIndexCount].
        rewrite HV, HnV2. apply orb_true_iff.
        destruct Hbeyond as [Hv | (ix' & Hix' & _)]; [| discriminate].
        right. apply Qgtb_true. exact Hv. }
      rewrite Hex. reflexivity.
  - repeat split; assumption.
Qed.

(** C4, amended: in a batch that satisfies the invariant, every run of
    [addGeometry] calls with the default reservation and payloads the
    batch accepts succeeds; at each insertion a dimension whose tail is
    shorter than the payload's count grows to [(max + count) * 1.5] and
    the other keeps its capacity; the final batch satisfies the invariant;
    every region live at the start keeps its handle (none of the new
    handles is its own), its record and so its offsets; and every
    attribute and the index read as before below the tail cursors the run
    started from.  An explicit reservation is not what the growth test
    looks at: when the reserved vertex or index span ends beyond the
    capacity as regrown for the payload's own count, the insertion is
    refused ("Reserved space request exceeds the maximum buffer size")
    with the table, the free list and the cursors as they were. *)
Theorem C4_growth_keeps_data (gs : list BufferGeometry) (b : Batch) :
  Sound b -> Forall (accepts b) gs ->
  growsByRule b gs
  /\ (exists b' ids,
       addAll b gs = Ok b' ids
       /\ Sound b'
       /\ (forall i r, tlookup (geometryInfo b) i = Some r -> active r = true ->
                       ~ In i ids /\ tlookup (geometryInfo b') i = Some r
                       /\ vertexStart r + reservedVertexCount r <= nextVertexStart b)
       /\ (forall name a,
             lookupAttr name (attributes (geometry b)) = Some a -> 0 <= itemSize a ->
             exists a',
               lookupAttr name (attributes (geometry b')) = Some a'
               /\ itemSize a' = itemSize a
               /\ forall q, q < nextVertexStart b * itemSize a ->
                            get (array a') q = get (array a) q)
       /\ (forall ix,
             index (geometry b) = Some ix ->
             exists ix',
               index (geometry b') = Some ix'
               /\ forall q, q < nextIndexStart b -> getX ix' q = getX ix q))
  /\ (forall g position rv ri,
        accepts b g -> lookupAttr "position" (attributes g) = Some position ->
        let capV := capacityRule (maxVertexCount b) (nextVertexStart b)
                                 (count_of position) in
        let capI := match index g with
                    | Some ix => capacityRule (maxIndexCount b) (nextIndexStart b)
                                              (icount ix)
                    | None => maxIndexCount b
                    end in
        (capV < inject_Z (nextVertexStart b
                          + (if rv =? -1 then count_of position else rv)))%Q
        \/ (exists ix, index g = Some ix
                       /\ (capI < inject_Z (nextIndexStart b
                                            + (if ri =? -1 then icount ix else ri)))%Q) ->
        exists s,
          addGeometry b g rv ri = Throw ReservedExceedsMaximum s
          /\ maxVertexCount s = capV /\ maxIndexCount s = capI
          /\ geometryInfo s = geometryInfo b
          /\ availableGeometryIds s = availableGeometryIds b
          /\ geometryCount s = geometryCount b
          /\ nextVertexStart s = nextVertexStart b
          /\ nextIndexStart s = nextIndexStart b).
Proof.
  assert (Hgen : forall (gs : list BufferGeometry) (b : Batch),
    Sound b -> Forall (accepts b) gs ->
    growsByRule b gs
    /\ exists b' ids,
         addAll b gs = Ok b' ids
         /\ Sound b'
         /\ nextVertexStart b <= nextVertexStart b'
         /\ (forall i r, tlookup (geometryInfo b) i = Some r -> active r = true ->
                         ~ In i ids /\ tlookup (geometryInfo b') i = Some r
                         /\ vertexStart r + reservedVertexCount r <= nextVertexStart b)
         /\ (forall name a,
               lookupAttr name (attributes (geometry b)) = Some a -> 0 <= itemSize a ->
               exists a',
                 lookupAttr name (attributes (geometry b')) = Some a'
                 /\ itemSize a' = itemSize a
                 /\ forall q, q < nextVertexStart b * itemSize a ->
                              get (array a') q = get (array a) q)
         /\ (forall ix,
               index (geometry b) = Some ix ->
               exists ix',
                 index (geometry b') = Some ix'
                 /\ nextIndexStart b <= nextIndexStart b'
                 /\ forall q, q < nextIndexStart b -> getX ix' q = getX ix q)).
  { clear gs b. induction gs as [| g rest IH]; intros b HS Hall.
    - split; [exact I |]. exists b, []. cbn [addAll].
      split; [reflexivity |]. split; [assumption |]. split; [lia |].
      split; [| split].
      + intros i r Hi Hact. split; [intros [] |]. split; [assumption |].
        destruct (sound_vertex b HS) as [Hin _].
        destruct (Hin i r Hi Hact) as [_ [_ Hend]]. exact Hend.
      + intros name a Ha _. exists a. auto.
      + intros ix Hix. exists ix. split; [assumption |]. split; [lia | auto].
    - inversion Hall as [| g' rest' [Hpay [Hval [p Hpos]]] Hrest]; subst g' rest'.
      destruct (insertion_step b g p HS Hpay Hval Hpos)
        as [b1 [id [Hadd [HmaxV [HmaxI [Hlive [Hdata Hindex]]]]]]].
      destruct (addGeometry_sound b g (-1) (-1) b1 id HS Hpay Hadd)
        as [HS1 [[r0 [_ [_ [_ [Hres0 Hnext]]]]] _]].
      pose proof (addGeometry_schema b g (-1) (-1) b1 id HS Hadd) as Hsch.
      assert (Hrest1 : Forall (accepts b1) rest).
      { apply Forall_forall. intros g' Hg'.
        rewrite Forall_forall in Hrest. destruct (Hrest g' Hg') as [Hp' [Hv' Hpos']].
        split; [assumption |]. split; [| assumption].
        rewrite <- (validateGeometry_schema b b1 g'); [assumption | symmetry; assumption]. }
      destruct (IH b1 HS1 Hrest1)
        as [Hrule [b' [ids [Hall' [HS' [Hmono [Hlive' [Hdata' Hindex']]]]]]]].
      split.
      + cbn [growsByRule]. exists b1, id. split; [assumption |]. split; [| split].
        * intros p' Hp'. rewrite Hpos in Hp'. injection Hp' as <-. exact HmaxV.
        * exact HmaxI.
        * exact Hrule.
      + exists b', (id :: ids). cbn [addAll]. rewrite Hadd. cbn [bind].
        rewrite Hall'. cbn [bind]. split; [reflexivity |]. split; [assumption |].
        split; [lia |]. split; [| split].
        * intros i r Hi Hact. destruct (Hlive i r Hi Hact) as [Hne [Hi1 Hend]].
          destruct (Hlive' i r Hi1 Hact) as [Hnin [Hi' _]].
          split; [| split; assumption].
          intros [Heq | Hin]; [apply Hne; symmetry; exact Heq | exact (Hnin Hin)].
        * intros name a Ha Hsz.
          destruct (Hdata name a Ha Hsz) as [a1 [Ha1 [Hsz1 Hget1]]].
          assert (Hsz1' : 0 <= itemSize a1) by (rewrite Hsz1; assumption).
          destruct (Hdata' name a1 Ha1 Hsz1') as [a' [Ha' [Hsz' Hget']]].
          exists a'. split; [assumption |]. split; [congruence |].
          intros q Hq. rewrite Hget'; [apply Hget1; assumption |].
          rewrite Hsz1. nia.
        * intros ix Hix. destruct (Hindex ix Hix) as [ix1 [Hix1 [HmonoI Hget1]]].
          destruct (Hindex' ix1 Hix1) as [ix' [Hix' [HmonoI' Hget']]].
          exists ix'. split; [assumption |]. split; [lia |].
          intros q Hq. rewrite Hget'; [apply Hget1; assumption | lia]. }
  intros HS Hall.
  destruct (Hgen gs b HS Hall)
    as [Hrule [b' [ids [Hrun [HS' [_ [Hlive [Hdata Hindex]]]]]]]].
  split; [assumption |].
  split;
    [| intros g position rv ri Hacc Hpos;
       apply reservation_beyond_capacity; assumption].
  exists b', ids.
  split; [assumption |]. split; [assumption |]. split; [assumption |].
  split; [assumption |].
  intros ix Hix. destruct (Hindex ix Hix) as [ix' [Hix' [_ Hget]]].
  exists ix'. auto.
Qed.

Fact full_reservation_beyond :
  (capacityRule (maxVertexCount GrowthExample.full) (nextVertexStart GrowthExample.full)
                (count_of (mkAttr (lineAlongX 20 2) 3 false))
   < inject_Z (nextVertexStart GrowthExample.full
               + (if 10 =? -1 then count_of (mkAttr (lineAlongX 20 2) 3 false) else 10)))%Q.
Proof. vm_compute. reflexivity. Qed.

(** The amended C4 at the full batch of the growth example (4 of 4
    vertices and 4 of 8 indices used) and a run of three more segments:
    the vertex capacity grows at the first insertion, the index capacity
    only later; and a segment with a reservation of 10 vertices, which
    the regrown capacity of 9 does not hold, is refused. *)
Lemma C4_growth_keeps_data_witness :
  Sound GrowthExample.full
  /\ Forall (accepts GrowthExample.full)
            [Examples.segment 20; Examples.segment 30; Examples.segment 40]
  /\ growsByRule GrowthExample.full
                 [Examples.segment 20; Examples.segment 30; Examples.segment 40]
  /\ exists s,
       addGeometry GrowthExample.full (Examples.segment 20) 10 (-1)
       = Throw ReservedExceedsMaximum s
       /\ geometryInfo s = geometryInfo GrowthExample.full
       /\ nextVertexStart s = nextVertexStart GrowthExample.full.
Proof.
  assert (Hhalf : Sound GrowthExample.half).
  { apply (first_insertion_sound 4 8 (Examples.segment 0) (-1) (-1) GrowthExample.half 0).
    - discriminate.
    - discriminate.
    - apply payload_ok.
    - vm_compute. reflexivity. }
  assert (Hfull : Sound GrowthExample.full).
  { apply (addGeometry_sound GrowthExample.half (Examples.segment 10) (-1) (-1)
                             GrowthExample.full 1 Hhalf).
    - apply payload_ok.
    - vm_compute. reflexivity. }
  assert (Hacc : forall x, accepts GrowthExample.full (Examples.segment x)).
  { intros x. split; [apply payload_ok |]. split.
    - reflexivity.
    - eexists. reflexivity. }
  assert (Hall : Forall (accepts GrowthExample.full)
                        [Examples.segment 20; Examples.segment 30; Examples.segment 40]).
  { repeat constructor; apply Hacc. }
  destruct (C4_growth_keeps_data _ GrowthExample.full Hfull Hall)
    as (Hrule & _ & Hrefused).
  split; [exact Hfull |]. split; [exact Hall |]. split; [exact Hrule |].
  destruct (Hrefused (Examples.segment 20) (mkAttr (lineAlongX 20 2) 3 false) 10 (-1)
                     (Hacc 20) eq_refl (or_introl full_reservation_beyond))
    as (s & Hthrow & _ & _ & Ht & _ & _ & Hnext & _).
  exists s. split; [exact Hthrow |]. split; [exact Ht | exact Hnext].
Defined.

(** The growth of the example, computed: the vertex tail is used up, so
    4 vertices become (4 + 2) * 1.5 = 9; the index tail still holds the
    payload, so the 8 indices stay. *)
Example growth_of_the_full_batch :
  let b' := stateOf (addGeometry GrowthExample.full (Examples.segment 20) (-1) (-1)) in
  Qeq_bool (maxVertexCount b') 9 = true /\ Qeq_bool (maxIndexCount b') 8 = true
  /\ usedRange b' 2 = Some (4, 6).
Proof.
  cbv zeta. repeat (apply conj; [vm_compute; reflexivity |]). vm_compute; reflexivity.
Qed.

(** The run of the example, computed: handles 2, 3 and 4; the vertex
    capacity grows twice, 4 -> 9 -> (9 + 2) * 1.5 = 16.5, the index
    capacity once, 8 -> (8 + 2) * 1.5 = 15; handle 0 is still at the
    front. *)
Example growth_over_the_run :
  match addAll GrowthExample.full
               [Examples.segment 20; Examples.segment 30; Examples.segment 40] with
  | Ok b' ids =>
      ids = [2; 3; 4]
      /\ Qeq_bool (maxVertexCount b') (33 # 2) = true
      /\ Qeq_bool (maxIndexCount b') 15 = true
      /\ usedRange b' 0 = Some (0, 2)
  | Throw _ _ => False
  end.
Proof.
  vm_compute. repeat (apply conj; [reflexivity |]). reflexivity.
Qed.

(** ** What a throw of an insertion can be *)

Lemma setGeometryAt_Throw_kind (b : Batch) (id : Z) (g : BufferGeometry)
      (e : Error) (s : Batch) :
  setGeometryAt b id g = Throw e s ->
  s = b
  /\ (validateGeometry b g = Some e
      \/ (validateGeometry b g = None
          /\ (e = TypeError \/ e = ReservedNotLargeEnough))
      \/ (geometryCount b <= id /\ e = MaximumGeometryCount)).
Proof.
  unfold setGeometryAt.
  destruct (id >=? geometryCount b) eqn:Hid.
  { intros H. injection H as <- <-. apply geb_true_inv in Hid. auto. }
  destruct (validateGeometry b g) as [e0 |] eqn:Hval.
  { intros H. injection H as <- <-. auto. }
  destruct (tlookup (geometryInfo b) id) as [info |].
  2: { intros H. injection H as <- <-. auto 6. }
  destruct (match index (geometry b), index g with
            | Some _, Some srcIndex => icount srcIndex >? reservedIndexCount info
            | _, _ => false
            end).
  { intros H. injection H as <- <-. auto 6. }
  destruct (lookupAttr "position" (attributes g)) as [position |].
  2: { intros H. injection H as <- <-. auto 6. }
  destruct (count_of position >? reservedVertexCount info).
  { intros H. injection H as <- <-. auto 6. }
  destruct (index (geometry b)); destruct (index g); discriminate.
Qed.

Lemma validateGeometry_same_geometry (b b' : Batch) (g : BufferGeometry) :
  geometry b' = geometry b -> validateGeometry b' g = validateGeometry b g.
Proof. intros H. unfold validateGeometry. rewrite H. reflexivity. Qed.

(** A throw of [addGeometry] on an established batch: either the
    validation refused the payload, and the batch is as it was, or the
    validation passed and the error is none of the schema's. *)
Lemma addInitialized_Throw_kind (b1 : Batch) (g0 : BufferGeometry) (rv ri : Z)
      (e : Error) (s : Batch) :
  geometryInitialized b1 = true ->
  NoDup (map fst (attributes (geometry b1))) ->
  addInitialized b1 g0 rv ri = Throw e s ->
  (validateGeometry b1 g0 = Some e /\ s = b1)
  \/ (validateGeometry b1 g0 = None
      /\ ((e = TypeError \/ e = ReservedExceedsMaximum)
          /\ s = resizeSpaceIfNeeded b1 (withBounds g0)
          \/ (e = TypeError \/ e = ReservedNotLargeEnough \/ e = MaximumGeometryCount)
             /\ exists info,
                  newRegion (resizeSpaceIfNeeded b1 (withBounds g0)) (withBounds g0) rv ri
                  = Some info
                  /\ s = fst (allocateId (resizeSpaceIfNeeded b1 (withBounds g0)) info))).
Proof.
  intros Hinit Hnd. unfold addInitialized.
  destruct (validateGeometry b1 g0) as [e0 |] eqn:Hval.
  { intros H. injection H as <- <-. auto. }
  set (g := withBounds g0). set (b2 := resizeSpaceIfNeeded b1 g).
  destruct (newRegion b2 g rv ri) as [info |] eqn:Hnew.
  2: { intros H. injection H as <- <-. right. split; [reflexivity |]. left. auto. }
  destruct (exceedsMaximum b2 info).
  { intros H. injection H as <- <-. right. split; [reflexivity |]. left. auto. }
  destruct (allocateId b2 info) as [b3 id] eqn:Halloc.
  destruct (setGeometryAt b3 id g) as [b4 v | e1 s1] eqn:Hset; cbn [bind]; [discriminate |].
  intros H. injection H as <- <-.
  destruct (setGeometryAt_Throw_kind _ _ _ _ _ Hset) as [-> Hkind].
  right. split; [reflexivity |]. right.
  assert (Hb3 : b3 = fst (allocateId b2 info)) by (rewrite Halloc; reflexivity).
  split; [| exists info; split; [reflexivity | exact Hb3]].
  assert (Hpass : validateGeometry b3 g = None).
  { destruct (allocateId_fields b2 info) as (_ & _ & HG & _).
    rewrite Hb3, (validateGeometry_same_geometry _ _ g HG).
    rewrite (validateGeometry_schema b2 b1 g)
      by (unfold b2; apply resizeSpaceIfNeeded_schema; assumption).
    unfold g. rewrite validateGeometry_withBounds. exact Hval. }
  destruct Hkind as [Hbad | [[_ [-> | ->]] | [_ ->]]]; [congruence | auto | auto | auto].
Qed.

Lemma validateAttributes_failing (l : Attributes) (g : BufferGeometry) :
  ((exists n dst, In (n, dst) l /\ lookupAttr n (attributes g) = None)
   \/ (exists n dst src, In (n, dst) l /\ lookupAttr n (attributes g) = Some src
                         /\ (itemSize src <> itemSize dst
                             \/ normalized src <> normalized dst)))
  <-> exists e, validateAttributes l g = Some e.
Proof.
  induction l as [| [n dst] rest IH]; cbn [validateAttributes].
  - split.
    + intros [(n & dst & [] & _) | (n & dst & src & [] & _)].
    + intros [e He]. discriminate.
  - destruct (lookupAttr n (attributes g)) as [src |] eqn:Hlk.
    + destruct (itemSize src =? itemSize dst) eqn:Hsz;
        destruct (Bool.eqb (normalized src) (normalized dst)) eqn:Hnorm;
        cbn [negb orb].
      * apply Z.eqb_eq in Hsz. apply Bool.eqb_prop in Hnorm. rewrite <- IH. split.
        -- intros [(n' & dst' & [Heq | Hin] & Hnone)
                  | (n' & dst' & src' & [Heq | Hin] & Hsrc & Hdiff)].
           ++ injection Heq as <- <-. congruence.
           ++ left. eauto.
           ++ injection Heq as <- <-. rewrite Hlk in Hsrc. injection Hsrc as <-.
              destruct Hdiff; contradiction.
           ++ right. exists n', dst', src'. auto.
        -- intros [(n' & dst' & Hin & Hnone) | (n' & dst' & src' & Hin & Hsrc & Hdiff)].
           ++ left. exists n', dst'. split; [right; assumption | assumption].
           ++ right. exists n', dst', src'. split; [right; assumption | auto].
      * split; [eauto |]. intros _. right. exists n, dst, src.
        split; [left; reflexivity |]. split; [assumption |]. right.
        intros Heq. rewrite Heq, Bool.eqb_reflx in Hnorm. discriminate.
      * split; [eauto |]. intros _. right. exists n, dst, src.
        split; [left; reflexivity |]. split; [assumption |]. left.
        intros Heq. rewrite Heq, Z.eqb_refl in Hsz. discriminate.
      * split; [eauto |]. intros _. right. exists n, dst, src.
        split; [left; reflexivity |]. split; [assumption |]. left.
        intros Heq. rewrite Heq, Z.eqb_refl in Hsz. discriminate.
    + split; [eauto |]. intros _. left. exists n, dst.
      split; [left; reflexivity | assumption].
Qed.

(** [_validateGeometry] refuses a payload exactly when its index
    presence differs from the batch's, or an attribute of the batch is
    missing from it, or has another item size or normalisation in it. *)
Lemma validateGeometry_failing (b : Batch) (g : BufferGeometry) :
  (isSome (index g) <> isSome (index (geometry b))
   \/ (exists n dst, In (n, dst) (attributes (geometry b))
                     /\ lookupAttr n (attributes g) = None)
   \/ (exists n dst src, In (n, dst) (attributes (geometry b))
                         /\ lookupAttr n (attributes g) = Some src
                         /\ (itemSize src <> itemSize dst
                             \/ normalized src <> normalized dst)))
  <-> exists e, validateGeometry b g = Some e.
Proof.
  unfold validateGeometry.
  destruct (Bool.eqb (isSome (index g)) (isSome (index (geometry b)))) eqn:Hix; cbn [negb].
  - apply Bool.eqb_prop in Hix. rewrite <- validateAttributes_failing. split.
    + intros [Hne | H]; [contradiction | exact H].
    + intros H. right. exact H.
  - split; [eauto |]. intros _. left. intros Heq.
    rewrite Heq, Bool.eqb_reflx in Hix. discriminate.
Qed.




(** C6, as stated, fails: the batch was established with the position
    attribute only, and [addGeometry] of a payload that also carries a
    color attribute raises nothing; it allocates handle 1 and stores the
    two vertices at [2,4). *)
Lemma C6_color_payload_is_accepted :
  map fst (attributes (geometry SchemaExample.positionOnly)) = ["position"%string]
  /\ hasAttribute SchemaExample.colored "color" = true
  /\ valueOf (addGeometry SchemaExample.positionOnly SchemaExample.colored (-1) (-1))
     = Some 1
  /\ usedRange (stateOf (addGeometry SchemaExample.positionOnly
                                     SchemaExample.colored (-1) (-1))) 1
     = Some (2, 4).
Proof.
  repeat (apply conj; [vm_compute; reflexivity |]).
  vm_compute; reflexivity.
Qed.

(** C6, amended: on an established batch, an attribute of the payload
    that the batch does not have (a color attribute on a position-only
    batch) is not looked at: [addGeometry] behaves exactly as for the
    payload without it.  The schema-mismatch error is raised exactly when
    [_validateGeometry] fails, that is when the index presence differs,
    or an attribute of the batch is missing from the payload, or has
    another item size or normalisation in it; and then nothing is added:
    the batch is left as it was. *)
Theorem C6_schema_validation (b : Batch) (g : BufferGeometry) (name : string)
        (a : BufferAttribute) (rv ri : Z) :
  geometryInitialized b = true ->
  NoDup (map fst (attributes (geometry b))) ->
  ~ In name (map fst (attributes (geometry b))) ->
  name <> "position"%string ->
  addGeometry b (withExtra g name a) rv ri = addGeometry b g rv ri
  /\ (forall g' : BufferGeometry,
        (isSome (index g') <> isSome (index (geometry b))
         \/ (exists n dst, In (n, dst) (attributes (geometry b))
                           /\ lookupAttr n (attributes g') = None)
         \/ (exists n dst src, In (n, dst) (attributes (geometry b))
                               /\ lookupAttr n (attributes g') = Some src
                               /\ (itemSize src <> itemSize dst
                                   \/ normalized src <> normalized dst)))
        <-> exists e s, addGeometry b g' rv ri = Throw e s /\ isSchemaMismatch e = true)
  /\ (forall g' e s,
        addGeometry b g' rv ri = Throw e s -> isSchemaMismatch e = true -> s = b)
  /\ (forall g', isSome (index g') <> isSome (index (geometry b)) ->
                 addGeometry b g' rv ri = Throw IndexMismatch b).
Proof.
  intros Hinit Hnd Hnot Hpos. unfold addGeometry, initializeGeometry. rewrite Hinit.
  assert (Hschema : forall g' e s,
             addInitialized b g' rv ri = Throw e s -> isSchemaMismatch e = true ->
             validateGeometry b g' = Some e /\ s = b).
  { intros g' e s Hthrow Hmis.
    destruct (addInitialized_Throw_kind b g' rv ri e s Hinit Hnd Hthrow)
      as [H | [_ [[[-> | ->] _] | [[-> | [-> | ->]] _]]]]; [exact H | | | | |];
      discriminate. }
  split; [apply addInitialized_extra; assumption |].
  split; [| split].
  - intros g'. rewrite validateGeometry_failing. split.
    + intros [e He]. exists e, b. split; [unfold addInitialized; rewrite He; reflexivity |].
      exact (validateGeometry_is_schema b g' e He).
    + intros (e & s & Hthrow & Hmis). exists e. exact (proj1 (Hschema _ _ _ Hthrow Hmis)).
  - intros g' e s Hthrow Hmis. exact (proj2 (Hschema _ _ _ Hthrow Hmis)).
  - intros g' Hne. unfold addInitialized, validateGeometry.
    destruct (Bool.eqb (isSome (index g')) (isSome (index (geometry b)))) eqn:E;
      [apply Bool.eqb_prop in E; contradiction | reflexivity].
Qed.

(** C6 at the position-only batch: the color attribute is not looked
    at, and an indexed payload is refused. *)
Lemma C6_schema_validation_witness :
  addGeometry SchemaExample.positionOnly SchemaExample.colored (-1) (-1)
  = addGeometry SchemaExample.positionOnly SchemaExample.plain (-1) (-1)
  /\ addGeometry SchemaExample.positionOnly (Examples.segment 10) (-1) (-1)
     = Throw IndexMismatch SchemaExample.positionOnly.
Proof.
  assert (Hkeys : map fst (attributes (geometry SchemaExample.positionOnly))
                  = ["position"%string]) by (vm_compute; reflexivity).
  assert (Hinit : geometryInitialized SchemaExample.positionOnly = true)
    by (vm_compute; reflexivity).
  assert (Hnd : NoDup (map fst (attributes (geometry SchemaExample.positionOnly))))
    by (rewrite Hkeys; constructor; [intros [] | constructor]).
  assert (Hnot : ~ In "color"%string
                      (map fst (attributes (geometry SchemaExample.positionOnly))))
    by (rewrite Hkeys; intros [H | []]; discriminate H).
  assert (Hname : "color"%string <> "position"%string) by discriminate.
  assert (Hindexed : isSome (index (Examples.segment 10))
                     <> isSome (index (geometry SchemaExample.positionOnly)))
    by (vm_compute; discriminate).
  destruct (C6_schema_validation SchemaExample.positionOnly SchemaExample.plain
              "color" SchemaExample.colors (-1) (-1) Hinit Hnd Hnot Hname)
    as (Hsame & _ & _ & Hrefused).
  split; [exact Hsame | exact (Hrefused (Examples.segment 10) Hindexed)].
Defined.




(** * Further properties of the batch *)
(** ** Handles and accessors *)

Lemma validateGeometryId_Ok (b b' : Batch) (h : Z) (u : unit) :
  validateGeometryId b h = Ok b' u ->
  b' = b /\ exists r, tlookup (geometryInfo b) h = Some r /\ active r = true.
Proof.
  unfold validateGeometryId.
  destruct ((h <? 0) || (h >=? tlength (geometryInfo b))); [discriminate |].
  destruct (tlookup (geometryInfo b) h) as [r |]; [| discriminate].
  destruct (active r) eqn:Hact; cbn [negb]; [| discriminate].
  intros H. injection H as <- _. split; [reflexivity |]. exists r. auto.
Qed.

Lemma validateGeometryId_lookup (b b' : Batch) (h : Z) :
  tlength (geometryInfo b') = tlength (geometryInfo b) ->
  option_map active (tlookup (geometryInfo b') h)
  = option_map active (tlookup (geometryInfo b) h) ->
  (exists u, validateGeometryId b h = Ok b u) ->
  validateGeometryId b' h = Ok b' tt.
Proof.
  intros Hlen Hact [u Hok]. apply validateGeometryId_Ok in Hok.
  destruct Hok as [_ [r [Hr Ha]]]. rewrite Hr in Hact. cbn in Hact.
  destruct (tlookup (geometryInfo b') h) as [r' |] eqn:Hr'; [| discriminate].
  cbn in Hact. apply (validateGeometryId_live b' h r'); [assumption | congruence].
Qed.

(** The outcome of [validateGeometryId] depends on the length of the
    table and on the slot alone. *)
Lemma validateGeometryId_same (b b' : Batch) (h : Z) :
  tlength (geometryInfo b') = tlength (geometryInfo b) ->
  option_map active (tlookup (geometryInfo b') h)
  = option_map active (tlookup (geometryInfo b) h) ->
  match validateGeometryId b h with
  | Ok _ _ => validateGeometryId b' h = Ok b' tt
  | Throw e _ => validateGeometryId b' h = Throw e b'
  end.
Proof.
  intros Hlen Hact. unfold validateGeometryId. rewrite Hlen.
  destruct ((h <? 0) || (h >=? tlength (geometryInfo b))); [reflexivity |].
  destruct (tlookup (geometryInfo b) h) as [r |], (tlookup (geometryInfo b') h) as [r' |];
    cbn in Hact; try discriminate; [| reflexivity].
  injection Hact as Hact. rewrite Hact. destruct (active r); reflexivity.
Qed.

Lemma setVisibleAt_Ok (b b' : Batch) (h : Z) (v : bool) (u : unit) :
  setVisibleAt b h v = Ok b' u ->
  exists r, tlookup (geometryInfo b) h = Some r /\ active r = true
            /\ b' = (if Bool.eqb (visible r) v then b
                     else with_table b (tset (geometryInfo b) (Z.to_nat h)
                                             (with_visible r v))).
Proof.
  unfold setVisibleAt. destruct (validateGeometryId b h) as [b1 u1 | e s] eqn:Hv;
    cbn [bind]; [| discriminate].
  apply validateGeometryId_Ok in Hv. destruct Hv as [-> [r [Hr Ha]]].
  rewrite Hr. exists r. split; [reflexivity |]. split; [assumption |].
  destruct (Bool.eqb (visible r) v); injection H as <- _; reflexivity.
Qed.

(** X1: Visibility round trip: what [setVisibleAt] stored is what
    [getVisibleAt] returns for that handle; every other handle answers as
    before; the region keeps its place, and the buffers, the cursors and
    the free list are not touched. *)
Theorem setVisibleAt_getVisibleAt (b b' : Batch) (h : Z) (v : bool) :
  setVisibleAt b h v = Ok b' tt ->
  getVisibleAt b' h = Ok b' v
  /\ (forall h', h' <> h ->
        valueOf (getVisibleAt b' h') = valueOf (getVisibleAt b h'))
  /\ (exists r, tlookup (geometryInfo b) h = Some r
                /\ tlookup (geometryInfo b') h = Some (with_visible r v))
  /\ geometry b' = geometry b
  /\ nextVertexStart b' = nextVertexStart b
  /\ nextIndexStart b' = nextIndexStart b
  /\ availableGeometryIds b' = availableGeometryIds b.
Proof.
  intros Hset. destruct (setVisibleAt_Ok _ _ _ _ _ Hset) as [r [Hr [Ha Hb']]].
  pose proof (tlookup_Some_range _ _ _ Hr) as Hrange.
  assert (Hslot : tlookup (geometryInfo b') h = Some (with_visible r v)).
  { rewrite Hb'. destruct (Bool.eqb (visible r) v) eqn:E.
    - apply Bool.eqb_prop in E. rewrite Hr. destruct r; cbn in *; subst; reflexivity.
    - cbn [with_table geometryInfo]. apply tlookup_tset_same_Z. lia. }
  assert (Hother : forall h', h' <> h ->
            tlookup (geometryInfo b') h' = tlookup (geometryInfo b) h').
  { intros h' Hne. rewrite Hb'. destruct (Bool.eqb (visible r) v); [reflexivity |].
    cbn [with_table geometryInfo]. apply tlookup_tset_other. lia. }
  assert (Hlen : tlength (geometryInfo b') = tlength (geometryInfo b)).
  { rewrite Hb'. destruct (Bool.eqb (visible r) v); [reflexivity |].
    cbn [with_table geometryInfo]. apply (tlength_tset_in _ _ r). assumption. }
  split.
  { unfold getVisibleAt.
    rewrite (validateGeometryId_live b' h (with_visible r v) Hslot)
      by (destruct r; assumption).
    cbn [bind]. rewrite Hslot. destruct r; reflexivity. }
  split.
  { intros h' Hne. unfold getVisibleAt.
    pose proof (validateGeometryId_same b b' h' Hlen) as Hsame.
    rewrite (Hother h' Hne) in Hsame. specialize (Hsame eq_refl).
    destruct (validateGeometryId b h') as [b1 u1 | e s] eqn:Hv.
    - rewrite Hsame. cbn [bind]. apply validateGeometryId_Ok in Hv.
      destruct Hv as [-> _]. rewrite (Hother h' Hne).
      destruct (tlookup (geometryInfo b) h'); reflexivity.
    - rewrite Hsame. reflexivity. }
  split; [exists r; auto |].
  rewrite Hb'. destruct (Bool.eqb (visible r) v); repeat split; reflexivity.
Qed.

Lemma getGeometryAt_live (b : Batch) (h : Z) (r : GeometryInfo) :
  tlookup (geometryInfo b) h = Some r -> active r = true ->
  getGeometryAt b h = Ok b r.
Proof.
  intros Hr Ha. unfold getGeometryAt.
  rewrite (validateGeometryId_live b h r Hr Ha). cbn [bind]. rewrite Hr. reflexivity.
Qed.

Lemma getVisibleAt_live (b : Batch) (h : Z) (r : GeometryInfo) :
  tlookup (geometryInfo b) h = Some r -> active r = true ->
  getVisibleAt b h = Ok b (visible r).
Proof.
  intros Hr Ha. unfold getVisibleAt.
  rewrite (validateGeometryId_live b h r Hr Ha). cbn [bind]. rewrite Hr. reflexivity.
Qed.

(** ** The record of a written region *)

(** The record [setGeometryAt] leaves in the slot. *)
Lemma setGeometryAt_record (b : Batch) (id : Z) (g : BufferGeometry) (b' : Batch) (v : Z) :
  setGeometryAt b id g = Ok b' v ->
  exists info p info',
    tlookup (geometryInfo b) id = Some info
    /\ lookupAttr "position" (attributes g) = Some p
    /\ geometryInfo b' = tset (geometryInfo b) (Z.to_nat id) info'
    /\ vertexStart info' = vertexStart info
    /\ vertexCount info' = count_of p
    /\ reservedVertexCount info' = reservedVertexCount info
    /\ indexStart info' = indexStart info
    /\ reservedIndexCount info' = reservedIndexCount info
    /\ indexCount info' = match index (geometry b), index g with
                          | Some _, Some s => icount s
                          | _, _ => indexCount info
                          end
    /\ start info' = (if isSome (index (geometry b)) then indexStart info
                      else vertexStart info)
    /\ count info' = (if isSome (index (geometry b)) then indexCount info'
                      else count_of p)
    /\ boundingBox info' = gBoundingBox g
    /\ boundingSphere info' = gBoundingSphere g
    /\ active info' = active info /\ visible info' = visible info
    /\ objectId info' = objectId info
    /\ bboxIntersectionCheck info' = bboxIntersectionCheck info.
Proof.
  unfold setGeometryAt.
  destruct (id >=? geometryCount b) eqn:Hid; [discriminate |].
  destruct (validateGeometry b g) eqn:Hval; [discriminate |].
  destruct (tlookup (geometryInfo b) id) as [info |] eqn:Hlk; [| discriminate].
  destruct (match index (geometry b), index g with
            | Some _, Some srcIndex => icount srcIndex >? reservedIndexCount info
            | _, _ => false
            end) eqn:Hix; [discriminate |].
  destruct (lookupAttr "position" (attributes g)) as [position |] eqn:Hpos;
    [| discriminate].
  destruct (count_of position >? reservedVertexCount info) eqn:Hcnt; [discriminate |].
  destruct info as [vs vc rvc ist ic ric st ct bb bs act vis oid bbx].
  destruct (index (geometry b)) as [d |] eqn:Hd; destruct (index g) as [s |] eqn:Hs;
    cbn; intros H; inversion H; subst; clear H;
    eexists; eexists; eexists;
    (split; [reflexivity |]); (split; [reflexivity |]); (split; [reflexivity |]);
    cbn; repeat (split; [reflexivity |]); reflexivity.
Qed.

Lemma allocateId_nonneg (b : Batch) (info : GeometryInfo) :
  0 <= geometryCount b -> 0 <= snd (allocateId b info).
Proof.
  intros H. unfold allocateId.
  destruct (sortBy ascIdSort (availableGeometryIds b)); cbn [snd]; lia.
Qed.

Lemma allocateId_slot (b : Batch) (info : GeometryInfo) :
  geometryCount b = tlength (geometryInfo b) ->
  tlookup (geometryInfo (fst (allocateId b info))) (snd (allocateId b info)) = Some info.
Proof.
  intros Hcount. unfold allocateId.
  destruct (sortBy ascIdSort (availableGeometryIds b)) as [| n rest]; cbn [fst snd geometryInfo].
  - rewrite Hcount. apply tlookup_app_last.
  - apply tlookup_tset_same.
Qed.

(** X2: Insert and look up: the handle [addGeometry] returns is valid at
    once; its record starts at the tail cursors the call found, with the
    payload's own counts as used counts and the requested reservation
    (its own counts for -1); it is visible, carries no user data yet, and
    holds the payload's bounds, computed from its position attribute when
    the payload brought none; the vertex cursor ends at the end of the
    reservation. *)
Theorem addGeometry_getGeometryAt (b : Batch) (g : BufferGeometry) (rv ri : Z)
        (b' : Batch) (id : Z) :
  Sound (initializeGeometry b g) ->
  addGeometry b g rv ri = Ok b' id ->
  exists r p,
    lookupAttr "position" (attributes g) = Some p
    /\ getGeometryAt b' id = Ok b' r
    /\ getVisibleAt b' id = Ok b' true
    /\ vertexStart r = nextVertexStart b
    /\ vertexCount r = count_of p
    /\ reservedVertexCount r = (if rv =? -1 then count_of p else rv)
    /\ count_of p <= reservedVertexCount r
    /\ nextVertexStart b' = vertexStart r + reservedVertexCount r
    /\ boundingBox r = Some (match gBoundingBox g with
                             | Some box => box
                             | None => boxOfPoints (pointsOf p)
                             end)
    /\ (exists s, boundingSphere r = Some s)
    /\ objectId r = None /\ bboxIntersectionCheck r = false
    /\ match index g with
       | Some ix =>
           indexStart r = nextIndexStart b
           /\ indexCount r = icount ix
           /\ reservedIndexCount r = (if ri =? -1 then icount ix else ri)
           /\ icount ix <= reservedIndexCount r
           /\ nextIndexStart b' = indexStart r + reservedIndexCount r
           /\ start r = indexStart r /\ count r = icount ix
       | None => start r = vertexStart r /\ count r = count_of p
       end.
Proof.
  intros HS Hadd. unfold addGeometry in Hadd.
  set (b1 := initializeGeometry b g) in *.
  assert (Hcur : nextVertexStart b1 = nextVertexStart b
                 /\ nextIndexStart b1 = nextIndexStart b).
  { unfold b1, initializeGeometry. destruct (geometryInitialized b); split; reflexivity. }
  destruct Hcur as [HcurV HcurI].
  destruct (addInitialized_Ok _ _ _ _ _ _ Hadd)
    as [Hval [info [b4 [Hnew [Hex [Hid [Hset Hb']]]]]]].
  set (G := withBounds g) in *. set (b2 := resizeSpaceIfNeeded b1 G) in *.
  destruct (resizeSpaceIfNeeded_fields b1 G)
    as [Ht2 [Hfree2 [HnI2 [HnV2 [Hcount2 Hinit2]]]]].
  fold b2 in Ht2, Hfree2, HnI2, HnV2, Hcount2, Hinit2.
  assert (Hc2 : geometryCount b2 = tlength (geometryInfo b2)).
  { rewrite Hcount2, Ht2. apply (sound_count b1 HS). }
  pose proof (allocateId_slot b2 info Hc2) as Hslot. rewrite Hid in Hslot.
  assert (Hid0 : 0 <= id).
  { rewrite <- Hid. apply allocateId_nonneg. rewrite Hc2. unfold tlength. lia. }
  destruct (allocateId_fields b2 info) as [_ [_ [HG3 _]]].
  destruct (setGeometryAt_record _ _ _ _ _ Hset)
    as (info0 & p & r & Hlk & Hpos & Ht4 & Hvs & Hvc & Hrvc & His & Hric & Hic & Hst & Hct
        & Hbb & Hbs & Hact & Hvis & Hoid & Hchk).
  rewrite Hslot in Hlk. injection Hlk as <-.
  destruct (setGeometryAt_Ok _ _ _ _ _ Hset)
    as [_ [_ [Hval3 [info0 [p0 [r0 [Hlk0 [Hpos0 [Hcnt [Hicnt _]]]]]]]]]].
  rewrite Hslot in Hlk0. injection Hlk0 as <-.
  rewrite Hpos in Hpos0. injection Hpos0 as <-.
  assert (HposG : lookupAttr "position" (attributes g) = Some p).
  { unfold G in Hpos. rewrite withBounds_attributes in Hpos. exact Hpos. }
  assert (Hr : tlookup (geometryInfo b') id = Some r).
  { rewrite Hb'. cbn [advanceCursors geometryInfo]. rewrite Ht4.
    apply tlookup_tset_same_Z. assumption. }
  destruct (newRegion_Some _ _ _ _ _ Hnew) as [HvsN [HactN [HrvD [HrvE [HixS HixN]]]]].
  assert (Hmeta : visible info = true /\ objectId info = None
                  /\ bboxIntersectionCheck info = false).
  { unfold newRegion in Hnew.
    destruct (if rv =? -1 then option_map count_of (lookupAttr "position" (attributes G))
              else Some rv); [| discriminate].
    destruct (index G); injection Hnew as <-; repeat split; reflexivity. }
  destruct Hmeta as [HvisN [HoidN HchkN]].
  assert (Hrv : reservedVertexCount info = (if rv =? -1 then count_of p else rv)).
  { destruct (rv =? -1) eqn:E.
    - apply Z.eqb_eq in E. destruct (HrvD E) as [p' [Hp' Hres]].
      rewrite Hpos in Hp'. injection Hp' as <-. exact Hres.
    - apply Z.eqb_neq in E. apply HrvE. exact E. }
  exists r, p.
  split; [exact HposG |].
  split; [apply getGeometryAt_live; [exact Hr | congruence] |].
  split.
  { rewrite (getVisibleAt_live b' id r Hr) by congruence. f_equal. congruence. }
  split; [rewrite Hvs, HvsN, HnV2; exact HcurV |].
  split; [exact Hvc |].
  split; [rewrite Hrvc; exact Hrv |].
  split; [rewrite Hrvc; exact Hcnt |].
  split; [rewrite Hb'; cbn [advanceCursors nextVertexStart]; congruence |].
  split.
  { rewrite Hbb. unfold G, withBounds.
    destruct (gBoundingBox g) as [box |] eqn:Hbox; cbn [isSome].
    - destruct (isSome (gBoundingSphere g)); [exact Hbox |].
      unfold computeBoundingSphere. cbn [gBoundingBox]. exact Hbox.
    - assert (Hcb : gBoundingBox (computeBoundingBox g) = Some (boxOfPoints (pointsOf p))).
      { unfold computeBoundingBox. cbn [gBoundingBox]. rewrite HposG. reflexivity. }
      destruct (isSome (gBoundingSphere (computeBoundingBox g))); [exact Hcb |].
      unfold computeBoundingSphere. cbn [gBoundingBox]. exact Hcb. }
  split.
  { rewrite Hbs. unfold G, withBounds.
    destruct (isSome (gBoundingBox g));
      [destruct (gBoundingSphere g) as [s |] eqn:Hs
      | destruct (gBoundingSphere (computeBoundingBox g)) as [s |] eqn:Hs];
      cbn [isSome]; try rewrite Hs; eexists;
      try reflexivity; try exact Hs. }
  split; [congruence |]. split; [congruence |].
  assert (HixG : index G = index g) by apply withBounds_index.
  assert (Hsame : isSome (index G) = isSome (index (geometry b4)) -> True) by auto.
  pose proof (validateGeometry_None_index _ _ Hval3) as Hpres.
  rewrite HG3 in *.
  destruct (index g) as [ix |] eqn:Hix.
  - rewrite HixG in Hpres. cbn [isSome] in Hpres.
    destruct (index (geometry b2)) as [d |] eqn:Hd; [| discriminate].
    destruct (HixS ix HixG) as [HisN HricN].
    rewrite HixG in Hic. cbn [isSome] in Hst, Hct.
    split; [rewrite His, HisN, HnI2; exact HcurI |].
    split; [exact Hic |].
    split; [rewrite Hric; exact HricN |].
    split; [rewrite Hric; apply (Hicnt d ix); [reflexivity | exact HixG] |].
    split; [rewrite Hb'; cbn [advanceCursors nextIndexStart]; congruence |].
    split; [congruence | congruence].
  - rewrite HixG in Hpres. cbn [isSome] in Hpres.
    destruct (index (geometry b2)) as [d |] eqn:Hd; [discriminate |].
    cbn [isSome] in Hst, Hct. split; congruence.
Qed.

(** ** Reading back what a run of writes stored *)

(** A run of writes whose values do not depend on the array being
    written: a position some write addresses holds the value written
    there, when every write to it stores the same value. *)
Lemma get_fold_set_last {K} (ks : list K) (pos val : K -> Z) (a : list Z) (p v : Z) :
  0 <= p < len a ->
  (exists k, In k ks /\ pos k = p) ->
  (forall k, In k ks -> pos k = p -> val k = v) ->
  get (fold_left (fun acc k => set acc (pos k) (val k)) ks a) p = v.
Proof.
  revert a. induction ks as [| k rest IH]; intros a Hp Hex Hval.
  - destruct Hex as [k [[] _]].
  - cbn [fold_left].
    destruct (existsb (fun k' => pos k' =? p) rest) eqn:E.
    + apply IH.
      * rewrite len_set. assumption.
      * apply existsb_exists in E. destruct E as [k' [Hin Hk']].
        exists k'. split; [assumption | apply Z.eqb_eq; assumption].
      * intros k' Hin. apply Hval. right. assumption.
    + rewrite (get_fold_set_outside rest pos (fun _ k' => val k')).
      * destruct Hex as [k' [[<- | Hin] Hk']].
        -- rewrite Hk'. rewrite get_set_same by assumption.
           apply Hval; [left; reflexivity | assumption].
        -- exfalso. assert (Ht : existsb (fun k' => pos k' =? p) rest = true).
           { apply existsb_exists. exists k'. split; [assumption | apply Z.eqb_eq; assumption]. }
           congruence.
      * intros k' Hin Heq.
        assert (Ht : existsb (fun k' => pos k' =? p) rest = true).
        { apply existsb_exists. exists k'. split; [assumption | apply Z.eqb_eq; assumption]. }
        congruence.
Qed.

(** A run of [setX] on an index array, seen on its data. *)
Lemma fold_setX {K} (ks : list K) (pos val : K -> Z) (d : IndexAttribute) :
  fold_left (fun d' k => setX d' (pos k) (val k)) ks d
  = mkIndex (ikind d)
            (fold_left (fun acc k => set acc (pos k) (val k mod index_modulus (ikind d)))
                       ks (idata d)).
Proof.
  revert d. induction ks as [| k rest IH]; intros d; cbn [fold_left].
  - destruct d; reflexivity.
  - rewrite IH. reflexivity.
Qed.

Lemma writeIndex_data (dst src : IndexAttribute) (iStart reserved vStart : Z) :
  writeIndex dst src iStart reserved vStart
  = mkIndex (ikind dst)
      (fold_left (fun acc i => set acc (iStart + i) (vStart mod index_modulus (ikind dst)))
                 (loop (icount src) reserved)
                 (fold_left (fun acc i => set acc (iStart + i)
                                              ((vStart + getX src i)
                                               mod index_modulus (ikind dst)))
                            (loop 0 (icount src)) (idata dst))).
Proof.
  unfold writeIndex.
  rewrite (fold_setX (loop 0 (icount src)) (fun i => iStart + i)
                     (fun i => vStart + getX src i) dst).
  rewrite (fold_setX (loop (icount src) reserved) (fun i => iStart + i)
                     (fun _ => vStart)).
  reflexivity.
Qed.

Lemma icount_nonneg (ix : IndexAttribute) : 0 <= icount ix.
Proof. unfold icount, len. lia. Qed.

(** The index write of [setGeometryAt], read back: inside the array, the
    first [icount src] entries of the region are the payload's indices
    shifted by the vertex offset, the rest of the reservation points at
    the first vertex; both modulo the element width. *)
Lemma writeIndex_inside (dst src : IndexAttribute) (iStart reserved vStart i : Z) :
  0 <= iStart -> iStart + reserved <= icount dst -> icount src <= reserved ->
  0 <= i < reserved ->
  getX (writeIndex dst src iStart reserved vStart) (iStart + i)
  = (if i <? icount src then vStart + getX src i else vStart)
    mod index_modulus (ikind dst).
Proof.
  intros HiStart Hfit Hcnt Hi. rewrite writeIndex_data. unfold getX. cbn [idata].
  pose proof (icount_nonneg src) as Hsrc.
  set (first := fold_left _ (loop 0 (icount src)) (idata dst)).
  assert (Hlen : len first = len (idata dst)).
  { unfold first.
    apply (len_fold_set (loop 0 (icount src)) (fun i0 => iStart + i0)
                        (fun _ i0 => (vStart + getX src i0) mod index_modulus (ikind dst))). }
  destruct (i <? icount src) eqn:E.
  - apply Z.ltb_lt in E.
    rewrite (get_fold_set_outside (loop (icount src) reserved) (fun i0 => iStart + i0)
                                  (fun _ _ => vStart mod index_modulus (ikind dst))).
    + unfold first. apply get_fold_set_last.
      * unfold icount in Hfit. lia.
      * exists i. split; [apply In_loop; lia | reflexivity].
      * intros k _ Hk. assert (k = i) by lia. subst. reflexivity.
    + intros k Hk. apply In_loop in Hk. lia.
  - apply Z.ltb_ge in E. apply get_fold_set_last.
    + rewrite Hlen. unfold icount in Hfit. lia.
    + exists i. split; [apply In_loop; lia | reflexivity].
    + intros k _ _. reflexivity.
Qed.

(** The index write leaves every entry outside the reservation alone. *)
Lemma writeIndex_outside (dst src : IndexAttribute) (iStart reserved vStart q : Z) :
  icount src <= reserved ->
  q < iStart \/ iStart + reserved <= q ->
  getX (writeIndex dst src iStart reserved vStart) q = getX dst q.
Proof.
  intros Hcnt Hq. rewrite writeIndex_data. unfold getX. cbn [idata].
  pose proof (icount_nonneg src) as Hsrc.
  rewrite (get_fold_set_outside (loop (icount src) reserved) (fun i0 => iStart + i0)
                                (fun _ _ => vStart mod index_modulus (ikind dst))).
  - apply (get_fold_set_outside (loop 0 (icount src)) (fun i0 => iStart + i0)
             (fun _ i0 => (vStart + getX src i0) mod index_modulus (ikind dst))).
    intros k Hk. apply In_loop in Hk. lia.
  - intros k Hk. apply In_loop in Hk. lia.
Qed.

Lemma writeIndex_icount (dst src : IndexAttribute) (iStart reserved vStart : Z) :
  icount (writeIndex dst src iStart reserved vStart) = icount dst
  /\ ikind (writeIndex dst src iStart reserved vStart) = ikind dst.
Proof.
  rewrite writeIndex_data. unfold icount. cbn [idata ikind]. split; [| reflexivity].
  rewrite (len_fold_set (loop (icount src) reserved) (fun i0 => iStart + i0)
                        (fun _ _ => vStart mod index_modulus (ikind dst))).
  apply (len_fold_set (loop 0 (icount src)) (fun i0 => iStart + i0)
                      (fun _ i0 => (vStart + getX src i0) mod index_modulus (ikind dst))).
Qed.

Lemma fold_left_nested {A I C} (f : A -> I -> C -> A) (xs : list I) (cs : list C) (a : A) :
  fold_left (fun x i => fold_left (fun y c => f y i c) cs x) xs a
  = fold_left (fun x ic => f x (fst ic) (snd ic)) (list_prod xs cs) a.
Proof.
  revert a. induction xs as [| i rest IH]; intros a; cbn [fold_left list_prod];
    [reflexivity |].
  rewrite fold_left_app, <- IH.
  assert (Hinner : forall a0,
            fold_left (fun x ic => f x (fst ic) (snd ic)) (map (fun y => (i, y)) cs) a0
            = fold_left (fun y c => f y i c) cs a0).
  { clear IH. induction cs as [| c cs' IHc]; intros a0; cbn [map fold_left];
      [reflexivity | apply IHc]. }
  rewrite Hinner. reflexivity.
Qed.

(** A run of [setComponent] on an attribute, seen on its array. *)
Lemma fold_setComponent {K} (ks : list K) (vi vc vv : K -> Z) (d : BufferAttribute) :
  fold_left (fun d' k => setComponent d' (vi k) (vc k) (vv k)) ks d
  = mkAttr (fold_left (fun acc k => set acc (vi k * itemSize d + vc k) (vv k))
                      ks (array d))
           (itemSize d) (normalized d).
Proof.
  revert d. induction ks as [| k rest IH]; intros d; cbn [fold_left].
  - destruct d; reflexivity.
  - rewrite IH. reflexivity.
Qed.

Lemma copyAttributeData_data (src dst : BufferAttribute) (offset : Z) :
  copyAttributeData src dst offset
  = mkAttr (fold_left (fun acc ic => set acc ((fst ic + offset) * itemSize dst + snd ic)
                                         (getComponent src (fst ic) (snd ic)))
                      (list_prod (loop 0 (count_of src)) (loop 0 (itemSize dst)))
                      (array dst))
           (itemSize dst) (normalized dst).
Proof.
  unfold copyAttributeData.
  rewrite (fold_left_nested
             (fun d i c => setComponent d (i + offset) c (getComponent src i c))).
  apply (fold_setComponent _ (fun ic => fst ic + offset) snd
                           (fun ic => getComponent src (fst ic) (snd ic))).
Qed.

Lemma zeroFill_data (dst : BufferAttribute) (vStart from to size : Z) :
  zeroFill dst vStart from to size
  = mkAttr (fold_left (fun acc ic => set acc ((vStart + fst ic) * itemSize dst + snd ic) 0)
                      (list_prod (loop from to) (loop 0 size))
                      (array dst))
           (itemSize dst) (normalized dst).
Proof.
  unfold zeroFill.
  rewrite (fold_left_nested (fun d i c => setComponent d (vStart + i) c 0)).
  apply (fold_setComponent _ (fun ic => vStart + fst ic) snd (fun _ => 0)).
Qed.

Lemma component_position (sz i c i0 c0 : Z) :
  0 <= c < sz -> 0 <= c0 < sz -> i * sz + c = i0 * sz + c0 -> i = i0 /\ c = c0.
Proof.
  intros Hc Hc0 Heq. assert (Hi : i = i0) by nia. subst. split; [reflexivity | lia].
Qed.

(** The attribute write of [setGeometryAt], read back vertex by vertex:
    inside the array, the first [count_of src] vertices of the region are
    the payload's, the rest of the reservation is zero. *)
Lemma writeAttribute_inside (src dst : BufferAttribute) (vStart reserved i c : Z) :
  0 <= vStart -> itemSize src = itemSize dst ->
  (vStart + reserved) * itemSize dst <= len (array dst) ->
  count_of src <= reserved ->
  0 <= i < reserved -> 0 <= c < itemSize dst ->
  getComponent (zeroFill (copyAttributeData src dst vStart) vStart (count_of src)
                         reserved (itemSize src))
               (vStart + i) c
  = if i <? count_of src then getComponent src i c else 0.
Proof.
  intros Hv Hsz Hfit Hcnt Hi Hc.
  rewrite zeroFill_data, copyAttributeData_data. cbn [itemSize array].
  unfold getComponent at 1. cbn [array itemSize].
  set (sz := itemSize dst) in *. rewrite Hsz.
  set (copied := fold_left _ (list_prod (loop 0 (count_of src)) (loop 0 sz)) (array dst)).
  assert (Hlen : len copied = len (array dst)).
  { unfold copied.
    apply (len_fold_set _ (fun ic => (fst ic + vStart) * sz + snd ic)
                        (fun _ ic => getComponent src (fst ic) (snd ic))). }
  assert (Hin : 0 <= (vStart + i) * sz + c < len (array dst)) by nia.
  destruct (i <? count_of src) eqn:E.
  - apply Z.ltb_lt in E.
    rewrite (get_fold_set_outside _ (fun ic => (vStart + fst ic) * sz + snd ic)
                                  (fun _ _ => 0)).
    + unfold copied. apply get_fold_set_last.
      * exact Hin.
      * exists (i, c). split; [| cbn [fst snd]; lia].
        apply in_prod_iff. split; apply In_loop; lia.
      * intros [i0 c0] Hk Hpos. apply in_prod_iff in Hk. destruct Hk as [Hi0 Hc0].
        apply In_loop in Hi0, Hc0. cbn [fst snd] in *.
        destruct (component_position sz (i0 + vStart) c0 (vStart + i) c) as [Hii ->];
          [lia | lia | lia |].
        replace i0 with i by lia. reflexivity.
    + intros [i0 c0] Hk Hpos. apply in_prod_iff in Hk. destruct Hk as [Hi0 Hc0].
      apply In_loop in Hi0, Hc0. cbn [fst snd] in *.
      destruct (component_position sz (vStart + i0) c0 (vStart + i) c); [lia | lia | lia |].
      lia.
  - apply Z.ltb_ge in E. apply get_fold_set_last.
    + rewrite Hlen. exact Hin.
    + exists (i, c). split; [| reflexivity].
      apply in_prod_iff. split; apply In_loop; lia.
    + intros k _ _. reflexivity.
Qed.

(** The attribute write leaves every component outside the reservation
    alone. *)
Lemma writeAttribute_outside (src dst : BufferAttribute) (vStart reserved q : Z) :
  0 <= itemSize dst -> itemSize src = itemSize dst ->
  count_of src <= reserved ->
  q < vStart * itemSize dst \/ (vStart + reserved) * itemSize dst <= q ->
  get (array (zeroFill (copyAttributeData src dst vStart) vStart (count_of src)
                       reserved (itemSize src))) q
  = get (array dst) q.
Proof.
  intros Hsz0 Hsz Hcnt Hq.
  rewrite zeroFill_data, copyAttributeData_data. cbn [itemSize array].
  set (sz := itemSize dst) in *. rewrite Hsz.
  rewrite (get_fold_set_outside _ (fun ic => (vStart + fst ic) * sz + snd ic)
                                (fun _ _ => 0)).
  - apply (get_fold_set_outside _ (fun ic => (fst ic + vStart) * sz + snd ic)
                                (fun _ ic => getComponent src (fst ic) (snd ic))).
    intros [i0 c0] Hk. apply in_prod_iff in Hk. destruct Hk as [Hi0 Hc0].
    apply In_loop in Hi0, Hc0. cbn [fst snd]. nia.
  - intros [i0 c0] Hk. apply in_prod_iff in Hk. destruct Hk as [Hi0 Hc0].
    apply In_loop in Hi0, Hc0. cbn [fst snd].
    assert (Hcount : 0 <= count_of src) by (apply count_of_nonneg; lia).
    nia.
Qed.

Lemma writeAttribute_len (src dst : BufferAttribute) (vStart reserved : Z) :
  len (array (zeroFill (copyAttributeData src dst vStart) vStart (count_of src)
                       reserved (itemSize src)))
  = len (array dst).
Proof.
  rewrite zeroFill_data, copyAttributeData_data. cbn [itemSize array].
  rewrite (len_fold_set _ (fun ic => (vStart + fst ic) * itemSize dst + snd ic)
                        (fun _ _ => 0)).
  apply (len_fold_set _ (fun ic => (fst ic + vStart) * itemSize dst + snd ic)
                      (fun _ ic => getComponent src (fst ic) (snd ic))).
Qed.

(** ** The layout of an established batch *)

Lemma toLength_nonneg (q : Q) : 0 <= toLength q.
Proof. unfold toLength. lia. Qed.

Lemma grown_nonneg (maxC : Q) (n : Z) : (0 <= maxC)%Q -> 0 <= n -> (0 <= grown maxC n)%Q.
Proof.
  intros Hm Hn. unfold grown. apply inject_Z_nonneg in Hn.
  apply Qmult_le_0_compat; [| discriminate].
  replace 0%Q with (0 + 0)%Q by reflexivity. apply Qplus_le_compat; assumption.
Qed.

Lemma setGeometrySize_established (b : Batch) (maxV maxI : Q) :
  geometryInitialized b = true ->
  NoDup (map fst (attributes (geometry b))) ->
  (0 <= maxV)%Q -> (0 <= maxI)%Q ->
  Established (setGeometrySize b maxV maxI)
  /\ schemaOf (geometry (setGeometrySize b maxV maxI)) = schemaOf (geometry b).
Proof.
  intros Hinit Hnd HV HI.
  pose proof (setGeometrySize_schema b maxV maxI Hinit Hnd) as Hsch.
  destruct (setGeometrySize_fields b maxV maxI)
    as [_ [_ [_ [_ [_ [Hinit' [HmaxV HmaxI]]]]]]].
  split; [| exact Hsch].
  split; [congruence |].
  split; [rewrite (schemaOf_keys _ _ Hsch); assumption |].
  split; [rewrite HmaxV; assumption |].
  split; [rewrite HmaxI; assumption |].
  split.
  - intros name a Ha. rewrite setGeometrySize_attributes in Ha by assumption.
    rewrite lookupAttr_map in Ha.
    destruct (lookupAttr name (attributes (geometry b))) as [a0 |]; [| discriminate].
    cbn [option_map] in Ha. injection Ha as <-. rewrite HmaxV.
    unfold resizedAttr. cbn [array itemSize].
    rewrite len_copyArrayContents_zeros. pose proof (toLength_nonneg (maxV * inject_Z (itemSize a0))).
    lia.
  - intros ix Hix. rewrite setGeometrySize_index in Hix by assumption.
    destruct (index (geometry b)) as [o |]; [| discriminate].
    cbn [option_map] in Hix. injection Hix as <-. rewrite HmaxI.
    unfold resizedIndex, icount. cbn [idata].
    rewrite len_copyArrayContents_zeros. pose proof (toLength_nonneg maxI). lia.
Qed.

Lemma newMax_nonneg (b : Batch) (g : BufferGeometry) :
  (0 <= maxVertexCount b)%Q -> (0 <= maxIndexCount b)%Q -> payloadOk g ->
  (0 <= newMaxVertexCount b g)%Q /\ (0 <= newMaxIndexCount b g)%Q.
Proof.
  intros HV HI Hpay. unfold newMaxVertexCount, newMaxIndexCount. split.
  - destruct (lookupAttr "position" (attributes g)) as [p |] eqn:Hp; [| assumption].
    destruct (Qltb _ _); [| assumption].
    apply grown_nonneg; [assumption |]. apply count_of_nonneg. apply Hpay. assumption.
  - destruct (index g) as [ix |]; [| assumption].
    destruct (Qltb _ _); [| assumption].
    apply grown_nonneg; [assumption | apply icount_nonneg].
Qed.

Lemma resizeSpaceIfNeeded_established (b : Batch) (g : BufferGeometry) :
  Established b -> payloadOk g ->
  Established (resizeSpaceIfNeeded b g)
  /\ schemaOf (geometry (resizeSpaceIfNeeded b g)) = schemaOf (geometry b).
Proof.
  intros HE Hpay. destruct HE as [Hinit [Hnd [HV [HI Hsz]]]].
  destruct (resizeSpaceIfNeeded_cases b g) as [[-> _] | [-> _]].
  - split; [repeat split; try assumption; apply Hsz | reflexivity].
  - destruct (newMax_nonneg b g HV HI Hpay) as [HV' HI'].
    apply setGeometrySize_established; assumption.
Qed.

(** Moving the cursors, the table or the free list does not touch the
    layout. *)
Lemma established_same_buffers (b b' : Batch) :
  geometry b' = geometry b -> maxVertexCount b' = maxVertexCount b ->
  maxIndexCount b' = maxIndexCount b -> geometryInitialized b' = geometryInitialized b ->
  Established b ->
  Established b' /\ schemaOf (geometry b') = schemaOf (geometry b).
Proof.
  intros HG HV HI Hinit [H1 [H2 [H3 [H4 [H5 H6]]]]].
  split; [| rewrite HG; reflexivity].
  unfold Established, Sized. rewrite HG, HV, HI, Hinit. repeat split; assumption.
Qed.

Lemma setGeometryAt_established (b : Batch) (id : Z) (g : BufferGeometry)
      (b' : Batch) (v : Z) :
  setGeometryAt b id g = Ok b' v -> Established b ->
  Established b' /\ schemaOf (geometry b') = schemaOf (geometry b).
Proof.
  intros Hset [Hinit [Hnd [HV [HI [HszA HszI]]]]].
  destruct (setGeometryAt_Ok _ _ _ _ _ Hset)
    as (_ & _ & _ & info & position & info' & _ & _ & _ & _ & _ & _
        & (_ & _ & _ & _ & Hinit' & HmaxV & HmaxI) & Hattrs & Hindex).
  assert (Hsch : schemaOf (geometry b') = schemaOf (geometry b)).
  { unfold schemaOf. rewrite Hattrs, Hindex, writeAttributes_schema.
    destruct (index (geometry b)); destruct (index g); reflexivity. }
  split; [| exact Hsch].
  split; [congruence |].
  split; [rewrite (schemaOf_keys _ _ Hsch); assumption |].
  split; [rewrite HmaxV; assumption |].
  split; [rewrite HmaxI; assumption |].
  split.
  - intros name a Ha. rewrite Hattrs, lookupAttr_writeAttributes in Ha.
    destruct (lookupAttr name (attributes (geometry b))) as [dst |] eqn:Hdst;
      [| discriminate].
    cbn [option_map] in Ha. injection Ha as <-. rewrite HmaxV.
    destruct (lookupAttr name (attributes g)) as [src |]; [| apply (HszA name); assumption].
    rewrite writeAttribute_len.
    destruct (writeAttribute_layout src dst (vertexStart info) (reservedVertexCount info))
      as [-> _].
    apply (HszA name). assumption.
  - intros ix Hix. rewrite Hindex in Hix. rewrite HmaxI.
    destruct (index (geometry b)) as [d |] eqn:Hd; [| destruct (index g); discriminate].
    destruct (index g) as [s |].
    + injection Hix as <-.
      destruct (writeIndex_icount d s (indexStart info) (reservedIndexCount info)
                                  (vertexStart info)) as [-> _].
      apply HszI. reflexivity.
    + injection Hix as <-. apply HszI. reflexivity.
Qed.

Lemma addInitialized_established (b : Batch) (g : BufferGeometry) (rv ri : Z) :
  Established b -> payloadOk g ->
  Established (stateOf (addInitialized b g rv ri))
  /\ schemaOf (geometry (stateOf (addInitialized b g rv ri))) = schemaOf (geometry b).
Proof.
  intros HE Hpay.
  set (G := withBounds g). set (b2 := resizeSpaceIfNeeded b G).
  assert (HpayG : payloadOk G).
  { unfold payloadOk, G. rewrite withBounds_attributes. exact Hpay. }
  destruct (resizeSpaceIfNeeded_established b G HE HpayG) as [HE2 Hsch2]. fold b2 in HE2, Hsch2.
  assert (H3 : forall info,
            Established (fst (allocateId b2 info))
            /\ schemaOf (geometry (fst (allocateId b2 info))) = schemaOf (geometry b)).
  { intros info. destruct (allocateId_fields b2 info) as [_ [_ [HG [Hi [HV HI]]]]].
    destruct (established_same_buffers b2 _ HG HV HI Hi HE2) as [HE3 Hsch3].
    split; [assumption | congruence]. }
  destruct (addInitialized b g rv ri) as [b' id | e s] eqn:Hadd; cbn [stateOf].
  - destruct (addInitialized_Ok _ _ _ _ _ _ Hadd)
      as [_ [info [b4 [_ [_ [_ [Hset Hb']]]]]]].
    destruct (H3 info) as [HE3 Hsch3].
    destruct (setGeometryAt_established _ _ _ _ _ Hset HE3) as [HE4 Hsch4].
    assert (HE' : Established b' /\ schemaOf (geometry b') = schemaOf (geometry b4)).
    { rewrite Hb'. apply established_same_buffers; try reflexivity. assumption. }
    destruct HE' as [HE' Hsch']. split; [assumption |].
    rewrite Hsch', Hsch4. exact Hsch3.
  - destruct (addInitialized_Throw _ _ _ _ _ _ Hadd)
      as [[_ ->] | [[_ [_ ->]] | [_ [info [_ [_ ->]]]]]].
    + split; [assumption | reflexivity].
    + split; assumption.
    + apply H3.
Qed.

Lemma remapIndices_shape (ix : IndexAttribute) (from n delta : Z) :
  icount (remapIndices ix from n delta) = icount ix
  /\ ikind (remapIndices ix from n delta) = ikind ix.
Proof.
  unfold remapIndices.
  apply (fold_left_preserves (fun d => icount d = icount ix /\ ikind d = ikind ix));
    [split; reflexivity |].
  intros d i _ [Hc Hk]. split; [| exact Hk].
  unfold icount, setX in *. cbn [idata]. rewrite len_set. exact Hc.
Qed.

Lemma packRegion_index_shape (h : bool) (st : Packing) (e : nat * GeometryInfo) :
  match pIndex st, pIndex (packRegion h st e) with
  | Some ix, Some ix' => icount ix' = icount ix /\ ikind ix' = ikind ix
  | None, None => True
  | _, _ => False
  end.
Proof.
  destruct e as [i r]. unfold packRegion.
  destruct (negb (vertexStart r =? pNextVertexStart st));
    destruct h; destruct (pIndex st) as [ix |]; cbn [pIndex];
    try (split; reflexivity); try exact I;
    match goal with
    | |- context [negb (indexStart ?x =? ?y)] =>
        destruct (negb (indexStart x =? y)); cbn [pIndex fst]
    end;
    try (split; reflexivity);
    unfold icount; cbn [idata ikind]; rewrite len_copyWithin;
    apply remapIndices_shape.
Qed.

Lemma fold_pack_index_shape (h : bool) (l : list (nat * GeometryInfo)) (st : Packing) :
  match pIndex st, pIndex (fold_left (packRegion h) l st) with
  | Some ix, Some ix' => icount ix' = icount ix /\ ikind ix' = ikind ix
  | None, None => True
  | _, _ => False
  end.
Proof.
  revert st. induction l as [| e rest IH]; intros st; cbn [fold_left].
  - destruct (pIndex st); [split; reflexivity | exact I].
  - specialize (IH (packRegion h st e)).
    pose proof (packRegion_index_shape h st e) as H1.
    destruct (pIndex st), (pIndex (packRegion h st e)),
      (pIndex (fold_left (packRegion h) rest (packRegion h st e)));
      try tauto; destruct IH, H1; split; congruence.
Qed.

Lemma packArray_normalized (l : list (nat * GeometryInfo)) (n : Z) (a : BufferAttribute) :
  normalized (packArray l n a) = normalized a.
Proof.
  revert n a. induction l as [| e rest IH]; intros n a; cbn [packArray]; [reflexivity |].
  rewrite IH. destruct (negb (vertexStart (snd e) =? n)); reflexivity.
Qed.

Lemma clearTrailingIndices_shape (ix : IndexAttribute) (from : Z) :
  icount (clearTrailingIndices ix from) = icount ix
  /\ ikind (clearTrailingIndices ix from) = ikind ix.
Proof.
  unfold clearTrailingIndices, icount. cbn [idata ikind]. split; [| reflexivity].
  apply (len_fold_set _ (fun i => i) (fun _ _ => 0)).
Qed.

Lemma optimize_established (b : Batch) :
  Established b ->
  Established (optimize b) /\ schemaOf (geometry (optimize b)) = schemaOf (geometry b).
Proof.
  intros [Hinit [Hnd [HV [HI [HszA HszI]]]]].
  set (h := isSome (index (geometry b))).
  set (st0 := mkPacking (attributes (geometry b)) (index (geometry b)) (geometryInfo b) 0 0).
  assert (Hall : packAll b = fold_left (packRegion h) (packingOrder b) st0) by reflexivity.
  pose proof (fold_pack_attributes h (packingOrder b) st0) as HA.
  cbn [st0 pAttributes pNextVertexStart] in HA.
  pose proof (fold_pack_index_shape h (packingOrder b) st0) as HX.
  cbn [st0 pIndex] in HX. rewrite <- Hall in HA, HX.
  assert (Hattrs : attributes (geometry (optimize b))
                   = map (fun na => (fst na, packArray (packingOrder b) 0 (snd na)))
                         (attributes (geometry b))) by exact HA.
  assert (Hindex : index (geometry (optimize b))
                   = option_map (fun a => clearTrailingIndices a (pNextIndexStart (packAll b)))
                                (pIndex (packAll b))) by reflexivity.
  assert (Hsch : schemaOf (geometry (optimize b)) = schemaOf (geometry b)).
  { unfold schemaOf. rewrite Hattrs, Hindex, map_map. f_equal.
    - destruct (index (geometry b)), (pIndex (packAll b)); cbn; tauto.
    - apply map_ext. intros [k a]. cbn [fst snd].
      destruct (packArray_layout (packingOrder b) 0 a) as [-> _].
      rewrite packArray_normalized. reflexivity. }
  split; [| exact Hsch].
  split; [exact Hinit |].
  split; [rewrite (schemaOf_keys _ _ Hsch); assumption |].
  split; [exact HV |]. split; [exact HI |].
  split.
  - intros name a Ha. rewrite Hattrs, lookupAttr_map in Ha.
    destruct (lookupAttr name (attributes (geometry b))) as [a0 |] eqn:Ha0; [| discriminate].
    cbn [option_map] in Ha. injection Ha as <-.
    destruct (packArray_layout (packingOrder b) 0 a0) as [-> ->].
    apply (HszA name). assumption.
  - intros ix Hix. rewrite Hindex in Hix.
    destruct (index (geometry b)) as [o |] eqn:Ho;
      destruct (pIndex (packAll b)) as [o' |]; try tauto; try discriminate.
    cbn [option_map] in Hix. injection Hix as <-.
    destruct (clearTrailingIndices_shape o' (pNextIndexStart (packAll b))) as [-> _].
    destruct HX as [-> _]. apply HszI. reflexivity.
Qed.

Lemma stateOf_table_only {A} (r : Result A) (b : Batch) :
  (forall s v, r = Ok s v -> s = b \/ exists t, s = with_table b t) ->
  (forall e s, r = Throw e s -> s = b \/ exists t, s = with_table b t) ->
  Established b ->
  Established (stateOf r) /\ schemaOf (geometry (stateOf r)) = schemaOf (geometry b).
Proof.
  intros HOk HThrow HE.
  assert (H : stateOf r = b \/ exists t, stateOf r = with_table b t).
  { destruct r as [s v | e s]; cbn [stateOf]; [eapply HOk | eapply HThrow]; reflexivity. }
  destruct H as [-> | [t ->]]; [split; [assumption | reflexivity] |].
  apply established_same_buffers; try reflexivity. assumption.
Qed.

(** The calls that only touch the region table or the free list. *)
Ltac split_cases :=
  repeat match goal with
         | |- context [match ?x with _ => _ end] => destruct x eqn:?
         end;
  cbn [bind stateOf with_table geometry maxVertexCount maxIndexCount geometryInitialized];
  try (repeat split; reflexivity).

Lemma deleteGeometry_buffers (b : Batch) (id : Z) :
  geometry (stateOf (deleteGeometry b id)) = geometry b
  /\ maxVertexCount (stateOf (deleteGeometry b id)) = maxVertexCount b
  /\ maxIndexCount (stateOf (deleteGeometry b id)) = maxIndexCount b
  /\ geometryInitialized (stateOf (deleteGeometry b id)) = geometryInitialized b.
Proof. unfold deleteGeometry. split_cases. Qed.

Lemma validateGeometryId_state (b : Batch) (id : Z) :
  stateOf (validateGeometryId b id) = b.
Proof. unfold validateGeometryId. split_cases. Qed.

Lemma setVisibleAt_buffers (b : Batch) (id : Z) (v : bool) :
  geometry (stateOf (setVisibleAt b id v)) = geometry b
  /\ maxVertexCount (stateOf (setVisibleAt b id v)) = maxVertexCount b
  /\ maxIndexCount (stateOf (setVisibleAt b id v)) = maxIndexCount b
  /\ geometryInitialized (stateOf (setVisibleAt b id v)) = geometryInitialized b.
Proof.
  unfold setVisibleAt. pose proof (validateGeometryId_state b id) as Hs.
  destruct (validateGeometryId b id) as [b1 u | e s]; cbn [stateOf] in Hs; subst;
    cbn [bind]; split_cases.
Qed.

Lemma setGeometryInfo_buffers (b : Batch) (id : Z) (oid : option string) (c : bool) :
  geometry (stateOf (setGeometryInfo b id oid c)) = geometry b
  /\ maxVertexCount (stateOf (setGeometryInfo b id oid c)) = maxVertexCount b
  /\ maxIndexCount (stateOf (setGeometryInfo b id oid c)) = maxIndexCount b
  /\ geometryInitialized (stateOf (setGeometryInfo b id oid c)) = geometryInitialized b.
Proof. unfold setGeometryInfo. split_cases. Qed.

Lemma getBoundingBoxAt_buffers (b : Batch) (id : Z) :
  geometry (stateOf (getBoundingBoxAt b id)) = geometry b
  /\ maxVertexCount (stateOf (getBoundingBoxAt b id)) = maxVertexCount b
  /\ maxIndexCount (stateOf (getBoundingBoxAt b id)) = maxIndexCount b
  /\ geometryInitialized (stateOf (getBoundingBoxAt b id)) = geometryInitialized b
  /\ geometryCount (stateOf (getBoundingBoxAt b id)) = geometryCount b.
Proof. unfold getBoundingBoxAt. split_cases. Qed.

Lemma getBoundingSphereAt_buffers (b : Batch) (id : Z) :
  geometry (stateOf (getBoundingSphereAt b id)) = geometry b
  /\ maxVertexCount (stateOf (getBoundingSphereAt b id)) = maxVertexCount b
  /\ maxIndexCount (stateOf (getBoundingSphereAt b id)) = maxIndexCount b
  /\ geometryInitialized (stateOf (getBoundingSphereAt b id)) = geometryInitialized b.
Proof.
  unfold getBoundingSphereAt.
  destruct (id >=? geometryCount b); [repeat split; reflexivity |].
  destruct (tlookup (geometryInfo b) id) as [info |]; [| repeat split; reflexivity].
  destruct (boundingSphere info); [repeat split; reflexivity |].
  destruct (getBoundingBoxAt_buffers b id) as [HG [HV [HI [Hinit _]]]].
  destruct (getBoundingBoxAt b id) as [b1 obox | e s]; cbn [stateOf bind] in *;
    [| repeat split; assumption].
  rewrite <- HG, <- HV, <- HI, <- Hinit. split_cases.
Qed.

(** X3: The layout of an established batch is fixed for good: whatever is
    called on it and whether the calls return or throw, the batch stays
    initialized, its schema (index presence; name, item size and
    normalisation of every attribute) stays what the first insertion made
    it, the capacities stay non-negative, and every array keeps the
    length its capacity calls for.  So [_validateGeometry] answers the
    same for a payload from then on. *)
Theorem established_layout_is_fixed (b b' : Batch) :
  Established b -> reaches b b' ->
  Established b'
  /\ schemaOf (geometry b') = schemaOf (geometry b)
  /\ forall g, validateGeometry b' g = validateGeometry b g.
Proof.
  intros HE Hreach.
  assert (Hmain : Established b' /\ schemaOf (geometry b') = schemaOf (geometry b)).
  { induction Hreach as [b | b b1 b2 Hstep Hrest IH]; [split; [assumption | reflexivity] |].
    assert (H1 : Established b1 /\ schemaOf (geometry b1) = schemaOf (geometry b)).
    { destruct Hstep as [b g rv ri Hpay | b id g | b id | b | b id value | b id oid check
                        | b maxV maxI HV HI | b id | b id].
      - unfold addGeometry, initializeGeometry.
        destruct HE as [Hinit HE']. rewrite Hinit.
        apply addInitialized_established; [split; assumption | assumption].
      - destruct (setGeometryAt b id g) as [s v | e s] eqn:Hset; cbn [stateOf].
        + eapply setGeometryAt_established; eassumption.
        + apply setGeometryAt_Throw in Hset. subst. split; [assumption | reflexivity].
      - destruct (deleteGeometry_buffers b id) as [HG [HV [HI Hinit]]].
        apply established_same_buffers; assumption.
      - apply optimize_established. assumption.
      - destruct (setVisibleAt_buffers b id value) as [HG [HV [HI Hinit]]].
        apply established_same_buffers; assumption.
      - destruct (setGeometryInfo_buffers b id oid check) as [HG [HV [HI Hinit]]].
        apply established_same_buffers; assumption.
      - destruct HE as [Hinit [Hnd _]]. apply setGeometrySize_established; assumption.
      - destruct (getBoundingBoxAt_buffers b id) as [HG [HV [HI [Hinit _]]]].
        apply established_same_buffers; assumption.
      - destruct (getBoundingSphereAt_buffers b id) as [HG [HV [HI Hinit]]].
        apply established_same_buffers; assumption. }
    destruct H1 as [HE1 Hsch1]. destruct (IH HE1) as [HE2 Hsch2].
    split; [assumption | congruence]. }
  destruct Hmain as [HE' Hsch]. split; [assumption |]. split; [assumption |].
  intros g. apply validateGeometry_schema. assumption.
Qed.

(** ** The anatomy of an insertion *)

Lemma addInitialized_anatomy (b1 : Batch) (g : BufferGeometry) (rv ri : Z)
      (b' : Batch) (id : Z) :
  geometryCount b1 = tlength (geometryInfo b1) ->
  addInitialized b1 g rv ri = Ok b' id ->
  let G := withBounds g in
  let b2 := resizeSpaceIfNeeded b1 G in
  exists info r p,
    exceedsMaximum b2 info = false
    /\ lookupAttr "position" (attributes g) = Some p
    /\ tlookup (geometryInfo b') id = Some r
    /\ (vertexStart r = vertexStart info
        /\ reservedVertexCount r = reservedVertexCount info
        /\ indexStart r = indexStart info
        /\ reservedIndexCount r = reservedIndexCount info)
    /\ attributes (geometry b')
       = writeAttributes (attributes (geometry b2)) G (vertexStart info)
                         (reservedVertexCount info)
    /\ index (geometry b')
       = match index (geometry b2), index g with
         | Some d, Some s =>
             Some (writeIndex d s (indexStart info) (reservedIndexCount info)
                              (vertexStart info))
         | other, _ => other
         end
    /\ count_of p <= reservedVertexCount info
    /\ (forall d s, index (geometry b2) = Some d -> index g = Some s ->
                    icount s <= reservedIndexCount info)
    /\ vertexStart info = nextVertexStart b1
    /\ (forall s, index g = Some s -> indexStart info = nextIndexStart b1)
    /\ maxVertexCount b' = maxVertexCount b2
    /\ maxIndexCount b' = maxIndexCount b2
    /\ validateGeometry b2 G = None.
Proof.
  intros Hc1 Hadd G b2.
  destruct (addInitialized_Ok _ _ _ _ _ _ Hadd)
    as (Hval & info & b4 & Hnew & Hex & Hid & Hset & Hb').
  fold G in Hnew, Hex, Hid, Hset. fold b2 in Hnew, Hex, Hid, Hset.
  destruct (resizeSpaceIfNeeded_fields b1 G)
    as (Ht2 & Hfree2 & HnI2 & HnV2 & Hcount2 & Hinit2).
  fold b2 in Ht2, Hfree2, HnI2, HnV2, Hcount2, Hinit2.
  assert (Hc2 : geometryCount b2 = tlength (geometryInfo b2)).
  { rewrite Hcount2, Ht2. exact Hc1. }
  pose proof (allocateId_slot b2 info Hc2) as Hslot. rewrite Hid in Hslot.
  assert (Hid0 : 0 <= id).
  { rewrite <- Hid. apply allocateId_nonneg. rewrite Hc2. unfold tlength. lia. }
  destruct (allocateId_fields b2 info) as (_ & _ & HG3 & _ & HV3 & HI3).
  destruct (setGeometryAt_Ok _ _ _ _ _ Hset)
    as (_ & _ & Hval3 & info0 & p & r & Hlk & Hpos & Hcnt & Hicnt & Ht4
        & (Hvs & Hrvc & His & Hric & _ & _ & _)
        & (_ & _ & _ & _ & _ & HV4 & HI4) & Hattrs & Hindex).
  rewrite Hslot in Hlk. injection Hlk as <-.
  assert (HixG : index G = index g) by apply withBounds_index.
  exists info, r, p.
  split; [exact Hex |].
  split; [unfold G in Hpos; rewrite withBounds_attributes in Hpos; exact Hpos |].
  split.
  { rewrite Hb'. cbn [advanceCursors geometryInfo]. rewrite Ht4.
    apply tlookup_tset_same_Z. assumption. }
  split; [repeat split; assumption |].
  split; [rewrite Hb'; cbn [advanceCursors geometry]; rewrite Hattrs, HG3; reflexivity |].
  split; [rewrite Hb'; cbn [advanceCursors geometry]; rewrite Hindex, HG3, HixG; reflexivity |].
  split; [exact Hcnt |].
  split; [intros d s Hd Hs; apply (Hicnt d s); [rewrite HG3 | rewrite HixG]; assumption |].
  destruct (newRegion_Some _ _ _ _ _ Hnew) as (HvsN & _ & _ & _ & HixS & _).
  split; [rewrite HvsN; exact HnV2 |].
  split; [intros s Hs; rewrite <- HixG in Hs; destruct (HixS s Hs) as [-> _]; exact HnI2 |].
  split; [rewrite Hb'; cbn [advanceCursors maxVertexCount]; congruence |].
  split; [rewrite Hb'; cbn [advanceCursors maxIndexCount]; congruence |].
  unfold validateGeometry in *. rewrite HG3 in Hval3. exact Hval3.
Qed.

Lemma Qfloor_ge (n : Z) (q : Q) : (inject_Z n <= q)%Q -> n <= toLength q.
Proof.
  intros H. apply Qfloor_resp_le in H. rewrite Qfloor_Z in H. unfold toLength. lia.
Qed.

Lemma inject_Z_le_inv (n m : Z) : (inject_Z n <= inject_Z m)%Q -> n <= m.
Proof. intros H. rewrite <- Zle_Qle in H. exact H. Qed.

Lemma inject_Z_lt_inv (n m : Z) : (inject_Z n < inject_Z m)%Q -> n < m.
Proof. intros H. rewrite <- Zlt_Qlt in H. exact H. Qed.

(** X4: The indices of an inserted region, read back: when the payload's
    index values address its own vertices, the region's index entries
    are the payload's shifted by the region's vertex offset, exactly (the
    element type of the index array is wide enough), and the rest of the
    index reservation points at the region's first vertex. *)
Theorem addGeometry_stores_indices (b : Batch) (g : BufferGeometry) (rv ri : Z)
        (b' : Batch) (id : Z) (six : IndexAttribute) (p : BufferAttribute) :
  Sound (initializeGeometry b g) -> Established (initializeGeometry b g) ->
  payloadOk g ->
  addGeometry b g rv ri = Ok b' id ->
  index g = Some six -> lookupAttr "position" (attributes g) = Some p ->
  (forall i, 0 <= i < icount six -> 0 <= getX six i < count_of p) ->
  (maxVertexCount b' < 4294967296)%Q ->
  exists r ix',
    tlookup (geometryInfo b') id = Some r
    /\ index (geometry b') = Some ix'
    /\ (forall i, 0 <= i < icount six ->
                  getX ix' (indexStart r + i) = vertexStart r + getX six i)
    /\ (forall i, icount six <= i < reservedIndexCount r ->
                  getX ix' (indexStart r + i) = vertexStart r).
Proof.
  intros HS HE Hpay Hadd Hsix Hp Hvals Hcap. unfold addGeometry in Hadd.
  set (b1 := initializeGeometry b g) in *.
  destruct (addInitialized_anatomy b1 g rv ri b' id (sound_count b1 HS) Hadd)
    as (info & r & p' & Hex & Hp' & Hr & (Hvs & Hrvc & His & Hric) & _ & Hindex
        & Hcnt & Hicnt & HvsN & HisN & HV' & _ & Hval2).
  rewrite Hp in Hp'. injection Hp' as <-.
  set (G := withBounds g) in *. set (b2 := resizeSpaceIfNeeded b1 G) in *.
  assert (HpayG : payloadOk G).
  { unfold payloadOk, G. rewrite withBounds_attributes. exact Hpay. }
  destruct (resizeSpaceIfNeeded_established b1 G HE HpayG) as [[_ [_ [_ [_ [_ HszI]]]]] _].
  fold b2 in HszI.
  pose proof (validateGeometry_None_index _ _ Hval2) as Hpres.
  unfold G in Hpres. rewrite withBounds_index, Hsix in Hpres. cbn [isSome] in Hpres.
  destruct (index (geometry b2)) as [d |] eqn:Hd; [| discriminate].
  rewrite Hsix in Hindex.
  destruct (resizeSpaceIfNeeded_fields b1 G) as (_ & _ & HnI2 & HnV2 & _ & Hinit2).
  fold b2 in HnI2, HnV2, Hinit2.
  assert (HixOk : indexOk (maxVertexCount b2) d).
  { apply (resizeSpaceIfNeeded_indexOk b1 G d);
      [apply (sound_initialized b1 HS) | apply (sound_indexed b1 HS) | exact Hd]. }
  destruct (exceedsMaximum_false _ _ Hex) as [HfitV HfitI].
  pose proof (sound_vcap b1 HS) as [HnV0 _].
  assert (Hidx1 : isSome (index (geometry b1)) = true).
  { pose proof (resizeSpaceIfNeeded_schema b1 G (sound_initialized b1 HS)
                                           (sound_keys b1 HS)) as Hsch.
    fold b2 in Hsch. unfold schemaOf in Hsch. injection Hsch as Hix _.
    rewrite Hd in Hix. cbn [isSome] in Hix. congruence. }
  pose proof (sound_icap b1 HS Hidx1) as [HnI0 _].
  assert (HisV : indexStart info = nextIndexStart b1) by (apply (HisN six); exact Hsix).
  assert (Hfit : indexStart info + reservedIndexCount info <= icount d).
  { rewrite (HszI d eq_refl). apply Qfloor_ge. apply HfitI. lia. }
  assert (Hsmall : forall i, 0 <= i < icount six ->
            0 <= vertexStart info + getX six i < index_modulus (ikind d)).
  { intros i Hi. specialize (Hvals i Hi). split; [lia |].
    destruct HixOk as [Hkind _]. rewrite Hkind.
    assert (HendQ : (inject_Z (vertexStart info + count_of p) <= maxVertexCount b2)%Q).
    { eapply Qle_trans; [| exact HfitV]. rewrite <- Zle_Qle. lia. }
    destruct (Qgtb (maxVertexCount b2) 65535) eqn:Ekind; cbn [index_modulus].
    - rewrite HV' in Hcap.
      assert (Hend : vertexStart info + count_of p < 4294967296).
      { apply inject_Z_lt_inv. eapply Qle_lt_trans; [exact HendQ | exact Hcap]. }
      lia.
    - apply Qgtb_false in Ekind.
      assert (Hend : vertexStart info + count_of p <= 65535).
      { apply inject_Z_le_inv. eapply Qle_trans; [exact HendQ | exact Ekind]. }
      lia. }
  assert (Hfirst : 0 <= vertexStart info < index_modulus (ikind d)).
  { split; [lia |].
    destruct HixOk as [Hkind _]. rewrite Hkind.
    assert (Hcp : 0 <= count_of p) by (apply count_of_nonneg; apply Hpay; exact Hp).
    assert (HendQ : (inject_Z (vertexStart info) <= maxVertexCount b2)%Q).
    { eapply Qle_trans; [| exact HfitV]. rewrite <- Zle_Qle. lia. }
    destruct (Qgtb (maxVertexCount b2) 65535) eqn:Ekind; cbn [index_modulus].
    - rewrite HV' in Hcap.
      assert (Hend : vertexStart info < 4294967296).
      { apply inject_Z_lt_inv. eapply Qle_lt_trans; [exact HendQ | exact Hcap]. }
      lia.
    - apply Qgtb_false in Ekind.
      assert (Hend : vertexStart info <= 65535).
      { apply inject_Z_le_inv. eapply Qle_trans; [exact HendQ | exact Ekind]. }
      lia. }
  exists r, (writeIndex d six (indexStart info) (reservedIndexCount info) (vertexStart info)).
  split; [exact Hr |]. split; [exact Hindex |].
  pose proof (Hicnt d six eq_refl Hsix) as Hle.
  split.
  - intros i Hi. rewrite His, Hvs.
    rewrite writeIndex_inside by lia.
    assert (E : (i <? icount six) = true) by (apply Z.ltb_lt; lia). rewrite E.
    apply Z.mod_small. apply Hsmall. exact Hi.
  - intros i Hi. rewrite His, Hvs. rewrite Hric in Hi.
    pose proof (icount_nonneg six).
    rewrite writeIndex_inside by lia.
    assert (E : (i <? icount six) = false) by (apply Z.ltb_ge; lia). rewrite E.
    apply Z.mod_small. exact Hfirst.
Qed.

(** X5: The unused part of a reservation is cleared: after [addGeometry]
    returns, every attribute array of the batch has the item size of
    the payload's attribute of that name, and in it the vertices of the
    region's reservation beyond the payload's own are zero, whatever
    the array held there before. *)
Theorem addGeometry_zero_fills_reservation (b : Batch) (g : BufferGeometry) (rv ri : Z)
        (b' : Batch) (id : Z) (name : string) (a' : BufferAttribute) :
  Sound (initializeGeometry b g) -> Established (initializeGeometry b g) ->
  payloadOk g ->
  addGeometry b g rv ri = Ok b' id ->
  lookupAttr name (attributes (geometry b')) = Some a' ->
  exists r src,
    tlookup (geometryInfo b') id = Some r
    /\ lookupAttr name (attributes g) = Some src
    /\ itemSize a' = itemSize src
    /\ (0 <= itemSize src -> count_of src <= reservedVertexCount r ->
        forall i c, count_of src <= i < reservedVertexCount r -> 0 <= c < itemSize src ->
                    getComponent a' (vertexStart r + i) c = 0).
Proof.
  intros HS HE Hpay Hadd Ha'. unfold addGeometry in Hadd.
  set (b1 := initializeGeometry b g) in *.
  destruct (addInitialized_anatomy b1 g rv ri b' id (sound_count b1 HS) Hadd)
    as (info & r & p & Hex & Hp & Hr & (Hvs & Hrvc & His & Hric) & Hattrs & _
        & Hcnt & _ & HvsN & _ & _ & _ & Hval2).
  set (G := withBounds g) in *. set (b2 := resizeSpaceIfNeeded b1 G) in *.
  assert (HpayG : payloadOk G).
  { unfold payloadOk, G. rewrite withBounds_attributes. exact Hpay. }
  destruct (resizeSpaceIfNeeded_established b1 G HE HpayG) as [[_ [_ [_ [_ [HszA _]]]]] _].
  fold b2 in HszA.
  rewrite Hattrs, lookupAttr_writeAttributes in Ha'.
  destruct (lookupAttr name (attributes (geometry b2))) as [dst |] eqn:Hdst;
    [| discriminate].
  cbn [option_map] in Ha'.
  pose proof (validateGeometry_None_attributes _ _ Hval2) as HvalA.
  destruct (validateAttributes_None _ _ HvalA name dst (lookupAttr_In _ _ _ Hdst))
    as (src & Hsrc & Hsz & _).
  rewrite Hsrc in Ha'. injection Ha' as <-.
  exists r, src.
  split; [exact Hr |].
  split; [unfold G in Hsrc; rewrite withBounds_attributes in Hsrc; exact Hsrc |].
  destruct (writeAttribute_layout src dst (vertexStart info) (reservedVertexCount info))
    as [Hsz' _].
  split; [congruence |].
  intros Hsz0 Hcount i c Hi Hc. rewrite Hvs. rewrite Hrvc in Hi, Hcount.
  destruct (exceedsMaximum_false _ _ Hex) as [HfitV _].
  pose proof (sound_vcap b1 HS) as [HnV0 _].
  pose proof (count_of_nonneg src Hsz0) as Hcnt0.
  rewrite writeAttribute_inside; try lia.
  - assert (E : (i <? count_of src) = false) by (apply Z.ltb_ge; lia).
    rewrite E. reflexivity.
  - rewrite (HszA name dst Hdst). apply toLength_ge; [lia | exact HfitV].
Qed.

(** X6: [setGeometryAt] stays inside the region's reservation: a call that
    goes through leaves every component of every attribute array before
    the region's first reserved vertex and from the end of its vertex
    reservation on as it was, and every index entry outside its index
    reservation likewise; the cursors, the free list and every other
    record are not touched. *)
Theorem setGeometryAt_stays_in_reservation (b : Batch) (id : Z) (g : BufferGeometry)
        (b' : Batch) (v : Z) :
  setGeometryAt b id g = Ok b' v ->
  exists r,
    tlookup (geometryInfo b) id = Some r
    /\ (forall name a,
          lookupAttr name (attributes (geometry b)) = Some a -> 0 <= itemSize a ->
          exists a',
            lookupAttr name (attributes (geometry b')) = Some a'
            /\ itemSize a' = itemSize a
            /\ ((forall src, lookupAttr name (attributes g) = Some src ->
                             count_of src <= reservedVertexCount r) ->
                forall q, q < vertexStart r * itemSize a
                          \/ (vertexStart r + reservedVertexCount r) * itemSize a <= q ->
                          get (array a') q = get (array a) q))
    /\ (forall ix,
          index (geometry b) = Some ix ->
          exists ix',
            index (geometry b') = Some ix'
            /\ forall q, q < indexStart r \/ indexStart r + reservedIndexCount r <= q ->
                         getX ix' q = getX ix q)
    /\ (forall j, j <> id -> tlookup (geometryInfo b') j = tlookup (geometryInfo b) j)
    /\ nextVertexStart b' = nextVertexStart b
    /\ nextIndexStart b' = nextIndexStart b
    /\ availableGeometryIds b' = availableGeometryIds b.
Proof.
  intros Hset.
  destruct (setGeometryAt_Ok _ _ _ _ _ Hset)
    as (_ & _ & Hval & info & p & r' & Hlk & Hpos & Hcnt & Hicnt & Ht'
        & _ & (Hfree & HnI & HnV & _) & Hattrs & Hindex).
  exists info. split; [exact Hlk |].
  pose proof (validateGeometry_None_attributes _ _ Hval) as HvalA.
  split.
  { intros name a Ha Hsz0. rewrite Hattrs, lookupAttr_writeAttributes, Ha.
    cbn [option_map].
    destruct (validateAttributes_None _ _ HvalA name a (lookupAttr_In _ _ _ Ha))
      as (src & Hsrc & Hsz & _).
    rewrite Hsrc. eexists. split; [reflexivity |].
    destruct (writeAttribute_layout src a (vertexStart info) (reservedVertexCount info))
      as [Hsz' _].
    split; [exact Hsz' |].
    intros Hfits q Hq. apply writeAttribute_outside; try assumption.
    apply Hfits. reflexivity. }
  split.
  { intros ix Hix. rewrite Hindex, Hix.
    destruct (index g) as [s |] eqn:Hs.
    - eexists. split; [reflexivity |]. intros q Hq.
      apply writeIndex_outside; [| exact Hq]. apply (Hicnt ix s); [exact Hix | reflexivity].
    - exists ix. split; [reflexivity | reflexivity]. }
  split.
  { intros j Hj. rewrite Ht'. apply tlookup_tset_other.
    pose proof (tlookup_Some_range _ _ _ Hlk). lia. }
  repeat split; assumption.
Qed.

(** ** Filling in bounds *)

Lemma sameButBounds_refl (r : GeometryInfo) : sameButBounds r r.
Proof. destruct r; reflexivity. Qed.

Lemma sameButBounds_trans (r r' r'' : GeometryInfo) :
  sameButBounds r r' -> sameButBounds r' r'' -> sameButBounds r r''.
Proof.
  unfold sameButBounds. destruct r, r', r''; cbn. intros H1 H2.
  injection H1 as -> -> -> -> -> -> -> -> -> -> -> ->.
  injection H2 as -> -> -> -> -> -> -> -> -> -> -> ->. reflexivity.
Qed.

Lemma sameButBounds_fields (r r' : GeometryInfo) :
  sameButBounds r r' ->
  active r' = active r /\ visible r' = visible r /\ objectId r' = objectId r
  /\ bboxIntersectionCheck r' = bboxIntersectionCheck r
  /\ start r' = start r /\ count r' = count r
  /\ vertexStart r' = vertexStart r /\ vertexCount r' = vertexCount r
  /\ indexStart r' = indexStart r /\ indexCount r' = indexCount r.
Proof.
  unfold sameButBounds. destruct r, r'; cbn. intros H.
  injection H as -> -> -> -> -> -> -> -> -> -> -> ->. repeat split; reflexivity.
Qed.

Lemma cachesOnly_refl (b : Batch) : cachesOnly b b.
Proof.
  repeat (split; [reflexivity |]). intros i.
  destruct (tlookup (geometryInfo b) i); [| exact I].
  split; [apply sameButBounds_refl | split; auto].
Qed.

Lemma cachesOnly_trans (b b' b'' : Batch) :
  cachesOnly b b' -> cachesOnly b' b'' -> cachesOnly b b''.
Proof.
  intros (H1 & H2 & H3 & H4 & H5 & H6 & H7 & H8 & H9 & H10)
         (K1 & K2 & K3 & K4 & K5 & K6 & K7 & K8 & K9 & K10).
  repeat (split; [congruence |]). intros i. specialize (H10 i). specialize (K10 i).
  destruct (tlookup (geometryInfo b) i) as [r |],
           (tlookup (geometryInfo b') i) as [r' |],
           (tlookup (geometryInfo b'') i) as [r'' |]; try tauto.
  destruct H10 as (Hs & Hb & Hp), K10 as (Ks & Kb & Kp).
  split; [eapply sameButBounds_trans; eassumption |]. split; auto.
Qed.

Lemma cachesOnly_slot (b : Batch) (h : Z) (r r' : GeometryInfo) :
  tlookup (geometryInfo b) h = Some r ->
  sameButBounds r r' ->
  (forall box, boundingBox r = Some box -> boundingBox r' = Some box) ->
  (forall s, boundingSphere r = Some s -> boundingSphere r' = Some s) ->
  cachesOnly b (with_table b (tset (geometryInfo b) (Z.to_nat h) r')).
Proof.
  intros Hr Hs Hb Hp. pose proof (tlookup_Some_range _ _ _ Hr) as Hrange.
  repeat (split; [reflexivity |]). cbn [with_table geometryInfo].
  split; [apply (tlength_tset_in _ _ r); assumption |].
  intros i. destruct (Z.eq_dec i h) as [-> | Hne].
  - rewrite Hr, tlookup_tset_same_Z by lia. auto.
  - rewrite tlookup_tset_other by lia.
    destruct (tlookup (geometryInfo b) i); [| exact I].
    split; [apply sameButBounds_refl | split; auto].
Qed.

Lemma getBoundingBoxAt_Ok (b : Batch) (h : Z) (b' : Batch) (v : option Box3) :
  getBoundingBoxAt b h = Ok b' v ->
  (geometryCount b <= h /\ b' = b /\ v = None)
  \/ (exists info box,
        h < geometryCount b /\ tlookup (geometryInfo b) h = Some info
        /\ boundingBox info = Some box /\ b' = b /\ v = Some box)
  \/ (exists info box,
        h < geometryCount b /\ tlookup (geometryInfo b) h = Some info
        /\ boundingBox info = None /\ v = Some box
        /\ b' = with_table b (tset (geometryInfo b) (Z.to_nat h)
                                   (with_boundingBox info (Some box)))
        /\ box = match lookupAttr "position" (attributes (geometry b)) with
                 | Some position => boxOfPoints (regionPoints (geometry b) position info)
                 | None => EmptyBox
                 end).
Proof.
  unfold getBoundingBoxAt.
  destruct (h >=? geometryCount b) eqn:Hh.
  { apply geb_true_inv in Hh. intros H. injection H as <- <-. left. auto. }
  apply geb_false_inv in Hh.
  destruct (tlookup (geometryInfo b) h) as [info |] eqn:Hr; [| discriminate].
  destruct (boundingBox info) as [box |] eqn:Hbox.
  { intros H. injection H as <- <-. right. left. exists info, box. auto. }
  intros H. right. right.
  destruct (lookupAttr "position" (attributes (geometry b))).
  - injection H as <- <-. eexists. eexists.
    repeat (split; [eassumption || reflexivity |]).
    reflexivity.
  - destruct (loop (start info) (start info + count info)); [| discriminate].
    injection H as <- <-. eexists. eexists. repeat (split; [eassumption || reflexivity |]).
    reflexivity.
Qed.

Lemma getBoundingBoxAt_caches (b : Batch) (h : Z) (b' : Batch) (v : option Box3) :
  getBoundingBoxAt b h = Ok b' v -> cachesOnly b b'.
Proof.
  intros H. destruct (getBoundingBoxAt_Ok _ _ _ _ H)
    as [(_ & -> & _) | [(info & box & _ & _ & _ & -> & _)
                       | (info & box & _ & Hr & Hbox & _ & -> & _)]];
    try apply cachesOnly_refl.
  apply (cachesOnly_slot b h info); [assumption | | |].
  - unfold sameButBounds. destruct info; cbn in *. subst. reflexivity.
  - intros box0 H0. congruence.
  - intros s Hs. destruct info; exact Hs.
Qed.

Lemma getBoundingSphereAt_caches (b : Batch) (h : Z) (b' : Batch) (v : option Sphere) :
  getBoundingSphereAt b h = Ok b' v -> cachesOnly b b'.
Proof.
  unfold getBoundingSphereAt.
  destruct (h >=? geometryCount b); [intros H; injection H as <- _; apply cachesOnly_refl |].
  destruct (tlookup (geometryInfo b) h) as [info |] eqn:Hr; [| discriminate].
  destruct (boundingSphere info) as [s |] eqn:Hs;
    [intros H; injection H as <- _; apply cachesOnly_refl |].
  destruct (getBoundingBoxAt b h) as [b1 obox | e s] eqn:Hbox; cbn [bind]; [| discriminate].
  pose proof (getBoundingBoxAt_caches _ _ _ _ Hbox) as Hc1.
  destruct (tlookup (geometryInfo b1) h) as [info1 |] eqn:Hr1; [| discriminate].
  assert (Hs1 : boundingSphere info1 = None).
  { pose proof (tlookup_Some_range _ _ _ Hr) as Hrange.
    destruct (getBoundingBoxAt_Ok _ _ _ _ Hbox)
      as [(_ & -> & _) | [(info0 & box & _ & _ & _ & -> & _)
                         | (info0 & box & _ & Hr0 & _ & _ & -> & _)]].
    - congruence.
    - congruence.
    - cbn [with_table geometryInfo] in Hr1.
      rewrite tlookup_tset_same_Z in Hr1 by lia. injection Hr1 as <-.
      rewrite Hr in Hr0. injection Hr0 as <-. destruct info; exact Hs. }
  assert (Hslot : forall sp, cachesOnly b1 (with_table b1 (tset (geometryInfo b1) (Z.to_nat h)
                                                             (with_boundingSphere info1 (Some sp))))).
  { intros sp. apply (cachesOnly_slot b1 h info1); [assumption | | |].
    - unfold sameButBounds. destruct info1; cbn in *. subst. reflexivity.
    - intros box0 H0. destruct info1; exact H0.
    - intros s0 H0. congruence. }
  destruct (lookupAttr "position" (attributes (geometry b1))).
  - intros H. injection H as <- _. eapply cachesOnly_trans; [exact Hc1 | apply Hslot].
  - destruct (loop (start info1) (start info1 + count info1)); [| discriminate].
    intros H. injection H as <- _. eapply cachesOnly_trans; [exact Hc1 | apply Hslot].
Qed.

(** ** Ray intersection *)

Section RaycastFacts.

Variable Raycaster : Type.
Variable intersectBox : Raycaster -> Box3 -> option Vector3.
Variable distanceTo : Raycaster -> Vector3 -> Z.
Variable intersectsSphere : Raycaster -> Sphere -> bool.
Variable checkIntersection : Raycaster -> Vector3 -> Vector3 -> option (Z * Vector3).

Local Abbreviation intersectWith_' :=
  (intersectWith_ Raycaster intersectBox distanceTo intersectsSphere checkIntersection).
Local Abbreviation raycastLoop' :=
  (raycastLoop Raycaster intersectBox distanceTo intersectsSphere checkIntersection).
Local Abbreviation raycast' :=
  (raycast Raycaster intersectBox distanceTo intersectsSphere checkIntersection).

(** One region of the ray test: the batch only fills in bounds, and what
    is appended are hits of this handle, of a region that is active and
    visible, tagged with its entity id. *)
Lemma intersectWith_Ok (b : Batch) (scratch : Sphere) (h : Z) (rc : Raycaster)
      (ints : list Intersection) (b' : Batch) (out : list Intersection) (scratch' : Sphere) :
  intersectWith_' b scratch h rc ints = Ok b' (out, scratch') ->
  cachesOnly b b'
  /\ exists r hits,
       tlookup (geometryInfo b) h = Some r
       /\ out = ints ++ hits
       /\ (hits <> [] -> active r = true /\ visible r = true)
       /\ forall x, In x hits -> batchId x = h /\ hitObjectId x = objectId r.
Proof.
  unfold intersectWith_.
  destruct (tlookup (geometryInfo b) h) as [info |] eqn:Hr; [| discriminate].
  destruct (visible info) eqn:Hvis; cbn [negb orb];
    [destruct (active info) eqn:Hact; cbn [negb] |].
  - destruct (bboxIntersectionCheck info).
    + destruct (boundingBox info) as [box |]; [| discriminate].
      destruct (intersectBox rc box) as [pt |]; intros H; injection H as <- <- _;
        (split; [apply cachesOnly_refl |]); exists info.
      * eexists. split; [reflexivity |]. split; [reflexivity |].
        split; [auto |]. intros x [<- | []]. split; reflexivity.
      * exists []. split; [reflexivity |]. split; [symmetry; apply app_nil_r |].
        split; [intros Hne; contradiction | intros x []].
    + destruct (getBoundingBoxAt b h) as [b1 obox | e s] eqn:Hbox; cbn [bind];
        [| discriminate].
      destruct (getBoundingSphereAt b1 h) as [b2 osp | e s] eqn:Hsp; cbn [bind];
        [| discriminate].
      intros H. injection H as <- <- _.
      split.
      { eapply cachesOnly_trans;
          [eapply getBoundingBoxAt_caches | eapply getBoundingSphereAt_caches]; eassumption. }
      exists info. eexists. split; [reflexivity |]. split; [reflexivity |].
      split; [auto |]. intros x Hx. apply in_map_iff in Hx.
      destruct Hx as [hh [<- _]]. split; reflexivity.
  - intros H. injection H as <- <- _. split; [apply cachesOnly_refl |].
    exists info, []. split; [reflexivity |]. split; [symmetry; apply app_nil_r |].
    split; [intros Hne; contradiction | intros x []].
  - intros H. injection H as <- <- _. split; [apply cachesOnly_refl |].
    exists info, []. split; [reflexivity |]. split; [symmetry; apply app_nil_r |].
    split; [intros Hne; contradiction | intros x []].
Qed.

Lemma raycastLoop_Ok (ids : list Z) (b : Batch) (scratch : Sphere) (rc : Raycaster)
      (ints : list Intersection) (b' : Batch) (out : list Intersection) :
  raycastLoop' b scratch ids rc ints = Ok b' out ->
  cachesOnly b b'
  /\ exists hits,
       out = ints ++ hits
       /\ forall x, In x hits ->
            In (batchId x) ids
            /\ exists r, tlookup (geometryInfo b) (batchId x) = Some r
                         /\ active r = true /\ visible r = true
                         /\ hitObjectId x = objectId r.
Proof.
  revert b scratch ints. induction ids as [| i rest IH]; intros b scratch ints; cbn [raycastLoop].
  - intros H. injection H as <- <-. split; [apply cachesOnly_refl |].
    exists []. split; [symmetry; apply app_nil_r | intros x []].
  - destruct (intersectWith_' b scratch i rc ints) as [b1 [out1 scratch1] | e s] eqn:Hone;
      cbn [bind fst snd]; [| discriminate].
    intros Hrest. destruct (intersectWith_Ok _ _ _ _ _ _ _ _ Hone)
      as (Hc1 & r & hits1 & Hr & -> & Hlive & Htag).
    destruct (IH _ _ _ Hrest) as (Hc2 & hits2 & -> & Hall).
    split; [eapply cachesOnly_trans; eassumption |].
    exists (hits1 ++ hits2). split; [symmetry; apply app_assoc |].
    intros x Hx. apply in_app_or in Hx. destruct Hx as [Hx | Hx].
    + destruct (Htag x Hx) as [Hid Hoid]. split; [left; congruence |].
      exists r. rewrite Hid.
      assert (Hne : hits1 <> []) by (intros E; rewrite E in Hx; destruct Hx).
      destruct (Hlive Hne). auto.
    + destruct (Hall x Hx) as (Hin & r1 & Hr1 & Ha1 & Hv1 & Ho1).
      split; [right; exact Hin |].
      destruct Hc1 as (_ & _ & _ & _ & _ & _ & _ & _ & _ & Hslots).
      specialize (Hslots (batchId x)). rewrite Hr1 in Hslots.
      destruct (tlookup (geometryInfo b) (batchId x)) as [r0 |]; [| contradiction].
      destruct Hslots as (Hsame & _ & _).
      destruct (sameButBounds_fields _ _ Hsame) as (Ha & Hv & Ho & _).
      exists r0. repeat split; congruence.
Qed.

(** X7: [raycast] reports only what can be seen: every hit it appends
    carries the handle of a region that is active and visible, and that
    region's entity id; the hits already in the list stay in front; and
    the batch comes out the same but for bounds filled in where a region
    had none. *)
Theorem raycast_reports_visible_regions (b : Batch) (rc : Raycaster)
        (ints : list Intersection) (b' : Batch) (out : list Intersection) :
  raycast' b rc ints = Ok b' out ->
  cachesOnly b b'
  /\ exists hits,
       out = ints ++ hits
       /\ forall x, In x hits ->
            exists r, tlookup (geometryInfo b) (batchId x) = Some r
                      /\ active r = true /\ visible r = true
                      /\ hitObjectId x = objectId r.
Proof.
  unfold raycast. intros H. destruct (raycastLoop_Ok _ _ _ _ _ _ _ H) as (Hc & hits & -> & Hall).
  split; [exact Hc |]. exists hits. split; [reflexivity |].
  intros x Hx. destruct (Hall x Hx) as [_ Hr]. exact Hr.
Qed.

Lemma getBoundingBoxAt_returns (b : Batch) (h : Z) (info : GeometryInfo)
      (p : BufferAttribute) :
  tlookup (geometryInfo b) h = Some info ->
  lookupAttr "position" (attributes (geometry b)) = Some p ->
  exists b' v, getBoundingBoxAt b h = Ok b' v.
Proof.
  intros Hr Hp. unfold getBoundingBoxAt. rewrite Hr, Hp.
  destruct (h >=? geometryCount b); [eauto |].
  destruct (boundingBox info); eauto.
Qed.

Lemma getBoundingSphereAt_returns (b : Batch) (h : Z) (info : GeometryInfo)
      (p : BufferAttribute) :
  tlookup (geometryInfo b) h = Some info ->
  lookupAttr "position" (attributes (geometry b)) = Some p ->
  exists b' v, getBoundingSphereAt b h = Ok b' v.
Proof.
  intros Hr Hp. unfold getBoundingSphereAt. rewrite Hr.
  destruct (h >=? geometryCount b); [eauto |].
  destruct (boundingSphere info); [eauto |].
  destruct (getBoundingBoxAt_returns b h info p Hr Hp) as (b1 & obox & Hbox).
  rewrite Hbox. cbn [bind].
  destruct (getBoundingBoxAt_caches _ _ _ _ Hbox)
    as (HG & _ & _ & _ & _ & _ & _ & _ & _ & Hslots).
  specialize (Hslots h). rewrite Hr in Hslots.
  destruct (tlookup (geometryInfo b1) h) as [info1 |]; [| contradiction].
  rewrite HG, Hp. eauto.
Qed.

(** What the ray test needs to go through: slots for the handles it
    visits, a position attribute, and a stored box wherever the box-only
    test is asked for. *)
Lemma raycastLoop_returns (ids : list Z) (b : Batch) (scratch : Sphere) (rc : Raycaster)
      (ints : list Intersection) (p : BufferAttribute) :
  (forall i, In i ids -> tlookup (geometryInfo b) i <> None) ->
  lookupAttr "position" (attributes (geometry b)) = Some p ->
  (forall i r, tlookup (geometryInfo b) i = Some r ->
               bboxIntersectionCheck r = true -> boundingBox r <> None) ->
  exists b' out, raycastLoop' b scratch ids rc ints = Ok b' out.
Proof.
  revert b scratch ints. induction ids as [| i rest IH];
    intros b scratch ints Hslots Hp Hbox; cbn [raycastLoop]; [eauto |].
  assert (Hone : exists b1 out1 s1, intersectWith_' b scratch i rc ints = Ok b1 (out1, s1)).
  { unfold intersectWith_.
    destruct (tlookup (geometryInfo b) i) as [info |] eqn:Hr;
      [| exfalso; apply (Hslots i); [left; reflexivity | assumption]].
    destruct (negb (visible info) || negb (active info)); [eauto |].
    destruct (bboxIntersectionCheck info) eqn:Hchk.
    - destruct (boundingBox info) as [box |] eqn:Hb;
        [| exfalso; apply (Hbox i info Hr Hchk); assumption].
      destruct (intersectBox rc box); eauto.
    - destruct (getBoundingBoxAt_returns b i info p Hr Hp) as (b1 & obox & H1).
      rewrite H1. cbn [bind].
      destruct (getBoundingBoxAt_caches _ _ _ _ H1)
        as (HG & _ & _ & _ & _ & _ & _ & _ & _ & Hs1).
      specialize (Hs1 i). rewrite Hr in Hs1.
      destruct (tlookup (geometryInfo b1) i) as [info1 |] eqn:Hr1; [| contradiction].
      assert (Hp1 : lookupAttr "position" (attributes (geometry b1)) = Some p)
        by (rewrite HG; exact Hp).
      destruct (getBoundingSphereAt_returns b1 i info1 p Hr1 Hp1) as (b2 & osp & H2).
      rewrite H2. cbn [bind]. eauto. }
  destruct Hone as (b1 & out1 & s1 & Hone). rewrite Hone. cbn [bind fst snd].
  destruct (intersectWith_Ok _ _ _ _ _ _ _ _ Hone)
    as ((HG & _ & _ & _ & _ & _ & _ & _ & _ & Hs1) & _).
  apply IH.
  - intros j Hj Hnone. specialize (Hs1 j). rewrite Hnone in Hs1.
    destruct (tlookup (geometryInfo b) j) eqn:Hrj; [contradiction |].
    apply (Hslots j); [right; assumption | assumption].
  - rewrite HG. exact Hp.
  - intros j r1 Hr1 Hchk Hnone. specialize (Hs1 j). rewrite Hr1 in Hs1.
    destruct (tlookup (geometryInfo b) j) as [r0 |] eqn:Hr0; [| contradiction].
    destruct Hs1 as (Hsame & Hkeep & _).
    destruct (sameButBounds_fields _ _ Hsame) as (_ & _ & _ & Hc & _).
    destruct (boundingBox r0) as [box |] eqn:Hb0.
    + rewrite (Hkeep box eq_refl) in Hnone. discriminate.
    + apply (Hbox j r0 Hr0); [congruence | assumption].
Qed.

(** X8: [raycast] goes through on a table without holes over a batch with a
    position attribute, when every region marked for the box-only test
    holds a box: it does not throw, whatever the ray. *)
Theorem raycast_returns (b : Batch) (rc : Raycaster) (ints : list Intersection)
        (p : BufferAttribute) :
  Dense b ->
  lookupAttr "position" (attributes (geometry b)) = Some p ->
  (forall i r, tlookup (geometryInfo b) i = Some r ->
               bboxIntersectionCheck r = true -> boundingBox r <> None) ->
  exists b' out, raycast' b rc ints = Ok b' out.
Proof.
  intros Hdense Hp Hbox. unfold raycast.
  apply (raycastLoop_returns _ b freshSphere rc ints p); [| assumption | assumption].
  intros i Hi. apply In_loop in Hi. apply Hdense. exact Hi.
Qed.

(** X9: Picking follows the table: a region that was hidden or deleted is
    not hit any more, and a hit of a region carries the entity id last
    stored for it with [setGeometryInfo]. *)
Theorem raycast_after_table_updates (b b1 b2 : Batch) (h : Z) (rc : Raycaster)
        (ints out : list Intersection) :
  raycast' b1 rc ints = Ok b2 out ->
  exists hits,
    out = ints ++ hits
    /\ (setVisibleAt b h false = Ok b1 tt ->
        forall x, In x hits -> batchId x <> h)
    /\ (deleteGeometry b h = Ok b1 tt ->
        forall x, In x hits -> batchId x <> h)
    /\ (forall oid check,
          setGeometryInfo b h oid check = Ok b1 tt ->
          forall x, In x hits -> batchId x = h -> hitObjectId x = oid).
Proof.
  unfold raycast. intros H.
  destruct (raycastLoop_Ok _ _ _ _ _ _ _ H) as (_ & hits & -> & Hall).
  exists hits. split; [reflexivity |]. split; [| split].
  - intros Hset x Hx Hid. destruct (Hall x Hx) as (_ & r & Hr & _ & Hvis & _).
    rewrite Hid in Hr.
    destruct (setVisibleAt_Ok _ _ _ _ _ Hset) as (r0 & Hr0 & _ & Hb1).
    pose proof (tlookup_Some_range _ _ _ Hr0) as Hrange.
    destruct (Bool.eqb (visible r0) false) eqn:E; subst b1.
    + apply Bool.eqb_prop in E. congruence.
    + cbn [with_table geometryInfo] in Hr. rewrite tlookup_tset_same_Z in Hr by lia.
      injection Hr as <-. destruct r0; discriminate.
  - intros Hdel x Hx Hid. destruct (Hall x Hx) as (_ & r & Hr & Hact & _ & _).
    rewrite Hid in Hr. unfold deleteGeometry in Hdel.
    destruct (h >=? tlength (geometryInfo b)) eqn:Hlen.
    + injection Hdel as <-. apply geb_true_inv in Hlen.
      apply tlookup_Some_range in Hr. lia.
    + destruct (tlookup (geometryInfo b) h) as [info |] eqn:Hr0; [| discriminate].
      pose proof (tlookup_Some_range _ _ _ Hr0) as Hrange.
      destruct (active info) eqn:Ha; cbn [negb] in Hdel; injection Hdel as <-.
      * cbn [geometryInfo] in Hr. rewrite tlookup_tset_same_Z in Hr by lia.
        injection Hr as <-. destruct info; discriminate.
      * congruence.
  - intros oid check Hset x Hx Hid. destruct (Hall x Hx) as (_ & r & Hr & _ & _ & Ho).
    rewrite Hid in Hr. unfold setGeometryInfo in Hset.
    destruct (h >=? geometryCount b); [discriminate |].
    destruct (tlookup (geometryInfo b) h) as [info |] eqn:Hr0; [| discriminate].
    pose proof (tlookup_Some_range _ _ _ Hr0) as Hrange.
    injection Hset as <-. cbn [with_table geometryInfo] in Hr.
    rewrite tlookup_tset_same_Z in Hr by lia. injection Hr as <-.
    rewrite Ho. destruct info; reflexivity.
Qed.

End RaycastFacts.

(** ** What compaction keeps *)

Lemma packedRecord_sameRegion (h : bool) (V I : Z) (r : GeometryInfo) :
  sameRegion r (packedRecord h V I r).
Proof. destruct r, h; repeat split; reflexivity. Qed.

Lemma sameRegion_refl (r : GeometryInfo) : sameRegion r r.
Proof. repeat split; reflexivity. Qed.

Lemma fold_pack_tlength (h : bool) (l : list (nat * GeometryInfo)) (st : Packing) :
  isSome (pIndex st) = h ->
  (forall e, In e l -> (fst e < List.length (pTable st))%nat) ->
  tlength (pTable (fold_left (packRegion h) l st)) = tlength (pTable st).
Proof.
  revert st. induction l as [| [i r] rest IH]; intros st Hh Hin; cbn [fold_left];
    [reflexivity |].
  assert (Hlen : List.length (pTable (packRegion h st (i, r))) = List.length (pTable st)).
  { rewrite packRegion_table by assumption. apply tset_length_in.
    apply (Hin (i, r)). left. reflexivity. }
  rewrite IH.
  - unfold tlength. rewrite Hlen. reflexivity.
  - rewrite packRegion_index_presence. assumption.
  - intros e He. rewrite Hlen. apply Hin. right. assumption.
Qed.

Lemma packingOrder_in_range (b : Batch) (e : nat * GeometryInfo) :
  In e (packingOrder b) -> (fst e < List.length (geometryInfo b))%nat.
Proof.
  destruct e as [i r]. intros H. apply packingOrder_live in H. destruct H as [Hr _].
  apply tlookup_Some_range in Hr. unfold tlength in Hr. cbn [fst]. lia.
Qed.

Lemma optimize_table (b : Batch) :
  tlength (geometryInfo (optimize b)) = tlength (geometryInfo b)
  /\ forall h,
       match tlookup (geometryInfo b) h, tlookup (geometryInfo (optimize b)) h with
       | Some r, Some r' => sameRegion r r' /\ (active r = false -> r' = r)
       | None, None => True
       | _, _ => False
       end.
Proof.
  set (hi := isSome (index (geometry b))).
  set (st0 := mkPacking (attributes (geometry b)) (index (geometry b)) (geometryInfo b) 0 0).
  assert (Hall : geometryInfo (optimize b)
                 = pTable (fold_left (packRegion hi) (packingOrder b) st0)) by reflexivity.
  assert (Hh0 : isSome (pIndex st0) = hi) by reflexivity.
  split.
  { rewrite Hall. apply (fold_pack_tlength hi (packingOrder b) st0 Hh0).
    intros e He. apply packingOrder_in_range. assumption. }
  intros h. rewrite Hall.
  destruct (tlookup (geometryInfo b) h) as [r |] eqn:Hr.
  - destruct (active r) eqn:Hact.
    + pose proof (tlookup_Some_range _ _ _ Hr) as Hrange.
      assert (Hin : In (Z.to_nat h, r) (packingOrder b)).
      { apply packingOrder_live. rewrite Z2Nat.id by lia. auto. }
      apply in_split in Hin. destruct Hin as (pre & post & Horder).
      assert (Hnot : ~ In (Z.to_nat h) (map fst post)).
      { pose proof (packingOrder_NoDup b) as Hnd.
        rewrite Horder, map_app in Hnd. cbn [map fst] in Hnd.
        apply NoDup_remove_2 in Hnd. intros Hin. apply Hnd.
        apply in_or_app. right. assumption. }
      pose proof (fold_pack_table_at hi pre post (Z.to_nat h) r st0 Hh0 Hnot) as Hat.
      rewrite Z2Nat.id in Hat by lia. rewrite Horder, Hat.
      split; [apply packedRecord_sameRegion | discriminate].
    + rewrite (fold_pack_table_other hi (packingOrder b) st0 h Hh0).
      * cbn [st0 pTable]. rewrite Hr. split; [apply sameRegion_refl | reflexivity].
      * intros [j rj] Hin Heq. cbn [fst] in Heq. subst h.
        apply packingOrder_live in Hin. destruct Hin as [Hr' Hact']. congruence.
  - rewrite (fold_pack_table_other hi (packingOrder b) st0 h Hh0).
    + cbn [st0 pTable]. rewrite Hr. exact I.
    + intros [j rj] Hin Heq. cbn [fst] in Heq. subst h.
      apply packingOrder_live in Hin. destruct Hin as [Hr' _]. congruence.
Qed.

(** X10: Compaction renumbers nothing and changes no region but for its
    offsets and draw range: every handle is valid after [optimize]
    exactly when it was before, and its region has the same visibility,
    stored bounds, user data, used counts and reservations; records of
    deleted regions are left as they are, and so are the free list, the
    geometry count and the capacities.  So [getVisibleAt] answers as
    before for every handle, and [getBoundingBoxAt] for every region
    that holds a box. *)
Theorem optimize_keeps_regions (b : Batch) :
  (forall h,
     match tlookup (geometryInfo b) h, tlookup (geometryInfo (optimize b)) h with
     | Some r, Some r' => sameRegion r r' /\ (active r = false -> r' = r)
     | None, None => True
     | _, _ => False
     end)
  /\ (forall h, valueOf (getVisibleAt (optimize b) h) = valueOf (getVisibleAt b h))
  /\ (forall h, valueOf (validateGeometryId (optimize b) h)
                = valueOf (validateGeometryId b h))
  /\ (forall h r box,
        tlookup (geometryInfo b) h = Some r -> boundingBox r = Some box ->
        valueOf (getBoundingBoxAt (optimize b) h) = valueOf (getBoundingBoxAt b h))
  /\ availableGeometryIds (optimize b) = availableGeometryIds b
  /\ geometryCount (optimize b) = geometryCount b
  /\ maxVertexCount (optimize b) = maxVertexCount b
  /\ maxIndexCount (optimize b) = maxIndexCount b.
Proof.
  destruct (optimize_table b) as [Hlen Hslots].
  assert (Hact : forall h, option_map active (tlookup (geometryInfo (optimize b)) h)
                           = option_map active (tlookup (geometryInfo b) h)).
  { intros h. specialize (Hslots h).
    destruct (tlookup (geometryInfo b) h), (tlookup (geometryInfo (optimize b)) h);
      try tauto. destruct Hslots as [(Ha & _) _]. cbn. congruence. }
  assert (Hvalid : forall h, valueOf (validateGeometryId (optimize b) h)
                             = valueOf (validateGeometryId b h)).
  { intros h. pose proof (validateGeometryId_same b (optimize b) h Hlen (Hact h)) as Hs.
    destruct (validateGeometryId b h) as [s [] | e s]; rewrite Hs; reflexivity. }
  split; [exact Hslots |].
  split.
  { intros h. unfold getVisibleAt.
    pose proof (validateGeometryId_same b (optimize b) h Hlen (Hact h)) as Hs.
    destruct (validateGeometryId b h) as [s u | e s] eqn:Hv; rewrite Hs; cbn [bind valueOf];
      [| reflexivity].
    apply validateGeometryId_Ok in Hv. destruct Hv as [-> _].
    specialize (Hslots h).
    destruct (tlookup (geometryInfo b) h), (tlookup (geometryInfo (optimize b)) h);
      try tauto. destruct Hslots as [(_ & Hv & _) _]. cbn. congruence. }
  split; [exact Hvalid |].
  split.
  { intros h r box Hr Hbox. unfold getBoundingBoxAt.
    replace (geometryCount (optimize b)) with (geometryCount b) by reflexivity.
    destruct (h >=? geometryCount b); [reflexivity |].
    specialize (Hslots h). rewrite Hr in *.
    destruct (tlookup (geometryInfo (optimize b)) h) as [r' |]; [| contradiction].
    destruct Hslots as [(_ & _ & Hb & _) _]. rewrite Hb, Hbox. reflexivity. }
  repeat split; reflexivity.
Qed.

(** ** Spans that do not overlap *)

Lemma spanSum_holdsPosition (t : Z) (spans : list (Z * Z)) :
  ForallOrdPairs apart spans ->
  0 <= spanSum (holdsPosition t) spans <= 1.
Proof.
  induction 1 as [| x rest Hx Hrest IH]; cbn [spanSum fold_right]; [lia |].
  fold (spanSum (holdsPosition t) rest).
  remember (holdsPosition t x) as v eqn:Hv. unfold holdsPosition in Hv.
  destruct ((fst x <=? t) && (t <? fst x + snd x)) eqn:E; [| lia].
  apply andb_prop in E. destruct E as [E1 E2].
  apply Z.leb_le in E1. apply Z.ltb_lt in E2.
  assert (Hzero : spanSum (holdsPosition t) rest = 0).
  { clear IH Hrest. induction rest as [| y rest' IH']; [reflexivity |].
    cbn [spanSum fold_right]. fold (spanSum (holdsPosition t) rest').
    inversion Hx as [| y0 l0 Hxy Hxrest]; subst.
    rewrite (IH' Hxrest). remember (holdsPosition t y) as w eqn:Hw.
    unfold holdsPosition in Hw.
    destruct ((fst y <=? t) && (t <? fst y + snd y)) eqn:Ey; [| lia].
    apply andb_prop in Ey. destruct Ey as [Ey1 Ey2].
    apply Z.leb_le in Ey1. apply Z.ltb_lt in Ey2.
    unfold apart in Hxy. lia. }
  lia.
Qed.

Lemma spanSum_below_step (n : Z) (spans : list (Z * Z)) :
  Forall (fun x => 0 <= snd x) spans ->
  spanSum (below (n + 1)) spans
  = spanSum (below n) spans + spanSum (holdsPosition n) spans.
Proof.
  induction 1 as [| x rest Hx Hrest IH]; cbn [spanSum fold_right]; [reflexivity |].
  fold (spanSum (below (n + 1)) rest) (spanSum (below n) rest)
       (spanSum (holdsPosition n) rest).
  rewrite IH. remember (holdsPosition n x) as v eqn:Hv. unfold holdsPosition in Hv.
  unfold below at 1 3.
  destruct ((fst x <=? n) && (n <? fst x + snd x)) eqn:E.
  - apply andb_prop in E. destruct E as [E1 E2].
    apply Z.leb_le in E1. apply Z.ltb_lt in E2. lia.
  - apply andb_false_iff in E. destruct E as [E | E];
      [apply Z.leb_gt in E | apply Z.ltb_ge in E]; lia.
Qed.

(** Spans of a buffer of [C] positions that do not overlap have a total
    length of at most [C]. *)
Lemma spanSum_within (C : Z) (spans : list (Z * Z)) :
  0 <= C ->
  Forall (fun x => 0 <= fst x /\ 0 <= snd x /\ fst x + snd x <= C) spans ->
  ForallOrdPairs apart spans ->
  spanSum snd spans <= C.
Proof.
  intros HC Hall Hapart.
  assert (Hlen : Forall (fun x => 0 <= snd x) spans).
  { eapply Forall_impl; [| exact Hall]. intros x (_ & Hx & _). exact Hx. }
  assert (Hbelow : forall n, 0 <= n -> spanSum (below n) spans <= n).
  { intros n Hn. pattern n. apply natlike_ind; [| | exact Hn].
    - clear -Hall. induction Hall as [| x rest Hx Hrest IH]; cbn [spanSum fold_right]; [lia |].
      fold (spanSum (below 0) rest). unfold below at 1. lia.
    - intros m Hm IH. unfold Z.succ. rewrite spanSum_below_step by assumption.
      pose proof (spanSum_holdsPosition m spans Hapart). lia. }
  assert (Heq : spanSum (below C) spans = spanSum snd spans).
  { clear -Hall. induction Hall as [| x rest Hx Hrest IH]; cbn [spanSum fold_right];
      [reflexivity |].
    fold (spanSum (below C) rest) (spanSum snd rest). rewrite IH. unfold below. lia. }
  rewrite <- Heq. apply Hbelow. exact HC.
Qed.

(** ** The table after compaction *)

Lemma optimize_packed_slot (b : Batch) (pre post : list (nat * GeometryInfo))
      (i : nat) (r : GeometryInfo) :
  packingOrder b = pre ++ (i, r) :: post ->
  tlookup (geometryInfo (optimize b)) (Z.of_nat i)
  = Some (packedRecord (isSome (index (geometry b))) (sumVertexCount pre)
                       (sumIndexCount (isSome (index (geometry b))) pre) r).
Proof.
  intros Horder.
  set (hi := isSome (index (geometry b))).
  set (st0 := mkPacking (attributes (geometry b)) (index (geometry b)) (geometryInfo b) 0 0).
  assert (Hall : geometryInfo (optimize b)
                 = pTable (fold_left (packRegion hi) (packingOrder b) st0)) by reflexivity.
  rewrite Hall, Horder.
  rewrite (fold_pack_table_at hi pre post i r st0 eq_refl); [reflexivity |].
  pose proof (packingOrder_NoDup b) as Hnd.
  rewrite Horder, map_app in Hnd. cbn [map fst] in Hnd.
  apply NoDup_remove_2 in Hnd. intros Hin. apply Hnd.
  apply in_or_app. right. assumption.
Qed.

Lemma In_packedList (h : bool) (order : list (nat * GeometryInfo)) (V I : Z)
      (i : nat) (r' : GeometryInfo) :
  In (i, r') (packedList h V I order) <->
  exists pre r post,
    order = pre ++ (i, r) :: post
    /\ r' = packedRecord h (V + sumVertexCount pre) (I + sumIndexCount h pre) r.
Proof.
  revert V I. induction order as [| [j rj] rest IH]; intros V I; cbn [packedList].
  - split; [intros [] | intros (pre & r & post & H & _); destruct pre; discriminate].
  - split.
    + intros [Heq | Hin].
      * injection Heq as <- <-. exists [], rj, rest. split; [reflexivity |].
        cbn [sumVertexCount sumIndexCount fold_right]. rewrite !Z.add_0_r. reflexivity.
      * apply IH in Hin. destruct Hin as (pre & r & post & -> & ->).
        exists ((j, rj) :: pre), r, post. split; [reflexivity |].
        unfold sumVertexCount, sumIndexCount. cbn [fold_right snd].
        f_equal; lia.
    + intros (pre & r & post & Horder & ->). destruct pre as [| [j0 rj0] pre'].
      * injection Horder as -> -> ->. left.
        cbn [sumVertexCount sumIndexCount fold_right]. rewrite !Z.add_0_r. reflexivity.
      * injection Horder as -> -> ->. right. apply IH.
        exists pre', r, post. split; [reflexivity |].
        unfold sumVertexCount, sumIndexCount. cbn [fold_right snd].
        f_equal; lia.
Qed.

(** The live slots of the table after [optimize] are the packed records
    of the packing order. *)
Lemma optimize_live (b : Batch) (i : nat) (r' : GeometryInfo) :
  (tlookup (geometryInfo (optimize b)) (Z.of_nat i) = Some r' /\ active r' = true)
  <-> In (i, r') (packedList (isSome (index (geometry b))) 0 0 (packingOrder b)).
Proof.
  split.
  - intros [Hr' Hact'].
    destruct (optimize_table b) as [_ Hslots]. specialize (Hslots (Z.of_nat i)).
    rewrite Hr' in Hslots.
    destruct (tlookup (geometryInfo b) (Z.of_nat i)) as [r |] eqn:Hr; [| contradiction].
    destruct Hslots as [(Ha & _) _].
    assert (Hin : In (i, r) (packingOrder b)).
    { apply packingOrder_live. split; [assumption | congruence]. }
    apply in_split in Hin. destruct Hin as (pre & post & Horder).
    pose proof (optimize_packed_slot b pre post i r Horder) as Hslot.
    rewrite Hr' in Hslot. injection Hslot as ->.
    apply In_packedList. exists pre, r, post. split; [assumption |].
    rewrite !Z.add_0_l. reflexivity.
  - intros Hin. apply In_packedList in Hin. destruct Hin as (pre & r & post & Horder & ->).
    rewrite !Z.add_0_l. split; [apply optimize_packed_slot with (post := post); assumption |].
    assert (Hlive : In (i, r) (packingOrder b)).
    { rewrite Horder. apply in_or_app. right. left. reflexivity. }
    apply packingOrder_live in Hlive. destruct Hlive as [_ Ha].
    destruct r, (isSome (index (geometry b))); exact Ha.
Qed.

(** Packed records follow one another. *)
Lemma packedList_vertex_spans (h : bool) (order : list (nat * GeometryInfo)) (V I : Z) :
  Forall (fun e => 0 <= vertexCount (snd e)) order ->
  Forall (fun e => V <= vertexStart (snd e)
                   /\ vertexStart (snd e) + vertexCount (snd e) <= V + sumVertexCount order)
         (packedList h V I order)
  /\ ForallOrdPairs (fun x y => vertexStart (snd x) + vertexCount (snd x)
                                <= vertexStart (snd y))
                    (packedList h V I order).
Proof.
  revert V I. induction order as [| [j rj] rest IH]; intros V I Hpos; cbn [packedList].
  - split; constructor.
  - inversion Hpos as [| e l Hj Hrest]; subst. cbn [snd] in Hj.
    destruct (IH (V + vertexCount rj) (I + (if h then indexCount rj else 0)) Hrest)
      as [Hall Hord].
    assert (Hsum : 0 <= sumVertexCount rest).
    { clear -Hrest. induction Hrest as [| e l He Hl IHl]; cbn; [lia |].
      unfold sumVertexCount in IHl. lia. }
    assert (Hrec : vertexStart (packedRecord h V I rj) = V
                   /\ vertexCount (packedRecord h V I rj) = vertexCount rj)
      by (destruct rj, h; split; reflexivity).
    destruct Hrec as [Hvs Hvc].
    unfold sumVertexCount in *. cbn [fold_right snd].
    split.
    + constructor; [cbn [snd]; rewrite Hvs, Hvc; lia |].
      eapply Forall_impl; [| exact Hall]. intros e [H1 H2]. split; lia.
    + constructor; [| exact Hord].
      eapply Forall_impl; [| exact Hall]. intros e [H1 H2]. cbn [snd].
      rewrite Hvs, Hvc. lia.
Qed.

Lemma packedList_index_spans (order : list (nat * GeometryInfo)) (V I : Z) :
  Forall (fun e => 0 <= indexCount (snd e)) order ->
  Forall (fun e => I <= indexStart (snd e)
                   /\ indexStart (snd e) + indexCount (snd e)
                      <= I + sumIndexCount true order)
         (packedList true V I order)
  /\ ForallOrdPairs (fun x y => indexStart (snd x) + indexCount (snd x)
                                <= indexStart (snd y))
                    (packedList true V I order).
Proof.
  revert V I. induction order as [| [j rj] rest IH]; intros V I Hpos; cbn [packedList].
  - split; constructor.
  - inversion Hpos as [| e l Hj Hrest]; subst. cbn [snd] in Hj.
    destruct (IH (V + vertexCount rj) (I + indexCount rj) Hrest) as [Hall Hord].
    assert (Hsum : 0 <= sumIndexCount true rest).
    { clear -Hrest. induction Hrest as [| e l He Hl IHl]; cbn; [lia |].
      unfold sumIndexCount in IHl. lia. }
    assert (Hrec : indexStart (packedRecord true V I rj) = I
                   /\ indexCount (packedRecord true V I rj) = indexCount rj)
      by (destruct rj; split; reflexivity).
    destruct Hrec as [His Hic].
    unfold sumIndexCount in *. cbn [fold_right snd].
    split.
    + constructor; [cbn [snd]; rewrite His, Hic; lia |].
      eapply Forall_impl; [| exact Hall]. intros e [H1 H2]. split; lia.
    + constructor; [| exact Hord].
      eapply Forall_impl; [| exact Hall]. intros e [H1 H2]. cbn [snd].
      rewrite His, Hic. lia.
Qed.

Lemma map_fst_packedList (h : bool) (order : list (nat * GeometryInfo)) (V I : Z) :
  map fst (packedList h V I order) = map fst order.
Proof.
  revert V I. induction order as [| [j rj] rest IH]; intros V I; cbn [packedList map fst];
    [reflexivity |].
  rewrite IH. reflexivity.
Qed.

Section Spans.

Variables startOf lenOf : GeometryInfo -> Z.

(** Records that follow one another in a list have ranges that do not
    overlap. *)
Lemma rangesOk_of_spans (cursor : Z) (t : Table) (L : list (nat * GeometryInfo)) :
  (forall i r, tlookup t i = Some r -> active r = true -> In (Z.to_nat i, r) L) ->
  Forall (fun e => 0 <= startOf (snd e) /\ 0 <= lenOf (snd e)
                   /\ startOf (snd e) + lenOf (snd e) <= cursor) L ->
  ForallOrdPairs (fun x y => startOf (snd x) + lenOf (snd x) <= startOf (snd y)) L ->
  rangesOk startOf lenOf cursor t.
Proof.
  intros Hin Hall Hord. split.
  - intros i r Hr Ha. rewrite Forall_forall in Hall.
    apply (Hall (Z.to_nat i, r)). apply Hin; assumption.
  - intros i j ri rj Hne Hri Hrj Hai Haj.
    pose proof (tlookup_Some_range _ _ _ Hri). pose proof (tlookup_Some_range _ _ _ Hrj).
    destruct (ForallOrdPairs_In Hord (Z.to_nat i, ri) (Z.to_nat j, rj)
                (Hin i ri Hri Hai) (Hin j rj Hrj Haj)) as [Heq | [H1 | H1]].
    + injection Heq as Heq _. lia.
    + left. exact H1.
    + right. exact H1.
Qed.

(** The live regions of a table with disjoint ranges, as spans. *)
Lemma live_spans (cursor : Z) (t : Table) (L : list (nat * GeometryInfo)) :
  rangesOk startOf lenOf cursor t ->
  NoDup (map fst L) ->
  (forall i r, In (i, r) L -> tlookup t (Z.of_nat i) = Some r /\ active r = true) ->
  Forall (fun x => 0 <= fst x /\ 0 <= snd x /\ fst x + snd x <= cursor)
         (map (fun e => (startOf (snd e), lenOf (snd e))) L)
  /\ ForallOrdPairs apart (map (fun e => (startOf (snd e), lenOf (snd e))) L).
Proof.
  intros [Hin Hdis] Hnd Hlive.
  induction L as [| [i r] rest IH]; cbn [map]; [split; constructor |].
  inversion Hnd as [| x l Hnot Hnd']; subst.
  destruct IH as [IH1 IH2]; [assumption | intros j rj Hj; apply Hlive; right; assumption |].
  destruct (Hlive i r (or_introl eq_refl)) as [Hr Ha].
  split.
  - constructor; [cbn [fst snd]; apply (Hin _ _ Hr Ha) | exact IH1].
  - constructor; [| exact IH2].
    apply Forall_forall. intros y Hy. apply in_map_iff in Hy.
    destruct Hy as ([j rj] & <- & Hj). cbn [snd].
    destruct (Hlive j rj (or_intror Hj)) as [Hrj Haj].
    unfold apart. cbn [fst snd].
    apply (Hdis (Z.of_nat i) (Z.of_nat j) r rj); try assumption.
    intros Heq. apply Hnot. apply in_map_iff. exists (j, rj).
    split; [cbn [fst]; lia | assumption].
Qed.

Lemma spanSum_map (L : list (nat * GeometryInfo)) :
  spanSum snd (map (fun e => (startOf (snd e), lenOf (snd e))) L)
  = fold_right (fun e acc => lenOf (snd e) + acc) 0 L.
Proof.
  induction L as [| e rest IH]; cbn [map spanSum fold_right snd]; [reflexivity |].
  unfold spanSum in IH. rewrite IH. reflexivity.
Qed.

(** The reserved lengths of the live regions add up to no more than the
    cursor. *)
Lemma live_lengths_within (cursor : Z) (t : Table) (L : list (nat * GeometryInfo)) :
  0 <= cursor ->
  rangesOk startOf lenOf cursor t ->
  NoDup (map fst L) ->
  (forall i r, In (i, r) L -> tlookup t (Z.of_nat i) = Some r /\ active r = true) ->
  fold_right (fun e acc => lenOf (snd e) + acc) 0 L <= cursor.
Proof.
  intros Hc Hok Hnd Hlive. rewrite <- spanSum_map.
  destruct (live_spans cursor t L Hok Hnd Hlive) as [H1 H2].
  apply spanSum_within; assumption.
Qed.

Lemma rangesOk_ext (lenOf' : GeometryInfo -> Z) (cursor : Z) (t : Table) :
  (forall i r, tlookup t i = Some r -> active r = true -> lenOf' r = lenOf r) ->
  rangesOk startOf lenOf cursor t -> rangesOk startOf lenOf' cursor t.
Proof.
  intros Hext [Hin Hdis]. split.
  - intros i r Hr Ha. rewrite (Hext i r Hr Ha). apply (Hin i r); assumption.
  - intros i j ri rj Hne Hri Hrj Hai Haj.
    rewrite (Hext i ri Hri Hai), (Hext j rj Hrj Haj).
    apply (Hdis i j); assumption.
Qed.

End Spans.

Lemma fold_right_ext_in {A} (f g : A -> Z) (l : list A) :
  (forall x, In x l -> f x = g x) ->
  fold_right (fun e acc => f e + acc) 0 l = fold_right (fun e acc => g e + acc) 0 l.
Proof.
  induction l as [| x rest IH]; intros H; cbn [fold_right]; [reflexivity |].
  rewrite IH by (intros y Hy; apply H; right; assumption).
  rewrite (H x (or_introl eq_refl)). reflexivity.
Qed.

(** ** The index array through compaction *)

Lemma Forall_get (P : Z -> Prop) (a : list Z) (i : Z) :
  Forall P a -> P 0 -> P (get a i).
Proof.
  intros Ha H0. unfold get. destruct (i <? 0); [assumption |].
  destruct (nth_in_or_default (Z.to_nat i) a 0) as [Hin | ->]; [| assumption].
  rewrite Forall_forall in Ha. apply Ha. assumption.
Qed.

Lemma Forall_fold_set {K} (P : Z -> Prop) (ks : list K) (pos : K -> Z)
      (val : list Z -> K -> Z) (a : list Z) :
  Forall P a -> (forall acc k, Forall P acc -> P (val acc k)) ->
  Forall P (fold_left (fun acc k => set acc (pos k) (val acc k)) ks a).
Proof.
  intros Ha Hval. apply (fold_left_preserves (Forall P)); [assumption |].
  intros acc k _ Hacc. apply Forall_set; [assumption | apply Hval; assumption].
Qed.

Lemma remapIndices_indexOk (maxV : Q) (ix : IndexAttribute) (from n delta : Z) :
  indexOk maxV ix -> indexOk maxV (remapIndices ix from n delta).
Proof.
  intros H. unfold remapIndices.
  apply (fold_left_preserves (indexOk maxV)); [assumption |].
  intros d i _ Hd. apply setX_indexOk. assumption.
Qed.

Lemma Forall_copyWithin (P : Z -> Prop) (a : list Z) (target from to : Z) :
  Forall P a -> P 0 -> Forall P (copyWithin a target from to).
Proof.
  intros Ha H0. unfold copyWithin.
  apply (Forall_fold_set P _ (fun k => rel (len a) target + k)
                         (fun _ k => get a (rel (len a) from + k))); [assumption |].
  intros acc k _. apply Forall_get; assumption.
Qed.

Lemma moved_indexOk (maxV : Q) (ix : IndexAttribute) (target from to : Z) :
  indexOk maxV ix ->
  indexOk maxV (mkIndex (ikind ix) (copyWithin (idata ix) target from to)).
Proof.
  intros [Hk Hall]. split; [exact Hk |]. cbn [ikind idata].
  apply Forall_copyWithin; [assumption |]. split; [lia | apply index_modulus_pos].
Qed.

Lemma packRegion_indexOk (maxV : Q) (h : bool) (st : Packing) (e : nat * GeometryInfo) :
  (forall ix, pIndex st = Some ix -> indexOk maxV ix) ->
  forall ix, pIndex (packRegion h st e) = Some ix -> indexOk maxV ix.
Proof.
  intros Hst ix. destruct e as [i r]. unfold packRegion.
  set (info1 := if negb (vertexStart r =? pNextVertexStart st)
                then with_vertexStart r (pNextVertexStart st) else r).
  assert (Hshape : forall attrs,
            pIndex (let '(ix1, info2) :=
                      match h, pIndex st with
                      | true, Some indexAttr =>
                          if negb (indexStart info1 =? pNextIndexStart st)
                          then
                            let delta := pNextVertexStart st - vertexStart info1 in
                            let remapped := remapIndices indexAttr (indexStart info1)
                                              (if h then indexCount r else 0) delta in
                            (Some (mkIndex (ikind remapped)
                                     (copyWithin (idata remapped) (pNextIndexStart st)
                                        (indexStart info1)
                                        (indexStart info1 + (if h then indexCount r else 0)))),
                             with_indexStart info1 (pNextIndexStart st))
                          else (Some indexAttr, info1)
                      | _, other => (other, info1)
                      end in
                    mkPacking attrs ix1
                      (tset (pTable st) i
                         (with_draw info2
                            (if h then indexStart info2 else vertexStart info2)
                            (if h then (if h then indexCount r else 0) else vertexCount r)))
                      (pNextVertexStart st + vertexCount r)
                      (pNextIndexStart st + (if h then indexCount r else 0)))
            = Some ix -> indexOk maxV ix).
  { intros attrs. destruct h; [destruct (pIndex st) as [ix0 |] eqn:Hix0 |].
    - destruct (negb (indexStart info1 =? pNextIndexStart st)); cbn [pIndex].
      + intros H. injection H as <-. apply moved_indexOk.
        apply remapIndices_indexOk. apply Hst. reflexivity.
      + intros H. injection H as <-. apply Hst. reflexivity.
    - cbn [pIndex]. discriminate.
    - cbn [pIndex]. apply Hst. }
  unfold info1 in *. clear info1.
  destruct (negb (vertexStart r =? pNextVertexStart st)); apply Hshape.
Qed.

Lemma fold_pack_indexOk (maxV : Q) (h : bool) (l : list (nat * GeometryInfo))
      (st : Packing) :
  (forall ix, pIndex st = Some ix -> indexOk maxV ix) ->
  forall ix, pIndex (fold_left (packRegion h) l st) = Some ix -> indexOk maxV ix.
Proof.
  revert st. induction l as [| e rest IH]; intros st Hst; cbn [fold_left]; [exact Hst |].
  apply IH. apply packRegion_indexOk. exact Hst.
Qed.

Lemma clearTrailingIndices_indexOk (maxV : Q) (ix : IndexAttribute) (from : Z) :
  indexOk maxV ix -> indexOk maxV (clearTrailingIndices ix from).
Proof.
  intros [Hk Hall]. unfold clearTrailingIndices. split; [exact Hk |]. cbn [ikind idata].
  apply (Forall_fold_set _ _ (fun i => i) (fun _ _ => 0)); [assumption |].
  intros acc k _. split; [lia | apply index_modulus_pos].
Qed.

Lemma optimize_schema (b : Batch) :
  schemaOf (geometry (optimize b)) = schemaOf (geometry b).
Proof.
  set (h := isSome (index (geometry b))).
  set (st0 := mkPacking (attributes (geometry b)) (index (geometry b)) (geometryInfo b) 0 0).
  assert (Hall : packAll b = fold_left (packRegion h) (packingOrder b) st0) by reflexivity.
  pose proof (fold_pack_attributes h (packingOrder b) st0) as HA.
  cbn [st0 pAttributes pNextVertexStart] in HA.
  pose proof (fold_pack_index_shape h (packingOrder b) st0) as HX.
  cbn [st0 pIndex] in HX. rewrite <- Hall in HA, HX.
  unfold schemaOf, optimize. cbn [geometry attributes index]. rewrite HA, map_map. f_equal.
  - destruct (index (geometry b)), (pIndex (packAll b)); cbn; tauto.
  - apply map_ext. intros [k a]. cbn [fst snd].
    destruct (packArray_layout (packingOrder b) 0 a) as [-> _].
    rewrite packArray_normalized. reflexivity.
Qed.

Lemma optimize_cursors (b : Batch) :
  nextVertexStart (optimize b) = sumVertexCount (packingOrder b)
  /\ nextIndexStart (optimize b)
     = sumIndexCount (isSome (index (geometry b))) (packingOrder b).
Proof.
  set (st0 := mkPacking (attributes (geometry b)) (index (geometry b)) (geometryInfo b) 0 0).
  destruct (fold_pack_cursors (isSome (index (geometry b))) (packingOrder b) st0) as [HV HI].
  cbn [st0 pNextVertexStart pNextIndexStart] in HV, HI. rewrite Z.add_0_l in HV, HI.
  split; [exact HV | exact HI].
Qed.

Lemma packedList_origin (h : bool) (order : list (nat * GeometryInfo)) (V I : Z)
      (i : nat) (r' : GeometryInfo) :
  In (i, r') (packedList h V I order) ->
  exists r, In (i, r) order /\ sameRegion r r'.
Proof.
  intros Hin. apply In_packedList in Hin. destruct Hin as (pre & r & post & -> & ->).
  exists r. split; [apply in_or_app; right; left; reflexivity |].
  apply packedRecord_sameRegion.
Qed.

Lemma sum_nonneg {A} (f : A -> Z) (l : list A) :
  Forall (fun e => 0 <= f e) l -> 0 <= fold_right (fun e acc => f e + acc) 0 l.
Proof.
  induction 1 as [| e rest He Hrest IH]; cbn [fold_right]; lia.
Qed.

Lemma optimize_sound_tight (b : Batch) :
  Sound b -> Tight b ->
  Sound (optimize b) /\ Tight (optimize b)
  /\ nextVertexStart (optimize b) <= nextVertexStart b
  /\ (isSome (index (geometry b)) = true ->
      nextIndexStart (optimize b) <= nextIndexStart b).
Proof.
  intros HS HT.
  set (hi := isSome (index (geometry b))).
  set (order := packingOrder b).
  assert (Hlive : forall i r, In (i, r) order ->
                    tlookup (geometryInfo b) (Z.of_nat i) = Some r /\ active r = true).
  { intros i r. apply packingOrder_live. }
  pose proof (packingOrder_NoDup b) as Hnd. fold order in Hnd.
  destruct (optimize_table b) as [Hlen Hslots].
  destruct (optimize_cursors b) as [HcurV HcurI]. fold hi order in HcurV, HcurI.
  pose proof (optimize_schema b) as Hsch.
  assert (Hhi : isSome (index (geometry (optimize b))) = hi).
  { unfold schemaOf in Hsch. injection Hsch as Hix _. exact Hix. }
  pose proof (sound_vertex b HS) as HokV.
  pose proof (sound_vcap b HS) as [HnV0 HnVmax].
  (* the used counts *)
  assert (HposV : Forall (fun e => 0 <= vertexCount (snd e)) order).
  { apply Forall_forall. intros [i r] Hin. destruct (Hlive i r Hin) as [Hr Ha].
    destruct (HT _ _ Hr Ha) as [Hvc _]. cbv beta. cbn [snd]. rewrite Hvc.
    destruct HokV as [Hin' _]. apply (Hin' _ _ Hr Ha). }
  assert (HsumV : sumVertexCount order <= nextVertexStart b).
  { unfold sumVertexCount.
    rewrite (fold_right_ext_in (fun e => vertexCount (snd e))
                               (fun e => reservedVertexCount (snd e))).
    - apply (live_lengths_within vertexStart reservedVertexCount _ (geometryInfo b));
        assumption.
    - intros [i r] Hin. destruct (Hlive i r Hin) as [Hr Ha]. cbn [snd].
      apply (HT _ _ Hr Ha). }
  assert (HsumV0 : 0 <= sumVertexCount order) by (apply sum_nonneg; exact HposV).
  (* the table after compaction *)
  assert (Hpacked : forall i r', tlookup (geometryInfo (optimize b)) i = Some r' ->
                      active r' = true ->
                      In (Z.to_nat i, r') (packedList hi 0 0 order)).
  { intros i r' Hr' Ha'. pose proof (tlookup_Some_range _ _ _ Hr') as Hrange.
    apply optimize_live. rewrite Z2Nat.id by lia. auto. }
  assert (HT' : Tight (optimize b)).
  { intros i r' Hr' Ha'. specialize (Hslots i). rewrite Hr' in Hslots.
    destruct (tlookup (geometryInfo b) i) as [r |] eqn:Hr; [| contradiction].
    destruct Hslots as [(Hact & _ & _ & _ & _ & _ & Hvc & Hic & Hrv & Hri) _].
    destruct (HT i r Hr) as [H1 H2]; [congruence |].
    split; [congruence |]. rewrite Hhi. intros Hidx. specialize (H2 Hidx). congruence. }
  assert (HokV' : rangesOk vertexStart reservedVertexCount (nextVertexStart (optimize b))
                           (geometryInfo (optimize b))).
  { apply (rangesOk_ext vertexStart vertexCount).
    { intros i r' Hr' Ha'. symmetry. apply (HT' i r' Hr' Ha'). }
    rewrite HcurV.
    destruct (packedList_vertex_spans hi order 0 0 HposV) as [Hall Hord].
    apply (rangesOk_of_spans vertexStart vertexCount _ _ (packedList hi 0 0 order));
      [exact Hpacked | | exact Hord].
    apply Forall_forall. intros [i r'] Hin.
    rewrite Forall_forall in Hall. destruct (Hall _ Hin) as [H1 H2]. cbn [snd] in *.
    destruct (packedList_origin _ _ _ _ _ _ Hin) as (r & Hr & Hsame).
    destruct Hsame as (_ & _ & _ & _ & _ & _ & Hvc & _).
    rewrite Forall_forall in HposV. specialize (HposV _ Hr). cbn [snd] in HposV.
    lia. }
  assert (Hindexed : hi = true ->
            Forall (fun e => 0 <= indexCount (snd e)) order
            /\ sumIndexCount true order <= nextIndexStart b
            /\ 0 <= nextIndexStart b
            /\ (inject_Z (nextIndexStart b) <= maxIndexCount b)%Q).
  { intros Hidx. pose proof (sound_index b HS Hidx) as HokI.
    pose proof (sound_icap b HS Hidx) as [HnI0 HnImax].
    assert (HposI : Forall (fun e => 0 <= indexCount (snd e)) order).
    { apply Forall_forall. intros [i r] Hin. destruct (Hlive i r Hin) as [Hr Ha].
      destruct (HT _ _ Hr Ha) as [_ H2]. cbv beta. cbn [snd]. rewrite (H2 Hidx).
      destruct HokI as [Hin' _]. apply (Hin' _ _ Hr Ha). }
    split; [exact HposI |]. split; [| split; assumption].
    unfold sumIndexCount.
    rewrite (fold_right_ext_in (fun e => indexCount (snd e))
                               (fun e => reservedIndexCount (snd e))).
    - apply (live_lengths_within indexStart reservedIndexCount _ (geometryInfo b));
        assumption.
    - intros [i r] Hin. destruct (Hlive i r Hin) as [Hr Ha]. cbn [snd].
      apply (HT _ _ Hr Ha). exact Hidx. }
  split; [| split; [exact HT' | split]].
  - constructor.
    + exact (sound_initialized b HS).
    + rewrite Hlen. exact (sound_count b HS).
    + rewrite Hlen. exact (sound_free b HS).
    + rewrite (schemaOf_keys _ _ Hsch). exact (sound_keys b HS).
    + exact HokV'.
    + rewrite Hhi. intros Hidx. destruct (Hindexed Hidx) as (HposI & HsumI & _ & _).
      apply (rangesOk_ext indexStart indexCount).
      { intros i r' Hr' Ha'. symmetry. apply (HT' i r' Hr' Ha'). rewrite Hhi. exact Hidx. }
      rewrite HcurI, Hidx.
      destruct (packedList_index_spans order 0 0 HposI) as [Hall Hord].
      pose proof Hpacked as Hpacked'. rewrite Hidx in Hpacked'.
      apply (rangesOk_of_spans indexStart indexCount _ _ (packedList true 0 0 order));
        [exact Hpacked' | | exact Hord].
      apply Forall_forall. intros [i r'] Hin.
      rewrite Forall_forall in Hall. destruct (Hall _ Hin) as [H1 H2]. cbn [snd] in *.
      destruct (packedList_origin _ _ _ _ _ _ Hin) as (r & Hr & Hsame).
      destruct Hsame as (_ & _ & _ & _ & _ & _ & _ & Hic & _).
      rewrite Forall_forall in HposI. specialize (HposI _ Hr). cbn [snd] in HposI.
      lia.
    + rewrite HcurV. split; [exact HsumV0 |].
      eapply Qle_trans; [| exact HnVmax]. rewrite <- Zle_Qle. exact HsumV.
    + rewrite Hhi, HcurI. intros Hidx. rewrite Hidx.
      destruct (Hindexed Hidx) as (HposI & HsumI & HnI0 & HnImax).
      split; [apply sum_nonneg; exact HposI |].
      eapply Qle_trans; [| exact HnImax]. rewrite <- Zle_Qle. exact HsumI.
    + intros ix Hix. unfold optimize in Hix. cbn [geometry index] in Hix.
      destruct (pIndex (packAll b)) as [ixp |] eqn:Hp; [| discriminate].
      cbn [option_map] in Hix. injection Hix as <-.
      apply clearTrailingIndices_indexOk.
      apply (fold_pack_indexOk (maxVertexCount b) hi order
               (mkPacking (attributes (geometry b)) (index (geometry b))
                          (geometryInfo b) 0 0)); [| exact Hp].
      cbn [pIndex]. exact (sound_indexed b HS).
    + pose proof (sound_free_deleted b HS) as Hfree.
      eapply Forall_impl; [| exact Hfree].
      intros n (r & Hr & Ha). exists r. split; [| exact Ha].
      specialize (Hslots (Z.of_nat n)). rewrite Hr in Hslots.
      destruct (tlookup (geometryInfo (optimize b)) (Z.of_nat n)) as [r' |];
        [| contradiction].
      destruct Hslots as [_ Hsame]. rewrite (Hsame Ha). reflexivity.
    + exact (sound_free_distinct b HS).
  - rewrite HcurV. exact HsumV.
  - intros Hidx. rewrite HcurI. fold hi in Hidx. rewrite Hidx.
    destruct (Hindexed Hidx) as (_ & HsumI & _). exact HsumI.
Qed.

(** X11: Compaction is safe where no region reserves more than it uses: the
    batch invariant (disjoint reserved ranges below the cursors, cursors
    within the capacities, index values of the array's element type, a
    free list of deleted handles) holds again after [optimize], no region
    reserves more than it uses afterwards either, and the cursors do not
    move up. *)
Theorem optimize_keeps_invariant (b : Batch) :
  Sound b -> Tight b ->
  Sound (optimize b) /\ Tight (optimize b)
  /\ nextVertexStart (optimize b) <= nextVertexStart b
  /\ (isSome (index (geometry b)) = true ->
      nextIndexStart (optimize b) <= nextIndexStart b).
Proof. apply optimize_sound_tight. Qed.

(** ** Workloads that reserve nothing beyond what they use *)

Lemma setGeometryInfo_Ok (b b' : Batch) (id : Z) (oid : option string) (check : bool) :
  setGeometryInfo b id oid check = Ok b' tt ->
  exists r, tlookup (geometryInfo b) id = Some r
            /\ b' = with_table b (tset (geometryInfo b) (Z.to_nat id)
                                       (with_userData r oid check)).
Proof.
  unfold setGeometryInfo. destruct (id >=? geometryCount b); [discriminate |].
  destruct (tlookup (geometryInfo b) id) as [r |]; [| discriminate].
  intros H. injection H as <-. exists r. auto.
Qed.

Lemma setGeometryInfo_sound (b b' : Batch) (id : Z) (oid : option string) (check : bool) :
  Sound b -> setGeometryInfo b id oid check = Ok b' tt -> Sound b'.
Proof.
  intros HS Hset. destruct (setGeometryInfo_Ok _ _ _ _ _ Hset) as (r & Hr & ->).
  pose proof (tlookup_Some_range _ _ _ Hr) as Hrange.
  apply (slot_update_sound b id r (with_userData r oid check) (availableGeometryIds b) HS Hr).
  - destruct r; cbn; auto.
  - destruct r; cbn; auto.
  - exact (sound_free b HS).
  - pose proof (sound_free_deleted b HS) as Hfree.
    eapply Forall_impl; [| exact Hfree]. intros n (r0 & Hr0 & Ha0).
    destruct (Z.eq_dec (Z.of_nat n) id) as [Heq | Hne].
    + subst id. rewrite tlookup_tset_same_Z by lia. eexists. split; [reflexivity |].
      rewrite Hr in Hr0. injection Hr0 as <-. destruct r; exact Ha0.
    + rewrite tlookup_tset_other by lia. exists r0. auto.
  - exact (sound_free_distinct b HS).
Qed.

(** A slot update that keeps the counts keeps the table tight. *)
Lemma tight_slot_update (b : Batch) (id : Z) (r r' : GeometryInfo) (free : list nat) :
  Tight b -> tlookup (geometryInfo b) id = Some r ->
  (active r' = true ->
   active r = true
   /\ vertexCount r' = vertexCount r /\ reservedVertexCount r' = reservedVertexCount r
   /\ indexCount r' = indexCount r /\ reservedIndexCount r' = reservedIndexCount r) ->
  Tight (mkBatch (maxVertexCount b) (maxIndexCount b)
                 (tset (geometryInfo b) (Z.to_nat id) r') free
                 (nextIndexStart b) (nextVertexStart b) (geometryCount b)
                 (geometryInitialized b) (geometry b)).
Proof.
  intros HT Hr Hkeep i ri Hri Hai. cbn [geometryInfo geometry] in *.
  pose proof (tlookup_Some_range _ _ _ Hr) as Hrange.
  destruct (Z.eq_dec i id) as [-> | Hne].
  - rewrite tlookup_tset_same_Z in Hri by lia. injection Hri as <-.
    destruct (Hkeep Hai) as (Ha & H1 & H2 & H3 & H4).
    destruct (HT id r Hr Ha) as [HV HI]. split; [congruence |].
    intros Hidx. specialize (HI Hidx). congruence.
  - rewrite tlookup_tset_other in Hri by lia. apply (HT i ri Hri Hai).
Qed.

Lemma deleteGeometry_tight (b b' : Batch) (id : Z) :
  Tight b -> deleteGeometry b id = Ok b' tt -> Tight b'.
Proof.
  intros HT. unfold deleteGeometry.
  destruct (id >=? tlength (geometryInfo b)); [intros H; injection H as <-; exact HT |].
  destruct (tlookup (geometryInfo b) id) as [r |] eqn:Hr; [| discriminate].
  destruct (active r) eqn:Ha; cbn [negb]; intros H; injection H as <-; [| exact HT].
  apply (tight_slot_update b id r); [assumption | assumption |].
  destruct r; cbn. discriminate.
Qed.

Lemma setVisibleAt_tight (b b' : Batch) (id : Z) (v : bool) :
  Tight b -> setVisibleAt b id v = Ok b' tt -> Tight b'.
Proof.
  intros HT Hset. destruct (setVisibleAt_Ok _ _ _ _ _ Hset) as (r & Hr & Ha & ->).
  destruct (Bool.eqb (visible r) v); [exact HT |].
  apply (tight_slot_update b id r _ (availableGeometryIds b) HT Hr).
  destruct r; cbn in *. auto.
Qed.

Lemma setGeometryInfo_tight (b b' : Batch) (id : Z) (oid : option string) (check : bool) :
  Tight b -> setGeometryInfo b id oid check = Ok b' tt -> Tight b'.
Proof.
  intros HT Hset. destruct (setGeometryInfo_Ok _ _ _ _ _ Hset) as (r & Hr & ->).
  apply (tight_slot_update b id r _ (availableGeometryIds b) HT Hr).
  destruct r; cbn in *. auto.
Qed.

Lemma addInitialized_tight (b1 : Batch) (g : BufferGeometry) (b' : Batch) (id : Z) :
  Sound b1 -> Tight b1 -> payloadOk g ->
  addInitialized b1 g (-1) (-1) = Ok b' id -> Tight b'.
Proof.
  intros HS HT Hpay Hadd.
  destruct (addInitialized_sound b1 g (-1) (-1) b' id HS Hpay Hadd) as (_ & _ & Hother & _).
  destruct (addInitialized_anatomy b1 g (-1) (-1) b' id (sound_count b1 HS) Hadd)
    as (info & r & p & _ & Hp & Hr & (Hvs & Hrvc & His & Hric) & _ & Hindex
        & _ & _ & _ & _ & _ & _ & Hval2).
  destruct (addInitialized_Ok _ _ _ _ _ _ Hadd)
    as (_ & info' & b4 & Hnew & _ & Hid & Hset & Hb').
  set (G := withBounds g) in *. set (b2 := resizeSpaceIfNeeded b1 G) in *.
  destruct (allocateId_fields b2 info') as (_ & _ & HG3 & _).
  destruct (setGeometryAt_record _ _ _ _ _ Hset)
    as (info0 & p0 & r0 & Hlk0 & Hpos0 & Ht4 & _ & Hvc & Hrvc0 & _ & Hric0 & Hic & _).
  assert (Hc2 : geometryCount b2 = tlength (geometryInfo b2)).
  { destruct (resizeSpaceIfNeeded_fields b1 G) as (Ht2 & _ & _ & _ & Hcount2 & _).
    fold b2 in Ht2, Hcount2. rewrite Hcount2, Ht2. apply (sound_count b1 HS). }
  pose proof (allocateId_slot b2 info' Hc2) as Hslot. rewrite Hid in Hslot.
  rewrite Hslot in Hlk0. injection Hlk0 as <-.
  assert (Hid0 : 0 <= id).
  { rewrite <- Hid. apply allocateId_nonneg. rewrite Hc2. unfold tlength. lia. }
  assert (Hr0 : r0 = r).
  { rewrite Hb' in Hr. cbn [advanceCursors geometryInfo] in Hr. rewrite Ht4 in Hr.
    rewrite tlookup_tset_same_Z in Hr by assumption. congruence. }
  subst r0.
  destruct (newRegion_Some _ _ _ _ _ Hnew) as (_ & _ & HrvD & _ & HixS & _).
  destruct (HrvD eq_refl) as (pG & HpG & Hres).
  rewrite Hpos0 in HpG. injection HpG as <-.
  pose proof (resizeSpaceIfNeeded_schema b1 G (sound_initialized b1 HS) (sound_keys b1 HS))
    as Hsch2. fold b2 in Hsch2.
  assert (Hpres' : isSome (index (geometry b')) = isSome (index (geometry b1))).
  { unfold schemaOf in Hsch2. injection Hsch2 as Hix2 _. rewrite <- Hix2, Hindex.
    destruct (index (geometry b2)); destruct (index g); reflexivity. }
  intros i ri Hri Hai. rewrite Hpres'.
  destruct (Z.eq_dec i id) as [-> | Hne].
  - rewrite Hr in Hri. injection Hri as <-.
    split; [congruence |]. intros Hidx.
    pose proof (validateGeometry_None_index _ _ Hval2) as Hpres.
    unfold schemaOf in Hsch2. injection Hsch2 as Hix2 _.
    rewrite HG3 in Hic.
    destruct (index (geometry b2)) as [d |] eqn:Hd;
      [| rewrite Hidx in Hix2; discriminate].
    cbn [isSome] in Hpres.
    destruct (index G) as [s |] eqn:Hs; [| discriminate].
    destruct (HixS s eq_refl) as [_ HresI]. cbn in HresI. congruence.
  - rewrite (Hother i Hne) in Hri. apply (HT i ri Hri Hai).
Qed.

Lemma tightStep_invariant (b b' : Batch) :
  Sound b -> Tight b -> tightStep b b' -> Sound b' /\ Tight b'.
Proof.
  intros HS HT Hstep.
  destruct Hstep as [b g b' id Hpay Hadd | b id b' Hdel | b id v b' Hset
                    | b id oid check b' Hset | b].
  - split.
    + apply (addGeometry_sound b g (-1) (-1) b' id HS Hpay Hadd).
    + unfold addGeometry, initializeGeometry in Hadd.
      rewrite (sound_initialized b HS) in Hadd.
      apply (addInitialized_tight b g b' id HS HT Hpay Hadd).
  - split; [eapply deleteGeometry_sound | eapply deleteGeometry_tight]; eassumption.
  - split; [eapply setVisibleAt_sound | eapply setVisibleAt_tight]; eassumption.
  - split; [eapply setGeometryInfo_sound | eapply setGeometryInfo_tight]; eassumption.
  - destruct (optimize_sound_tight b HS HT) as (H1 & H2 & _). split; assumption.
Qed.

(** X12: A workload that reserves nothing beyond what it uses keeps the batch
    invariant for good, compactions included: after any number of
    insertions with the default reservation, deletions, visibility and
    user-data updates and calls of [optimize], the reserved ranges of the
    live regions are disjoint and lie below the cursors, the cursors lie
    within the capacities, and no region reserves more than it uses. *)
Theorem tight_workload_keeps_invariant (b b' : Batch) :
  Sound b -> Tight b -> tightRun b b' -> Sound b' /\ Tight b'.
Proof.
  intros HS HT Hrun. induction Hrun as [b | b b1 b2 Hstep Hrest IH]; [auto |].
  destruct (tightStep_invariant b b1 HS HT Hstep) as [HS1 HT1]. apply IH; assumption.
Qed.

(** The first insertion into a new batch, with the default reservation,
    starts such a workload. *)
Lemma first_insertion_tight (maxV maxI : Q) (g : BufferGeometry) (b' : Batch) (id : Z) :
  (0 <= maxV)%Q -> (0 <= maxI)%Q -> payloadOk g ->
  addGeometry (newBatch maxV maxI) g (-1) (-1) = Ok b' id ->
  Sound b' /\ Tight b'.
Proof.
  intros HV HI Hpay Hadd.
  split; [apply (first_insertion_sound maxV maxI g (-1) (-1) b' id); assumption |].
  unfold addGeometry in Hadd.
  apply (addInitialized_tight (initializeGeometry (newBatch maxV maxI) g) g b' id);
    try assumption.
  - apply initializeGeometry_new_sound; assumption.
  - intros i r Hr. unfold initializeGeometry, newBatch in Hr. cbn in Hr.
    unfold tlookup in Hr. destruct (i <? 0); [discriminate |].
    destruct (Z.to_nat i); discriminate.
Qed.

(** ** The bounding box of the batch *)

Lemma containsBox_refl (a : Box3) : containsBox a a = true.
Proof.
  destruct a as [| lo hi]; [reflexivity |]. cbn.
  rewrite !Z.leb_refl. reflexivity.
Qed.

Ltac box_bounds :=
  repeat match goal with
         | H : _ && _ = true |- _ => apply andb_prop in H; destruct H
         | H : (_ <=? _) = true |- _ => apply Z.leb_le in H
         end;
  repeat (apply andb_true_intro; split); try apply Z.leb_le; cbn [vmin vmax vx vy vz] in *;
  try lia.

Lemma containsBox_trans (a b c : Box3) :
  containsBox a b = true -> containsBox b c = true -> containsBox a c = true.
Proof.
  destruct a as [| la ha], b as [| lb hb], c as [| lc hc]; cbn; try discriminate; auto.
  intros H1 H2. box_bounds.
Qed.

Lemma containsBox_union_l (a b : Box3) : containsBox (union a b) a = true.
Proof.
  destruct a as [| la ha], b as [| lb hb]; cbn; try reflexivity; box_bounds.
Qed.

Lemma containsBox_union_r (a b : Box3) : containsBox (union a b) b = true.
Proof.
  destruct a as [| la ha], b as [| lb hb]; cbn; try reflexivity; box_bounds.
Qed.

Lemma containsBox_union_least (outer a b : Box3) :
  containsBox outer a = true -> containsBox outer b = true ->
  containsBox outer (union a b) = true.
Proof.
  destruct outer as [| lo ho], a as [| la ha], b as [| lb hb]; cbn;
    try discriminate; auto.
  intros H1 H2. box_bounds.
Qed.

Lemma containsBox_point (outer inner : Box3) (p : Vector3) :
  containsBox outer inner = true -> containsPoint inner p = true ->
  containsPoint outer p = true.
Proof.
  destruct outer as [| lo ho], inner as [| li hi]; cbn; try discriminate.
  intros H1 H2. box_bounds.
Qed.

Lemma unionOfRegions_spec (t : Table) (box0 box : Box3) :
  AcTrBatchedLine.unionOfRegions t box0 = (box, true) ->
  containsBox box box0 = true
  /\ (forall r bx, In (Some r) t -> active r = true -> boundingBox r = Some bx ->
                   containsBox box bx = true)
  /\ (forall outer,
        containsBox outer box0 = true ->
        (forall r bx, In (Some r) t -> active r = true -> boundingBox r = Some bx ->
                      containsBox outer bx = true) ->
        containsBox outer box = true)
  /\ ~ In None t.
Proof.
  revert box0. induction t as [| [g |] rest IH]; intros box0; cbn [AcTrBatchedLine.unionOfRegions].
  - intros H. injection H as <-. split; [apply containsBox_refl |].
    split; [intros r bx [] |]. split; [auto | intros []].
  - destruct (active g) eqn:Ha; cbn [negb];
      [destruct (boundingBox g) as [bg |] eqn:Hb |].
    + intros H. destruct (IH _ H) as (H0 & Hin & Hleast & Hholes).
      split; [eapply containsBox_trans; [exact H0 | apply containsBox_union_l] |].
      split; [| split].
      * intros r bx [Heq | Hr] Har Hbx.
        -- injection Heq as <-. rewrite Hb in Hbx. injection Hbx as <-.
           eapply containsBox_trans; [exact H0 | apply containsBox_union_r].
        -- eapply Hin; eassumption.
      * intros outer Ho Hall. apply Hleast.
        -- apply containsBox_union_least; [assumption |].
           apply (Hall g bg); [left; reflexivity | assumption | assumption].
        -- intros r bx Hr. apply Hall. right. assumption.
      * intros [Hx | Hx]; [discriminate | contradiction].
    + intros H. destruct (IH _ H) as (H0 & Hin & Hleast & Hholes).
      split; [assumption |]. split; [| split].
      * intros r bx [Heq | Hr] Har Hbx; [injection Heq as <-; congruence |].
        eapply Hin; eassumption.
      * intros outer Ho Hall. apply Hleast; [assumption |].
        intros r bx Hr. apply Hall. right. assumption.
      * intros [Hx | Hx]; [discriminate | contradiction].
    + intros H. destruct (IH _ H) as (H0 & Hin & Hleast & Hholes).
      split; [assumption |]. split; [| split].
      * intros r bx [Heq | Hr] Har Hbx; [injection Heq as <-; congruence |].
        eapply Hin; eassumption.
      * intros outer Ho Hall. apply Hleast; [assumption |].
        intros r bx Hr. apply Hall. right. assumption.
      * intros [Hx | Hx]; [discriminate | contradiction].
  - discriminate.
Qed.

Lemma tlookup_In (t : Table) (i : Z) (r : GeometryInfo) :
  tlookup t i = Some r -> In (Some r) t.
Proof.
  unfold tlookup. destruct (i <? 0); [discriminate |].
  destruct (nth_error t (Z.to_nat i)) as [[x |] |] eqn:Hn; try discriminate.
  intros H. injection H as <-. eapply nth_error_In. exact Hn.
Qed.

Lemma In_tlookup (t : Table) (r : GeometryInfo) :
  In (Some r) t -> exists i, tlookup t i = Some r.
Proof.
  intros H. apply In_nth_error in H. destruct H as [n Hn].
  exists (Z.of_nat n). unfold tlookup.
  destruct (Z.of_nat n <? 0) eqn:E; [apply Z.ltb_lt in E; lia |].
  rewrite Nat2Z.id, Hn. reflexivity.
Qed.

(** X13: [computeBoundingBox] gives the least box around the live regions:
    when it returns, the box of the batch contains the stored box of
    every active region, and every box that contains those contains it;
    deleted regions do not count; the batch itself is not touched. *)
Theorem computeBoundingBox_is_least (l l' : AcTrBatchedLine.BatchedLine) :
  AcTrBatchedLine.computeBoundingBox l = AcTrBatchedLine.LineOk l' ->
  AcTrBatchedLine.batch l' = AcTrBatchedLine.batch l
  /\ exists box,
       AcTrBatchedLine.lineBoundingBox l' = Some box
       /\ (forall i r bx,
             tlookup (geometryInfo (AcTrBatchedLine.batch l)) i = Some r ->
             active r = true -> boundingBox r = Some bx ->
             containsBox box bx = true
             /\ forall p, containsPoint bx p = true -> containsPoint box p = true)
       /\ (forall outer,
             (forall i r bx,
                 tlookup (geometryInfo (AcTrBatchedLine.batch l)) i = Some r ->
                 active r = true -> boundingBox r = Some bx ->
                 containsBox outer bx = true) ->
             containsBox outer box = true).
Proof.
  unfold AcTrBatchedLine.computeBoundingBox.
  destruct (AcTrBatchedLine.unionOfRegions (geometryInfo (AcTrBatchedLine.batch l)) EmptyBox)
    as [box finished] eqn:Hu.
  destruct finished; [| discriminate].
  intros H. injection H as <-. cbn [AcTrBatchedLine.batch AcTrBatchedLine.lineBoundingBox].
  destruct (unionOfRegions_spec _ _ _ Hu) as (_ & Hin & Hleast & _).
  split; [reflexivity |]. exists box. split; [reflexivity |]. split.
  - intros i r bx Hr Ha Hb.
    assert (Hc : containsBox box bx = true)
      by (apply (Hin r bx); [eapply tlookup_In; eassumption | assumption | assumption]).
    split; [exact Hc |]. intros p Hp. eapply containsBox_point; eassumption.
  - intros outer Hall. apply Hleast; [destruct outer; reflexivity |].
    intros r bx Hr Ha Hb. destruct (In_tlookup _ _ Hr) as [i Hi].
    apply (Hall i r bx); assumption.
Qed.

(** ** Bounds computed on demand *)

Lemma containsPoint_expand_same (b : Box3) (p : Vector3) :
  containsPoint (expandByPoint b p) p = true.
Proof.
  destruct b as [| lo hi]; cbn; box_bounds.
Qed.

Lemma containsPoint_expand_keeps (b : Box3) (p q : Vector3) :
  containsPoint b p = true -> containsPoint (expandByPoint b q) p = true.
Proof.
  destruct b as [| lo hi]; cbn; [discriminate |]. intros H. box_bounds.
Qed.

Lemma fold_expand_keeps (ps : list Vector3) (b : Box3) (p : Vector3) :
  containsPoint b p = true -> containsPoint (fold_left expandByPoint ps b) p = true.
Proof.
  revert b. induction ps as [| q rest IH]; intros b H; cbn [fold_left]; [assumption |].
  apply IH. apply containsPoint_expand_keeps. assumption.
Qed.

Lemma boxOfPoints_contains (ps : list Vector3) (p : Vector3) :
  In p ps -> containsPoint (boxOfPoints ps) p = true.
Proof.
  unfold boxOfPoints. generalize EmptyBox.
  induction ps as [| q rest IH]; intros b Hin; [destruct Hin |].
  destruct Hin as [<- | Hin]; cbn [fold_left].
  - apply fold_expand_keeps. apply containsPoint_expand_same.
  - apply IH. assumption.
Qed.

(** X14: [getBoundingBoxAt] computes a missing box from the region's drawn
    vertices and keeps it: the box it returns contains every vertex of
    the region's draw range (through the index array when the batch has
    one); it is the box the region's record holds afterwards, the rest
    of that record, every other record, the buffers, the cursors and
    the free list being as before; a stored box is returned as it is,
    with the batch unchanged; and asking again returns the same box and
    changes nothing. *)
Theorem getBoundingBoxAt_computes_once (b b' : Batch) (h : Z) (box : Box3) :
  getBoundingBoxAt b h = Ok b' (Some box) ->
  getBoundingBoxAt b' h = Ok b' (Some box)
  /\ cachesOnly b b'
  /\ exists r,
       tlookup (geometryInfo b) h = Some r
       /\ tlookup (geometryInfo b') h = Some (with_boundingBox r (Some box))
       /\ (forall j, j <> h -> tlookup (geometryInfo b') j = tlookup (geometryInfo b) j)
       /\ (forall bx, boundingBox r = Some bx -> box = bx /\ b' = b)
       /\ (boundingBox r = None ->
           forall position i,
             lookupAttr "position" (attributes (geometry b)) = Some position ->
             start r <= i < start r + count r ->
             containsPoint box (fromBufferAttribute position (vertexAt (geometry b) i))
             = true).
Proof.
  intros H. pose proof (getBoundingBoxAt_caches _ _ _ _ H) as Hc.
  destruct (getBoundingBoxAt_Ok _ _ _ _ H)
    as [(_ & _ & Hv) | [(r & bx & Hlt & Hr & Hb & -> & Hv)
                       | (r & bx & Hlt & Hr & Hb & Hv & -> & Hbox)]];
    [discriminate | |]; injection Hv as <-.
  - split; [exact H |]. split; [exact Hc |]. exists r. split; [exact Hr |].
    split; [rewrite Hr; destruct r; cbn in Hb; rewrite Hb; reflexivity |].
    split; [reflexivity |].
    split; [intros bx0 H0; split; congruence | congruence].
  - pose proof (tlookup_Some_range _ _ _ Hr) as Hrange.
    split.
    { unfold getBoundingBoxAt. cbn [with_table geometryCount geometryInfo].
      rewrite geb_false by assumption.
      rewrite tlookup_tset_same_Z by lia. destruct r; reflexivity. }
    split; [exact Hc |]. exists r. split; [exact Hr |].
    split; [cbn [with_table geometryInfo]; apply tlookup_tset_same_Z; lia |].
    split; [intros j Hj; cbn [with_table geometryInfo]; apply tlookup_tset_other;
            rewrite Z2Nat.id by lia; exact Hj |].
    split; [intros bx0 H0; congruence |].
    intros _ position i Hp Hi. rewrite Hbox, Hp.
    apply boxOfPoints_contains. unfold regionPoints.
    apply in_map_iff. exists i. split; [reflexivity | apply In_loop; exact Hi].
Qed.

(** ** Starting over: [reset] *)

Lemma In_setAttr (n m : string) (d x : BufferAttribute) (acc : Attributes) :
  In (n, d) (setAttr m x acc) -> (n, d) = (m, x) \/ In (n, d) acc.
Proof.
  induction acc as [| [k a] rest IH]; cbn [setAttr].
  - intros [H | []]. left. symmetry. exact H.
  - destruct (String.eqb k m) eqn:E.
    + apply String.eqb_eq in E. subst k. intros [H | H]; [left; symmetry | right; right]; exact H.
    + intros [H | H]; [right; left; exact H |].
      destruct (IH H) as [H1 | H1]; [left | right; right]; exact H1.
Qed.

Lemma setAttr_keeps_keys (n m : string) (x : BufferAttribute) (acc : Attributes) :
  In n (map fst acc) -> In n (map fst (setAttr m x acc)).
Proof.
  induction acc as [| [k a] rest IH]; cbn [setAttr map fst]; [intros [] |].
  destruct (String.eqb k m) eqn:E; cbn [map fst]; [auto |].
  intros [H | H]; [left; exact H | right; apply IH; exact H].
Qed.

Lemma validateAttributes_missing (l : Attributes) (g : BufferGeometry) (name : string) :
  In name (map fst l) -> lookupAttr name (attributes g) = None ->
  exists e, validateAttributes l g = Some e /\ isSchemaMismatch e = true.
Proof.
  induction l as [| [k dst] rest IH]; cbn [map fst validateAttributes]; [intros [] |].
  intros Hin Hnone.
  destruct (lookupAttr k (attributes g)) as [src |] eqn:Hk; [| eexists; split; reflexivity].
  destruct (negb (itemSize src =? itemSize dst)
            || negb (Bool.eqb (normalized src) (normalized dst)));
    [eexists; split; reflexivity |].
  destruct Hin as [-> | Hin]; [congruence |]. apply IH; assumption.
Qed.

Lemma validateAttributes_conforming (l : Attributes) (g : BufferGeometry) :
  (forall n dst, In (n, dst) l ->
     exists src, lookupAttr n (attributes g) = Some src
                 /\ itemSize src = itemSize dst /\ normalized src = normalized dst) ->
  validateAttributes l g = None.
Proof.
  induction l as [| [k dst] rest IH]; intros H; cbn [validateAttributes]; [reflexivity |].
  destruct (H k dst (or_introl eq_refl)) as (src & -> & Hsz & Hn).
  rewrite Hsz, Hn, Z.eqb_refl, Bool.eqb_reflx. cbn [negb orb].
  apply IH. intros n d Hin. apply H. right. assumption.
Qed.

(** What [_initializeGeometry] leaves of the attributes it finds: every
    name stays, under the old or the reference's layout. *)
Lemma initializeGeometry_into_keys (maxV maxI : Q) (target reference : BufferGeometry)
      (n : string) :
  In n (map fst (attributes target)) ->
  In n (map fst (attributes (initializeGeometry_into maxV maxI target reference))).
Proof.
  intros Hin. unfold initializeGeometry_into. cbn [attributes].
  apply (fold_left_preserves (fun acc : Attributes => In n (map fst acc)));
    [exact Hin |].
  intros acc [k src] _ Hacc. apply setAttr_keeps_keys. exact Hacc.
Qed.

(** X15: [reset] does not forget the schema: the geometry object keeps its
    attributes and its index, so after a [reset] the batch still refuses
    a payload that lacks an attribute it had, or the index it had. *)
Theorem reset_keeps_the_schema (l : AcTrBatchedLine.BatchedLine) (g : BufferGeometry)
        (rv ri : Z) :
  (isSome (index (geometry (AcTrBatchedLine.batch l))) = true /\ index g = None)
  \/ (exists name, In name (map fst (attributes (geometry (AcTrBatchedLine.batch l))))
                   /\ lookupAttr name (attributes g) = None) ->
  exists e s,
    addGeometry (AcTrBatchedLine.batch (AcTrBatchedLine.reset l)) g rv ri = Throw e s
    /\ isSchemaMismatch e = true
    /\ geometryInfo s = [] /\ nextVertexStart s = 0.
Proof.
  intros Hcase. unfold addGeometry, AcTrBatchedLine.reset, initializeGeometry.
  cbn [AcTrBatchedLine.batch geometryInitialized maxVertexCount maxIndexCount geometryInfo
       availableGeometryIds nextIndexStart nextVertexStart geometryCount geometry].
  set (b := AcTrBatchedLine.batch l) in *.
  set (b1 := mkBatch _ _ _ _ _ _ _ _ _).
  assert (Hthrow : exists e, validateGeometry b1 g = Some e /\ isSchemaMismatch e = true).
  { unfold validateGeometry. cbn [b1 geometry].
    destruct Hcase as [[Hix Hg] | (name & Hin & Hnone)].
    - unfold initializeGeometry_into at 1. cbn [index]. rewrite Hg.
      destruct (index (geometry b)); [| discriminate Hix]. cbn.
      exists IndexMismatch. split; reflexivity.
    - destruct (negb (Bool.eqb (isSome (index g)) _));
        [exists IndexMismatch; split; reflexivity |].
      apply (validateAttributes_missing _ g name); [| exact Hnone].
      apply initializeGeometry_into_keys. exact Hin. }
  destruct Hthrow as (e & Hval & Hmis).
  exists e, b1. unfold addInitialized. rewrite Hval. repeat split; assumption || reflexivity.
Qed.


Lemma initializeGeometry_cleared_sound (l : AcTrBatchedLine.BatchedLine) (g : BufferGeometry) :
  Sound (AcTrBatchedLine.batch l) ->
  (0 <= maxIndexCount (AcTrBatchedLine.batch l))%Q ->
  Sound (initializeGeometry (AcTrBatchedLine.batch (AcTrBatchedLine.reset l)) g).
Proof.
  intros HS HI. set (b := AcTrBatchedLine.batch l) in *.
  pose proof (sound_vcap b HS) as [HnV HnVmax].
  assert (HV : (0 <= maxVertexCount b)%Q).
  { eapply Qle_trans; [| exact HnVmax]. apply inject_Z_nonneg. exact HnV. }
  assert (Hempty : forall i r, tlookup [] i = Some r -> False).
  { intros i r H. unfold tlookup in H. destruct (i <? 0); [discriminate |].
    destruct (Z.to_nat i); discriminate. }
  unfold initializeGeometry, AcTrBatchedLine.reset.
  cbn [AcTrBatchedLine.batch geometryInitialized maxVertexCount maxIndexCount geometryInfo
       availableGeometryIds nextIndexStart nextVertexStart geometryCount geometry].
  fold b.
  constructor; cbn [geometryInitialized geometryCount geometryInfo availableGeometryIds
                    geometry nextVertexStart nextIndexStart maxVertexCount maxIndexCount].
  - reflexivity.
  - reflexivity.
  - constructor.
  - unfold initializeGeometry_into. cbn [attributes].
    apply (fold_left_preserves (fun acc : Attributes => NoDup (map fst acc)));
      [exact (sound_keys b HS) |].
    intros acc [n src] _ Hacc. apply setAttr_keys_NoDup. assumption.
  - split; [intros i r H; destruct (Hempty i r H) |].
    intros i j ri rj _ H. destruct (Hempty i ri H).
  - intros _. split; [intros i r H; destruct (Hempty i r H) |].
    intros i j ri rj _ H. destruct (Hempty i ri H).
  - split; [lia | assumption].
  - intros _. split; [lia | assumption].
  - unfold initializeGeometry_into. cbn [index]. intros ix Hix.
    destruct (index g).
    + injection Hix as <-. unfold indexOk. cbn [ikind idata]. split; [reflexivity |].
      unfold zeros. apply Forall_forall. intros v Hv. apply repeat_spec in Hv. subst v.
      split; [lia | apply index_modulus_pos].
    + apply (sound_indexed b HS). exact Hix.
  - constructor.
  - constructor.
Qed.

Lemma validateGeometry_cleared (l : AcTrBatchedLine.BatchedLine) (g : BufferGeometry) :
  NoDup (map fst (attributes g)) ->
  validateGeometry (AcTrBatchedLine.batch l) g = None ->
  validateGeometry (initializeGeometry (AcTrBatchedLine.batch (AcTrBatchedLine.reset l)) g) g
  = None.
Proof.
  intros Hnd Hval. set (b := AcTrBatchedLine.batch l) in *.
  pose proof (validateGeometry_None_index _ _ Hval) as Hpres.
  pose proof (validateGeometry_None_attributes _ _ Hval) as HvalA.
  unfold validateGeometry, initializeGeometry, AcTrBatchedLine.reset.
  cbn [AcTrBatchedLine.batch geometryInitialized maxVertexCount maxIndexCount geometryInfo
       availableGeometryIds nextIndexStart nextVertexStart geometryCount geometry].
  fold b.
  assert (Hix : Bool.eqb (isSome (index g))
                  (isSome (index (initializeGeometry_into (maxVertexCount b)
                                    (maxIndexCount b) (geometry b) g))) = true).
  { unfold initializeGeometry_into. cbn [index].
    destruct (index g); [reflexivity |]. cbn [isSome] in *.
    rewrite <- Hpres. reflexivity. }
  rewrite Hix. cbn [negb].
  apply validateAttributes_conforming.
  unfold initializeGeometry_into. cbn [attributes].
  apply (fold_left_preserves
           (fun acc : Attributes =>
              forall n dst, In (n, dst) acc ->
                exists src, lookupAttr n (attributes g) = Some src
                            /\ itemSize src = itemSize dst
                            /\ normalized src = normalized dst)).
  - intros n dst Hin. apply (validateAttributes_None _ _ HvalA n dst Hin).
  - intros acc [k src] Hk Hacc n dst Hin.
    apply In_setAttr in Hin. destruct Hin as [Heq | Hin]; [| apply Hacc; exact Hin].
    injection Heq as -> ->. exists src. cbn [itemSize normalized].
    split; [| split; reflexivity].
    apply (lookupAttr_NoDup (k, src)); assumption.
Qed.

(** X16: After [reset], a payload the batch accepted before is inserted anew
    from the start: the insertion returns handle 0 for a region at vertex
    offset 0, the invariant holds, the batch holds that one region, and
    the vertex capacity is the one reached before the [reset] (or grown
    from it, when even that is too small for the payload). *)
Theorem reset_then_addGeometry (l : AcTrBatchedLine.BatchedLine) (g : BufferGeometry)
        (p : BufferAttribute) :
  Sound (AcTrBatchedLine.batch l) ->
  (0 <= maxIndexCount (AcTrBatchedLine.batch l))%Q ->
  payloadOk g -> NoDup (map fst (attributes g)) ->
  validateGeometry (AcTrBatchedLine.batch l) g = None ->
  lookupAttr "position" (attributes g) = Some p ->
  exists b' r,
    addGeometry (AcTrBatchedLine.batch (AcTrBatchedLine.reset l)) g (-1) (-1) = Ok b' 0
    /\ Sound b'
    /\ tlookup (geometryInfo b') 0 = Some r
    /\ active r = true /\ vertexStart r = 0
    /\ (forall i, i <> 0 -> tlookup (geometryInfo b') i = None)
    /\ maxVertexCount b'
       = capacityRule (maxVertexCount (AcTrBatchedLine.batch l)) 0 (count_of p).
Proof.
  intros HS HI Hpay Hnd Hval Hp.
  set (b0 := AcTrBatchedLine.batch (AcTrBatchedLine.reset l)).
  set (b1 := initializeGeometry b0 g).
  pose proof (initializeGeometry_cleared_sound l g HS HI) as HS1. fold b0 b1 in HS1.
  pose proof (validateGeometry_cleared l g Hnd Hval) as Hval1. fold b0 b1 in Hval1.
  assert (Hsame : addGeometry b0 g (-1) (-1) = addGeometry b1 g (-1) (-1)).
  { assert (Hinit : initializeGeometry b1 g = b1).
    { unfold initializeGeometry. rewrite (sound_initialized b1 HS1). reflexivity. }
    unfold addGeometry. rewrite Hinit. reflexivity. }
  destruct (insertion_step b1 g p HS1 Hpay Hval1 Hp)
    as (b' & id & Hadd & HmaxV & _).
  destruct (addGeometry_sound b1 g (-1) (-1) b' id HS1 Hpay Hadd)
    as (HS' & (r & Hr & Ha & Hvs & _) & Hother & Hid).
  assert (Hid0 : id = 0).
  { destruct Hid as [[_ ->] | [Hin _]]; [reflexivity | destruct Hin]. }
  subst id. exists b', r. rewrite Hsame.
  split; [exact Hadd |]. split; [exact HS' |]. split; [exact Hr |].
  split; [exact Ha |]. split; [exact Hvs |].
  split.
  { intros i Hi. rewrite (Hother i Hi). unfold tlookup. destruct (i <? 0); [reflexivity |].
    destruct (Z.to_nat i); reflexivity. }
  exact HmaxV.
Qed.

(** ** Copies *)

Lemma cloneInfo_same (r : GeometryInfo) : AcTrBatchedLine.cloneInfo r = r.
Proof.
  destruct r as [vs vc rvc ist ic ric st ct bb bs act vis oid bbx].
  unfold AcTrBatchedLine.cloneInfo. cbn. destruct bb, bs; reflexivity.
Qed.

Lemma copy_table (this source : AcTrBatchedLine.BatchedLine) :
  geometryInfo (AcTrBatchedLine.batch (AcTrBatchedLine.copy this source))
  = geometryInfo (AcTrBatchedLine.batch source).
Proof.
  unfold AcTrBatchedLine.copy. cbn [AcTrBatchedLine.batch geometryInfo].
  induction (geometryInfo (AcTrBatchedLine.batch source)) as [| [r |] rest IH];
    cbn [map option_map]; [reflexivity | |]; rewrite IH; [rewrite cloneInfo_same |];
    reflexivity.
Qed.

(** X17: A copy reads as its source: it holds the source's table, buffers,
    capacities and bounds, so every handle is valid in the copy exactly
    when it is in the source, and [getVisibleAt], [getGeometryAt] and
    [getBoundingBoxAt] return what they return on the source.  The tail
    cursors and the free list are not copied: they stay those of the
    object copied into. *)
Theorem copy_reads_as_source (this source : AcTrBatchedLine.BatchedLine) :
  let c := AcTrBatchedLine.batch (AcTrBatchedLine.copy this source) in
  let s := AcTrBatchedLine.batch source in
  geometryInfo c = geometryInfo s /\ geometry c = geometry s
  /\ maxVertexCount c = maxVertexCount s /\ maxIndexCount c = maxIndexCount s
  /\ geometryCount c = geometryCount s
  /\ AcTrBatchedLine.lineBoundingBox (AcTrBatchedLine.copy this source)
     = AcTrBatchedLine.lineBoundingBox source
  /\ (forall h, valueOf (validateGeometryId c h) = valueOf (validateGeometryId s h))
  /\ (forall h, valueOf (getVisibleAt c h) = valueOf (getVisibleAt s h))
  /\ (forall h, valueOf (getGeometryAt c h) = valueOf (getGeometryAt s h))
  /\ (forall h, valueOf (getBoundingBoxAt c h) = valueOf (getBoundingBoxAt s h))
  /\ nextVertexStart c = nextVertexStart (AcTrBatchedLine.batch this)
  /\ nextIndexStart c = nextIndexStart (AcTrBatchedLine.batch this)
  /\ availableGeometryIds c = availableGeometryIds (AcTrBatchedLine.batch this).
Proof.
  intros c s. pose proof (copy_table this source) as Ht.
  change (geometryInfo c = geometryInfo s) in Ht.
  assert (HG : geometry c = geometry s) by reflexivity.
  assert (Hcount : geometryCount c = geometryCount s) by reflexivity.
  assert (Hvalid : forall h,
            match validateGeometryId s h with
            | Ok _ _ => validateGeometryId c h = Ok c tt
            | Throw e _ => validateGeometryId c h = Throw e c
            end).
  { intros h. apply validateGeometryId_same; rewrite Ht; reflexivity. }
  split; [exact Ht |]. split; [exact HG |].
  split; [reflexivity |]. split; [reflexivity |]. split; [exact Hcount |].
  split; [reflexivity |].
  split.
  { intros h. specialize (Hvalid h).
    destruct (validateGeometryId s h) as [s1 [] | e s1]; rewrite Hvalid; reflexivity. }
  split.
  { intros h. unfold getVisibleAt. specialize (Hvalid h).
    destruct (validateGeometryId s h) as [s1 u | e s1] eqn:Hv; rewrite Hvalid;
      cbn [bind valueOf]; [| reflexivity].
    apply validateGeometryId_Ok in Hv. destruct Hv as [-> _]. rewrite Ht.
    destruct (tlookup (geometryInfo s) h); reflexivity. }
  split.
  { intros h. unfold getGeometryAt. specialize (Hvalid h).
    destruct (validateGeometryId s h) as [s1 u | e s1] eqn:Hv; rewrite Hvalid;
      cbn [bind valueOf]; [| reflexivity].
    apply validateGeometryId_Ok in Hv. destruct Hv as [-> _]. rewrite Ht.
    destruct (tlookup (geometryInfo s) h); reflexivity. }
  split.
  { intros h. unfold getBoundingBoxAt. rewrite Ht, HG, Hcount.
    destruct (h >=? geometryCount s); [reflexivity |].
    destruct (tlookup (geometryInfo s) h) as [info |]; [| reflexivity].
    destruct (boundingBox info); [reflexivity |].
    destruct (lookupAttr "position" (attributes (geometry s))); [reflexivity |].
    destruct (loop (start info) (start info + count info)); reflexivity. }
  repeat split; reflexivity.
Qed.

(** X18: The next insertion into a copy starts at the cursor of the object
    copied into, not at the source's: in a copy made into a new object,
    as cloning does, the new region gets a new handle and vertex offset
    0, while every region of the source keeps its record; where the
    source has a live region at offset 0 the two reserved ranges
    overlap. *)
Theorem copy_then_addGeometry (source : AcTrBatchedLine.BatchedLine) (maxV maxI : Q)
        (g : BufferGeometry) (rv ri : Z) (b' : Batch) (id : Z) :
  Sound (AcTrBatchedLine.batch source) ->
  addGeometry (AcTrBatchedLine.batch
                 (AcTrBatchedLine.copy (AcTrBatchedLine.create maxV maxI) source))
              g rv ri = Ok b' id ->
  id = geometryCount (AcTrBatchedLine.batch source)
  /\ (forall h r, tlookup (geometryInfo (AcTrBatchedLine.batch source)) h = Some r ->
                  tlookup (geometryInfo b') h = Some r)
  /\ exists r',
       tlookup (geometryInfo b') id = Some r'
       /\ active r' = true /\ vertexStart r' = 0
       /\ forall h r,
            tlookup (geometryInfo (AcTrBatchedLine.batch source)) h = Some r ->
            active r = true -> vertexStart r = 0 ->
            0 < reservedVertexCount r -> 0 < reservedVertexCount r' ->
            ~ rangesOk vertexStart reservedVertexCount (nextVertexStart b')
                       (geometryInfo b').
Proof.
  intros HS Hadd.
  set (s := AcTrBatchedLine.batch source) in *.
  set (c := AcTrBatchedLine.batch
              (AcTrBatchedLine.copy (AcTrBatchedLine.create maxV maxI) source)) in *.
  pose proof (copy_table (AcTrBatchedLine.create maxV maxI) source) as Ht.
  change (geometryInfo c = geometryInfo s) in Ht.
  assert (Hcount : geometryCount c = tlength (geometryInfo c)).
  { rewrite Ht. exact (sound_count s HS). }
  assert (Hinit : initializeGeometry c g = c).
  { unfold initializeGeometry.
    replace (geometryInitialized c) with (geometryInitialized s) by reflexivity.
    rewrite (sound_initialized s HS). reflexivity. }
  unfold addGeometry in Hadd. rewrite Hinit in Hadd.
  destruct (addInitialized_anatomy c g rv ri b' id Hcount Hadd)
    as (info & r' & p & _ & _ & Hr' & (Hvs & _) & _ & _ & _ & _ & HvsN & _).
  destruct (addInitialized_Ok _ _ _ _ _ _ Hadd)
    as (_ & info' & b4 & Hnew & _ & Hid & Hset & Hb').
  set (G := withBounds g) in *. set (b2 := resizeSpaceIfNeeded c G) in *.
  destruct (resizeSpaceIfNeeded_fields c G) as (Ht2 & Hfree2 & _ & _ & Hcount2 & _).
  fold b2 in Ht2, Hfree2, Hcount2.
  assert (Hfree : availableGeometryIds b2 = []) by (rewrite Hfree2; reflexivity).
  assert (Hid' : id = geometryCount s /\ geometryInfo (fst (allocateId b2 info'))
                                         = geometryInfo b2 ++ [Some info']).
  { rewrite <- Hid. unfold allocateId. rewrite Hfree. cbn [sortBy fold_right snd fst geometryInfo].
    split; [rewrite Hcount2; reflexivity | reflexivity]. }
  destruct Hid' as [Hid0 Ht3].
  destruct (setGeometryAt_record _ _ _ _ _ Hset) as (info0 & p0 & r0 & _ & _ & Ht4 & Hrest).
  assert (Hact : active r' = true).
  { destruct Hrest as (_ & _ & _ & _ & _ & _ & _ & _ & _ & _ & Ha & _).
    assert (Hlk : tlookup (geometryInfo (fst (allocateId b2 info'))) id = Some info').
    { rewrite <- Hid. apply allocateId_slot. rewrite Hcount2, Ht2. exact Hcount. }
    destruct (setGeometryAt_Ok _ _ _ _ _ Hset)
      as (_ & _ & _ & i1 & p1 & r1 & Hlk1 & _ & _ & _ & Ht4' & (_ & _ & _ & _ & Ha1 & _) & _).
    rewrite Hlk in Hlk1. injection Hlk1 as <-.
    assert (Hid1 : 0 <= id).
    { rewrite Hid0. rewrite (sound_count s HS). unfold tlength. lia. }
    rewrite Hb' in Hr'. cbn [advanceCursors geometryInfo] in Hr'. rewrite Ht4' in Hr'.
    rewrite tlookup_tset_same_Z in Hr' by assumption. injection Hr' as <-.
    rewrite Ha1. destruct (newRegion_Some _ _ _ _ _ Hnew) as (_ & Ha0 & _). exact Ha0. }
  assert (Hkeep : forall h r, tlookup (geometryInfo s) h = Some r ->
                              tlookup (geometryInfo b') h = Some r).
  { intros h r Hr. pose proof (tlookup_Some_range _ _ _ Hr) as Hrange.
    rewrite Hb'. cbn [advanceCursors geometryInfo]. rewrite Ht4.
    assert (Hne : h <> id).
    { rewrite Hid0, (sound_count s HS). lia. }
    rewrite tlookup_tset_other.
    - rewrite Ht3, Ht2, Ht. rewrite tlookup_app_other by lia. exact Hr.
    - rewrite Hid0, (sound_count s HS) in *. unfold tlength in *. lia. }
  split; [exact Hid0 |]. split; [exact Hkeep |].
  exists r'. split; [exact Hr' |]. split; [exact Hact |].
  split; [rewrite Hvs, HvsN; reflexivity |].
  intros h r Hr Ha Hstart Hres Hres' [_ Hdis].
  pose proof (tlookup_Some_range _ _ _ Hr) as Hrange.
  assert (Hne : h <> id) by (rewrite Hid0, (sound_count s HS); lia).
  assert (Hvs0 : vertexStart r' = 0) by (rewrite Hvs, HvsN; reflexivity).
  destruct (Hdis h id r r' Hne (Hkeep h r Hr) Hr' Ha Hact); lia.
Qed.

(** ** Picking across compaction, in a batch without index *)

Lemma sorted_ascending (l : list (nat * GeometryInfo)) (n : Z) :
  StronglySorted vertexStartLe l ->
  (forall e, In e l -> n <= vertexStart (snd e)) ->
  (forall e, In e l -> 0 < vertexCount (snd e) <= reservedVertexCount (snd e)) ->
  ForallOrdPairs (fun x y => apart (vertexStart (snd x), reservedVertexCount (snd x))
                                   (vertexStart (snd y), reservedVertexCount (snd y))) l ->
  ascendingFrom n l.
Proof.
  intros Hsorted. revert n. induction Hsorted as [| e rest Hrest IH Hall];
    intros n Hn Hcount Hapart; cbn [ascendingFrom]; [exact I |].
  inversion Hapart as [| x l0 Hx Hl0]; subst.
  pose proof (Hcount e (or_introl eq_refl)) as He.
  split; [lia |]. split; [apply Hn; left; reflexivity |].
  apply IH.
  - intros e' He'. rewrite Forall_forall in Hall, Hx.
    specialize (Hall e' He'). specialize (Hx e' He').
    pose proof (Hcount e' (or_intror He')) as Hc'.
    unfold vertexStartLe in Hall. unfold apart in Hx. cbn [fst snd] in Hx. lia.
  - intros e' He'. apply Hcount. right. assumption.
  - assumption.
Qed.

Lemma live_order_apart (b : Batch) :
  Sound b ->
  ForallOrdPairs (fun x y => apart (vertexStart (snd x), reservedVertexCount (snd x))
                                   (vertexStart (snd y), reservedVertexCount (snd y)))
                 (packingOrder b).
Proof.
  intros HS. destruct (sound_vertex b HS) as [_ Hdis].
  pose proof (packingOrder_NoDup b) as Hnd.
  assert (Hlive : forall i r, In (i, r) (packingOrder b) ->
                    tlookup (geometryInfo b) (Z.of_nat i) = Some r /\ active r = true)
    by (intros i r; apply packingOrder_live).
  induction (packingOrder b) as [| [i r] rest IH]; [constructor |].
  inversion Hnd as [| x l Hnot Hnd']; subst.
  constructor.
  - apply Forall_forall. intros [j rj] Hj. cbn [snd]. unfold apart. cbn [fst snd].
    destruct (Hlive i r (or_introl eq_refl)) as [Hr Ha].
    destruct (Hlive j rj (or_intror Hj)) as [Hrj Haj].
    apply (Hdis (Z.of_nat i) (Z.of_nat j) r rj); try assumption.
    intros Heq. apply Hnot. apply in_map_iff. exists (j, rj).
    split; [cbn [fst]; lia | assumption].
  - apply IH; [assumption |]. intros j rj Hj. apply Hlive. right. assumption.
Qed.

(** In a batch whose live regions are written, the packing order is
    ascending, and packing moves every region downward. *)
Lemma written_packsDownward (b : Batch) :
  Sound b -> Written b ->
  packsDownward 0 (packingOrder b)
  /\ endsWithin (nextVertexStart b) (packingOrder b).
Proof.
  intros HS HW. destruct (sound_vertex b HS) as [Hin _].
  assert (Hlive : forall e, In e (packingOrder b) ->
                    tlookup (geometryInfo b) (Z.of_nat (fst e)) = Some (snd e)
                    /\ active (snd e) = true)
    by (intros [i r]; apply packingOrder_live).
  split.
  - apply (ascending_packsDownward _ 0 0); [| lia].
    apply sorted_ascending.
    + apply packing_sorted.
    + intros e He. destruct (Hlive e He) as [Hr Ha]. apply (Hin _ _ Hr Ha).
    + intros e He. destruct (Hlive e He) as [Hr Ha]. apply (HW _ _ Hr Ha).
    + apply live_order_apart. assumption.
  - apply Forall_forall. intros e He. destruct (Hlive e He) as [Hr Ha].
    destruct (HW _ _ Hr Ha) as [Hc _]. destruct (Hin _ _ Hr Ha) as (_ & _ & Hend). lia.
Qed.

(** The vertices of a live region, after [optimize], are at its new
    offset what they were at the old one. *)
Lemma optimize_region_points (b : Batch) (pre post : list (nat * GeometryInfo))
      (i : nat) (r : GeometryInfo) (p : BufferAttribute) (j : Z) :
  Sound b -> Written b ->
  lookupAttr "position" (attributes (geometry b)) = Some p ->
  3 <= itemSize p -> nextVertexStart b * itemSize p <= len (array p) ->
  packingOrder b = pre ++ (i, r) :: post ->
  0 <= j < vertexCount r ->
  exists p',
    lookupAttr "position" (attributes (geometry (optimize b))) = Some p'
    /\ fromBufferAttribute p' (sumVertexCount pre + j)
       = fromBufferAttribute p (vertexStart r + j).
Proof.
  intros HS HW Hp Hsz Hlen Horder Hj.
  destruct (written_packsDownward b HS HW) as [Hdown Hends].
  set (h := isSome (index (geometry b))).
  set (st0 := mkPacking (attributes (geometry b)) (index (geometry b)) (geometryInfo b) 0 0).
  pose proof (fold_pack_attributes h (packingOrder b) st0) as HA.
  cbn [st0 pAttributes pNextVertexStart] in HA.
  exists (packArray (packingOrder b) 0 p).
  split.
  { unfold optimize. cbn [geometry attributes]. unfold packAll. fold h st0.
    rewrite HA, lookupAttr_map, Hp. reflexivity. }
  assert (Hholds : holdsVertices (nextVertexStart b) p) by (split; [lia | assumption]).
  destruct (packArray_layout (packingOrder b) 0 p) as [Hsz' _].
  assert (Hcomp : forall c, 0 <= c < 3 ->
            getComponent (packArray (packingOrder b) 0 p) (sumVertexCount pre + j) c
            = getComponent p (vertexStart r + j) c).
  { intros c Hc. unfold getComponent. rewrite Hsz'.
    pose proof (packArray_data (nextVertexStart b) pre post (i, r) p
                               (j * itemSize p + c) Hholds) as Hdata.
    rewrite <- Horder in Hdata. cbn [snd] in Hdata.
    replace ((sumVertexCount pre + j) * itemSize p + c)
      with (sumVertexCount pre * itemSize p + (j * itemSize p + c)) by lia.
    replace ((vertexStart r + j) * itemSize p + c)
      with (vertexStart r * itemSize p + (j * itemSize p + c)) by lia.
    apply Hdata; [assumption | assumption | nia]. }
  unfold fromBufferAttribute. rewrite !Hcomp by lia. reflexivity.
Qed.

Lemma live_in_order (b : Batch) (h : Z) (r : GeometryInfo) :
  tlookup (geometryInfo b) h = Some r -> active r = true ->
  exists i pre post, h = Z.of_nat i /\ packingOrder b = pre ++ (i, r) :: post.
Proof.
  intros Hr Ha. pose proof (tlookup_Some_range _ _ _ Hr) as Hrange.
  assert (Hin : In (Z.to_nat h, r) (packingOrder b)).
  { apply packingOrder_live. rewrite Z2Nat.id by lia. auto. }
  apply in_split in Hin. destruct Hin as (pre & post & Hsplit).
  exists (Z.to_nat h), pre, post. split; [lia | exact Hsplit].
Qed.

Lemma optimize_no_index (b : Batch) :
  index (geometry b) = None -> index (geometry (optimize b)) = None.
Proof.
  intros Hix. unfold optimize. cbn [geometry index].
  set (st0 := mkPacking (attributes (geometry b)) (index (geometry b)) (geometryInfo b) 0 0).
  pose proof (fold_pack_index_presence (isSome (index (geometry b))) (packingOrder b) st0) as HP.
  unfold packAll. fold st0.
  destruct (pIndex (fold_left (packRegion (isSome (index (geometry b)))) (packingOrder b) st0));
    [| reflexivity].
  cbn [st0 pIndex] in HP. rewrite Hix in HP. discriminate.
Qed.

(** The segments a live region draws are the same after [optimize], in
    a batch without index whose regions are written. *)
Lemma optimize_region_segments (b : Batch) (h : Z) (r : GeometryInfo)
      (p : BufferAttribute) :
  Sound b -> Written b -> index (geometry b) = None ->
  lookupAttr "position" (attributes (geometry b)) = Some p ->
  3 <= itemSize p -> nextVertexStart b * itemSize p <= len (array p) ->
  tlookup (geometryInfo b) h = Some r -> active r = true ->
  exists r',
    tlookup (geometryInfo (optimize b)) h = Some r'
    /\ sameRegion r r'
    /\ drawnSegments (geometry (optimize b)) (start r') (count r')
       = drawnSegments (geometry b) (start r) (count r).
Proof.
  intros HS HW Hix Hp Hsz Hlen Hr Ha.
  destruct (live_in_order b h r Hr Ha) as (i & pre & post & -> & Horder).
  pose proof (optimize_packed_slot b pre post i r Horder) as Hslot.
  rewrite Hix in Hslot. cbn [isSome] in Hslot.
  eexists. split; [exact Hslot |]. split; [apply packedRecord_sameRegion |].
  destruct (HW _ _ Hr Ha) as (Hcount & Hstart & Hdraw).
  destruct (sound_vertex b HS) as [Hin _].
  destruct (Hin _ _ Hr Ha) as (Hvs & _ & Hend).
  destruct (written_packsDownward b HS HW) as [Hdown _].
  rewrite Horder in Hdown. apply packsDownward_app in Hdown.
  destruct Hdown as [Hpre Hrest]. cbn [packsDownward snd] in Hrest.
  destruct Hrest as (_ & HV & _).
  pose proof (packsDownward_sum pre 0 Hpre) as Hsum.
  destruct (optimize_region_points b pre post i r p 0 HS HW Hp Hsz Hlen Horder)
    as (p' & Hp' & _); [lia |].
  assert (Hp'' : p' = packArray (packingOrder b) 0 p).
  { set (st0 := mkPacking (attributes (geometry b)) (index (geometry b)) (geometryInfo b) 0 0).
    pose proof (fold_pack_attributes (isSome (index (geometry b))) (packingOrder b) st0) as HA.
    cbn [st0 pAttributes pNextVertexStart] in HA.
    unfold optimize in Hp'. cbn [geometry attributes] in Hp'. unfold packAll in Hp'.
    fold st0 in Hp'. rewrite HA, lookupAttr_map, Hp in Hp'. cbn [option_map] in Hp'.
    congruence. }
  destruct (packArray_layout (packingOrder b) 0 p) as [Hsz' Hlen'].
  assert (Hcap : nextVertexStart b <= count_of p).
  { unfold count_of. apply Z.div_le_lower_bound; lia. }
  assert (Hcap' : count_of p' = count_of p)
    by (unfold count_of; rewrite Hp'', Hsz', Hlen'; reflexivity).
  unfold drawnSegments. rewrite Hp', Hp, (optimize_no_index b Hix), Hix.
  destruct r as [vs vc rvc is_ ic ric st ct bb bs ac vi oid chk] eqn:Er.
  cbn [packedRecord with_vertexStart with_draw start count vertexStart vertexCount
       reservedVertexCount] in *.
  subst st ct. rewrite Hcap'.
  rewrite !Z.max_r by lia. rewrite !Z.min_r by lia.
  unfold segmentStarts.
  replace (sumVertexCount pre + vc - 1 - sumVertexCount pre + 1) with vc by lia.
  replace (vs + vc - 1 - vs + 1) with vc by lia.
  rewrite !map_map. apply map_ext_in. intros k Hk.
  unfold loop in Hk. apply In_zseq in Hk. rewrite Z.sub_0_r in Hk.
  assert (Hk' : 0 <= k /\ 2 * k + 1 < vc).
  { assert (0 <= vc / 2) by (apply Z.div_pos; lia).
    rewrite Z2Nat.id in Hk by lia.
    pose proof (Z.mul_div_le vc 2). lia. }
  unfold vertexAt. rewrite (optimize_no_index b Hix), Hix.
  destruct (optimize_region_points b pre post i
              (mkInfo vs vc rvc is_ ic ric vs vc bb bs ac vi oid chk) p (2 * k)
              HS HW Hp Hsz Hlen Horder) as (q & Hq & Hpt); [cbn [vertexCount]; lia |].
  destruct (optimize_region_points b pre post i
              (mkInfo vs vc rvc is_ ic ric vs vc bb bs ac vi oid chk) p (2 * k + 1)
              HS HW Hp Hsz Hlen Horder) as (q1 & Hq1 & Hpt1); [cbn [vertexCount]; lia |].
  cbn [vertexStart] in Hpt, Hpt1.
  assert (q = p') by congruence. assert (q1 = p') by congruence. subst q q1.
  replace (sumVertexCount pre + 2 * k + 1) with (sumVertexCount pre + (2 * k + 1)) by lia.
  replace (vs + 2 * k + 1) with (vs + (2 * k + 1)) by lia.
  rewrite Hpt, Hpt1. reflexivity.
Qed.

Section PickingAcrossCompaction.

Variable Raycaster : Type.
Variable intersectBox : Raycaster -> Box3 -> option Vector3.
Variable distanceTo : Raycaster -> Vector3 -> Z.
Variable intersectsSphere : Raycaster -> Sphere -> bool.
Variable checkIntersection : Raycaster -> Vector3 -> Vector3 -> option (Z * Vector3).

Local Abbreviation intersect_ :=
  (intersectWith_ Raycaster intersectBox distanceTo intersectsSphere checkIntersection).
Local Abbreviation pickLoop :=
  (raycastLoop Raycaster intersectBox distanceTo intersectsSphere checkIntersection).
Local Abbreviation pick :=
  (raycast Raycaster intersectBox distanceTo intersectsSphere checkIntersection).

Variable b : Batch.
Variable p : BufferAttribute.
Hypothesis HS : Sound b.
Hypothesis HW : Written b.
Hypothesis HB : Stored b.
Hypothesis Hix : index (geometry b) = None.
Hypothesis Hp : lookupAttr "position" (attributes (geometry b)) = Some p.
Hypothesis Hsz : 3 <= itemSize p.
Hypothesis Hlen : nextVertexStart b * itemSize p <= len (array p).

Lemma intersect_optimize (scratch : Sphere) (h : Z) (rc : Raycaster)
      (ints : list Intersection) :
  match intersect_ b scratch h rc ints with
  | Ok b' v => b' = b /\ intersect_ (optimize b) scratch h rc ints = Ok (optimize b) v
  | Throw e b' => b' = b /\ intersect_ (optimize b) scratch h rc ints = Throw e (optimize b)
  end.
Proof.
  destruct (optimize_table b) as [_ Hslots]. specialize (Hslots h).
  unfold intersectWith_.
  destruct (tlookup (geometryInfo b) h) as [info |] eqn:Hr;
    destruct (tlookup (geometryInfo (optimize b)) h) as [info' |] eqn:Hr';
    try contradiction; [| split; reflexivity].
  destruct Hslots as [Hsame Hdead].
  destruct Hsame as (Ha & Hv & Hbb & Hbs & Ho & Hchk & _).
  rewrite Hv, Ha, Hchk, Hbb, Ho.
  destruct (visible info) eqn:Hvis; cbn [negb orb]; [| split; reflexivity].
  destruct (active info) eqn:Hact; cbn [negb]; [| split; reflexivity].
  destruct (bboxIntersectionCheck info).
  - destruct (boundingBox info) as [box |]; [| split; reflexivity].
    destruct (intersectBox rc box); split; reflexivity.
  - pose proof (tlookup_Some_range _ _ _ Hr) as Hrange.
    destruct (HB _ _ Hr Hact) as [Hbox Hsphere].
    destruct (boundingBox info) as [box |] eqn:Ebox; [| congruence].
    destruct (boundingSphere info) as [s |] eqn:Esph; [| congruence].
    assert (Hcount : geometryCount (optimize b) = geometryCount b) by reflexivity.
    assert (Hge : (h >=? geometryCount b) = false).
    { rewrite (sound_count b HS). unfold Z.geb.
      destruct (h ?= tlength (geometryInfo b)) eqn:E; try reflexivity;
        [apply Z.compare_eq in E | apply Z.compare_gt_iff in E]; lia. }
    assert (Hbox1 : getBoundingBoxAt b h = Ok b (Some box))
      by (unfold getBoundingBoxAt; rewrite Hge, Hr, Ebox; reflexivity).
    assert (Hsph1 : getBoundingSphereAt b h = Ok b (Some s))
      by (unfold getBoundingSphereAt; rewrite Hge, Hr, Esph; reflexivity).
    assert (Hbox2 : getBoundingBoxAt (optimize b) h = Ok (optimize b) (Some box))
      by (unfold getBoundingBoxAt; rewrite Hcount, Hge, Hr', Hbb; reflexivity).
    assert (Hsph2 : getBoundingSphereAt (optimize b) h = Ok (optimize b) (Some s))
      by (unfold getBoundingSphereAt; rewrite Hcount, Hge, Hr', Hbs; reflexivity).
    rewrite Hbox1, Hbox2. cbn [bind]. rewrite Hsph1, Hsph2. cbn [bind].
    split; [reflexivity |].
    destruct (optimize_region_segments b h info p HS HW Hix Hp Hsz Hlen Hr Hact)
      as (r' & Hr2 & _ & Hseg).
    assert (r' = info') by congruence. subst r'.
    unfold raycastObject. rewrite Hseg. reflexivity.
Qed.

Lemma pickLoop_optimize (ids : list Z) (scratch : Sphere) (rc : Raycaster)
      (ints : list Intersection) :
  match pickLoop b scratch ids rc ints with
  | Ok b' v => b' = b /\ pickLoop (optimize b) scratch ids rc ints = Ok (optimize b) v
  | Throw e b' => b' = b /\ pickLoop (optimize b) scratch ids rc ints = Throw e (optimize b)
  end.
Proof.
  revert scratch ints. induction ids as [| i rest IH]; intros scratch ints;
    cbn [raycastLoop]; [split; reflexivity |].
  pose proof (intersect_optimize scratch i rc ints) as Hone.
  destruct (intersect_ b scratch i rc ints) as [b1 [out1 scratch1] | e s];
    destruct Hone as [-> Hone]; rewrite Hone; cbn [bind fst snd];
    [apply IH | split; reflexivity].
Qed.

End PickingAcrossCompaction.

(** X19: Picking is the same before and after compaction in a batch without
    index: when every live region holds at least one vertex and its
    bounds, and draws its own vertices, a ray test that returns on the
    batch returns the same list of hits on the compacted batch, and
    neither call changes the batch it is made on. *)
Theorem optimize_keeps_picks (Raycaster : Type)
        (intersectBox : Raycaster -> Box3 -> option Vector3)
        (distanceTo : Raycaster -> Vector3 -> Z)
        (intersectsSphere : Raycaster -> Sphere -> bool)
        (checkIntersection : Raycaster -> Vector3 -> Vector3 -> option (Z * Vector3))
        (b : Batch) (p : BufferAttribute) (rc : Raycaster)
        (ints : list Intersection) (b' : Batch) (out : list Intersection) :
  Sound b -> Written b -> Stored b ->
  index (geometry b) = None ->
  lookupAttr "position" (attributes (geometry b)) = Some p ->
  3 <= itemSize p -> nextVertexStart b * itemSize p <= len (array p) ->
  raycast Raycaster intersectBox distanceTo intersectsSphere checkIntersection
          b rc ints = Ok b' out ->
  b' = b
  /\ raycast Raycaster intersectBox distanceTo intersectsSphere checkIntersection
             (optimize b) rc ints = Ok (optimize b) out.
Proof.
  intros HS HW HB Hix Hp Hsz Hlen Hray. unfold raycast in *.
  destruct (optimize_table b) as [Hlength _]. rewrite Hlength.
  pose proof (pickLoop_optimize Raycaster intersectBox distanceTo intersectsSphere
                checkIntersection b p HS HW HB Hix Hp Hsz Hlen
                (loop 0 (tlength (geometryInfo b))) freshSphere rc ints) as H.
  rewrite Hray in H. exact H.
Qed.

(** ** User data and deletion *)

(** X20: [setGeometryInfo] and [getGeometryAt]: the entity id and the
    box-only flag stored for a handle are what the record of that handle
    carries afterwards, whether the region is live or deleted (the call
    does not look at [active]); the offsets, counts, reservations, draw
    range, bounds and the active and visible flags of that record, every
    other record, the buffers, the cursors and the free list stay as
    they are; and for a live region [getGeometryAt] returns that
    record. *)
Theorem setGeometryInfo_getGeometryAt (b b' : Batch) (h : Z) (oid : option string)
        (check : bool) :
  setGeometryInfo b h oid check = Ok b' tt ->
  exists r r',
    tlookup (geometryInfo b) h = Some r
    /\ tlookup (geometryInfo b') h = Some r'
    /\ objectId r' = oid /\ bboxIntersectionCheck r' = check
    /\ vertexStart r' = vertexStart r /\ vertexCount r' = vertexCount r
    /\ reservedVertexCount r' = reservedVertexCount r
    /\ indexStart r' = indexStart r /\ indexCount r' = indexCount r
    /\ reservedIndexCount r' = reservedIndexCount r
    /\ start r' = start r /\ count r' = count r
    /\ boundingBox r' = boundingBox r /\ boundingSphere r' = boundingSphere r
    /\ active r' = active r /\ visible r' = visible r
    /\ (active r = true -> getGeometryAt b' h = Ok b' r')
    /\ (forall h', h' <> h -> tlookup (geometryInfo b') h' = tlookup (geometryInfo b) h')
    /\ geometry b' = geometry b
    /\ nextVertexStart b' = nextVertexStart b
    /\ nextIndexStart b' = nextIndexStart b
    /\ availableGeometryIds b' = availableGeometryIds b.
Proof.
  intros H. destruct (setGeometryInfo_Ok _ _ _ _ _ H) as (r & Hr & ->).
  pose proof (tlookup_Some_range _ _ _ Hr) as Hrange.
  assert (Hslot : tlookup (geometryInfo
                             (with_table b (tset (geometryInfo b) (Z.to_nat h)
                                                 (with_userData r oid check)))) h
                  = Some (with_userData r oid check)).
  { cbn [with_table geometryInfo]. apply tlookup_tset_same_Z. lia. }
  exists r, (with_userData r oid check). split; [exact Hr |]. split; [exact Hslot |].
  do 14 (split; [destruct r; reflexivity |]).
  split; [| split; [| repeat split]].
  - intros Ha. apply getGeometryAt_live; [exact Hslot | destruct r; exact Ha].
  - intros h' Hne. cbn [with_table geometryInfo]. apply tlookup_tset_other.
    rewrite Z2Nat.id by lia. exact Hne.
Qed.

(** X21: [deleteGeometry] only marks: a call that returns leaves the handle
    invalid, so the accessors throw for it; the region's storage is not
    released (the buffers and both tail cursors stay as they are), and
    every other record stays.  When the region was active, its record
    becomes inactive and invisible and the handle is appended to the
    free list; when the handle is past the table or the region was
    deleted already, the batch is exactly as it was; and deleting the
    handle again changes nothing. *)
Theorem deleteGeometry_only_marks (b b' : Batch) (h : Z) :
  deleteGeometry b h = Ok b' tt ->
  deleteGeometry b' h = Ok b' tt
  /\ valueOf (validateGeometryId b' h) = None
  /\ valueOf (getVisibleAt b' h) = None
  /\ valueOf (getGeometryAt b' h) = None
  /\ (forall h', h' <> h -> tlookup (geometryInfo b') h' = tlookup (geometryInfo b) h')
  /\ geometry b' = geometry b
  /\ nextVertexStart b' = nextVertexStart b
  /\ nextIndexStart b' = nextIndexStart b
  /\ tlength (geometryInfo b') = tlength (geometryInfo b)
  /\ (forall r, tlookup (geometryInfo b) h = Some r -> active r = true ->
                availableGeometryIds b' = availableGeometryIds b ++ [Z.to_nat h]
                /\ tlookup (geometryInfo b') h
                   = Some (with_visible (with_active r false) false))
  /\ (tlength (geometryInfo b) <= h
      \/ (exists r, tlookup (geometryInfo b) h = Some r /\ active r = false) ->
      b' = b)
  /\ (tlength (geometryInfo b) <= h
      \/ exists r, tlookup (geometryInfo b) h = Some r).
Proof.
  unfold deleteGeometry.
  destruct (h >=? tlength (geometryInfo b)) eqn:Hout.
  - intros H. injection H as <-. rewrite Hout.
    assert (Hinv : valueOf (validateGeometryId b h) = None).
    { unfold validateGeometryId. rewrite Hout, orb_true_r. reflexivity. }
    apply geb_true_inv in Hout.
    split; [reflexivity |]. split; [exact Hinv |].
    split; [unfold getVisibleAt; destruct (validateGeometryId b h); [discriminate | reflexivity] |].
    split; [unfold getGeometryAt; destruct (validateGeometryId b h); [discriminate | reflexivity] |].
    repeat (split; [reflexivity |]).
    split; [| split; [reflexivity | left; exact Hout]].
    intros r Hr _. apply tlookup_Some_range in Hr. lia.
  - destruct (tlookup (geometryInfo b) h) as [info |] eqn:Hr; [| discriminate].
    pose proof (tlookup_Some_range _ _ _ Hr) as Hrange.
    assert (Hdead : forall c r, tlookup (geometryInfo c) h = Some r -> active r = false ->
                      valueOf (validateGeometryId c h) = None).
    { intros c r Hc Ha. unfold validateGeometryId. rewrite Hc, Ha.
      destruct ((h <? 0) || (h >=? tlength (geometryInfo c))); reflexivity. }
    assert (Hacc : forall c, valueOf (validateGeometryId c h) = None ->
                     valueOf (getVisibleAt c h) = None /\ valueOf (getGeometryAt c h) = None).
    { intros c Hc. unfold getVisibleAt, getGeometryAt.
      destruct (validateGeometryId c h); [discriminate | split; reflexivity]. }
    destruct (active info) eqn:Ha; cbn [negb]; intros H; injection H as <-.
    + cbn [geometryInfo geometry nextVertexStart nextIndexStart availableGeometryIds].
      assert (Hslot : tlookup (tset (geometryInfo b) (Z.to_nat h)
                                    (with_visible (with_active info false) false)) h
                      = Some (with_visible (with_active info false) false))
        by (apply tlookup_tset_same_Z; lia).
      assert (Hlen : tlength (tset (geometryInfo b) (Z.to_nat h)
                                   (with_visible (with_active info false) false))
                     = tlength (geometryInfo b)).
      { unfold tlength. rewrite tset_length_in; [reflexivity |].
        unfold tlength in Hrange. lia. }
      assert (Hinv : valueOf (validateGeometryId
                                (mkBatch (maxVertexCount b) (maxIndexCount b)
                                   (tset (geometryInfo b) (Z.to_nat h)
                                         (with_visible (with_active info false) false))
                                   (availableGeometryIds b ++ [Z.to_nat h])
                                   (nextIndexStart b) (nextVertexStart b) (geometryCount b)
                                   (geometryInitialized b) (geometry b)) h) = None).
      { apply (Hdead _ (with_visible (with_active info false) false));
          [exact Hslot | destruct info; reflexivity]. }
      split.
      { rewrite Hlen, Hout, Hslot.
        replace (active (with_visible (with_active info false) false)) with false
          by (destruct info; reflexivity).
        reflexivity. }
      split; [exact Hinv |]. destruct (Hacc _ Hinv) as [Hv Hg].
      split; [exact Hv |]. split; [exact Hg |].
      split; [intros h' Hne; apply tlookup_tset_other; rewrite Z2Nat.id by lia; exact Hne |].
      repeat (split; [reflexivity |]).
      split; [exact Hlen |].
      split; [intros r Hr0; injection Hr0 as <-; intros _; split; [reflexivity | exact Hslot] |].
      split; [| right; exists info; reflexivity].
      intros [Hpast | (r & Hr0 & Ha0)]; [lia | congruence].
    + rewrite Hout, Hr, Ha. cbn [negb].
      pose proof (Hdead b info Hr Ha) as Hinv. destruct (Hacc _ Hinv) as [Hv Hg].
      split; [reflexivity |]. split; [exact Hinv |]. split; [exact Hv |].
      split; [exact Hg |]. repeat (split; [reflexivity |]).
      split; [intros r Hr0 Ha0; congruence |].
      split; [reflexivity | right; exists info; reflexivity].
Qed.

(** ** The sphere of a region *)






(** ** Resizing the batch *)

(** X23: [setGeometrySize] called directly: when the new capacities cover
    the two tail cursors, the batch invariant holds afterwards, with the table, the cursors, the free list and the
    schema as they were; every attribute array has the length the new
    vertex capacity calls for, holds every reserved vertex range, and
    reads as before wherever the old array reached; the index array
    does so modulo its new element type. *)
Theorem setGeometrySize_keeps_contents (b : Batch) (maxV maxI : Q) :
  Sound b ->
  (inject_Z (nextVertexStart b) <= maxV)%Q ->
  (isSome (index (geometry b)) = true -> (inject_Z (nextIndexStart b) <= maxI)%Q) ->
  Sound (setGeometrySize b maxV maxI)
  /\ geometryInfo (setGeometrySize b maxV maxI) = geometryInfo b
  /\ nextVertexStart (setGeometrySize b maxV maxI) = nextVertexStart b
  /\ nextIndexStart (setGeometrySize b maxV maxI) = nextIndexStart b
  /\ availableGeometryIds (setGeometrySize b maxV maxI) = availableGeometryIds b
  /\ maxVertexCount (setGeometrySize b maxV maxI) = maxV
  /\ maxIndexCount (setGeometrySize b maxV maxI) = maxI
  /\ schemaOf (geometry (setGeometrySize b maxV maxI)) = schemaOf (geometry b)
  /\ (forall name a,
        lookupAttr name (attributes (geometry b)) = Some a -> 0 <= itemSize a ->
        exists a',
          lookupAttr name (attributes (geometry (setGeometrySize b maxV maxI))) = Some a'
          /\ itemSize a' = itemSize a
          /\ len (array a') = toLength (maxV * inject_Z (itemSize a))%Q
          /\ nextVertexStart b * itemSize a <= len (array a')
          /\ forall q, q < len (array a') -> get (array a') q = get (array a) q)
  /\ (forall ix,
        index (geometry b) = Some ix ->
        exists ix',
          index (geometry (setGeometrySize b maxV maxI)) = Some ix'
          /\ ikind ix' = (if Qgtb maxV 65535 then Uint32 else Uint16)
          /\ icount ix' = toLength maxI
          /\ nextIndexStart b <= icount ix'
          /\ forall q, q < icount ix' ->
                       getX ix' q = getX ix q mod index_modulus (ikind ix')).
Proof.
  intros HS HV HI.
  pose proof (sound_initialized b HS) as Hinit.
  pose proof (sound_keys b HS) as Hkeys.
  destruct (setGeometrySize_fields b maxV maxI)
    as (Ht & Hfree & Hni & Hnv & Hcount & Hini & HmV & HmI).
  pose proof (setGeometrySize_attributes b maxV maxI Hinit Hkeys) as Hattrs.
  pose proof (setGeometrySize_index b maxV maxI Hinit) as Hindex.
  assert (Hpresence : isSome (index (geometry (setGeometrySize b maxV maxI)))
                      = isSome (index (geometry b)))
    by (rewrite Hindex; destruct (index (geometry b)); reflexivity).
  destruct (sound_vcap b HS) as [HV0 _].
  split.
  { constructor.
    - rewrite Hini. exact Hinit.
    - rewrite Hcount, Ht. apply (sound_count b HS).
    - rewrite Hfree, Ht. apply (sound_free b HS).
    - rewrite Hattrs, map_map. cbn [fst]. exact Hkeys.
    - rewrite Hnv, Ht. apply (sound_vertex b HS).
    - rewrite Hpresence, Hni, Ht. apply (sound_index b HS).
    - rewrite Hnv, HmV. split; assumption.
    - rewrite Hpresence, Hni, HmI. intros Hix.
      split; [apply (sound_icap b HS Hix) | apply HI; exact Hix].
    - intros ix2. rewrite Hindex, HmV.
      destruct (index (geometry b)) as [o |]; cbn [option_map]; [| discriminate].
      intros H. injection H as <-. apply resizedIndex_indexOk.
    - rewrite Hfree, Ht. apply (sound_free_deleted b HS).
    - rewrite Hfree. apply (sound_free_distinct b HS). }
  split; [exact Ht |]. split; [exact Hnv |]. split; [exact Hni |].
  split; [exact Hfree |]. split; [exact HmV |]. split; [exact HmI |].
  split; [apply setGeometrySize_schema; assumption |].
  split.
  - intros name a Hlk Hsz. exists (resizedAttr maxV a).
    split; [rewrite Hattrs, lookupAttr_map, Hlk; reflexivity |].
    split; [reflexivity |].
    assert (Hlen : len (array (resizedAttr maxV a))
                   = toLength (maxV * inject_Z (itemSize a))%Q).
    { unfold resizedAttr. cbn [array]. rewrite len_copyArrayContents_zeros.
      pose proof (toLength_nonneg (maxV * inject_Z (itemSize a))%Q). lia. }
    split; [exact Hlen |].
    split; [rewrite Hlen; apply toLength_ge; assumption |].
    intros q Hq. apply resizedAttr_get. rewrite <- Hlen. exact Hq.
  - intros ix Hix. exists (resizedIndex maxV maxI ix).
    split; [rewrite Hindex, Hix; reflexivity |].
    split; [reflexivity |].
    assert (Hlen : icount (resizedIndex maxV maxI ix) = toLength maxI).
    { unfold icount, resizedIndex. cbn [idata]. rewrite len_copyArrayContents_zeros.
      pose proof (toLength_nonneg maxI). lia. }
    split; [exact Hlen |].
    split.
    { rewrite Hlen.
      assert (Hindexed : isSome (index (geometry b)) = true) by (rewrite Hix; reflexivity).
      pose proof (toLength_ge maxI (nextIndexStart b) 1) as H.
      rewrite Z.mul_1_r in H. unfold toLength in *.
      assert (Heq : (maxI * inject_Z 1 == maxI)%Q)
        by (change (inject_Z 1) with 1%Q; apply Qmult_1_r).
      rewrite Heq in H. apply H; [lia | apply HI; exact Hindexed]. }
    intros q Hq. rewrite Hlen in Hq. unfold getX at 1. unfold resizedIndex at 1.
    cbn [idata]. rewrite get_copyArrayContents_zeros by exact Hq.
    rewrite get_map_mod. reflexivity.
Qed.

(** ** The further properties at the example batches *)

Lemma table_forall (t : Table) (P : GeometryInfo -> Prop) :
  Forall (fun o => match o with Some r => P r | None => True end) t ->
  forall i r, tlookup t i = Some r -> P r.
Proof.
  intros H i r Hr. apply tlookup_In in Hr. rewrite Forall_forall in H.
  apply (H _ Hr).
Qed.

Lemma dense_table (b : Batch) :
  Forall (fun o : option GeometryInfo => o <> None) (geometryInfo b) -> Dense b.
Proof.
  intros H i Hi Hnone. unfold tlookup in Hnone. unfold tlength in Hi.
  destruct (i <? 0) eqn:Hneg; [apply Z.ltb_lt in Hneg; lia |].
  destruct (nth_error (geometryInfo b) (Z.to_nat i)) as [o |] eqn:Hn.
  - rewrite Forall_forall in H. specialize (H o (nth_error_In _ _ Hn)).
    destruct o; [discriminate | contradiction].
  - apply nth_error_None in Hn. lia.
Qed.

Lemma sized_attributes (b : Batch) :
  Forall (fun na : string * BufferAttribute =>
            len (array (snd na))
            = toLength (maxVertexCount b * inject_Z (itemSize (snd na)))%Q)
         (attributes (geometry b)) ->
  (forall ix, index (geometry b) = Some ix -> icount ix = toLength (maxIndexCount b)) ->
  Sized b.
Proof.
  intros H Hix. split; [| exact Hix].
  intros name a Hlk. apply lookupAttr_In in Hlk. rewrite Forall_forall in H.
  apply (H _ Hlk).
Qed.

Ltac table_check :=
  vm_compute;
  repeat (apply Forall_cons;
          [vm_compute; repeat split; intros; try discriminate; try reflexivity |]);
  apply Forall_nil.

Fact start_sound : Sound (initializeGeometry newBatchDefault (Examples.segment 0)).
Proof. apply (initializeGeometry_new_sound 1000 (1000 * 2)%Q); discriminate. Qed.

Fact start_established :
  Established (initializeGeometry newBatchDefault (Examples.segment 0)).
Proof.
  split; [vm_compute; reflexivity |].
  split; [apply (sound_keys _ start_sound) |].
  split; [discriminate |]. split; [discriminate |].
  apply sized_attributes.
  - table_check.
  - intros ix H. vm_compute in H. injection H as <-. vm_compute. reflexivity.
Qed.

Fact i1_tight : Sound Examples.i1 /\ Tight Examples.i1.
Proof.
  apply (first_insertion_tight 1000 (1000 * 2)%Q (Examples.segment 0) Examples.i1 0);
    [discriminate | discriminate | apply payload_ok | vm_compute; reflexivity].
Qed.

Fact i1_established : Established Examples.i1.
Proof.
  exact (proj1 (addInitialized_established _ (Examples.segment 0) (-1) (-1)
                  start_established (payload_ok _ _))).
Qed.

Fact i2_tight : Sound Examples.i2 /\ Tight Examples.i2.
Proof.
  destruct i1_tight as [HS HT]. apply (tightStep_invariant Examples.i1 _ HS HT).
  apply (tightStep_addGeometry _ (Examples.segment 10) _ 1);
    [apply payload_ok | vm_compute; reflexivity].
Qed.

Fact i3_tight : Sound Examples.i3 /\ Tight Examples.i3.
Proof.
  destruct i2_tight as [HS HT]. apply (tightStep_invariant Examples.i2 _ HS HT).
  apply (tightStep_addGeometry _ (Examples.segment 20) _ 2);
    [apply payload_ok | vm_compute; reflexivity].
Qed.

Fact i4_tight : Sound Examples.i4 /\ Tight Examples.i4.
Proof.
  destruct i3_tight as [HS HT]. apply (tightStep_invariant Examples.i3 _ HS HT).
  apply (tightStep_deleteGeometry _ 0). vm_compute. reflexivity.
Qed.

Fact s4_sound : Sound Scenario.s4.
Proof.
  assert (H1 : Sound Scenario.s1).
  { apply (first_insertion_sound 1000 (1000 * 2)%Q Scenario.fourVertices (-1) (-1) _ 0);
      [discriminate | discriminate | apply payload_ok | vm_compute; reflexivity]. }
  assert (H2 : Sound Scenario.s2).
  { apply (addGeometry_sound Scenario.s1 Scenario.sixVertices (-1) (-1) _ 1 H1);
      [apply payload_ok | vm_compute; reflexivity]. }
  assert (H3 : Sound Scenario.s3).
  { apply (deleteGeometry_sound Scenario.s2 0 _ H2). vm_compute. reflexivity. }
  apply (addGeometry_sound Scenario.s3 Scenario.fourAgain (-1) (-1) _ 0 H3);
    [apply payload_ok | vm_compute; reflexivity].
Qed.

Fact s4_written : Written Scenario.s4.
Proof.
  intros i r Hr Ha. revert Ha. revert i r Hr.
  apply (table_forall (geometryInfo Scenario.s4)
           (fun r => active r = true ->
                     0 < vertexCount r <= reservedVertexCount r
                     /\ start r = vertexStart r /\ count r = vertexCount r)).
  table_check.
Qed.

Fact s4_stored : Stored Scenario.s4.
Proof.
  intros i r Hr Ha. revert Ha. revert i r Hr.
  apply (table_forall (geometryInfo Scenario.s4)
           (fun r => active r = true ->
                     boundingBox r <> None /\ boundingSphere r <> None)).
  table_check.
Qed.

Fact i3_dense : Dense Examples.i3.
Proof. apply dense_table. table_check. Qed.

Fact i3_boxes (i : Z) (r : GeometryInfo) :
  tlookup (geometryInfo Examples.i3) i = Some r ->
  bboxIntersectionCheck r = true -> boundingBox r <> None.
Proof.
  revert i r.
  apply (table_forall (geometryInfo Examples.i3)
           (fun r => bboxIntersectionCheck r = true -> boundingBox r <> None)).
  table_check.
Qed.

(** X1 at the batch of three segments: hiding handle 1. *)
Lemma setVisibleAt_getVisibleAt_witness :
  let b' := stateOf (setVisibleAt Examples.i3 1 false) in
  getVisibleAt b' 1 = Ok b' false
  /\ valueOf (getVisibleAt b' 2) = valueOf (getVisibleAt Examples.i3 2)
  /\ geometry b' = geometry Examples.i3.
Proof.
  intros b'.
  assert (Hset : setVisibleAt Examples.i3 1 false = Ok b' tt) by (vm_compute; reflexivity).
  destruct (setVisibleAt_getVisibleAt Examples.i3 b' 1 false Hset)
    as (Hget & Hother & _ & Hgeom & _).
  split; [exact Hget |]. split; [apply Hother; discriminate | exact Hgeom].
Defined.

(** X2 at the first insertion into a new batch. *)
Lemma addGeometry_getGeometryAt_witness :
  exists r, getGeometryAt Examples.i1 0 = Ok Examples.i1 r
            /\ getVisibleAt Examples.i1 0 = Ok Examples.i1 true
            /\ vertexStart r = 0
            /\ nextVertexStart Examples.i1 = vertexStart r + reservedVertexCount r.
Proof.
  assert (Hadd : addGeometry newBatchDefault (Examples.segment 0) (-1) (-1)
                 = Ok Examples.i1 0) by (vm_compute; reflexivity).
  destruct (addGeometry_getGeometryAt newBatchDefault (Examples.segment 0) (-1) (-1)
              Examples.i1 0 start_sound Hadd)
    as (r & p & _ & Hget & Hvis & Hvs & _ & _ & _ & Hnext & _).
  exists r. split; [exact Hget |]. split; [exact Hvis |].
  split; [exact Hvs | exact Hnext].
Defined.

(** X3 over two insertions and a deletion. *)
Lemma established_layout_is_fixed_witness :
  Established Examples.i4
  /\ schemaOf (geometry Examples.i4) = schemaOf (geometry Examples.i1).
Proof.
  assert (Hrun : reaches Examples.i1 Examples.i4).
  { apply (reaches_step _ Examples.i2);
      [apply (step_addGeometry Examples.i1 (Examples.segment 10) (-1) (-1));
       apply payload_ok |].
    apply (reaches_step _ Examples.i3);
      [apply (step_addGeometry Examples.i2 (Examples.segment 20) (-1) (-1));
       apply payload_ok |].
    apply (reaches_step _ Examples.i4);
      [apply (step_deleteGeometry Examples.i3 0) | apply reaches_refl]. }
  destruct (established_layout_is_fixed Examples.i1 Examples.i4 i1_established Hrun)
    as (Hest & Hschema & _).
  split; [exact Hest | exact Hschema].
Defined.

(** X4 at the second segment of the example batch, whose vertices start
    at offset 2. *)
Lemma addGeometry_stores_indices_witness :
  exists r ix',
    tlookup (geometryInfo Examples.i2) 1 = Some r
    /\ index (geometry Examples.i2) = Some ix'
    /\ getX ix' (indexStart r + 1) = vertexStart r + 1.
Proof.
  assert (Hinit : initializeGeometry Examples.i1 (Examples.segment 10) = Examples.i1)
    by (vm_compute; reflexivity).
  assert (HS : Sound (initializeGeometry Examples.i1 (Examples.segment 10)))
    by (rewrite Hinit; exact (proj1 i1_tight)).
  assert (HE : Established (initializeGeometry Examples.i1 (Examples.segment 10)))
    by (rewrite Hinit; exact i1_established).
  assert (Hadd : addGeometry Examples.i1 (Examples.segment 10) (-1) (-1)
                 = Ok Examples.i2 1) by (vm_compute; reflexivity).
  assert (Hvals : forall i, 0 <= i < icount (mkIndex Uint16 [0; 1]) ->
                            0 <= getX (mkIndex Uint16 [0; 1]) i
                            < count_of (mkAttr (lineAlongX 10 2) 3 false)).
  { intros i Hi. change (icount (mkIndex Uint16 [0; 1])) with 2 in Hi.
    assert (Hcase : i = 0 \/ i = 1) by lia.
    destruct Hcase as [-> | ->]; vm_compute; split; congruence. }
  destruct (addGeometry_stores_indices Examples.i1 (Examples.segment 10) (-1) (-1)
              Examples.i2 1 (mkIndex Uint16 [0; 1]) (mkAttr (lineAlongX 10 2) 3 false)
              HS HE (payload_ok _ _) Hadd eq_refl eq_refl Hvals eq_refl)
    as (r & ix' & Hr & Hix & Hdata & _).
  exists r, ix'. split; [exact Hr |]. split; [exact Hix |].
  apply (Hdata 1). vm_compute. split; congruence.
Defined.

Fact s4_tight : Sound Scenario.s4 /\ Tight Scenario.s4.
Proof.
  assert (H1 : Sound Scenario.s1 /\ Tight Scenario.s1).
  { apply (first_insertion_tight 1000 (1000 * 2)%Q Scenario.fourVertices Scenario.s1 0);
      [discriminate | discriminate | apply payload_ok | vm_compute; reflexivity]. }
  assert (H2 : Sound Scenario.s2 /\ Tight Scenario.s2).
  { apply (tightStep_invariant Scenario.s1 _ (proj1 H1) (proj2 H1)).
    apply (tightStep_addGeometry _ Scenario.sixVertices _ 1);
      [apply payload_ok | vm_compute; reflexivity]. }
  assert (H3 : Sound Scenario.s3 /\ Tight Scenario.s3).
  { apply (tightStep_invariant Scenario.s2 _ (proj1 H2) (proj2 H2)).
    apply (tightStep_deleteGeometry _ 0). vm_compute. reflexivity. }
  apply (tightStep_invariant Scenario.s3 _ (proj1 H3) (proj2 H3)).
  apply (tightStep_addGeometry _ Scenario.fourAgain _ 0);
    [apply payload_ok | vm_compute; reflexivity].
Qed.

Fact scenario_start_established :
  Established (initializeGeometry newBatchDefault Scenario.fourVertices).
Proof.
  assert (HS : Sound (initializeGeometry newBatchDefault Scenario.fourVertices))
    by (apply (initializeGeometry_new_sound 1000 (1000 * 2)%Q); discriminate).
  split; [vm_compute; reflexivity |].
  split; [apply (sound_keys _ HS) |].
  split; [discriminate |]. split; [discriminate |].
  apply sized_attributes.
  - table_check.
  - intros ix H. vm_compute in H. discriminate.
Qed.

Fact s1_established : Established Scenario.s1.
Proof.
  exact (proj1 (addInitialized_established _ Scenario.fourVertices (-1) (-1)
                  scenario_start_established (payload_ok _ _))).
Qed.

Fact s2_established : Established Scenario.s2.
Proof.
  assert (Hinit : initializeGeometry Scenario.s1 Scenario.sixVertices = Scenario.s1)
    by (vm_compute; reflexivity).
  assert (HE : Established (initializeGeometry Scenario.s1 Scenario.sixVertices))
    by (rewrite Hinit; exact s1_established).
  exact (proj1 (addInitialized_established _ Scenario.sixVertices (-1) (-1)
                  HE (payload_ok _ _))).
Qed.

Fact s3_established : Established Scenario.s3.
Proof.
  apply (established_same_buffers Scenario.s2 Scenario.s3);
    [vm_compute; reflexivity | vm_compute; reflexivity | vm_compute; reflexivity
     | vm_compute; reflexivity | exact s2_established].
Qed.

Fact s4_established : Established Scenario.s4.
Proof.
  assert (Hinit : initializeGeometry Scenario.s3 Scenario.fourAgain = Scenario.s3)
    by (vm_compute; reflexivity).
  assert (HE : Established (initializeGeometry Scenario.s3 Scenario.fourAgain))
    by (rewrite Hinit; exact s3_established).
  exact (proj1 (addInitialized_established _ Scenario.fourAgain (-1) (-1)
                  HE (payload_ok _ _))).
Qed.

Fact packed_s4_ready :
  Sound (initializeGeometry (optimize Scenario.s4) (payload (lineAlongX 50 2) None))
  /\ Established (initializeGeometry (optimize Scenario.s4)
                                     (payload (lineAlongX 50 2) None)).
Proof.
  assert (Hinit : initializeGeometry (optimize Scenario.s4) (payload (lineAlongX 50 2) None)
                  = optimize Scenario.s4) by (vm_compute; reflexivity).
  rewrite Hinit.
  split.
  - exact (proj1 (optimize_sound_tight Scenario.s4 (proj1 s4_tight) (proj2 s4_tight))).
  - exact (proj1 (optimize_established Scenario.s4 s4_established)).
Qed.

Fact packed_s4_add :
  addGeometry (optimize Scenario.s4) (payload (lineAlongX 50 2) None) 4 (-1)
  = Ok (stateOf (addGeometry (optimize Scenario.s4) (payload (lineAlongX 50 2) None)
                             4 (-1))) 2.
Proof. vm_compute. reflexivity. Qed.

Fact packed_s4_position :
  exists old new r,
    lookupAttr "position" (attributes (geometry (optimize Scenario.s4))) = Some old
    /\ getComponent old 12 0 = 22 /\ getComponent old 13 0 = 23
    /\ lookupAttr "position"
         (attributes (geometry (stateOf (addGeometry (optimize Scenario.s4)
                                                     (payload (lineAlongX 50 2) None)
                                                     4 (-1))))) = Some new
    /\ tlookup (geometryInfo (stateOf (addGeometry (optimize Scenario.s4)
                                                   (payload (lineAlongX 50 2) None)
                                                   4 (-1)))) 2 = Some r
    /\ vertexStart r = 10 /\ reservedVertexCount r = 4.
Proof.
  destruct (lookupAttr "position" (attributes (geometry (optimize Scenario.s4))))
    as [old |] eqn:Hold; [| vm_compute in Hold; discriminate].
  destruct (lookupAttr "position"
              (attributes (geometry (stateOf (addGeometry (optimize Scenario.s4)
                                                          (payload (lineAlongX 50 2) None)
                                                          4 (-1))))))
    as [new |] eqn:Hnew; [| vm_compute in Hnew; discriminate].
  destruct (tlookup (geometryInfo (stateOf (addGeometry (optimize Scenario.s4)
                                                        (payload (lineAlongX 50 2) None)
                                                        4 (-1)))) 2)
    as [r |] eqn:Hr; [| vm_compute in Hr; discriminate].
  exists old, new, r.
  vm_compute in Hold. injection Hold as <-.
  vm_compute in Hr. injection Hr as <-.
  repeat split; vm_compute; reflexivity.
Qed.

(** X5 at the compacted scenario batch, whose position array still
    holds the vertices 22 and 23 of an earlier layout beyond the packed
    end: a two-vertex payload inserted with a reservation of four
    vertices lands at [10,14), and positions 12 and 13 read zero. *)
Lemma addGeometry_zero_fills_reservation_witness :
  exists old new,
    lookupAttr "position" (attributes (geometry (optimize Scenario.s4))) = Some old
    /\ getComponent old 12 0 = 22 /\ getComponent old 13 0 = 23
    /\ lookupAttr "position"
         (attributes (geometry (stateOf (addGeometry (optimize Scenario.s4)
                                                     (payload (lineAlongX 50 2) None)
                                                     4 (-1))))) = Some new
    /\ getComponent new 12 0 = 0 /\ getComponent new 13 0 = 0.
Proof.
  destruct packed_s4_position as (old & new & r & Hold & H12 & H13 & Hnew & Hr & Hvs & Hrv).
  destruct (addGeometry_zero_fills_reservation (optimize Scenario.s4)
              (payload (lineAlongX 50 2) None) 4 (-1) _ 2 "position" new
              (proj1 packed_s4_ready) (proj2 packed_s4_ready) (payload_ok _ _)
              packed_s4_add Hnew)
    as (r' & src & Hr' & Hsrc & _ & Hzero).
  assert (Heq : r' = r) by congruence. subst r'.
  injection Hsrc as <-. rewrite Hvs, Hrv in Hzero.
  exists old, new. split; [exact Hold |]. split; [exact H12 |]. split; [exact H13 |].
  split; [exact Hnew |].
  assert (Hsz : 0 <= itemSize (mkAttr (lineAlongX 50 2) 3 false)) by (cbn; lia).
  assert (Hcount : count_of (mkAttr (lineAlongX 50 2) 3 false) <= 4)
    by (vm_compute; discriminate).
  assert (Hc : 0 <= 0 < itemSize (mkAttr (lineAlongX 50 2) 3 false)) by (cbn; lia).
  assert (H2 : count_of (mkAttr (lineAlongX 50 2) 3 false) <= 2 < 4)
    by (vm_compute; split; [discriminate | reflexivity]).
  assert (H3 : count_of (mkAttr (lineAlongX 50 2) 3 false) <= 3 < 4)
    by (vm_compute; split; [discriminate | reflexivity]).
  split; [exact (Hzero Hsz Hcount 2 0 H2 Hc) | exact (Hzero Hsz Hcount 3 0 H3 Hc)].
Defined.


(** X6 at the batch of three segments: handle 1 is written again. *)
Lemma setGeometryAt_stays_in_reservation_witness :
  let b' := stateOf (setGeometryAt Examples.i3 1 (Examples.segment 50)) in
  tlookup (geometryInfo b') 0 = tlookup (geometryInfo Examples.i3) 0
  /\ tlookup (geometryInfo b') 2 = tlookup (geometryInfo Examples.i3) 2
  /\ nextVertexStart b' = nextVertexStart Examples.i3
  /\ availableGeometryIds b' = availableGeometryIds Examples.i3.
Proof.
  intros b'.
  assert (Hset : setGeometryAt Examples.i3 1 (Examples.segment 50) = Ok b' 1)
    by (vm_compute; reflexivity).
  destruct (setGeometryAt_stays_in_reservation Examples.i3 1 (Examples.segment 50) b' 1 Hset)
    as (r & _ & _ & _ & Hother & Hnext & _ & Hfree).
  split; [apply Hother; discriminate |]. split; [apply Hother; discriminate |].
  split; [exact Hnext | exact Hfree].
Defined.

(** X8 for the pick ray through (10, 0) over the three segments. *)
Lemma raycast_returns_witness :
  exists b' out, PickRay.raycast Examples.i3 (10, 0) = Ok b' out.
Proof.
  destruct (lookupAttr "position" (attributes (geometry Examples.i3))) as [p |] eqn:Hlk;
    [| vm_compute in Hlk; discriminate].
  exact (raycast_returns PickRay.Ray PickRay.intersectBox
           PickRay.distanceTo PickRay.intersectsSphere PickRay.checkIntersection
           Examples.i3 (10, 0) [] p i3_dense Hlk i3_boxes).
Defined.

(** X11 at the batch of three segments with handle 0 deleted. *)
Lemma optimize_keeps_invariant_witness :
  Sound (optimize Examples.i4) /\ Tight (optimize Examples.i4)
  /\ nextVertexStart (optimize Examples.i4) <= nextVertexStart Examples.i4.
Proof.
  destruct (optimize_keeps_invariant Examples.i4 (proj1 i4_tight) (proj2 i4_tight))
    as (HS & HT & Hcur & _).
  split; [exact HS |]. split; [exact HT | exact Hcur].
Defined.

(** X12 over three insertions, a deletion and a compaction. *)
Lemma tight_workload_keeps_invariant_witness :
  Sound (optimize Examples.i4) /\ Tight (optimize Examples.i4).
Proof.
  apply (tight_workload_keeps_invariant Examples.i1 (optimize Examples.i4)
           (proj1 i1_tight) (proj2 i1_tight)).
  apply (tightRun_step _ Examples.i2);
    [apply (tightStep_addGeometry _ (Examples.segment 10) _ 1);
     [apply payload_ok | vm_compute; reflexivity] |].
  apply (tightRun_step _ Examples.i3);
    [apply (tightStep_addGeometry _ (Examples.segment 20) _ 2);
     [apply payload_ok | vm_compute; reflexivity] |].
  apply (tightRun_step _ Examples.i4);
    [apply (tightStep_deleteGeometry _ 0); vm_compute; reflexivity |].
  apply (tightRun_step _ (optimize Examples.i4)); [apply tightStep_optimize |].
  apply tightRun_refl.
Defined.


(** X14 at handle 1 of the three segments, written again with a payload
    that brings no box. *)
Lemma getBoundingBoxAt_computes_once_witness :
  let b := stateOf (setGeometryAt Examples.i3 1 (Examples.segment 50)) in
  exists b' box,
    getBoundingBoxAt b 1 = Ok b' (Some box)
    /\ getBoundingBoxAt b' 1 = Ok b' (Some box)
    /\ cachesOnly b b'.
Proof.
  intros b.
  destruct (getBoundingBoxAt b 1) as [b' [box |] | e s] eqn:Hbox;
    [| vm_compute in Hbox; discriminate | vm_compute in Hbox; discriminate].
  destruct (getBoundingBoxAt_computes_once b b' 1 box Hbox) as (Hagain & Hc & _).
  exists b', box. split; [reflexivity |]. split; [exact Hagain | exact Hc].
Defined.

(** X15 at the batch of three indexed segments and a payload without
    index. *)
Lemma reset_keeps_the_schema_witness :
  exists e s,
    addGeometry (AcTrBatchedLine.batch
                   (AcTrBatchedLine.reset (AcTrBatchedLine.mkLine Examples.i3 None None)))
                (payload (lineAlongX 0 2) None) (-1) (-1) = Throw e s
    /\ isSchemaMismatch e = true
    /\ geometryInfo s = [] /\ nextVertexStart s = 0.
Proof.
  apply (reset_keeps_the_schema (AcTrBatchedLine.mkLine Examples.i3 None None)
           (payload (lineAlongX 0 2) None) (-1) (-1)).
  left. split; vm_compute; reflexivity.
Defined.

(** X16 at the batch of three segments and one more segment. *)
Lemma reset_then_addGeometry_witness :
  exists b' r,
    addGeometry (AcTrBatchedLine.batch
                   (AcTrBatchedLine.reset (AcTrBatchedLine.mkLine Examples.i3 None None)))
                (Examples.segment 30) (-1) (-1) = Ok b' 0
    /\ Sound b'
    /\ tlookup (geometryInfo b') 0 = Some r
    /\ active r = true /\ vertexStart r = 0
    /\ (forall i, i <> 0 -> tlookup (geometryInfo b') i = None).
Proof.
  destruct (reset_then_addGeometry (AcTrBatchedLine.mkLine Examples.i3 None None)
              (Examples.segment 30) (mkAttr (lineAlongX 30 2) 3 false)
              (proj1 i3_tight)
              ltac:(vm_compute; congruence)
              (payload_ok _ _)
              ltac:(cbn; constructor; [intros [] | constructor])
              ltac:(vm_compute; reflexivity)
              eq_refl)
    as (b' & r & Hadd & HS & Hr & Ha & Hvs & Hother & _).
  exists b', r. split; [exact Hadd |]. split; [exact HS |]. split; [exact Hr |].
  split; [exact Ha |]. split; [exact Hvs | exact Hother].
Defined.

(** X18 at the three segments, copied into a new object: the segment
    added to the copy gets handle 3 and vertex offset 0, where handle 0
    lies. *)
Lemma copy_then_addGeometry_witness :
  let source := AcTrBatchedLine.mkLine Examples.i3 None None in
  let b' := stateOf (addGeometry
                       (AcTrBatchedLine.batch
                          (AcTrBatchedLine.copy (AcTrBatchedLine.create 1000 2000) source))
                       (Examples.segment 30) (-1) (-1)) in
  exists r',
    tlookup (geometryInfo b') 3 = Some r'
    /\ active r' = true /\ vertexStart r' = 0
    /\ ~ rangesOk vertexStart reservedVertexCount (nextVertexStart b') (geometryInfo b').
Proof.
  intros source b'.
  assert (Hadd : addGeometry
                   (AcTrBatchedLine.batch
                      (AcTrBatchedLine.copy (AcTrBatchedLine.create 1000 2000) source))
                   (Examples.segment 30) (-1) (-1) = Ok b' 3)
    by (vm_compute; reflexivity).
  destruct (copy_then_addGeometry source 1000 2000 (Examples.segment 30) (-1) (-1) b' 3
              (proj1 i3_tight) Hadd) as (_ & _ & r' & Hr' & Ha & Hvs & Hclash).
  exists r'. split; [exact Hr' |]. split; [exact Ha |]. split; [exact Hvs |].
  destruct (tlookup (geometryInfo Examples.i3) 0) as [r |] eqn:Hr;
    [| vm_compute in Hr; discriminate].
  apply (Hclash 0 r Hr).
  - vm_compute in Hr. injection Hr as <-. reflexivity.
  - vm_compute in Hr. injection Hr as <-. reflexivity.
  - vm_compute in Hr. injection Hr as <-. reflexivity.
  - vm_compute in Hr'. injection Hr' as <-. reflexivity.
Defined.

Fact i3_pick :
  exists b' out, (raycast PickRay.Ray PickRay.intersectBox PickRay.distanceTo
            PickRay.intersectsSphere PickRay.checkIntersection
            Examples.i3 (10, 0) []) = Ok b' out /\ out <> [].
Proof.
  destruct ((raycast PickRay.Ray PickRay.intersectBox PickRay.distanceTo
            PickRay.intersectsSphere PickRay.checkIntersection
            Examples.i3 (10, 0) [])) as [b' out | e s] eqn:Hres;
    [| vm_compute in Hres; discriminate].
  exists b', out. split; [reflexivity |].
  vm_compute in Hres. injection Hres as _ <-. discriminate.
Qed.

Fact i3_hidden_pick :
  exists b' out,
    (raycast PickRay.Ray PickRay.intersectBox PickRay.distanceTo
            PickRay.intersectsSphere PickRay.checkIntersection
            (stateOf (setVisibleAt Examples.i3 1 false)) (10, 0) []) = Ok b' out.
Proof.
  destruct ((raycast PickRay.Ray PickRay.intersectBox PickRay.distanceTo
            PickRay.intersectsSphere PickRay.checkIntersection
            (stateOf (setVisibleAt Examples.i3 1 false)) (10, 0) []))
    as [b' out | e s] eqn:Hres; [| vm_compute in Hres; discriminate].
  exists b', out. reflexivity.
Qed.

Fact i3_hide : setVisibleAt Examples.i3 1 false
               = Ok (stateOf (setVisibleAt Examples.i3 1 false)) tt.
Proof. vm_compute. reflexivity. Qed.

Fact i4_box :
  AcTrBatchedLine.computeBoundingBox (AcTrBatchedLine.mkLine Examples.i4 None None)
  = AcTrBatchedLine.LineOk
      (AcTrBatchedLine.mkLine Examples.i4 (Some (Box (mkVec 10 0 0) (mkVec 21 0 0))) None).
Proof. vm_compute. reflexivity. Qed.

Fact i4_boxes_inside (i : Z) (r : GeometryInfo) (bx : Box3) :
  tlookup (geometryInfo (AcTrBatchedLine.batch
                          (AcTrBatchedLine.mkLine Examples.i4 None None))) i = Some r ->
  active r = true ->
  boundingBox r = Some bx ->
  containsBox (Box (mkVec 0 (-5) (-5)) (mkVec 30 5 5)) bx = true.
Proof.
  cbn [AcTrBatchedLine.batch].
  intros Hr Ha Hbx. revert Ha bx Hbx. revert i r Hr.
  apply (table_forall (geometryInfo Examples.i4)
           (fun r => active r = true -> forall bx, boundingBox r = Some bx ->
                     containsBox (Box (mkVec 0 (-5) (-5)) (mkVec 30 5 5)) bx = true)).
  vm_compute.
  repeat (apply Forall_cons;
          [vm_compute; intros Ha bx Hbx; try discriminate;
           injection Hbx as <-; reflexivity |]).
  apply Forall_nil.
Qed.

Fact s4_no_index : index (geometry Scenario.s4) = None.
Proof. vm_compute. reflexivity. Qed.

Fact s4_position :
  exists p, lookupAttr "position" (attributes (geometry Scenario.s4)) = Some p
            /\ 3 <= itemSize p
            /\ nextVertexStart Scenario.s4 * itemSize p <= len (array p).
Proof.
  destruct (lookupAttr "position" (attributes (geometry Scenario.s4))) as [p |] eqn:Hlk;
    [| vm_compute in Hlk; discriminate].
  exists p. split; [reflexivity |].
  vm_compute in Hlk. injection Hlk as <-. split; vm_compute; congruence.
Qed.

Fact s4_pick :
  exists b' out, (raycast PickRay.Ray PickRay.intersectBox PickRay.distanceTo
            PickRay.intersectsSphere PickRay.checkIntersection
            Scenario.s4 (12, 0) []) = Ok b' out /\ out <> [].
Proof.
  destruct ((raycast PickRay.Ray PickRay.intersectBox PickRay.distanceTo
            PickRay.intersectsSphere PickRay.checkIntersection
            Scenario.s4 (12, 0) [])) as [b' out | e s] eqn:Hres;
    [| vm_compute in Hres; discriminate].
  exists b', out. split; [reflexivity |].
  vm_compute in Hres. injection Hres as _ <-. discriminate.
Qed.

(** X7 for the pick ray through (10, 0) over the three segments. *)
Lemma raycast_reports_visible_regions_witness :
  exists b' out hits,
    (raycast PickRay.Ray PickRay.intersectBox PickRay.distanceTo
            PickRay.intersectsSphere PickRay.checkIntersection
            Examples.i3 (10, 0) []) = Ok b' out
    /\ cachesOnly Examples.i3 b'
    /\ out = [] ++ hits
    /\ forall x, In x hits ->
         exists r, tlookup (geometryInfo Examples.i3) (batchId x) = Some r
                   /\ active r = true /\ visible r = true.
Proof.
  destruct i3_pick as (b' & out & Hres & _).
  destruct (raycast_reports_visible_regions PickRay.Ray PickRay.intersectBox
              PickRay.distanceTo PickRay.intersectsSphere PickRay.checkIntersection
              Examples.i3 (10, 0) [] b' out Hres) as (Hc & hits & Hout & Hall).
  exists b', out, hits. split; [exact Hres |]. split; [exact Hc |].
  split; [exact Hout |].
  intros x Hx. destruct (Hall x Hx) as (r & Hr & Ha & Hv & _).
  exists r. split; [exact Hr |]. split; [exact Ha | exact Hv].
Defined.

(** X9 at the three segments with handle 1 hidden: the pick ray through
    (10, 0), which runs through its segment, does not report it. *)
Lemma raycast_after_table_updates_witness :
  exists b2 out hits,
    (raycast PickRay.Ray PickRay.intersectBox PickRay.distanceTo
            PickRay.intersectsSphere PickRay.checkIntersection
            (stateOf (setVisibleAt Examples.i3 1 false)) (10, 0) []) = Ok b2 out
    /\ out = [] ++ hits
    /\ forall x, In x hits -> batchId x <> 1.
Proof.
  destruct i3_hidden_pick as (b2 & out & Hres).
  destruct (raycast_after_table_updates PickRay.Ray PickRay.intersectBox
              PickRay.distanceTo PickRay.intersectsSphere PickRay.checkIntersection
              Examples.i3 (stateOf (setVisibleAt Examples.i3 1 false)) b2 1 (10, 0) []
              out Hres) as (hits & Hout & Hhidden & _).
  exists b2, out, hits. split; [exact Hres |]. split; [exact Hout |].
  exact (Hhidden i3_hide).
Defined.

(** X13 at the batch of three segments with handle 0 deleted: the box of
    the batch spans the two segments left, and lies in every box that
    holds them. *)
Lemma computeBoundingBox_is_least_witness :
  exists l' box,
    AcTrBatchedLine.computeBoundingBox (AcTrBatchedLine.mkLine Examples.i4 None None)
    = AcTrBatchedLine.LineOk l'
    /\ AcTrBatchedLine.batch l'
       = AcTrBatchedLine.batch (AcTrBatchedLine.mkLine Examples.i4 None None)
    /\ AcTrBatchedLine.lineBoundingBox l' = Some box
    /\ containsBox (Box (mkVec 0 (-5) (-5)) (mkVec 30 5 5)) box = true.
Proof.
  destruct (computeBoundingBox_is_least _ _ i4_box) as (Hbatch & box & Hfield & _ & Hleast).
  eexists. exists box. split; [exact i4_box |]. split; [exact Hbatch |].
  split; [exact Hfield |].
  apply Hleast. exact i4_boxes_inside.
Defined.

(** X19 at the scenario batch, whose two live regions [optimize] moves
    down and swaps, for the pick ray through (12, 0). *)
Lemma optimize_keeps_picks_witness :
  exists out,
    (raycast PickRay.Ray PickRay.intersectBox PickRay.distanceTo
            PickRay.intersectsSphere PickRay.checkIntersection
            Scenario.s4 (12, 0) []) = Ok Scenario.s4 out
    /\ (raycast PickRay.Ray PickRay.intersectBox PickRay.distanceTo
            PickRay.intersectsSphere PickRay.checkIntersection
            (optimize Scenario.s4) (12, 0) []) = Ok (optimize Scenario.s4) out
    /\ out <> [].
Proof.
  destruct s4_position as (p & Hlk & Hsz & Hlen).
  destruct s4_pick as (b' & out & Hres & Hne).
  destruct (optimize_keeps_picks PickRay.Ray PickRay.intersectBox
              PickRay.distanceTo PickRay.intersectsSphere PickRay.checkIntersection
              Scenario.s4 p (12, 0) [] b' out s4_sound s4_written s4_stored s4_no_index
              Hlk Hsz Hlen Hres) as [Hsame Hpick].
  exists out. split; [rewrite Hsame in Hres; exact Hres |]. split; [exact Hpick | exact Hne].
Defined.

Fact i3_tag :
  setGeometryInfo Examples.i3 1 (Some "wall"%string) true
  = Ok (stateOf (setGeometryInfo Examples.i3 1 (Some "wall"%string) true)) tt.
Proof. vm_compute. reflexivity. Qed.

Fact i3_live_1 :
  exists r, tlookup (geometryInfo Examples.i3) 1 = Some r /\ active r = true.
Proof. eexists. split; vm_compute; reflexivity. Qed.

Fact i3_delete : deleteGeometry Examples.i3 0 = Ok Examples.i4 tt.
Proof. vm_compute. reflexivity. Qed.


Fact i3_cursors :
  (inject_Z (nextVertexStart Examples.i3) <= 500)%Q
  /\ (isSome (index (geometry Examples.i3)) = true ->
      (inject_Z (nextIndexStart Examples.i3) <= 1000)%Q).
Proof. split; [| intros _]; vm_compute; discriminate. Qed.

(** X20 at handle 1 of the three segments. *)
Lemma setGeometryInfo_getGeometryAt_witness :
  exists b' r',
    setGeometryInfo Examples.i3 1 (Some "wall"%string) true = Ok b' tt
    /\ getGeometryAt b' 1 = Ok b' r'
    /\ objectId r' = Some "wall"%string /\ bboxIntersectionCheck r' = true
    /\ geometry b' = geometry Examples.i3.
Proof.
  destruct (setGeometryInfo_getGeometryAt _ _ _ _ _ i3_tag)
    as (r & r' & Hr & _ & Hoid & Hchk & _ & _ & _ & _ & _ & _ & _ & _ & _ & _ & _ & _
        & Hlive & _ & Hgeom & _).
  destruct i3_live_1 as (r1 & Hr1 & Ha).
  assert (Heq : r = r1) by congruence. subst r1.
  eexists. exists r'. split; [exact i3_tag |]. split; [exact (Hlive Ha) |].
  split; [exact Hoid |]. split; [exact Hchk | exact Hgeom].
Defined.

(** X21 at handle 0 of the three segments. *)
Lemma deleteGeometry_only_marks_witness :
  deleteGeometry Examples.i4 0 = Ok Examples.i4 tt
  /\ valueOf (getGeometryAt Examples.i4 0) = None
  /\ geometry Examples.i4 = geometry Examples.i3
  /\ nextVertexStart Examples.i4 = nextVertexStart Examples.i3.
Proof.
  destruct (deleteGeometry_only_marks _ _ _ i3_delete)
    as (Hagain & _ & _ & Hget & _ & Hgeom & Hnext & _).
  split; [exact Hagain |]. split; [exact Hget |]. split; [exact Hgeom | exact Hnext].
Defined.


(** X23 at the three segments, halving both capacities. *)
Lemma setGeometrySize_keeps_contents_witness :
  Sound (setGeometrySize Examples.i3 500 1000)
  /\ geometryInfo (setGeometrySize Examples.i3 500 1000) = geometryInfo Examples.i3
  /\ schemaOf (geometry (setGeometrySize Examples.i3 500 1000))
     = schemaOf (geometry Examples.i3).
Proof.
  destruct (setGeometrySize_keeps_contents Examples.i3 500 1000 (proj1 i3_tight)
              (proj1 i3_cursors) (proj2 i3_cursors))
    as (HS & Ht & _ & _ & _ & _ & _ & Hschema & _).
  split; [exact HS |]. split; [exact Ht | exact Hschema].
Defined.
